(* ===== verification/_CoqProject ===== *)
-Q . S2P
Prelude.v
GoStrings.v
FieldErrors.v
Types.v
Substitution.v
StepMerge.v
Resolve.v
ResolveSpec.v
ResolveErrors.v
Interpolation.v
ResolveTheorems.v
Validation.v
ValidationSpec.v
ValidationTheorems.v
Conditions.v
RunTypes.v
Listers.v
ThreadSafeStore.v
Cluster.v
Reconciler.v
Progress.v
ReconcilerSpec.v
ReconcileKind.v
ReconcilerExample.v
ReconcilerTheorems.v
Wiring.v
RunReconciler.v
RunReconcilerSpec.v
RunReconcilerTheorems.v
Lifecycle.v
InformerFactory.v
DeepCopy.v
Rest.v
Clients.v
FakeClient.v
FakeClientTheorems.v
Scheme.v
Clientset.v
Injection.v
TaskGroupClients.v
InjectedListers.v
InjectionTheorems.v
Registration.v
QueueSpec.v
WorkQueue.v
RateLimiter.v
DelayingQueue.v
TwoLaneQueue.v
ControllerRun.v
ControllerProgress.v
RingGrowing.v
DeltaFIFO.v
SharedInformer.v
SharedInformerSpec.v
SharedInformerInv.v
SharedInformerTheorems.v
SharedInformerSync.v
SharedInformerProgress.v
SharedInformerExample.v
InformerListers.v
System.v
Buckets.v
LeaderElection.v
Patches.v
PatchTheorems.v
