(* ===== verification/Prelude.v ===== *)
(** * Verification of the Tekton TaskGroup custom task

    A TaskGroup is a list of steps, some of which use a whole Tekton Task with
    its params and workspaces bound to those of the group. The program is a
    Kubernetes controller: a Run that refers to a TaskGroup is run by making
    one TaskSpec out of the group and the tasks it uses, and creating one
    TaskRun of it, whose status is followed until the Run is done.

    ** The parts of the program and their files

    - The API types (src/pkg/apis/taskgroup/v1alpha1/taskgroup_types.go, and
      what they are built from of k8s.io/api/core/v1 and Tekton's v1beta1) are
      the records of Types; the objects with metadata and status (Run, TaskRun,
      TaskGroup) are in RunTypes, with the operations of a Run's status; the
      condition manager of knative.dev/pkg/apis is Conditions. Their generated
      deep copies (zz_generated.deepcopy.go) are in DeepCopy, the one file with
      a heap.
    - Validation and defaults (taskgroup_validation.go, taskgroup_defaults.go,
      and what they share with Tekton's task_validation.go) are Validation, on
      the error trees of FieldErrors and the variable extraction of
      Substitution. ValidationSpec says when a TaskGroup is valid, and
      ValidationTheorems has the properties.
    - The resolver (src/pkg/resolve/taskgroup.go) is Resolve: [resolveTaskSpec]
      is [TaskSpec], its loop over the steps is [TaskSpec_step] folded by
      [forRange], and each [merge*], [replace*] and [resolveSteps] is a
      definition of the same name. It calls Substitution (variable replacement
      on strings and steps) and StepMerge (the step template). ResolveSpec,
      ResolveErrors and Interpolation have its specification and lemmas,
      ResolveTheorems the properties.
    - The reconciler (src/pkg/reconciler/taskgroup/taskgroup.go) is Reconciler,
      in the state monad of Cluster: [ReconcileKind] and each method it calls,
      on a state of the Run, the record in its extra fields, the number of
      readings of the outside world and the trace of effects. ReconcilerSpec
      and ReconcileKind have its specification and lemmas, ReconcilerExample a
      small cluster to evaluate it on, ReconcilerTheorems the properties of one
      reconciliation. Progress is an interface of the monad: a
      call reads the world some more times and adds to the trace.
    - What wakes the reconciler (controller.go) is Wiring: the filters and
      handlers that NewController installs, from notifications to keys of the
      queue, and what becomes of a key that is taken from it.
    - The reconciler of Runs that Tekton generates, which runs [ReconcileKind]
      for a key (run/reconciler.go, state.go, controller.go and knative's
      reconcile_common.go), is RunReconciler: the copy of the cached Run, the
      work before and after [ReconcileKind], the retried update of the status,
      and the promotion of a leader. RunReconcilerSpec has its lemmas,
      RunReconcilerTheorems the properties, and Lifecycle that of the life of a
      Run on the API server: a step relation of its reconciliations and edits.
    - The generated client code (src/pkg/client): Listers is the lister of
      TaskGroups on its cache, InformerFactory the shared informer factory as a
      state machine, Clients the typed client and the wrapped dynamic client,
      down to the requests of Rest (client-go's rest/request.go), Clientset the
      constructors of the clientset, FakeClient the fake clientset on the
      tracker of client-go's testing package (FakeClientTheorems has the
      properties), and Scheme the registration of the types. Registration has
      what happens before the command's main runs: the constructors that the
      init functions of the packages register, and the schemes they fill.
    - The injection (src/pkg/client/injection, with knative's injection package
      and src/cmd/controller/main.go) is Injection: contexts, the injectors of
      clients, factories and informers in all their variants, and the setup
      that runs them, on a heap of factories, fakes and listers.
      InjectedListers has the listers over a client, with an interface of what
      they need of it; InjectionTheorems a total Hoare logic of these calls and
      the properties of the setup.
    - GoStrings has the functions of Go's strings, strconv and fmt that all of
      them use; this file has what the rest shares.
    - Patches is what the reconciler sends with PATCH: the JSON patch of
      [cancelPatchBytes] and the merge patch of [updateLabelsAndAnnotations],
      and the library that applies such patches (evanphx/json-patch).
      PatchTheorems composes them with the reconciler.
    - TaskGroupClients puts the clients behind one interface, the calls on
      TaskGroups of a client set, with the wrapped, the typed and the fake
      client as its implementations.
    - The work queue (client-go's util/workqueue and knative's controller
      package) comes in layers. QueueSpec has executions, simulations and the
      abstract queue that all layers refine: the keys that wait and the keys
      that are being processed. WorkQueue is queue.go with its FIFO; RateLimiter
      the failure counts and delays of default_rate_limiters.go; DelayingQueue
      the heap of keys that become ready at a time (delaying_queue.go,
      rate_limiting_queue.go); TwoLaneQueue knative's queue with a fast and a
      slow lane, and its goroutines (two_lane_queue.go). Each has an executable
      step function next to its step relation.
    - The workers (controller.go of knative: RunContext, processNextWorkItem,
      handleErr and the Enqueue functions) are ControllerRun, a step relation
      of any number of workers over the two-lane queue, and ControllerProgress
      has what they come to do in the end.
    - The informers (client-go's tools/cache: shared_informer.go, reflector.go,
      delta_fifo.go), between the API server and the caches and handlers:
      DeltaFIFO is the queue of the changes that the cache has not seen,
      SharedInformer the operations of the reflector, of the processing loop
      and of the listeners, each a function on the state of the informer.
      SharedInformerSpec puts them together with an API server into a state
      machine ([informer_do], with [permitted] for what the server may answer),
      SharedInformerInv has its invariant, SharedInformerTheorems,
      SharedInformerSync and SharedInformerProgress its properties, and
      SharedInformerExample executions of it. RingGrowing is the buffer of a
      listener (k8s.io/utils/buffer), a queue. ThreadSafeStore is the map behind
      a cache, with its indices (thread_safe_store.go). InformerListers puts the lister
      of TaskGroups on top of an informer, and System puts the informer of
      Runs in front of the controller: a call of its handler is [handler_keys],
      which are the keys of [NewController] in Wiring, and adds them to the
      queue of ControllerRun.
    - The election of leaders: Buckets is the partition of the keys by a
      consistent hash (knative's hash package) and what a replica leads
      (reconciler/leader.go); LeaderElection is the electors of many replicas,
      one lease per bucket, as a state machine.

    ** What the theorems show

    - Resolver (ResolveTheorems): [TaskSpec_refines] and [TaskSpec_errors] say
      on all inputs which task or which error comes out, against a relational
      specification; [interpolate_renames] says what binding a name does to the
      texts of a step, whatever they hold, through a parser of the references
      in a text ([parse] of Interpolation); [TaskSpec_order_independent] that Go's map order cannot
      be observed; the others are about visible params and names of steps, and
      two about behaviour that is not what the code means to do
      ([TaskSpec_keeps_duplicate_params], [interpolate_keeps_array_reference]).
    - Validation (ValidationTheorems): the validator decides a declarative
      validity and reports the errors of every part.
    - Reconciler (ReconcilerTheorems): [reconcile_refines] is the refinement of
      an abstract verdict; ReconcileKind keeps the invariant of a Run and does
      not open a done Run again (the generated reconciler around it does, when
      the Run has a new generation: [PreProcessReconcile_reopens]); it creates
      at most one TaskRun, which is found again by its labels and its owner;
      cancellation and completion are passed on, names fit a label, metadata
      is propagated and patched exactly when it differs.
    - Generated reconciler (RunReconcilerTheorems): [Reconcile_persists] says
      what is sent to the API server and what is stored when a reconciliation
      returns; [fresh_Run_gets_TaskRun] that a Run of a valid group gets its
      TaskRun;
      [one_TaskRun_if_informed] when at most one is created by any
      sequence of reconciliations with stale caches and lost updates (an
      example shows the condition is needed); the others which Runs are left
      alone and which are opened again. Lifecycle: while the reconciliations
      read the Run that the server has and their status is stored, a Run gets
      at most one TaskRun, whatever the caches show and however often it is
      edited and opened again ([one_TaskRun_per_Run]).
    - Wiring: which notifications about the created TaskRun wake its Run and
      which do not, which events of Runs do, and the keys of the queue are read
      back.
    - InformerFactory, Listers, DeepCopy, Clients, Clientset, Scheme: informers
      are shared and run once; Get and List of a lister agree; copies are equal
      and independent; the two clients send the same requests; the constructors
      agree but for the check of the burst and the sharing of the rate limiter;
      the tables of a scheme stay inverse to each other and get our types.
    - FakeClient: in its single calls the fake is a store; it keeps objects under their own keys, holds
      what it is preset with and tells its watchers all changes; but it ignores
      the deletion of collections.
    - Work queue: [two_lane_refines] is a simulation of the abstract queue, from
      which come mutual exclusion of the workers on a key, delivery of each key
      that is added, and that a shut down queue drains. A delayed key becomes
      ready in time ([AddAfter_in_time]).
    - Workers: no key is reconciled by two workers at once
      ([reconciles_one_at_a_time]), a key whose reconciliation fails is added
      again after its backoff ([failed_reconcile_retried]), after a shut down
      all workers return ([controller_drains]), and from every reachable state
      each added key can be brought to its turn by the goroutines of the queue
      and the workers alone ([every_key_gets_its_turn]).
    - Informers: a client that keeps a copy of the cache from what its handler is
      told has the cache ([handlers_told_all]); after a list the cache is on the
      way to what the server had at the version that the reflector has come to
      ([cache_follows_server]), but for objects that were queued when a list
      was without them, which may stay for good ([ghost_stays], an example);
      a synced informer has nothing older than its first list
      ([synced_since_first_list]); an index finds what a search of the whole
      store would, and the listers' search by namespace is of that kind
      ([index_is_search], [namespace_index_is_search]); and from every reachable state it can come to
      have just what the server has ([informer_catches_up]), and so can the
      lister of TaskGroups ([lister_catches_up]).
    - The whole controller (System): a Run of a valid TaskGroup that is on the
      server and not taken up yet can be brought to a reconciliation that
      requests one TaskRun for it, through the informer, its handler, the
      queue and a worker, no key being added but by the handler
      ([every_Run_gets_TaskRun]).
    - Leaders: when each bucket has one leader, so has each key, the leader of
      the bucket that owns it on the ring ([one_leader_per_key]); a promotion enqueues the Runs of the bucket
      ([promotion_reconciles_bucket]); two replicas lead the same bucket only
      while one of them has given up the lease and not yet been demoted
      ([leaders_overlap_when_released]), which ReleaseOnCancel permits.
    - Patches: merge patches are those of RFC 7396 ([MergePatch_is_rfc7396]),
      the cancellation sets the status of a TaskRun's spec and is not sent again
      ([cancelPatch_cancels]), and the patch of a Run's metadata settles it
      unless it has no annotations ([metadata_patch_settles]).
    - Registration: from what the imported packages register, the command sets
      up what the controller fetches, or panics without a clientset
      ([command_installs]).
    - Injection: the command and the tests set up the client, factory and
      informer that the controller fetches, whatever other packages inject, if
      their injectors return; the listers over a client that reads a store, as
      the wrapped, the typed and the fake one do, agree with those over a cache
      ([dynamic_lister_agrees_with_cache]); all filtered
      informers list with the last selector, and the filtered lister over a
      client gets what it does not list.

    ** Modelling choices

    - A nil pointer is [None]. A slice or map is an [option] where the program
      can tell nil from empty, and a [list] or [gmap] elsewhere. A field nothing
      looks into is its JSON value. Strings are sequences of bytes.
    - An error is a value of [error], and a Go function with an error returns
      [fallible]; a function that may go on after an error returns both parts.
    - Loops are [forRange] and [foldRange] over lists, and every definition is
      total. The retries of an update run over the five steps of its backoff.
      The one recursion with fuel is the search for a free position in a ring
      of hashes (Buckets): the code hashes on until it finds one, and that it
      does is a property of the hash that its theorem assumes for the keys it
      is about (with a single bucket it need not). Running out of fuel is
      [None], and apart from a panic. More fuel gives the same owner
      ([Owner_more_fuel]).
    - Goroutines are interleaved steps. What a mutex or a condition variable
      guards is one step; a call that would block is a step that is not
      enabled. A liveness theorem says that from every reachable state there is
      an execution of the program's own steps ([own_step], [system_own]), in
      which nobody else adds a key, that brings about the result: it assumes
      nothing about the scheduler but that it can choose.
    - The API server of an informer is the history of the changes of the objects
      that the informer selects: the version [n] of it is the first [n] changes.
      How resource versions name versions is the class [Versions]; clients only
      hand them back. A list, a watch and each of its events is a step of its
      own, and so are a pop of the queue and the start and the end of each call
      of a handler; what one mutex guards is one step.
    - The clock of the delaying queue is a number of nanoseconds that a step of
      its own moves on.
    - A call that may panic returns an [outcome]; in Injection it is a call on
      the heap that returns or panics.
    - A loop over a Go map takes its order from [MapOrder] (or [InformerOrder]),
      any permutation of the entries.
    - The outside world (API server, caches, clock, random suffixes, codecs) is
      the class [Cluster], whose readings are numbered, so that any two of them
      may differ: nothing is assumed about a cache being fresh or a request
      succeeding.

    ** Assumptions

    Of the code under src/vendor that the program calls, what decides its
    behaviour is modelled where the program calls it (conditions, field errors,
    substitution, filters, caches, requests); the rest is behind classes. A theorem that needs
    a law of one of them has it as a hypothesis, and a witness with a concrete
    instance: [ContainerMergeLaws] (the strategic merge of two containers keeps
    the name), [keeps_TaskRun] (the JSON codec keeps that a TaskRun is
    recorded), [WireLaws] (what the server returns can be decoded and has its
    kind), [ForeignLaws] (the deep copies of Tekton's and Kubernetes' types are
    deep), [SelectorLaws] (selectors are parsed as they are printed), [Serves]
    (the API server answers a get and a list of TaskGroups from a store),
    [Foreign] (for the configuration at hand the injectors of other packages
    return, and leave our keys alone), [stores] and [gets] of RunReconcilerSpec
    (what the API server answers about an update is what it has stored, and the
    cache has the Run of the key).
    [permitted] of SharedInformerSpec is what Kubernetes documents of lists and
    watches: a list is of one version, at least as fresh as asked for, and of
    the latest without a version; a watch brings the changes after its version
    one by one, in their order, and may end at any time.
    In Lifecycle each reconciliation reads the Run that the server has, its
    status is stored, and requests for TaskRuns and the encoding of the status
    do not fail; RunReconcilerTheorems has what holds without this.

    ** What is not modelled

    The strategic three-way merge of k8s.io/apimachinery (a class with one
    law): it works on untyped JSON by the tags of struct fields, and the order
    of its lists comes from a sort by a comparison that is not an order; finalizers and read-only observers of the generated reconciler, which
    the reconciler of TaskGroups does not have; the record and the times of a
    lease, which here is the replica that holds it, and the assignment of
    buckets to the pods of a StatefulSet; the token bucket of a rate limiter (a
    parameter) and the metrics of the queues; the end of an informer, the pages
    of a list, and the pauses of a reflector between its attempts; the HTTP
    transport; the operations of a JSON patch other than add, which are a
    parameter, and the bytes of JSON documents; flags, logging, profiling and
    the serving loop around main.go; the conversion functions of a scheme and
    its codecs; field selectors and patches of the fake clientset, which are
    parameters of it, and the panic of a watcher that is not read. *)

From stdpp Require Export sorting base gmap sets strings option numbers list.
From Stdlib Require Export Lia.

(** Scope of the notations of this development. *)
Declare Scope go_scope.
Delimit Scope go_scope with go.
Open Scope go_scope.

(** ** Go errors

    An [error] value is its wrapping structure: [errorString] is an error
    with a fixed text ([errors.New], [fmt.Errorf] without [%w]); [wrapError]
    is an error that prefixes the text of the error it wraps ([fmt.Errorf]
    with [%w] and [errors.Wrapf] of github.com/pkg/errors);
    [permanentError] and [skipKeyError] are those of knative.dev/pkg/controller; [multiError]
    is [*multierror.Error] of github.com/hashicorp/go-multierror. *)
Inductive error : Type :=
  | errorString (text : string)
  | wrapError (text : string) (inner : error)
  | permanentError (inner : error)
  | skipKeyError (key : string)
  | multiError (errs : list error).

(** The value of type [(T, error)] of a Go function that returns nothing the
    caller may use along with an error. *)
Definition fallible (A : Type) : Type := error + A.

Definition bind_fallible {A B} (m : fallible A) (k : A → fallible B) : fallible B :=
  match m with
  | inl e => inl e
  | inr a => k a
  end.

(** The value of a call that returns or panics. *)
Inductive outcome (A : Type) : Type := Returns (a : A) | Panics.
Arguments Returns {A}.
Arguments Panics {A}.

Notation "'let?' x ':=' m 'in' k" := (bind_fallible m (λ x, k))
  (at level 10, x pattern, m at level 100, k at level 200) : go_scope.

(** ** Slices

    A Go slice whose nilness the code can observe. [None] is [nil]. *)
Definition slice (A : Type) : Type := option (list A).

Definition elems {A} (s : slice A) : list A := default [] s.

(** [append] of a possibly nil slice and the elements of another one. *)
Definition append {A} (s : slice A) (l : list A) : slice A :=
  match s, l with
  | None, [] => None
  | _, _ => Some (elems s ++ l)
  end.

(** ** Loops

    [for i, x := range l] with a state [S] and an early [return] that leaves
    the loop with a value of type [E]. *)
Fixpoint forRange {S A E : Type} (body : nat → A → S → E + S)
    (i : nat) (l : list A) (s : S) : E + S :=
  match l with
  | [] => inr s
  | x :: l =>
    match body i x s with
    | inl e => inl e
    | inr s => forRange body (i + 1) l s
    end
  end.

(** [for i, x := range l] without an early exit. *)
Fixpoint foldRange {S A : Type} (body : nat → A → S → S) (i : nat) (l : list A) (s : S) : S :=
  match l with
  | [] => s
  | x :: l => foldRange body (i + 1) l (body i x s)
  end.

(** ** Maps

    [for k, v := range m] of a Go map visits every entry once, in an order
    the language does not specify (and that may differ from one run to the
    next). The code that ranges over a map takes the order from this
    interface; what must not depend on the order is stated for two instances. *)
Class MapOrder := {
  map_range : gmap string string → list (string * string);
  map_range_perm (m : gmap string string) : map_range m ≡ₚ map_to_list m
}.

(** An order, to evaluate the definitions with. *)
Definition canonical_order : MapOrder :=
  {| map_range := map_to_list; map_range_perm := λ m, reflexivity _ |}.

(** The reverse of it: another order the language allows. *)
Definition reverse_order : MapOrder.
Proof.
  refine {| map_range := λ m, reverse (map_to_list m) |}.
  intros m. apply reverse_Permutation.
Defined.

(** ** JSON values

    The wire form of the values the code never looks into (probes, security
    contexts, volume sources, pod templates, ...) and of the patches it
    sends. *)
Inductive json : Type :=
  | JNull
  | JBool (b : bool)
  | JNum (n : Z)
  | JStr (s : string)
  | JArr (l : list json)
  | JObj (fields : list (string * json)).

Global Instance error_inhabited : Inhabited error := populate (errorString "").
Global Instance json_inhabited : Inhabited json := populate JNull.

Fixpoint json_eq_dec (x y : json) : Decision (x = y).
Proof.
  unfold Decision. refine
    match x, y with
    | JNull, JNull => left eq_refl
    | JBool b, JBool b' => cast_if (decide (b = b'))
    | JNum n, JNum n' => cast_if (decide (n = n'))
    | JStr s, JStr s' => cast_if (decide (s = s'))
    | JArr l, JArr l' => cast_if (@list_eq_dec _ json_eq_dec l l')
    | JObj f, JObj f' => cast_if (@list_eq_dec _ (@prod_eq_dec _ String.eq_dec _ json_eq_dec) f f')
    | _, _ => right _
    end; clear json_eq_dec; abstract congruence.
Defined.
Global Instance json_EqDecision : EqDecision json := json_eq_dec.

(** ** Automation *)
Create HintDb golib.
Create Rewrite HintDb golib_rw.

(** Splits the [match]es and the [if]s of the goal and of the hypotheses and
    closes what is left by substitution. *)
Ltac split_cases :=
  repeat (case_match; simplify_eq/=); try done.

(** Case analysis on the outcome of a fallible computation in a hypothesis. *)
Ltac inv_bind H :=
  unfold bind_fallible in H; cbn in H;
  repeat match type of H with
  | context [match ?m with inl _ => _ | inr _ => _ end] =>
    destruct m eqn:?; simplify_eq/=
  end.

(** ** Lemmas on loops *)
Section loops.
Context {S A E : Type}.
Implicit Types (body : nat → A → S → E + S) (l : list A) (s : S).

Lemma forRange_app body i l1 l2 s :
  forRange body i (l1 ++ l2) s =
  match forRange body i l1 s with
  | inl e => inl e
  | inr s => forRange body (i + length l1) l2 s
  end.
Proof.
  revert i s. induction l1 as [|x l1 IH]; intros i s; simpl.
  - by rewrite Nat.add_0_r.
  - destruct (body i x s) as [e|s']; [done|]. rewrite IH.
    by replace (i + 1 + length l1) with (i + Datatypes.S (length l1)) by lia.
Qed.

(** A loop invariant: what every iteration preserves holds at the exit. *)
Lemma forRange_invariant (P : nat → S → Prop) body i l s s' :
  P i s →
  (∀ j x t t', l !! j = Some x → P (i + j) t → body (i + j) x t = inr t' → P (i + j + 1) t') →
  forRange body i l s = inr s' →
  P (i + length l) s'.
Proof.
  revert i s. induction l as [|x l IH]; intros i s HP Hstep Hrun; simplify_eq/=.
  - by rewrite Nat.add_0_r.
  - destruct (body i x s) as [e|t] eqn:Hb; [done|].
    replace (i + Datatypes.S (length l)) with (i + 1 + length l) by lia.
    eapply IH; [|intros j y u u' Hj|exact Hrun].
    + pose proof (Hstep 0 x s t) as H0. rewrite Nat.add_0_r in H0. by apply H0.
    + pose proof (Hstep (Datatypes.S j) y u u') as Hj'.
      replace (i + Datatypes.S j) with (i + 1 + j) in Hj' by lia. by apply Hj'.
Qed.

(** The loop leaves early exactly when one iteration, reached with the
    state the earlier ones built, leaves. *)
Lemma forRange_inl body i l s e :
  forRange body i l s = inl e ↔
  ∃ l1 x l2 t, l = l1 ++ x :: l2 ∧ forRange body i l1 s = inr t ∧
    body (i + length l1) x t = inl e.
Proof.
  split.
  - revert i s. induction l as [|x l IH]; intros i s Hrun; simplify_eq/=.
    destruct (body i x s) as [e'|t] eqn:Hb; simplify_eq.
    + exists [], x, l, s. simpl. by rewrite Nat.add_0_r.
    + destruct (IH _ _ Hrun) as (l1 & y & l2 & u & -> & H1 & H2).
      exists (x :: l1), y, l2, u. split_and!; [done| |].
      * simpl. by rewrite Hb.
      * simpl. by replace (i + Datatypes.S (length l1)) with (i + 1 + length l1) by lia.
  - intros (l1 & x & l2 & t & -> & H1 & H2). by rewrite forRange_app, H1; simpl; rewrite H2.
Qed.

(** Two loops whose bodies agree on the elements. *)
Lemma forRange_equiv body body' i l s :
  (∀ j x s, l !! j = Some x → body (i + j) x s = body' (i + j) x s) →
  forRange body i l s = forRange body' i l s.
Proof.
  revert i s. induction l as [|x l IH]; intros i s Heq; [done|]. simpl.
  pose proof (Heq 0 x s eq_refl) as H0. rewrite Nat.add_0_r in H0. rewrite H0.
  destruct (body' i x s) as [e|t]; [done|]. apply IH. intros j y u Hj.
  pose proof (Heq (Datatypes.S j) y u Hj) as Hj'. by replace (i + Datatypes.S j) with (i + 1 + j) in Hj' by lia.
Qed.
End loops.

(** A loop without early exit whose body ignores the index is a left fold. *)
Lemma foldRange_foldl {S A} (f : S → A → S) i l s :
  foldRange (λ _ x s, f s x) i l s = foldl f s l.
Proof. revert i s. induction l as [|x l IH]; intros i s; simpl; auto. Qed.

Lemma foldRange_app {S A} (body : nat → A → S → S) i l1 l2 s :
  foldRange body i (l1 ++ l2) s = foldRange body (i + length l1) l2 (foldRange body i l1 s).
Proof.
  revert i s. induction l1 as [|x l1 IH]; intros i s; simpl; [by rewrite Nat.add_0_r|].
  rewrite IH. by replace (i + 1 + length l1) with (i + Datatypes.S (length l1)) by lia.
Qed.

(** ** Lemmas on lists *)
Lemma filter_nil_iff {A} (P : A → Prop) `{!∀ x, Decision (P x)} (l : list A) :
  filter P l = [] ↔ ∀ x, x ∈ l → ¬ P x.
Proof.
  split.
  - intros Hf x Hx HP. eapply filter_nil_not_elem_of; eauto.
  - intros Hn. destruct (filter P l) as [|x l'] eqn:Hf; [done|].
    assert (x ∈ filter P l) as [HP Hx]%list_elem_of_filter by (rewrite Hf; left).
    by destruct (Hn x Hx).
Qed.

Lemma filter_id {A} (P : A → Prop) `{!∀ x, Decision (P x)} (l : list A) :
  (∀ x, x ∈ l → P x) → filter P l = l.
Proof.
  induction l as [|x l IH]; intros Hl; [done|]. rewrite filter_cons_True by (apply Hl; left).
  f_equal. apply IH. intros y Hy. apply Hl. by right.
Qed.

(** Two filters by equivalent conditions are the same. *)
Lemma filter_equiv {A} (P Q : A → Prop) `{!∀ x, Decision (P x), !∀ x, Decision (Q x)} (l : list A) :
  (∀ x, x ∈ l → P x ↔ Q x) → filter P l = filter Q l.
Proof.
  induction l as [|x l IH]; intros Hl; [done|].
  rewrite !filter_cons, IH by (intros; apply Hl; by right).
  pose proof (Hl x (list_elem_of_here _ _)). repeat case_decide; naive_solver.
Qed.

(** Two left folds by functions that agree. *)
Lemma foldl_equiv {S A} (f g : S → A → S) s l : (∀ s x, f s x = g s x) → foldl f s l = foldl g s l.
Proof. intros Heq. revert s. induction l as [|x l IH]; intros s; [done|]. simpl. by rewrite Heq. Qed.

(** The boolean quantifier over a list. *)
Lemma forallb_Forall {A} (f : A → bool) l : forallb f l = true ↔ Forall (λ x, f x = true) l.
Proof.
  induction l as [|x l IH]; simpl; [by split|]. by rewrite andb_true_iff, IH, Forall_cons.
Qed.

(** A map that ignores the index. *)
Lemma imap_const_map {A B} (f : A → B) (l : list A) : imap (λ _ x, f x) l = map f l.
Proof. induction l as [|x l IH]; [done|]. rewrite imap_cons. simpl. f_equal. apply IH. Qed.
