(* ===== verification/GoStrings.v ===== *)
(** The functions of the Go packages [strings], [fmt] and [strconv] that the
    program calls, on strings as sequences of bytes, with the lemmas about
    them. The central one is [strings.Replacer], which performs every
    substitution of the program: [Replace_prefix_free] shows that its result
    does not depend on the order of the pairs when no key is a prefix of
    another one. *)
From S2P Require Import Prelude.
From Stdlib Require Import Ascii DecimalString DecimalNat.


(** [strings.HasPrefix] *)
Fixpoint HasPrefix (s prefix : string) {struct prefix} : bool :=
  match prefix, s with
  | EmptyString, _ => true
  | String c prefix, String d s => Ascii.eqb c d && HasPrefix s prefix
  | String _ _, EmptyString => false
  end.

(** What follows a prefix in a string. *)
Fixpoint cut_prefix (prefix s : string) : option string :=
  match prefix, s with
  | EmptyString, _ => Some s
  | String c prefix, String d s => if Ascii.eqb c d then cut_prefix prefix s else None
  | String _ _, EmptyString => None
  end.

(** [strings.HasSuffix] *)
Definition HasSuffix (s suffix : string) : bool :=
  HasPrefix (String.rev s) (String.rev suffix).

(** [strings.TrimSuffix] *)
Definition TrimSuffix (s suffix : string) : string :=
  match cut_prefix (String.rev suffix) (String.rev s) with
  | Some r => String.rev r
  | None => s
  end.

(** [strings.Contains] *)
Fixpoint Contains (s substr : string) : bool :=
  HasPrefix s substr ||
  match s with
  | EmptyString => false
  | String _ s => Contains s substr
  end.

(** [strings.Split] with a one-byte separator. *)
Fixpoint Split (s : string) (sep : ascii) : list string :=
  match s with
  | EmptyString => [""]
  | String c s =>
    if Ascii.eqb c sep then "" :: Split s sep
    else match Split s sep with
         | part :: parts => String c part :: parts
         | [] => [String c ""]
         end
  end.

(** [strings.Join] *)
Fixpoint Join (parts : list string) (sep : string) : string :=
  match parts with
  | [] => ""
  | [part] => part
  | part :: parts => part +:+ sep +:+ Join parts sep
  end.

(** [fmt.Sprintf("%d", n)] of a non-negative integer. *)
Definition Itoa (n : nat) : string :=
  NilEmpty.string_of_uint (Nat.to_uint n).

(** A hexadecimal digit. *)
Definition hex_digit (n : nat) : ascii :=
  default "0"%char (String.get n "0123456789abcdef").

(** The escape of one byte in [strconv.Quote], for the ASCII range. The bytes
    of multi-byte runes are copied, which is exact for printable runes; those
    that are not, and bytes that are not UTF-8, Go would escape. *)
Definition quote_byte (c : ascii) : string :=
  match nat_of_ascii c with
  | 7 => "\a" | 8 => "\b" | 9 => "\t" | 10 => "\n" | 11 => "\v" | 12 => "\f" | 13 => "\r"
  | 34 => String "\" (String "034" "")
  | 92 => "\\"
  | n => if bool_decide (n < 32) || bool_decide (n = 127)
         then "\x" +:+ String (hex_digit (n / 16)) (String (hex_digit (n mod 16)) "")
         else String c ""
  end.

Fixpoint quote_bytes (s : string) : string :=
  match s with
  | EmptyString => ""
  | String c s => quote_byte c +:+ quote_bytes s
  end.

(** [fmt.Sprintf("%q", s)] *)
Definition Quote (s : string) : string :=
  String "034" "" +:+ quote_bytes s +:+ String "034" "".

(** ** [strings.Replacer]

    [strings.NewReplacer(old1, new1, old2, new2, ...).Replace(s)] scans [s]
    once from the left; at every position it takes the first pair, in
    argument order, whose [old] occurs there, writes its [new] and goes on
    after the occurrence, or else copies one byte. All keys of the program
    are non-empty (they begin with [$(]); the rules for an empty key are not
    modelled. *)
Fixpoint first_match (oldnew : list (string * string)) (s : string) : option (string * string) :=
  match oldnew with
  | [] => None
  | (old, new) :: oldnew => if HasPrefix s old then Some (old, new) else first_match oldnew s
  end.

(** [skip] counts the bytes of the last occurrence still to be passed. *)
Fixpoint Replace_from (oldnew : list (string * string)) (skip : nat) (s : string) : string :=
  match s with
  | EmptyString => ""
  | String c s' =>
    match skip with
    | S skip => Replace_from oldnew skip s'
    | O =>
      match first_match oldnew s with
      | Some (old, new) => new +:+ Replace_from oldnew (String.length old - 1) s'
      | None => String c (Replace_from oldnew 0 s')
      end
    end
  end.

Definition Replace (oldnew : list (string * string)) (s : string) : string :=
  Replace_from oldnew 0 s.

(** No byte of a string satisfies [P]. *)
Fixpoint free_of (P : ascii → bool) (s : string) : Prop :=
  match s with
  | EmptyString => True
  | String c s => P c = false ∧ free_of P s
  end.

Global Instance free_of_dec P s : Decision (free_of P s).
Proof. induction s as [|c s IH]; [exact True_dec|exact (and_dec _ _)]. Defined.

(** No key of a list of pairs is a prefix of a different one. *)
Definition prefix_free (oldnew : list (string * string)) : Prop :=
  ∀ o1 n1 o2 n2, (o1, n1) ∈ oldnew → (o2, n2) ∈ oldnew →
    HasPrefix o2 o1 = true → o1 = o2.

(** ** Lemmas on concatenation *)
Lemma app_cons c s1 s2 : String c s1 +:+ s2 = String c (s1 +:+ s2).
Proof. done. Qed.

Lemma app_empty_l s : "" +:+ s = s.
Proof. done. Qed.

Lemma app_empty_r s : s +:+ "" = s.
Proof. induction s as [|c s IH]; [done|]. by rewrite app_cons, IH. Qed.

Lemma app_assoc_string s1 s2 s3 : (s1 +:+ s2) +:+ s3 = s1 +:+ s2 +:+ s3.
Proof. induction s1 as [|c s IH]; [done|]. by rewrite !app_cons, IH. Qed.

Lemma length_app_string s1 s2 :
  String.length (s1 +:+ s2) = String.length s1 + String.length s2.
Proof. induction s1 as [|c s IH]; [done|]. rewrite app_cons. simpl. by rewrite IH. Qed.

(** Two factorisations of a string whose first parts have the same length
    are the same. *)
Lemma app_inj_length s1 s2 t1 t2 :
  String.length s1 = String.length t1 → s1 +:+ s2 = t1 +:+ t2 → s1 = t1 ∧ s2 = t2.
Proof.
  revert t1. induction s1 as [|c s1 IH]; intros [|d t1] Hlen Heq; try done.
  rewrite !app_cons in Heq. injection Hlen as Hlen. injection Heq as -> Heq.
  by destruct (IH _ Hlen Heq) as [-> ->].
Qed.

Lemma app_inj_r s t1 t2 : t1 +:+ s = t2 +:+ s → t1 = t2.
Proof.
  intros Heq. apply (f_equal String.length) in Heq as Hlen.
  rewrite !length_app_string in Hlen. apply (app_inj_length _ s _ s); [lia|done].
Qed.

Lemma app_inj_l s t1 t2 : s +:+ t1 = s +:+ t2 → t1 = t2.
Proof. apply (inj (String.app s)). Qed.

(** ** Lemmas on prefixes *)
Lemma cut_prefix_Some p s r : cut_prefix p s = Some r ↔ s = p +:+ r.
Proof.
  revert s. induction p as [|c p IH]; intros s; simpl.
  - rewrite app_empty_l. split; congruence.
  - destruct s as [|d s]; [done|].
    rewrite app_cons. destruct (Ascii.eqb_spec c d) as [->|Hne].
    + rewrite IH. split; congruence.
    + split; congruence.
Qed.

Lemma HasPrefix_spec s p : HasPrefix s p = true ↔ ∃ r, s = p +:+ r.
Proof.
  revert s. induction p as [|c p IH]; intros s; simpl.
  - split; [by exists s|done].
  - destruct s as [|d s]; [by split; [|intros [r Hr]]|].
    rewrite andb_true_iff, IH, Ascii.eqb_eq. split.
    + intros [-> [r ->]]. by exists r.
    + intros [r Hr]. rewrite app_cons in Hr. injection Hr as -> ->. eauto.
Qed.

Lemma HasPrefix_app p r : HasPrefix (p +:+ r) p = true.
Proof. apply HasPrefix_spec. eauto. Qed.

(** Of two prefixes of one string, one is a prefix of the other. *)
Lemma HasPrefix_linear s p q :
  HasPrefix s p = true → HasPrefix s q = true → HasPrefix p q = true ∨ HasPrefix q p = true.
Proof.
  revert p q. induction s as [|c s IH]; intros [|d p] [|e q]; simpl; auto; try done.
  rewrite !andb_true_iff, !Ascii.eqb_eq. intros [-> Hp] [-> Hq].
  destruct (IH _ _ Hp Hq); auto.
Qed.

(** ** Lemmas on [strings.Replacer] *)
Lemma first_match_Some l s old new :
  first_match l s = Some (old, new) → (old, new) ∈ l ∧ HasPrefix s old = true.
Proof.
  induction l as [|[o n] l IH]; simpl; [done|].
  destruct (HasPrefix s o) eqn:Ho; intros H; simplify_eq.
  - split; [by left|done].
  - destruct (IH H). split; [by right|done].
Qed.

Lemma first_match_None l s :
  first_match l s = None ↔ ∀ old new, (old, new) ∈ l → HasPrefix s old = false.
Proof.
  induction l as [|[o n] l IH]; simpl.
  - split; [intros _ ?? ?%elem_of_nil|]; done.
  - destruct (HasPrefix s o) eqn:Ho; split.
    + done.
    + intros H. specialize (H o n (list_elem_of_here _ _)). congruence.
    + intros H old new [?|?]%elem_of_cons; simplify_eq; [done|]. by eapply IH.
    + intros H. apply IH. intros old new Hin. eapply H. by right.
Qed.

(** In a list of pairs with distinct, prefix-free keys the match at a
    position does not depend on the order of the pairs. *)
Lemma first_match_iff l s old new :
  NoDup l.*1 → prefix_free l →
  first_match l s = Some (old, new) ↔ (old, new) ∈ l ∧ HasPrefix s old = true.
Proof.
  intros Hnd Hpf. split; [apply first_match_Some|]. intros [Hin Hp].
  destruct (first_match l s) as [[o n]|] eqn:Hm.
  - apply first_match_Some in Hm as [Hin' Hp'].
    assert (o = old) as ->.
    { destruct (HasPrefix_linear _ _ _ Hp' Hp) as [H|H]; [symmetry|]; eauto. }
    apply list_elem_of_lookup in Hin as [i Hi], Hin' as [j Hj].
    assert (i = j) as ->.
    { eapply NoDup_lookup; [exact Hnd| |]; rewrite list_lookup_fmap.
      - by rewrite Hi.
      - by rewrite Hj. }
    congruence.
  - rewrite first_match_None in Hm. by rewrite (Hm _ _ Hin) in Hp.
Qed.

Lemma first_match_Permutation l l' s :
  NoDup l.*1 → prefix_free l → l ≡ₚ l' → first_match l s = first_match l' s.
Proof.
  intros Hnd Hpf HP.
  assert (Hnd' : NoDup l'.*1) by by rewrite <-HP.
  assert (Hpf' : prefix_free l').
  { intros ???? H1 H2. apply Hpf with n1 n2; by rewrite HP. }
  apply option_eq. intros [o n]. rewrite !first_match_iff by done. by rewrite HP.
Qed.

(** The result of a replacement does not depend on the order of the pairs
    when their keys are distinct and none is a prefix of another. *)
Lemma Replace_prefix_free l l' s :
  NoDup l.*1 → prefix_free l → l ≡ₚ l' → Replace l s = Replace l' s.
Proof.
  intros Hnd Hpf HP. unfold Replace. generalize 0.
  induction s as [|c s IH]; intros k; [done|]. simpl.
  destruct k as [|k]; [|done].
  rewrite (first_match_Permutation l l') by done.
  destruct (first_match l' _) as [[o n]|]; by f_equal.
Qed.

Lemma Replace_nil s : Replace [] s = s.
Proof. unfold Replace. induction s as [|c s IH]; simpl; by f_equal. Qed.

Lemma Replace_skip l p s k :
  String.length p = k → Replace_from l k (p +:+ s) = Replace_from l 0 s.
Proof.
  revert p. induction k as [|k IH]; intros [|c p] Hlen; simplify_eq/=; [done|].
  by apply IH.
Qed.

(** The two ways the scan advances. *)
Lemma Replace_match l old new s :
  old ≠ "" → first_match l (old +:+ s) = Some (old, new) →
  Replace l (old +:+ s) = new +:+ Replace l s.
Proof.
  intros Hne Hm. destruct old as [|c old]; [done|]. unfold Replace.
  rewrite app_cons in *. cbn [Replace_from]. rewrite Hm. f_equal.
  apply Replace_skip. simpl. lia.
Qed.

Lemma Replace_copy l c s :
  first_match l (String c s) = None → Replace l (String c s) = String c (Replace l s).
Proof. intros Hm. unfold Replace. cbn [Replace_from]. by rewrite Hm. Qed.

(** ** Lemmas on strings without given bytes *)
Lemma free_of_app P s1 s2 : free_of P (s1 +:+ s2) ↔ free_of P s1 ∧ free_of P s2.
Proof.
  induction s1 as [|c s1 IH]; [rewrite app_empty_l; simpl; tauto|].
  rewrite app_cons. simpl. rewrite IH. tauto.
Qed.

(** A string free of a byte is determined by what stands before the first
    occurrence of that byte. *)
Lemma free_of_delim (c : ascii) s1 s2 t1 t2 :
  free_of (Ascii.eqb c) s1 → free_of (Ascii.eqb c) s2 →
  s1 +:+ String c t1 = s2 +:+ String c t2 → s1 = s2 ∧ t1 = t2.
Proof.
  revert s2. induction s1 as [|a s1 IH]; intros [|b s2] H1 H2 Heq;
    rewrite ?app_cons in Heq; cbn in H1, H2.
  - injection Heq as ->. done.
  - injection Heq as -> ->. rewrite Ascii.eqb_refl in H2. by destruct H2.
  - injection Heq as -> Heq. rewrite Ascii.eqb_refl in H1. by destruct H1.
  - injection Heq as -> Heq. destruct H1, H2. by destruct (IH s2) as [-> ->].
Qed.

(** ** Lemmas on [Itoa] *)
Lemma Itoa_inj n m : Itoa n = Itoa m → n = m.
Proof.
  unfold Itoa. intros H. apply (f_equal NilEmpty.uint_of_string) in H.
  rewrite !NilEmpty.usu in H. apply Unsigned.to_uint_inj. congruence.
Qed.

(** A separator splits what has none in front of it. *)
Lemma Split_free s sep : sep ∉ String.list_ascii_of_string s → Split s sep = [s].
Proof.
  induction s as [|c s IH]; [done|]. simpl. intros [Hc Hs]%not_elem_of_cons. rewrite IH by done.
  by destruct (Ascii.eqb_spec c sep).
Qed.

Lemma Split_app s sep t :
  sep ∉ String.list_ascii_of_string s → Split (s +:+ String sep t) sep = s :: Split t sep.
Proof.
  induction s as [|c s IH]; simpl; [by rewrite Ascii.eqb_refl|]. intros [Hc Hs]%not_elem_of_cons.
  rewrite IH by done. by destruct (Ascii.eqb_spec c sep).
Qed.
