(* ===== verification/FieldErrors.v ===== *)
(** knative.dev/pkg/apis/field_error.go: the errors a validation returns,
    collected with [Also] and located with [ViaField] and its relatives. A
    pointer [*FieldError] is an [option]. The lemmas reduce a collected error
    to the flat list of its [normalized] leaves: [normalized_Also] and
    [normalized_ViaField] are what the validators' theorems rewrite with. *)
From S2P Require Import Prelude GoStrings.
From Stdlib Require Import Ascii.


(** ** The type *)
Inductive FieldError : Type := mkFieldError {
  Message : string;
  Paths : list string;
  Details : string;
  errors : list FieldError
}.

Definition CurrentField : string := "".

(** [func (fe *FieldError) isEmpty() bool] *)
Definition isEmpty (fe : option FieldError) : bool :=
  match fe with
  | None => true
  | Some fe =>
    bool_decide (Message fe = "") && bool_decide (Details fe = "") &&
    bool_decide (length (errors fe) = 0) && bool_decide (length (Paths fe) = 0)
  end.

(** The loop of [Also]: [newErr.errors = append(newErr.errors, *e)]. *)
Definition collect (newErr : FieldError) (errs : list (option FieldError)) : FieldError :=
  foldl (λ ne e,
    if isEmpty e then ne
    else match e with
         | Some e => mkFieldError (Message ne) (Paths ne) (Details ne) (errors ne ++ [e])
         | None => ne
         end) newErr errs.

(** [func (fe *FieldError) Also(errs ...*FieldError) *FieldError] *)
Definition Also (fe : option FieldError) (errs : list (option FieldError)) : option FieldError :=
  if bool_decide (length errs = 0) || (bool_decide (length errs = 1) && forallb isEmpty errs)
  then fe
  else
    let newErr := match fe with
                  | Some e => if isEmpty fe then mkFieldError "" [] "" [] else e
                  | None => mkFieldError "" [] "" []
                  end in
    let newErr := collect newErr errs in
    if isEmpty (Some newErr) then None else Some newErr.

(** ** Paths *)

Definition asIndex (index : nat) : string := "[" +:+ Itoa index +:+ "]".

Definition isIndex (part : string) : bool := HasPrefix part "[" && HasSuffix part "]".

Definition asKey (key : string) : string := "[" +:+ key +:+ "]".

(** [newPath[len(newPath)-1] += p] *)
Fixpoint append_last (newPath : list string) (p : string) : list string :=
  match newPath with
  | [] => []
  | [q] => [q +:+ p]
  | q :: newPath => q :: append_last newPath p
  end.

Definition flatten_part (newPath : list string) (p : string) : list string :=
  if bool_decide (p = CurrentField) then newPath
  else if bool_decide (0 < length newPath) && isIndex p then append_last newPath p
  else newPath ++ [p].

Definition flatten (path : list string) : string :=
  Join (foldl (λ newPath part, foldl flatten_part newPath (Split part "."%char)) [] path) ".".

(** The body of [ViaField] on a non-nil receiver. *)
Fixpoint via (prefix : list string) (fe : FieldError) : option FieldError :=
  match fe with
  | mkFieldError message paths details errs =>
    (fix loop (errs : list FieldError) (newErr : option FieldError) : option FieldError :=
       match errs with
       | [] => newErr
       | e :: errs => loop errs (Also newErr [via prefix e])
       end) errs
      (Some (mkFieldError message (map (λ oldPath, flatten (prefix ++ [oldPath])) paths) details []))
  end.

(** [func (fe *FieldError) ViaField(prefix ...string) *FieldError] *)
Definition ViaField (fe : option FieldError) (prefix : list string) : option FieldError :=
  match fe with
  | None => None
  | Some fe => via prefix fe
  end.

Definition ViaIndex (fe : option FieldError) (index : nat) : option FieldError :=
  ViaField fe [asIndex index].

Definition ViaFieldIndex (fe : option FieldError) (field : string) (index : nat) : option FieldError :=
  ViaField (ViaIndex fe index) [field].

Definition ViaKey (fe : option FieldError) (key : string) : option FieldError :=
  ViaField fe [asKey key].

Definition ViaFieldKey (fe : option FieldError) (field key : string) : option FieldError :=
  ViaField (ViaKey fe key) [field].

(** ** The text of an error *)

(** [func (fe *FieldError) normalized() []*FieldError], on a non-nil receiver. *)
Fixpoint leaves (fe : FieldError) : list FieldError :=
  match fe with
  | mkFieldError message paths details errs =>
    (if bool_decide (message = "") then [] else [mkFieldError message paths details []]) ++
    concat (map leaves errs)
  end.

Definition normalized (fe : option FieldError) : list FieldError :=
  match fe with
  | None => []
  | Some fe => leaves fe
  end.

(** [containsString] and [mergePaths] *)
Definition containsString (slice : list string) (s : string) : bool :=
  existsb (λ item, bool_decide (item = s)) slice.

Definition mergePaths (a b : list string) : list string :=
  foldl (λ newPaths bi, if containsString newPaths bi then newPaths else newPaths ++ [bi]) a b.

(** [func key(err *FieldError) string] *)
Definition key (err : FieldError) : string := Message err +:+ "-" +:+ Details err.

(** The first loop of [merge]: the errors by key, with their paths joined. *)
Definition merge_by_key (errs : list FieldError) : gmap string FieldError :=
  foldl (λ m e,
    match m !! key e with
    | Some v => <[key e := mkFieldError (Message v) (mergePaths (Paths v) (Paths e)) (Details v) (errors v)]> m
    | None => <[key e := e]> m
    end) ∅ errs.

(** The order of the result of [merge]. *)
Definition error_le (e1 e2 : FieldError) : Prop :=
  if bool_decide (Message e1 = Message e2)
  then String.le (Details e1) (Details e2)
  else String.le (Message e1) (Message e2).

Global Instance error_le_dec : RelDecision error_le.
Proof. intros e1 e2. unfold error_le. case_bool_decide; apply _. Defined.

Definition sort_paths (e : FieldError) : FieldError :=
  mkFieldError (Message e) (merge_sort String.le (Paths e)) (Details e) (errors e).

(** [func merge(errs []*FieldError) []*FieldError]. The entries of the map
    have distinct messages or details, so the sort leaves no freedom. *)
Definition merge (errs : list FieldError) : list FieldError :=
  merge_sort error_le (map (sort_paths ∘ snd) (map_to_list (merge_by_key errs))).

(** [func (fe *FieldError) Error() string] *)
Definition Error (fe : option FieldError) : string :=
  Join (map (λ e,
    if bool_decide (Details e = "")
    then Message e +:+ ": " +:+ Join (Paths e) ", "
    else Message e +:+ ": " +:+ Join (Paths e) ", " +:+ String "010" "" +:+ Details e)
    (merge (normalized fe))) (String "010" "").

(** ** Constructors *)
Definition ErrMissingField (fieldPaths : list string) : FieldError :=
  mkFieldError "missing field(s)" fieldPaths "" [].

Definition ErrInvalidValue (value fieldPath : string) : FieldError :=
  mkFieldError ("invalid value: " +:+ value) [fieldPath] "" [].

Definition ErrGeneric (diagnostic : string) (fieldPaths : list string) : FieldError :=
  mkFieldError diagnostic fieldPaths "" [].

Definition ErrInvalidKeyName (key fieldPath : string) (details : list string) : FieldError :=
  mkFieldError ("invalid key name " +:+ Quote key) [fieldPath] (Join details ", ") [].

(** ** Well-formed errors: every error of the tree says something *)
Inductive wf_error : FieldError → Prop :=
  | wf_mk message paths details errs :
      message ≠ "" ∨ errs ≠ [] → Forall wf_error errs →
      wf_error (mkFieldError message paths details errs).

Definition wf (fe : option FieldError) : Prop :=
  match fe with
  | None => True
  | Some fe => wf_error fe
  end.

(** A leaf with its paths moved under a prefix. *)
Definition reprefix (prefix : list string) (e : FieldError) : FieldError :=
  mkFieldError (Message e) (map (λ p, flatten (prefix ++ [p])) (Paths e)) (Details e) [].

(** ** Lemmas *)
Lemma FieldError_nested_ind (P : FieldError → Prop) :
  (∀ m p d es, Forall P es → P (mkFieldError m p d es)) → ∀ e, P e.
Proof.
  intros IH. fix go 1. intros [m p d es]. apply IH.
  induction es as [|e es IHes]; constructor; [apply go|apply IHes].
Qed.

Lemma isEmpty_false_Some fe : isEmpty fe = false → ∃ e, fe = Some e.
Proof. destruct fe; [eauto|done]. Qed.

Lemma isEmpty_normalized fe : isEmpty fe = true → normalized fe = [].
Proof.
  destruct fe as [[m p d es]|]; [|done]. simpl.
  rewrite !andb_true_iff, !bool_decide_eq_true. intros [[[-> ->] Hes] _].
  destruct es; [|done]. by rewrite bool_decide_true.
Qed.

Lemma wf_not_empty fe : wf fe → isEmpty fe = true ↔ fe = None.
Proof.
  intros Hwf. split; [|by intros ->].
  destruct fe as [[m p d es]|]; [|done]. inversion Hwf as [???? Hm]; subst. simpl.
  rewrite !andb_true_iff, !bool_decide_eq_true. intros [[[-> ->] Hes] _].
  destruct es; [|done]. by destruct Hm.
Qed.

Lemma wf_normalized fe : wf fe → normalized fe = [] ↔ fe = None.
Proof.
  intros Hwf. split; [|by intros ->].
  destruct fe as [e|]; [|done]. simpl in *. intros Hl. exfalso. revert Hwf Hl.
  induction e as [m p d es IH] using FieldError_nested_ind. intros Hwf. simpl.
  inversion Hwf as [???? Hm Hes]; subst. case_bool_decide; [|done].
  destruct Hm as [|Hne]; [done|]. destruct es as [|e es]; [done|]. simpl.
  rewrite Forall_cons in IH, Hes. destruct IH, Hes. intros ?%app_nil. naive_solver.
Qed.

Lemma isEmpty_snoc m p d es e : isEmpty (Some (mkFieldError m p d (es ++ [e]))) = false.
Proof.
  simpl. rewrite length_app. simpl.
  rewrite (bool_decide_false (_ + 1 = 0)) by lia. by rewrite andb_false_r.
Qed.

(** [Also] with one argument, as every caller uses it. *)
Lemma Also_one fe e :
  Also fe [e] =
  if isEmpty e then fe
  else match e with
       | Some e =>
         let ne := match fe with
                   | Some f => if isEmpty fe then mkFieldError "" [] "" [] else f
                   | None => mkFieldError "" [] "" []
                   end in
         Some (mkFieldError (Message ne) (Paths ne) (Details ne) (errors ne ++ [e]))
       | None => fe
       end.
Proof.
  unfold Also. simpl length. rewrite bool_decide_false, bool_decide_true by done.
  cbn [forallb orb andb]. rewrite andb_true_r. destruct (isEmpty e) eqn:He; [done|].
  destruct (isEmpty_false_Some _ He) as [f ->]. cbn [collect foldl]. rewrite He.
  by rewrite isEmpty_snoc.
Qed.

Lemma Also_nil fe : Also fe [None] = fe.
Proof. by rewrite Also_one. Qed.

Lemma normalized_Also fe e : normalized (Also fe [e]) = normalized fe ++ normalized e.
Proof.
  rewrite Also_one. destruct (isEmpty e) eqn:He.
  { by rewrite (isEmpty_normalized e), app_nil_r. }
  destruct (isEmpty_false_Some _ He) as [f ->]. destruct fe as [[m p d es]|].
  - destruct (isEmpty (Some (mkFieldError m p d es))) eqn:Hfe.
    + rewrite (isEmpty_normalized _ Hfe). simpl. by rewrite app_nil_r.
    + simpl. rewrite map_app, concat_app, <-app_assoc. simpl. by rewrite app_nil_r.
  - simpl. by rewrite app_nil_r.
Qed.

Lemma wf_Also fe e : wf fe → wf e → wf (Also fe [e]).
Proof.
  intros Hfe He. rewrite Also_one. destruct (isEmpty e); [done|]. destruct e as [e|]; [|done].
  destruct fe as [f|].
  - destruct (isEmpty (Some f)) eqn:Hf; [by apply wf_not_empty in Hf|].
    destruct Hfe as [m p d es Hm Hes]. simpl. constructor; [right; by destruct es|].
    apply Forall_app; auto.
  - simpl. constructor; [by right|]. auto.
Qed.

Lemma Also_None fe e : wf e → Also fe [e] = None ↔ fe = None ∧ e = None.
Proof.
  intros He. rewrite Also_one. destruct (isEmpty e) eqn:Hemp.
  - apply wf_not_empty in Hemp; [|done]. naive_solver.
  - destruct e; [|done]. naive_solver.
Qed.

(** The loop of [ViaField] over the nested errors. *)
Lemma via_loop prefix m p d es :
  via prefix (mkFieldError m p d es) =
  foldl (λ newErr e, Also newErr [via prefix e])
    (Some (mkFieldError m (map (λ oldPath, flatten (prefix ++ [oldPath])) p) d [])) es.
Proof.
  simpl. generalize (Some (mkFieldError m (map (λ oldPath, flatten (prefix ++ [oldPath])) p) d [])).
  induction es as [|e es IH]; intros acc; simpl; [done|apply IH].
Qed.

Lemma normalized_foldl_Also (f : FieldError → option FieldError) es acc :
  normalized (foldl (λ ne e, Also ne [f e]) acc es) =
  normalized acc ++ concat (map (normalized ∘ f) es).
Proof.
  revert acc. induction es as [|e es IH]; intros acc; simpl; [by rewrite app_nil_r|].
  by rewrite IH, normalized_Also, <-app_assoc.
Qed.

Lemma normalized_ViaField fe prefix :
  normalized (ViaField fe prefix) = map (reprefix prefix) (normalized fe).
Proof.
  destruct fe as [e|]; [|done]. cbn [ViaField].
  induction e as [m p d es IH] using FieldError_nested_ind.
  rewrite via_loop, normalized_foldl_Also. cbn [normalized leaves]. rewrite map_app, concat_map.
  f_equal; [simpl; by case_bool_decide|].
  simpl. rewrite map_map. f_equal.
  apply map_ext_Forall. exact IH.
Qed.

Lemma Also_Some fe e : is_Some fe → is_Some (Also fe [e]).
Proof. intros [f ->]. rewrite Also_one. destruct (isEmpty e); [eauto|]. destruct e; eauto. Qed.

Lemma ViaField_None fe prefix : ViaField fe prefix = None ↔ fe = None.
Proof.
  split; [|by intros ->]. destruct fe as [[m p d es]|]; [|done]. cbn [ViaField].
  rewrite via_loop. intros Hn. exfalso. revert Hn.
  rewrite eq_None_not_Some. intros Hn. apply Hn. clear Hn.
  generalize (mkFieldError m (map (λ q, flatten (prefix ++ [q])) p) d []). intros acc.
  assert (is_Some (Some acc)) as Hacc by eauto. revert Hacc. generalize (Some acc).
  induction es as [|e es IH]; intros o Ho; simpl; [done|]. by apply IH, Also_Some.
Qed.

Lemma wf_foldl_Also (f : FieldError → option FieldError) es acc :
  wf acc → Forall (λ e, wf (f e)) es → wf (foldl (λ ne e, Also ne [f e]) acc es).
Proof.
  revert acc. induction es as [|e es IH]; intros acc Hacc Hes; simpl; [done|].
  apply Forall_cons in Hes as [He Hes]. apply IH; [|done]. by apply wf_Also.
Qed.

Lemma wf_ViaField fe prefix : wf fe → wf (ViaField fe prefix).
Proof.
  destruct fe as [e|]; [|done]. cbn [ViaField]. intros Hwf. simpl in Hwf.
  induction e as [m p d es IH] using FieldError_nested_ind.
  inversion Hwf as [???? Hm Hes]; subst.
  assert (Forall (λ e, wf (via prefix e)) es) as Hvia.
  { rewrite Forall_forall in *. auto. }
  rewrite via_loop. destruct (decide (m = "")) as [->|Hne].
  - destruct Hm as [|Hne]; [done|]. destruct es as [|e es]; [done|]. cbn [foldl].
    apply Forall_cons in Hvia as [He Hes'].
    assert (via prefix e ≠ None) as Hs.
    { intros Hn. by apply (ViaField_None (Some e) prefix) in Hn. }
    apply wf_foldl_Also; [|done]. rewrite Also_one.
    destruct (isEmpty (via prefix e)) eqn:Hemp; [by apply wf_not_empty in Hemp|].
    destruct (via prefix e) as [e'|]; [|done]. simpl.
    repeat case_match; constructor; simpl; auto.
  - apply wf_foldl_Also; [|done]. simpl. constructor; auto.
Qed.

Lemma wf_nil_error : wf None.
Proof. done. Qed.

#[export] Hint Resolve wf_nil_error wf_Also wf_ViaField : golib.
#[export] Hint Rewrite normalized_Also normalized_ViaField : golib_rw.

Lemma wf_leaf m p d : m ≠ "" → wf (Some (mkFieldError m p d [])).
Proof. intros Hm. constructor; [by left|done]. Qed.

(** ** Loops that collect errors *)
Lemma foldRange_None {A} (P : A → Prop) (body : nat → A → option FieldError → option FieldError) i l errs :
  (∀ i x errs, body i x errs = None ↔ errs = None ∧ P x) →
  foldRange body i l errs = None ↔ errs = None ∧ Forall P l.
Proof.
  intros Hbody. revert i errs. induction l as [|x l IH]; intros i errs; simpl.
  - naive_solver.
  - rewrite IH, Hbody, Forall_cons. naive_solver.
Qed.

Lemma foldRange_wf {A} (body : nat → A → option FieldError → option FieldError) i l errs :
  (∀ i x errs, wf errs → wf (body i x errs)) → wf errs → wf (foldRange body i l errs).
Proof. intros Hbody. revert i errs. induction l as [|x l IH]; intros i errs Hwf; simpl; auto. Qed.

(** The errors of a loop [errs = errs.Also(f(i, x))]. *)
Lemma normalized_foldRange_Also {A} (f : nat → A → option FieldError) i l errs :
  normalized (foldRange (λ i x errs, Also errs [f i x]) i l errs) =
  normalized errs ++ concat (imap (λ j x, normalized (f (i + j) x)) l).
Proof.
  revert i errs. induction l as [|x l IH]; intros i errs; simpl; [by rewrite app_nil_r|].
  rewrite IH, normalized_Also, <-app_assoc, Nat.add_0_r. do 3 f_equal.
  apply imap_ext. intros j y _. cbn. by replace (i + 1 + j) with (i + S j) by lia.
Qed.

#[export] Hint Resolve wf_leaf foldRange_wf : golib.
