(* ===== verification/Types.v ===== *)
(** The API types the program works on: the parts of k8s.io/api/core/v1 and
    of Tekton's v1beta1 that a step, a task or a TaskGroup is made of, and the
    TaskGroup types of pkg/apis/taskgroup/v1alpha1. A record has the fields of
    the Go struct, in its order; a pointer is an [option]; a field the program
    never looks into is its JSON value. A slice whose nilness the code
    observes ([Args], [Command]) is a [slice], every other one is a [list]. *)
From S2P Require Import Prelude.


(** ** k8s.io/api/core/v1 *)
Module CoreV1.

Record VolumeMount := {
  VolumeMount_Name : string;
  VolumeMount_ReadOnly : bool;
  VolumeMount_MountPath : string;
  VolumeMount_SubPath : string;
  VolumeMount_MountPropagation : option string;
  VolumeMount_SubPathExpr : string
}.

(** [ConfigMapKeySelector] and [SecretKeySelector], with their embedded
    [LocalObjectReference.Name]. *)
Record KeySelector := {
  KeySelector_Name : string;
  KeySelector_Key : string;
  KeySelector_Optional : option bool
}.

Record EnvVarSource := {
  EnvVarSource_FieldRef : option json;
  EnvVarSource_ResourceFieldRef : option json;
  EnvVarSource_ConfigMapKeyRef : option KeySelector;
  EnvVarSource_SecretKeyRef : option KeySelector
}.

Record EnvVar := {
  EnvVar_Name : string;
  EnvVar_Value : string;
  EnvVar_ValueFrom : option EnvVarSource
}.

(** [ConfigMapEnvSource] and [SecretEnvSource]. *)
Record EnvSource := {
  EnvSource_Name : string;
  EnvSource_Optional : option bool
}.

Record EnvFromSource := {
  EnvFromSource_Prefix : string;
  EnvFromSource_ConfigMapRef : option EnvSource;
  EnvFromSource_SecretRef : option EnvSource
}.

Record Container := {
  Container_Name : string;
  Container_Image : string;
  Container_Command : slice string;
  Container_Args : slice string;
  Container_WorkingDir : string;
  Container_Ports : list json;
  Container_EnvFrom : list EnvFromSource;
  Container_Env : list EnvVar;
  Container_Resources : json;
  Container_VolumeMounts : list VolumeMount;
  Container_VolumeDevices : list json;
  Container_LivenessProbe : option json;
  Container_ReadinessProbe : option json;
  Container_StartupProbe : option json;
  Container_Lifecycle : option json;
  Container_TerminationMessagePath : string;
  Container_TerminationMessagePolicy : string;
  Container_ImagePullPolicy : string;
  Container_SecurityContext : option json;
  Container_Stdin : bool;
  Container_StdinOnce : bool;
  Container_TTY : bool
}.

(** The zero value [Container{}]. *)
Definition zero_Container : Container := {|
  Container_Name := ""; Container_Image := ""; Container_Command := None;
  Container_Args := None; Container_WorkingDir := ""; Container_Ports := [];
  Container_EnvFrom := []; Container_Env := []; Container_Resources := JObj [];
  Container_VolumeMounts := []; Container_VolumeDevices := [];
  Container_LivenessProbe := None; Container_ReadinessProbe := None;
  Container_StartupProbe := None; Container_Lifecycle := None;
  Container_TerminationMessagePath := ""; Container_TerminationMessagePolicy := "";
  Container_ImagePullPolicy := ""; Container_SecurityContext := None;
  Container_Stdin := false; Container_StdinOnce := false; Container_TTY := false
|}.

(** [c.Name = name] *)
Definition set_Container_Name (name : string) (c : Container) : Container := {|
  Container_Name := name; Container_Image := Container_Image c;
  Container_Command := Container_Command c; Container_Args := Container_Args c;
  Container_WorkingDir := Container_WorkingDir c; Container_Ports := Container_Ports c;
  Container_EnvFrom := Container_EnvFrom c; Container_Env := Container_Env c;
  Container_Resources := Container_Resources c;
  Container_VolumeMounts := Container_VolumeMounts c;
  Container_VolumeDevices := Container_VolumeDevices c;
  Container_LivenessProbe := Container_LivenessProbe c;
  Container_ReadinessProbe := Container_ReadinessProbe c;
  Container_StartupProbe := Container_StartupProbe c;
  Container_Lifecycle := Container_Lifecycle c;
  Container_TerminationMessagePath := Container_TerminationMessagePath c;
  Container_TerminationMessagePolicy := Container_TerminationMessagePolicy c;
  Container_ImagePullPolicy := Container_ImagePullPolicy c;
  Container_SecurityContext := Container_SecurityContext c;
  Container_Stdin := Container_Stdin c; Container_StdinOnce := Container_StdinOnce c;
  Container_TTY := Container_TTY c
|}.

(** [c.Args = args] *)
Definition set_Container_Args (args : slice string) (c : Container) : Container := {|
  Container_Name := Container_Name c; Container_Image := Container_Image c;
  Container_Command := Container_Command c; Container_Args := args;
  Container_WorkingDir := Container_WorkingDir c; Container_Ports := Container_Ports c;
  Container_EnvFrom := Container_EnvFrom c; Container_Env := Container_Env c;
  Container_Resources := Container_Resources c;
  Container_VolumeMounts := Container_VolumeMounts c;
  Container_VolumeDevices := Container_VolumeDevices c;
  Container_LivenessProbe := Container_LivenessProbe c;
  Container_ReadinessProbe := Container_ReadinessProbe c;
  Container_StartupProbe := Container_StartupProbe c;
  Container_Lifecycle := Container_Lifecycle c;
  Container_TerminationMessagePath := Container_TerminationMessagePath c;
  Container_TerminationMessagePolicy := Container_TerminationMessagePolicy c;
  Container_ImagePullPolicy := Container_ImagePullPolicy c;
  Container_SecurityContext := Container_SecurityContext c;
  Container_Stdin := Container_Stdin c; Container_StdinOnce := Container_StdinOnce c;
  Container_TTY := Container_TTY c
|}.

(** [Volume], with its embedded [VolumeSource]. *)
Record Volume := {
  Volume_Name : string;
  Volume_VolumeSource : json
}.

End CoreV1.
Export CoreV1.

(** ** Tekton v1beta1 *)
Module V1beta1.

(** [ParamType] is a string; these are its two valid values. *)
Definition ParamTypeString : string := "string".
Definition ParamTypeArray : string := "array".
Definition AllParamTypes : list string := [ParamTypeString; ParamTypeArray].

Record ArrayOrString := {
  ArrayOrString_Type : string;
  ArrayOrString_StringVal : string;
  ArrayOrString_ArrayVal : slice string
}.

Record ParamSpec := {
  ParamSpec_Name : string;
  ParamSpec_Type : string;
  ParamSpec_Description : string;
  ParamSpec_Default : option ArrayOrString
}.

Record Param := {
  Param_Name : string;
  Param_Value : ArrayOrString
}.

Record WorkspaceDeclaration := {
  WorkspaceDeclaration_Name : string;
  WorkspaceDeclaration_Description : string;
  WorkspaceDeclaration_MountPath : string;
  WorkspaceDeclaration_ReadOnly : bool;
  WorkspaceDeclaration_Optional : bool
}.

Record WorkspaceUsage := {
  WorkspaceUsage_Name : string;
  WorkspaceUsage_MountPath : string
}.

Record TaskResult := {
  TaskResult_Name : string;
  TaskResult_Description : string
}.

Record Step := {
  Step_Container : Container;
  Step_Script : string;
  Step_Timeout : option Z;
  Step_Workspaces : list WorkspaceUsage;
  Step_OnError : string
}.

(** The zero value [Step{}]. *)
Definition zero_Step : Step := {|
  Step_Container := zero_Container; Step_Script := ""; Step_Timeout := None;
  Step_Workspaces := []; Step_OnError := ""
|}.

(** [s.Name = name], of the embedded container. *)
Definition set_Step_Name (name : string) (s : Step) : Step := {|
  Step_Container := set_Container_Name name (Step_Container s);
  Step_Script := Step_Script s; Step_Timeout := Step_Timeout s;
  Step_Workspaces := Step_Workspaces s; Step_OnError := Step_OnError s
|}.

Record Sidecar := {
  Sidecar_Container : Container;
  Sidecar_Script : string;
  Sidecar_Workspaces : list WorkspaceUsage
}.

(** [TaskRef]; the embedded [ResolverRef] is not looked into. *)
Record TaskRef := {
  TaskRef_Name : string;
  TaskRef_Kind : string;
  TaskRef_APIVersion : string;
  TaskRef_Bundle : string;
  TaskRef_ResolverRef : json
}.

Record TaskSpec := {
  TaskSpec_Resources : option json;
  TaskSpec_Params : list ParamSpec;
  TaskSpec_Description : string;
  TaskSpec_Steps : list Step;
  TaskSpec_Volumes : list Volume;
  TaskSpec_StepTemplate : option Container;
  TaskSpec_Sidecars : list Sidecar;
  TaskSpec_Workspaces : list WorkspaceDeclaration;
  TaskSpec_Results : list TaskResult
}.

End V1beta1.

(** ** pkg/apis/taskgroup/v1alpha1 *)
Module V1alpha1.

Record ParamBinding := {
  ParamBinding_Name : string;
  ParamBinding_Param : string
}.

Record WorkspaceBinding := {
  WorkspaceBinding_Name : string;
  WorkspaceBinding_Workspace : string
}.

Record Uses := {
  Uses_TaskRef : V1beta1.TaskRef;
  Uses_ParamBindings : list ParamBinding;
  Uses_WorkspaceBindings : list WorkspaceBinding
}.

(** [Step]: the upstream step, embedded, and the optional [uses]. *)
Record Step := {
  Step_Step : V1beta1.Step;
  Step_Uses : option Uses
}.

(** [func (s Step) toUpstream() v1beta1.Step] *)
Definition toUpstream (s : Step) : V1beta1.Step := Step_Step s.

Record TaskGroupSpec := {
  TaskGroupSpec_Params : list V1beta1.ParamSpec;
  TaskGroupSpec_Description : string;
  TaskGroupSpec_Steps : list Step;
  TaskGroupSpec_Volumes : list Volume;
  TaskGroupSpec_StepTemplate : option Container;
  TaskGroupSpec_Sidecars : list V1beta1.Sidecar;
  TaskGroupSpec_Workspaces : list V1beta1.WorkspaceDeclaration;
  TaskGroupSpec_Results : list V1beta1.TaskResult
}.

(** The zero value [TaskGroupSpec{}]. *)
Definition zero_TaskGroupSpec : TaskGroupSpec := {|
  TaskGroupSpec_Params := []; TaskGroupSpec_Description := "";
  TaskGroupSpec_Steps := []; TaskGroupSpec_Volumes := [];
  TaskGroupSpec_StepTemplate := None; TaskGroupSpec_Sidecars := [];
  TaskGroupSpec_Workspaces := []; TaskGroupSpec_Results := []
|}.

(** [TaskGroupRunReason] *)
Inductive TaskGroupRunReason :=
  | TaskGroupRunReasonStarted
  | TaskGroupRunReasonRunning
  | TaskGroupRunReasonFailed
  | TaskGroupRunReasonSucceeded
  | TaskGroupRunReasonCouldntCancel
  | TaskGroupRunReasonCouldntGetTaskGroup
  | TaskGroupRunReasonFailedValidation
  | TaskGroupRunReasonInternalError.

(** [func (t TaskGroupRunReason) String() string] *)
Definition reason_String (t : TaskGroupRunReason) : string :=
  match t with
  | TaskGroupRunReasonStarted => "Started"
  | TaskGroupRunReasonRunning => "Running"
  | TaskGroupRunReasonFailed => "Failed"
  | TaskGroupRunReasonSucceeded => "Succeeded"
  | TaskGroupRunReasonCouldntCancel => "TaskGroupRunCouldntCancel"
  | TaskGroupRunReasonCouldntGetTaskGroup => "CouldntGetTaskGroup"
  | TaskGroupRunReasonFailedValidation => "TaskGroupValidationFailed"
  | TaskGroupRunReasonInternalError => "TaskGroupInternalError"
  end.

Global Instance TaskGroupRunReason_eq_dec : EqDecision TaskGroupRunReason.
Proof. solve_decision. Defined.

Global Instance reason_String_inj : Inj (=) (=) reason_String.
Proof. intros [] []; done. Qed.

End V1alpha1.

(** ** Decidable equality *)
Global Instance ParamSpec_eq_dec : EqDecision V1beta1.ParamSpec.
Proof.
  assert (EqDecision V1beta1.ArrayOrString) by solve_decision. solve_decision.
Defined.

Global Instance WorkspaceDeclaration_eq_dec : EqDecision V1beta1.WorkspaceDeclaration.
Proof. solve_decision. Defined.

Global Instance TaskResult_eq_dec : EqDecision V1beta1.TaskResult.
Proof. solve_decision. Defined.
