(* ===== verification/Substitution.v ===== *)
(** Variable interpolation: github.com/tektoncd/pipeline/pkg/substitution and
    the step and container replacements of v1beta1, which the resolver runs
    with the names a [uses] binds, and the extraction of the references
    [$(params.x)] that the validation checks.

    [ApplyReplacements_parse] states what a replacement is: in any text, read as
    literals and references, every reference to a key becomes its value and
    everything else stays, all at once. [order_ApplyReplacements] shows
    that the unspecified order of Go's maps cannot be observed. *)
From S2P Require Import Prelude GoStrings FieldErrors Types.
From Stdlib Require Import Ascii.

Section substitution.
Context {MO : MapOrder}.

(** [fmt.Sprintf("$(%s)", k)] *)
Definition reference (k : string) : string := "$(" +:+ k +:+ ")".

(** [replacementsList] for a map visited in the order [entries]. *)
Definition replacementsList (entries : list (string * string)) : list (string * string) :=
  map (λ kv, (reference kv.1, kv.2)) entries.

(** [func ApplyReplacements(in string, replacements map[string]string) string] *)
Definition ApplyReplacements (in_ : string) (replacements : gmap string string) : string :=
  Replace (replacementsList (map_range replacements)) in_.

(** The test of [ApplyArrayReplacements]: one occurrence and equal lengths. *)
Definition is_whole (in_ s : string) : bool :=
  Contains in_ s && bool_decide (String.length in_ = String.length s).

(** [func ApplyArrayReplacements(in string, stringReplacements, arrayReplacements) []string],
    with the entries of [arrayReplacements] in the order they are visited. *)
Fixpoint ApplyArrayReplacements (in_ : string) (stringReplacements : gmap string string)
    (arrayReplacements : list (string * slice string)) : list string :=
  match arrayReplacements with
  | [] => [ApplyReplacements in_ stringReplacements]
  | (k, v) :: arrayReplacements =>
    if is_whole in_ (reference k) then elems v
    else if is_whole in_ (reference (k +:+ "[*]")) then elems v
    else ApplyArrayReplacements in_ stringReplacements arrayReplacements
  end.

(** The loops over [step.Args] and [step.Command]: the result starts as a
    nil slice. *)
Definition replace_all (l : slice string) (sr : gmap string string)
    (ar : list (string * slice string)) : slice string :=
  foldl (λ acc a, append acc (ApplyArrayReplacements a sr ar)) None (elems l).

Definition replace_KeySelector (sr : gmap string string) (k : KeySelector) : KeySelector := {|
  KeySelector_Name := ApplyReplacements (KeySelector_Name k) sr;
  KeySelector_Key := ApplyReplacements (KeySelector_Key k) sr;
  KeySelector_Optional := KeySelector_Optional k
|}.

(** The body of the loop over [step.Env]. *)
Definition replace_EnvVar (sr : gmap string string) (e : EnvVar) : EnvVar := {|
  EnvVar_Name := EnvVar_Name e;
  EnvVar_Value := ApplyReplacements (EnvVar_Value e) sr;
  EnvVar_ValueFrom :=
    match EnvVar_ValueFrom e with
    | None => None
    | Some vf => Some {|
        EnvVarSource_FieldRef := EnvVarSource_FieldRef vf;
        EnvVarSource_ResourceFieldRef := EnvVarSource_ResourceFieldRef vf;
        EnvVarSource_ConfigMapKeyRef := replace_KeySelector sr <$> EnvVarSource_ConfigMapKeyRef vf;
        EnvVarSource_SecretKeyRef := replace_KeySelector sr <$> EnvVarSource_SecretKeyRef vf
      |}
    end
|}.

Definition replace_EnvSource (sr : gmap string string) (e : EnvSource) : EnvSource := {|
  EnvSource_Name := ApplyReplacements (EnvSource_Name e) sr;
  EnvSource_Optional := EnvSource_Optional e
|}.

(** The body of the loop over [step.EnvFrom]. *)
Definition replace_EnvFromSource (sr : gmap string string) (e : EnvFromSource) : EnvFromSource := {|
  EnvFromSource_Prefix := ApplyReplacements (EnvFromSource_Prefix e) sr;
  EnvFromSource_ConfigMapRef := replace_EnvSource sr <$> EnvFromSource_ConfigMapRef e;
  EnvFromSource_SecretRef := replace_EnvSource sr <$> EnvFromSource_SecretRef e
|}.

(** The body of the loop over [step.VolumeMounts]. *)
Definition replace_VolumeMount (sr : gmap string string) (v : VolumeMount) : VolumeMount := {|
  VolumeMount_Name := ApplyReplacements (VolumeMount_Name v) sr;
  VolumeMount_ReadOnly := VolumeMount_ReadOnly v;
  VolumeMount_MountPath := ApplyReplacements (VolumeMount_MountPath v) sr;
  VolumeMount_SubPath := ApplyReplacements (VolumeMount_SubPath v) sr;
  VolumeMount_MountPropagation := VolumeMount_MountPropagation v;
  VolumeMount_SubPathExpr := VolumeMount_SubPathExpr v
|}.

(** [func applyContainerReplacements(step *corev1.Container, ...)] *)
Definition applyContainerReplacements (c : Container) (sr : gmap string string)
    (ar : list (string * slice string)) : Container := {|
  Container_Name := ApplyReplacements (Container_Name c) sr;
  Container_Image := ApplyReplacements (Container_Image c) sr;
  Container_Command := replace_all (Container_Command c) sr ar;
  Container_Args := replace_all (Container_Args c) sr ar;
  Container_WorkingDir := ApplyReplacements (Container_WorkingDir c) sr;
  Container_Ports := Container_Ports c;
  Container_EnvFrom := map (replace_EnvFromSource sr) (Container_EnvFrom c);
  Container_Env := map (replace_EnvVar sr) (Container_Env c);
  Container_Resources := Container_Resources c;
  Container_VolumeMounts := map (replace_VolumeMount sr) (Container_VolumeMounts c);
  Container_VolumeDevices := Container_VolumeDevices c;
  Container_LivenessProbe := Container_LivenessProbe c;
  Container_ReadinessProbe := Container_ReadinessProbe c;
  Container_StartupProbe := Container_StartupProbe c;
  Container_Lifecycle := Container_Lifecycle c;
  Container_TerminationMessagePath := Container_TerminationMessagePath c;
  Container_TerminationMessagePolicy := Container_TerminationMessagePolicy c;
  Container_ImagePullPolicy := ApplyReplacements (Container_ImagePullPolicy c) sr;
  Container_SecurityContext := Container_SecurityContext c;
  Container_Stdin := Container_Stdin c;
  Container_StdinOnce := Container_StdinOnce c;
  Container_TTY := Container_TTY c
|}.

(** [func ApplyStepReplacements(step *Step, ...)] *)
Definition ApplyStepReplacements (s : V1beta1.Step) (sr : gmap string string)
    (ar : list (string * slice string)) : V1beta1.Step := {|
  V1beta1.Step_Container := applyContainerReplacements (V1beta1.Step_Container s) sr ar;
  V1beta1.Step_Script := ApplyReplacements (V1beta1.Step_Script s) sr;
  V1beta1.Step_Timeout := V1beta1.Step_Timeout s;
  V1beta1.Step_Workspaces := V1beta1.Step_Workspaces s;
  V1beta1.Step_OnError := V1beta1.Step_OnError s
|}.

End substitution.

(** ** References in a text

    The regular expression of [extractVariablesFromString] is
    [\$\(prefix\.(?P<var>[_a-zA-Z][_a-zA-Z0-9.-]*(\[\*\])?)\)]. No byte the
    starred class takes can begin what must follow it, so a match is found
    without backtracking. *)
Definition in_range (lo hi c : ascii) : bool :=
  bool_decide (nat_of_ascii lo ≤ nat_of_ascii c ≤ nat_of_ascii hi).

Definition is_letter (c : ascii) : bool := in_range "a" "z" c || in_range "A" "Z" c.
Definition is_digit (c : ascii) : bool := in_range "0" "9" c.

(** [[_a-zA-Z]] *)
Definition var_start (c : ascii) : bool := is_letter c || Ascii.eqb c "_".
(** [[_a-zA-Z0-9.-]] *)
Definition var_char (c : ascii) : bool :=
  is_letter c || is_digit c || Ascii.eqb c "_" || Ascii.eqb c "." || Ascii.eqb c "-".

(** The longest prefix of a string in a class of bytes, and the rest. *)
Fixpoint span (P : ascii → bool) (s : string) : string * string :=
  match s with
  | EmptyString => ("", "")
  | String c s' => if P c then let '(a, b) := span P s' in (String c a, b) else ("", s)
  end.

(** The group [var] of a match at the start of [s], if there is one. *)
Definition match_reference (prefix s : string) : option string :=
  match cut_prefix ("$(" +:+ prefix +:+ ".") s with
  | Some (String c rest) =>
    if var_start c then
      let '(name, rest) := span var_char rest in
      let '(star, rest) := match cut_prefix "[*]" rest with
                           | Some rest => ("[*]", rest)
                           | None => ("", rest)
                           end in
      if HasPrefix rest ")" then Some (String c (name +:+ star)) else None
    else None
  | _ => None
  end.

(** The whole match, given its group. *)
Definition whole_match (prefix var : string) : string := "$(" +:+ prefix +:+ "." +:+ var +:+ ")".

(** [re.FindAllStringSubmatch(s, -1)]: the groups of the matches from left to
    right, without overlaps. *)
Fixpoint find_references (prefix : string) (skip : nat) (s : string) : list string :=
  match s with
  | EmptyString => []
  | String _ s' =>
    match skip with
    | S skip => find_references prefix skip s'
    | O => match match_reference prefix s with
           | Some var => var :: find_references prefix (String.length (whole_match prefix var) - 1) s'
           | None => find_references prefix 0 s'
           end
    end
  end.

(** [strings.SplitN(s, ".", 2)[0]] *)
Fixpoint before_dot (s : string) : string :=
  match s with
  | EmptyString => ""
  | String c s => if Ascii.eqb c "." then "" else String c (before_dot s)
  end.

(** [func extractVariablesFromString(s, prefix string) ([]string, bool)]; the
    flag says whether the list is non-empty. *)
Definition extractVariablesFromString (s prefix : string) : list string :=
  map before_dot (find_references prefix 0 s).

(** [func extractExpressionFromString(s, prefix string) (string, bool)] *)
Definition extractExpressionFromString (s prefix : string) : string :=
  match find_references prefix 0 s with
  | var :: _ => whole_match prefix var
  | [] => ""
  end.

(** ** The checks on the references of a text *)

(** The loop of the three checks: the error of the first variable that
    [bad] holds of. *)
Definition check_variables (value prefix : string) (bad : string → bool) (message : string) :
    option FieldError :=
  if existsb (λ v, bad (TrimSuffix v "[*]")) (extractVariablesFromString value prefix)
  then Some (mkFieldError (message +:+ Quote value) [""] "" [])
  else None.

(** [func ValidateVariableP(value, prefix string, vars sets.String) *apis.FieldError] *)
Definition ValidateVariableP (value prefix : string) (vars : gset string) : option FieldError :=
  check_variables value prefix (λ v, negb (bool_decide (v ∈ vars))) "non-existent variable in ".

(** [func ValidateVariableProhibitedP(value, prefix string, vars sets.String)] *)
Definition ValidateVariableProhibitedP (value prefix : string) (vars : gset string) : option FieldError :=
  check_variables value prefix (λ v, bool_decide (v ∈ vars)) "variable type invalid in ".

(** [func ValidateVariableIsolatedP(value, prefix string, vars sets.String)] *)
Definition ValidateVariableIsolatedP (value prefix : string) (vars : gset string) : option FieldError :=
  let firstMatch := extractExpressionFromString value prefix in
  check_variables value prefix
    (λ v, bool_decide (v ∈ vars) &&
          negb (bool_decide (String.length value = String.length firstMatch)))
    "variable is not properly isolated in ".

(** ** Specification of the interpolation

    A text is a sequence of literals and references; [render] writes it out. *)
Inductive segment :=
  | Lit (s : string)
  | Ref (k : string).

Definition render_segment (seg : segment) : string :=
  match seg with
  | Lit s => s
  | Ref k => reference k
  end.

Fixpoint render (segs : list segment) : string :=
  match segs with
  | [] => ""
  | seg :: segs => render_segment seg +:+ render segs
  end.

(** What a replacement makes of a segment: a reference to a key becomes its
    value, everything else stays. *)
Definition subst_segment (r : gmap string string) (seg : segment) : segment :=
  match seg with
  | Lit s => Lit s
  | Ref k => match r !! k with Some v => Lit v | None => Ref k end
  end.

Definition no_dollar : string → Prop := free_of (Ascii.eqb "$").
Definition no_paren : string → Prop := free_of (Ascii.eqb ")").

(** How a text is read, from the left: where [$(] comes, and after it a [)] with
    no other [$] before it, is a reference; any other byte, a [$] of a shell
    script among them, is a literal. *)
Fixpoint until_paren (s : string) : option string :=
  match s with
  | EmptyString => None
  | String c s =>
    if Ascii.eqb ")" c then Some "" else if Ascii.eqb "$" c then None else String c <$> until_paren s
  end.

Definition reference_at (s : string) : option string :=
  match s with
  | String c (String d s) => if Ascii.eqb "$" c && Ascii.eqb "(" d then until_paren s else None
  | _ => None
  end.

(** [skip] counts the bytes of the last reference still to be passed. *)
Fixpoint parse_from (skip : nat) (s : string) : list segment :=
  match s with
  | EmptyString => []
  | String c s' =>
    match skip with
    | S skip => parse_from skip s'
    | O => match reference_at s with
           | Some k => Ref k :: parse_from (String.length (reference k) - 1) s'
           | None => Lit (String c "") :: parse_from 0 s'
           end
    end
  end.

Definition parse (s : string) : list segment := parse_from 0 s.

(** The keys of a table of replacements are names. *)
Definition wf_table (r : gmap string string) : Prop := map_Forall (λ k _, no_paren k) r.

Global Instance wf_table_dec r : Decision (wf_table r).
Proof. unfold wf_table, no_paren. apply _. Defined.

(** ** Lemmas *)

(** A reference is found at a place exactly when it is the one written there. *)
Lemma reference_prefix k k' rest :
  no_paren k → no_paren k' →
  HasPrefix (reference k +:+ rest) (reference k') = true → k' = k.
Proof.
  intros Hk Hk' [r Hr]%HasPrefix_spec. unfold reference in Hr.
  rewrite !app_assoc_string in Hr. apply app_inj_l in Hr.
  by destruct (free_of_delim ")" k k' rest r) as [-> _].
Qed.

Lemma reference_inj k k' : reference k = reference k' → k = k'.
Proof. unfold reference. intros H%app_inj_l. by apply app_inj_r in H. Qed.

Lemma elem_of_replacementsList {MO : MapOrder} r old new :
  (old, new) ∈ replacementsList (map_range r) ↔ ∃ k, old = reference k ∧ r !! k = Some new.
Proof.
  unfold replacementsList. rewrite list_elem_of_fmap. setoid_rewrite map_range_perm.
  split.
  - intros ([k v] & Heq & Hin%elem_of_map_to_list). naive_solver.
  - intros (k & -> & Hk%elem_of_map_to_list). by exists (k, new).
Qed.

Lemma fst_replacementsList entries :
  (replacementsList entries).*1 = reference <$> entries.*1.
Proof. induction entries as [|[k v] entries IH]; [done|]. simpl. by f_equal. Qed.

Lemma NoDup_replacementsList {MO : MapOrder} r : NoDup (replacementsList (map_range r)).*1.
Proof.
  rewrite fst_replacementsList, map_range_perm.
  apply NoDup_fmap_2; [exact reference_inj|]. apply NoDup_fst_map_to_list.
Qed.

Section order.
Context `{O : !MapOrder} (r : gmap string string) (Hr : wf_table r).

Lemma prefix_free_replacementsList : prefix_free (replacementsList (map_range r)).
Proof.
  intros o1 n1 o2 n2 (k1 & -> & H1)%elem_of_replacementsList
    (k2 & -> & H2)%elem_of_replacementsList Hp.
  rewrite <-(app_empty_r (reference k2)) in Hp.
  apply reference_prefix in Hp as ->; eauto.
Qed.

(** Only a literal [$] begins a match. *)
Lemma first_match_no_dollar c s :
  Ascii.eqb "$" c = false → first_match (replacementsList (map_range r)) (String c s) = None.
Proof.
  intros Hc. rewrite first_match_None.
  intros old new (k & -> & _)%elem_of_replacementsList. unfold reference.
  rewrite app_cons. cbn [HasPrefix]. by rewrite Hc.
Qed.

Lemma first_match_reference k s :
  no_paren k →
  first_match (replacementsList (map_range r)) (reference k +:+ s) =
  (λ v, (reference k, v)) <$> r !! k.
Proof using Hr.
  intros Hk. destruct (r !! k) as [v|] eqn:Hv; simpl.
  - apply first_match_iff.
    + apply NoDup_replacementsList.
    + apply prefix_free_replacementsList.
    + rewrite elem_of_replacementsList. split; [by exists k|apply HasPrefix_app].
  - apply first_match_None. intros old new (k' & -> & Hk')%elem_of_replacementsList.
    destruct (HasPrefix _ _) eqn:Hp; [|done].
    apply reference_prefix in Hp as ->; eauto. congruence.
Qed.

Lemma Replace_literal s rest :
  no_dollar s →
  Replace (replacementsList (map_range r)) (s +:+ rest) =
  s +:+ Replace (replacementsList (map_range r)) rest.
Proof.
  intros Hs. induction s as [|c s IH]; [done|]. destruct Hs as [Hc Hs].
  rewrite !app_cons, Replace_copy by by apply first_match_no_dollar. by rewrite IH.
Qed.

Lemma Replace_reference k rest :
  no_dollar k → no_paren k →
  Replace (replacementsList (map_range r)) (reference k +:+ rest) =
  render_segment (subst_segment r (Ref k)) +:+ Replace (replacementsList (map_range r)) rest.
Proof using Hr.
  intros Hk1 Hk2. pose proof (first_match_reference k rest Hk2) as Hm. simpl.
  destruct (r !! k) as [v|] eqn:Hv; simpl in *.
  - by apply Replace_match.
  - change (reference k) with (String "$" ("(" +:+ k +:+ ")")) in *.
    assert (no_dollar ("(" +:+ k +:+ ")")) as Ht.
    { unfold no_dollar. rewrite !free_of_app. by simpl. }
    revert Hm Ht. generalize ("(" +:+ k +:+ ")"). intros t Hm Ht.
    rewrite app_cons in *. rewrite Replace_copy by done.
    by rewrite Replace_literal, app_cons.
Qed.
End order.

(** *** Reading a text *)
Lemma until_paren_Some s k : until_paren s = Some k ↔ no_dollar k ∧ no_paren k ∧ ∃ rest, s = k +:+ ")" +:+ rest.
Proof.
  revert k. induction s as [|c s IH]; intros k; cbn [until_paren]; [split; [done|by intros (_ & _ & rest & Heq); destruct k]|].
  destruct (Ascii.eqb ")" c) eqn:Hp.
  - apply Ascii.eqb_eq in Hp as <-. split; [intros [= <-]; split_and!; [done..|by exists s]|].
    intros (_ & Hk & rest & Heq). destruct k as [|d k]; [done|]. rewrite app_cons in Heq. injection Heq as <- _. by destruct Hk.
  - destruct (Ascii.eqb "$" c) eqn:Hd.
    + split; [done|]. intros (Hk & _ & rest & Heq). destruct k as [|d k]; rewrite ?app_cons in Heq; [by injection Heq as -> _|].
      injection Heq as <- _. destruct Hk. congruence.
    + rewrite fmap_Some. setoid_rewrite IH. split.
      * intros (k0 & (H1 & H2 & rest & ->) & ->). split_and!; [by split|by split|by exists rest].
      * intros (H1 & H2 & rest & Heq). destruct k as [|d k]; rewrite ?app_cons in Heq; [by injection Heq as -> _|].
        injection Heq as <- ->. exists k. destruct H1, H2. split_and!; [done..|by exists rest|done].
Qed.

Lemma reference_app k rest : reference k +:+ rest = String "$" (String "(" (k +:+ ")" +:+ rest)).
Proof. unfold reference. by rewrite !app_assoc_string. Qed.

Lemma reference_at_Some s k : reference_at s = Some k ↔ no_dollar k ∧ no_paren k ∧ ∃ rest, s = reference k +:+ rest.
Proof.
  setoid_rewrite reference_app. destruct s as [|c [|d s]]; [split; [done|by intros (_ & _ & ? & ?)]..|]. cbn [reference_at].
  destruct (Ascii.eqb_spec "$" c) as [<-|Hc]; [|split; [done|intros (_ & _ & rest & [= -> _])]; congruence].
  destruct (Ascii.eqb_spec "(" d) as [<-|Hd]; [|split; [done|intros (_ & _ & rest & [= -> _])]; congruence].
  cbn [andb]. rewrite until_paren_Some. split; intros (? & ? & rest & Heq); (split_and!; [done..|]); exists rest; congruence.
Qed.

Lemma parse_from_skip t s : parse_from (String.length t) (t +:+ s) = parse_from 0 s.
Proof. induction t as [|c t IH]; [done|]. rewrite app_cons. exact IH. Qed.

Lemma parse_reference k rest : no_dollar k → no_paren k → parse (reference k +:+ rest) = Ref k :: parse rest.
Proof.
  intros Hd Hp. assert (reference_at (reference k +:+ rest) = Some k) as Hat by (apply reference_at_Some; split_and!; [done..|by exists rest]).
  assert (reference k +:+ rest = String "$"%char (("(" +:+ k +:+ ")") +:+ rest)) as Heq by by rewrite reference_app, !app_assoc_string.
  rewrite Heq in *. unfold parse. cbn [parse_from]. rewrite Hat. f_equal.
  change (String.length (reference k) - 1) with (String.length ("(" +:+ k +:+ ")") - 0). rewrite Nat.sub_0_r. apply parse_from_skip.
Qed.

Lemma parse_literal c s : reference_at (String c s) = None → parse (String c s) = Lit (String c "") :: parse s.
Proof. unfold parse. cbn [parse_from]. by intros ->. Qed.

(** Induction on a text as it is read. *)
Lemma text_ind (P : string → Prop) :
  P "" → (∀ k rest, no_dollar k → no_paren k → P rest → P (reference k +:+ rest)) →
  (∀ c s, reference_at (String c s) = None → P s → P (String c s)) → ∀ s, P s.
Proof.
  intros H0 Href Hlit s. remember (String.length s) as n eqn:Hn. revert s Hn. induction (lt_wf n) as [n _ IH]. intros [|c s] ->; [done|].
  destruct (reference_at (String c s)) as [k|] eqn:Hat.
  - apply reference_at_Some in Hat as (Hd & Hp & rest & Heq). rewrite Heq in *. apply Href; [done..|]. eapply IH; [|done].
    rewrite reference_app. cbn. rewrite !length_app_string. cbn. lia.
  - apply Hlit; [done|]. eapply IH; [|done]. cbn. lia.
Qed.

(** Reading loses nothing. *)
Lemma render_parse s : render (parse s) = s.
Proof.
  induction s as [|k rest Hd Hp IH|c s Hat IH] using text_ind; [done|rewrite parse_reference by done|rewrite parse_literal by done];
    cbn [render render_segment]; by rewrite IH.
Qed.

(** A text in which other names are put in the place of references is read as
    the same literals and the other references. *)
Inductive same_shape : segment → segment → Prop :=
  | same_Lit s : same_shape (Lit s) (Lit s)
  | same_Ref k k' : no_dollar k' → no_paren k' → same_shape (Ref k) (Ref k').

Lemma shape_until_paren s segs : Forall2 same_shape (parse s) segs → until_paren s = None → until_paren (render segs) = None.
Proof.
  revert segs. induction s as [|k rest Hd Hp IH|c s Hat IH] using text_ind; intros segs.
  - by intros ->%Forall2_nil_inv_l.
  - rewrite parse_reference by done. intros (seg & segs' & Hseg & _ & ->)%Forall2_cons_inv_l _. by inversion Hseg; subst.
  - rewrite parse_literal by done. intros (seg & segs' & Hseg & Hsegs & ->)%Forall2_cons_inv_l. inversion Hseg; subst. cbn [render render_segment].
    rewrite app_cons. cbn [until_paren]. destruct (Ascii.eqb ")" c); [done|]. destruct (Ascii.eqb "$" c); [done|].
    rewrite !fmap_None. by apply IH.
Qed.

Lemma shape_reference_at c s segs :
  Forall2 same_shape (parse s) segs → reference_at (String c s) = None → reference_at (String c (render segs)) = None.
Proof.
  destruct s as [|d s]; [by intros ->%Forall2_nil_inv_l|]. destruct (reference_at (String d s)) as [k|] eqn:Hat.
  - apply reference_at_Some in Hat as (Hd & Hp & rest & ->). rewrite parse_reference by done.
    intros (seg & segs' & Hseg & _ & ->)%Forall2_cons_inv_l _. inversion Hseg; subst. cbn [render render_segment]. rewrite reference_app.
    cbn [reference_at]. by rewrite andb_false_r.
  - rewrite parse_literal by done. intros (seg & segs' & Hseg & Hsegs & ->)%Forall2_cons_inv_l. inversion Hseg; subst. cbn [render render_segment].
    rewrite app_cons, app_empty_l. cbn [reference_at]. destruct (_ && _); [|done]. by apply shape_until_paren.
Qed.

Lemma parse_render s segs : Forall2 same_shape (parse s) segs → parse (render segs) = segs.
Proof.
  revert segs. induction s as [|k rest Hd Hp IH|c s Hat IH] using text_ind; intros segs.
  - by intros ->%Forall2_nil_inv_l.
  - rewrite parse_reference by done. intros (seg & segs' & Hseg & Hsegs & ->)%Forall2_cons_inv_l. inversion Hseg; subst.
    cbn [render render_segment]. rewrite parse_reference by done. f_equal. by apply IH.
  - rewrite parse_literal by done. intros (seg & segs' & Hseg & Hsegs & ->)%Forall2_cons_inv_l. inversion Hseg; subst.
    cbn [render render_segment]. rewrite app_cons, app_empty_l, parse_literal by by eapply shape_reference_at. f_equal. by apply IH.
Qed.

Lemma parse_plain_reference k : no_dollar k → no_paren k → parse (reference k) = [Ref k].
Proof. intros. rewrite <-(app_empty_r (reference k)). by apply parse_reference. Qed.

(** In any text [ApplyReplacements] replaces every reference to a key by its
    value, in one pass: a value that itself looks like a reference is not
    replaced again. *)
Lemma ApplyReplacements_parse {MO : MapOrder} r s :
  wf_table r → map_Forall (λ k _, no_dollar k) r → ApplyReplacements s r = render (map (subst_segment r) (parse s)).
Proof.
  intros Hr Hd. unfold ApplyReplacements. induction s as [|k rest Hkd Hkp IH|c s Hat IH] using text_ind.
  - done.
  - rewrite parse_reference, Replace_reference by done. cbn [map render]. by rewrite IH.
  - rewrite parse_literal by done. cbn [map render subst_segment render_segment]. rewrite app_cons, app_empty_l, <-IH. apply Replace_copy.
    apply first_match_None. intros old new (k & -> & Hk)%elem_of_replacementsList. destruct (HasPrefix _ _) eqn:Hp; [|done].
    apply HasPrefix_spec in Hp as [rest Heq]. assert (reference_at (String c s) = Some k) as Hsome; [|congruence].
    apply reference_at_Some. split_and!; [by apply (Hd _ _ Hk)|by apply (Hr _ _ Hk)|by exists rest].
Qed.

(** The order in which Go visits the map is not observable. *)
Lemma order_ApplyReplacements (O1 O2 : MapOrder) r s :
  wf_table r → @ApplyReplacements O1 s r = @ApplyReplacements O2 s r.
Proof.
  intros Hr. unfold ApplyReplacements. apply Replace_prefix_free.
  - apply NoDup_replacementsList.
  - by apply prefix_free_replacementsList.
  - unfold replacementsList. by rewrite !map_range_perm.
Qed.

Lemma ApplyReplacements_empty {MO : MapOrder} s : ApplyReplacements s ∅ = s.
Proof.
  unfold ApplyReplacements. assert (map_range (∅ : gmap string string) = []) as ->.
  { apply Permutation_nil. by rewrite map_range_perm, map_to_list_empty. }
  apply Replace_nil.
Qed.
