(* ===== verification/StepMerge.v ===== *)
(** [MergeStepsWithStepTemplate] of Tekton's v1beta1/merge.go: each step's
    container is merged with the step template. The merge of two containers
    is a strategic three-way JSON patch of
    k8s.io/apimachinery/pkg/util/strategicpatch; here it is the interface
    [ContainerMerge], whose two operations are the calls the code makes. *)
From S2P Require Import Prelude Types.

(** What the merge of the steps calls. *)
Class ContainerMerge := {
  (** The error of [getMergeData(template, &v1.Container{})], if any. *)
  getMergeData : Container → option error;
  (** [mergeObjWithTemplateBytes(md, &s.Container, &merged)]: the error, or
      the new value of [merged]. *)
  mergeObjWithTemplateBytes : Container → Container → fallible Container
}.

(** What the patch guarantees about a container's name: [name] has no
    [omitempty], so the patch of a container sets it even when it is empty. *)
Class ContainerMergeLaws (M : ContainerMerge) := {
  merge_keeps_Name template c merged :
    mergeObjWithTemplateBytes template c = inr merged → Container_Name merged = Container_Name c
}.

Section merge.
Context {CM : ContainerMerge}.

(** The body of the loop over the steps. The new step has the merged
    container and the script, the error mode and the timeout of the old
    one; its workspaces are not carried over. *)
Definition mergeStep (template : Container) (s : V1beta1.Step) : fallible V1beta1.Step :=
  let? merged := mergeObjWithTemplateBytes template (V1beta1.Step_Container s) in
  let merged := match Container_Args merged, Container_Args (V1beta1.Step_Container s) with
                | None, Some _ => set_Container_Args (Some []) merged
                | _, _ => merged
                end in
  inr {| V1beta1.Step_Container := merged;
         V1beta1.Step_Script := V1beta1.Step_Script s;
         V1beta1.Step_Timeout := V1beta1.Step_Timeout s;
         V1beta1.Step_Workspaces := [];
         V1beta1.Step_OnError := V1beta1.Step_OnError s |}.

Fixpoint mergeSteps (template : Container) (steps : list V1beta1.Step) : fallible (list V1beta1.Step) :=
  match steps with
  | [] => inr []
  | s :: steps =>
    let? s := mergeStep template s in
    let? steps := mergeSteps template steps in
    inr (s :: steps)
  end.

(** [func MergeStepsWithStepTemplate(template *v1.Container, steps []Step) ([]Step, error)] *)
Definition MergeStepsWithStepTemplate (template : option Container) (steps : list V1beta1.Step) :
    fallible (list V1beta1.Step) :=
  match template with
  | None => inr steps
  | Some template =>
    match getMergeData template with
    | Some err => inl err
    | None => mergeSteps template steps
    end
  end.

(** ** Lemmas *)
Lemma mergeSteps_Forall2 template steps steps' :
  mergeSteps template steps = inr steps' ↔
  Forall2 (λ s s', mergeStep template s = inr s') steps steps'.
Proof.
  revert steps'. induction steps as [|s steps IH]; intros steps'; simpl.
  - split; [by intros [= <-]|]. by inversion 1.
  - unfold bind_fallible. split.
    + destruct (mergeStep template s) as [e|t] eqn:Hs; [done|].
      destruct (mergeSteps template steps) as [e|ts] eqn:Hts; [done|]. intros [= <-].
      constructor; [done|]. by apply IH.
    + inversion 1 as [|? t ? ts Hs Hts]; subst. rewrite Hs.
      apply IH in Hts. by rewrite Hts.
Qed.

Lemma length_MergeSteps template steps steps' :
  MergeStepsWithStepTemplate template steps = inr steps' → length steps' = length steps.
Proof.
  destruct template as [t|]; simpl; [|by intros [= <-]].
  destruct (getMergeData t); [done|]. intros H%mergeSteps_Forall2.
  symmetry. by eapply Forall2_length.
Qed.

Lemma mergeStep_Name {CML : ContainerMergeLaws CM} template s s' :
  mergeStep template s = inr s' →
  Container_Name (V1beta1.Step_Container s') = Container_Name (V1beta1.Step_Container s).
Proof.
  unfold mergeStep, bind_fallible. intros H.
  destruct (mergeObjWithTemplateBytes _ _) as [e|m] eqn:Hm; [done|]. simplify_eq/=.
  apply merge_keeps_Name in Hm. by repeat case_match.
Qed.

Lemma names_MergeSteps {CML : ContainerMergeLaws CM} template steps steps' :
  MergeStepsWithStepTemplate template steps = inr steps' →
  map (Container_Name ∘ V1beta1.Step_Container) steps' =
  map (Container_Name ∘ V1beta1.Step_Container) steps.
Proof.
  destruct template as [t|]; simpl; [|by intros [= <-]].
  destruct (getMergeData t); [done|]. intros H%mergeSteps_Forall2.
  induction H as [|s s' ? ? Hs _ IH]; [done|]. cbn. by rewrite IH, (mergeStep_Name _ _ _ Hs).
Qed.
End merge.

(** A merge to evaluate the definitions with: the template only provides the
    image of a container that has none. *)
Definition image_merge : ContainerMerge := {|
  getMergeData _ := None;
  mergeObjWithTemplateBytes template c := inr {|
    Container_Name := Container_Name c;
    Container_Image := if bool_decide (Container_Image c = "") then Container_Image template
                       else Container_Image c;
    Container_Command := Container_Command c; Container_Args := Container_Args c;
    Container_WorkingDir := Container_WorkingDir c; Container_Ports := Container_Ports c;
    Container_EnvFrom := Container_EnvFrom c; Container_Env := Container_Env c;
    Container_Resources := Container_Resources c;
    Container_VolumeMounts := Container_VolumeMounts c;
    Container_VolumeDevices := Container_VolumeDevices c;
    Container_LivenessProbe := Container_LivenessProbe c;
    Container_ReadinessProbe := Container_ReadinessProbe c;
    Container_StartupProbe := Container_StartupProbe c;
    Container_Lifecycle := Container_Lifecycle c;
    Container_TerminationMessagePath := Container_TerminationMessagePath c;
    Container_TerminationMessagePolicy := Container_TerminationMessagePolicy c;
    Container_ImagePullPolicy := Container_ImagePullPolicy c;
    Container_SecurityContext := Container_SecurityContext c;
    Container_Stdin := Container_Stdin c; Container_StdinOnce := Container_StdinOnce c;
    Container_TTY := Container_TTY c
  |}
|}.

Definition image_merge_laws : ContainerMergeLaws image_merge.
Proof. constructor. by intros ??? [= <-]. Defined.
