(* ===== verification/Resolve.v ===== *)
(** pkg/resolve/taskgroup.go: the task a TaskGroup is run as. [TaskSpec] goes
    through the steps of the group, replaces each step with a [uses] by the
    steps of the task it refers to, and merges the parameters, workspaces,
    results, sidecars and volumes of those tasks into the group's own. *)
From S2P Require Import Prelude GoStrings Types Substitution StepMerge.
From Stdlib Require Import Ascii.
Import V1beta1.

(** The type [stepTransformer]: a function from a step to a step or an error. *)
Definition stepTransformer : Type := Step → Step * option error.

(** The type [taskSpecTransformer]: a function from a task spec to a task spec,
    with an error or not. *)
Definition taskSpecTransformer : Type := TaskSpec → TaskSpec * option error.

(** ** Assignments to a field of a task spec *)
Definition set_Params (l : list ParamSpec) (t : TaskSpec) : TaskSpec := {|
  TaskSpec_Resources := TaskSpec_Resources t; TaskSpec_Params := l;
  TaskSpec_Description := TaskSpec_Description t; TaskSpec_Steps := TaskSpec_Steps t;
  TaskSpec_Volumes := TaskSpec_Volumes t; TaskSpec_StepTemplate := TaskSpec_StepTemplate t;
  TaskSpec_Sidecars := TaskSpec_Sidecars t; TaskSpec_Workspaces := TaskSpec_Workspaces t;
  TaskSpec_Results := TaskSpec_Results t |}.

Definition set_Steps (l : list Step) (t : TaskSpec) : TaskSpec := {|
  TaskSpec_Resources := TaskSpec_Resources t; TaskSpec_Params := TaskSpec_Params t;
  TaskSpec_Description := TaskSpec_Description t; TaskSpec_Steps := l;
  TaskSpec_Volumes := TaskSpec_Volumes t; TaskSpec_StepTemplate := TaskSpec_StepTemplate t;
  TaskSpec_Sidecars := TaskSpec_Sidecars t; TaskSpec_Workspaces := TaskSpec_Workspaces t;
  TaskSpec_Results := TaskSpec_Results t |}.

Definition set_Volumes (l : list Volume) (t : TaskSpec) : TaskSpec := {|
  TaskSpec_Resources := TaskSpec_Resources t; TaskSpec_Params := TaskSpec_Params t;
  TaskSpec_Description := TaskSpec_Description t; TaskSpec_Steps := TaskSpec_Steps t;
  TaskSpec_Volumes := l; TaskSpec_StepTemplate := TaskSpec_StepTemplate t;
  TaskSpec_Sidecars := TaskSpec_Sidecars t; TaskSpec_Workspaces := TaskSpec_Workspaces t;
  TaskSpec_Results := TaskSpec_Results t |}.

Definition set_Sidecars (l : list Sidecar) (t : TaskSpec) : TaskSpec := {|
  TaskSpec_Resources := TaskSpec_Resources t; TaskSpec_Params := TaskSpec_Params t;
  TaskSpec_Description := TaskSpec_Description t; TaskSpec_Steps := TaskSpec_Steps t;
  TaskSpec_Volumes := TaskSpec_Volumes t; TaskSpec_StepTemplate := TaskSpec_StepTemplate t;
  TaskSpec_Sidecars := l; TaskSpec_Workspaces := TaskSpec_Workspaces t;
  TaskSpec_Results := TaskSpec_Results t |}.

Definition set_Workspaces (l : list WorkspaceDeclaration) (t : TaskSpec) : TaskSpec := {|
  TaskSpec_Resources := TaskSpec_Resources t; TaskSpec_Params := TaskSpec_Params t;
  TaskSpec_Description := TaskSpec_Description t; TaskSpec_Steps := TaskSpec_Steps t;
  TaskSpec_Volumes := TaskSpec_Volumes t; TaskSpec_StepTemplate := TaskSpec_StepTemplate t;
  TaskSpec_Sidecars := TaskSpec_Sidecars t; TaskSpec_Workspaces := l;
  TaskSpec_Results := TaskSpec_Results t |}.

Definition set_Results (l : list TaskResult) (t : TaskSpec) : TaskSpec := {|
  TaskSpec_Resources := TaskSpec_Resources t; TaskSpec_Params := TaskSpec_Params t;
  TaskSpec_Description := TaskSpec_Description t; TaskSpec_Steps := TaskSpec_Steps t;
  TaskSpec_Volumes := TaskSpec_Volumes t; TaskSpec_StepTemplate := TaskSpec_StepTemplate t;
  TaskSpec_Sidecars := TaskSpec_Sidecars t; TaskSpec_Workspaces := TaskSpec_Workspaces t;
  TaskSpec_Results := l |}.

(** ** The merge functions

    All five follow one pattern: the group's own items, in order, are the
    result so far, and [seen] maps their names to them (the last of two items
    of one name wins); an item of a used task whose name is in [seen] is
    dropped, or is an error when [conflict] says so; every other item is
    appended. [seen] is not extended with the appended items. *)
Section merge_by_name.
Context {A : Type} (name : A → string) (conflict : A → A → option error).

Definition seenNames (items : list A) : gmap string A :=
  foldl (λ seen x, <[name x := x]> seen) ∅ items.

Fixpoint mergeLoop (seen : gmap string A) (result : list A) (ut : list A) : fallible (list A) :=
  match ut with
  | [] => inr result
  | x :: ut =>
    match seen !! name x with
    | Some sx =>
      match conflict sx x with
      | Some err => inl err
      | None => mergeLoop seen result ut
      end
    | None => mergeLoop seen (result ++ [x]) ut
    end
  end.

Definition mergeByName (items ut : list A) : fallible (list A) :=
  mergeLoop (seenNames items) items ut.
End merge_by_name.

(** [return spec, err], or the assignment and [return spec, nil]. *)
Definition transform {A} (merged : fallible A) (set : A → TaskSpec → TaskSpec) (spec : TaskSpec) :
    TaskSpec * option error :=
  match merged with
  | inl err => (spec, Some err)
  | inr l => (set l spec, None)
  end.

Definition param_conflict (sp p : ParamSpec) : option error :=
  if bool_decide (ParamSpec_Type sp ≠ ParamSpec_Type p)
  then Some (errorString ("Duplicate param " +:+ ParamSpec_Name p +:+ " with different types"))
  else None.

Definition mergeParams (utParams : list ParamSpec) : taskSpecTransformer := λ spec,
  transform (mergeByName ParamSpec_Name param_conflict (TaskSpec_Params spec) utParams) set_Params spec.

Definition workspace_conflict (sw w : WorkspaceDeclaration) : option error :=
  let dup text :=
    Some (errorString ("Duplicate workspace " +:+ WorkspaceDeclaration_Name w +:+ " with different " +:+ text)) in
  if bool_decide (WorkspaceDeclaration_MountPath sw ≠ WorkspaceDeclaration_MountPath w) then dup "mountPath"
  else if bool_decide (WorkspaceDeclaration_ReadOnly sw ≠ WorkspaceDeclaration_ReadOnly w) then dup "readOnly option"
  else if bool_decide (WorkspaceDeclaration_Optional sw ≠ WorkspaceDeclaration_Optional w) then dup "optional option"
  else None.

Definition mergeWorkspaces (utWorkspaces : list WorkspaceDeclaration) : taskSpecTransformer := λ spec,
  transform (mergeByName WorkspaceDeclaration_Name workspace_conflict (TaskSpec_Workspaces spec) utWorkspaces)
    set_Workspaces spec.

Definition result_conflict (sr r : TaskResult) : option error := None.

Definition mergeResults (utResults : list TaskResult) : taskSpecTransformer := λ spec,
  transform (mergeByName TaskResult_Name result_conflict (TaskSpec_Results spec) utResults) set_Results spec.

(** [s.Name], of the embedded container. *)
Definition Sidecar_Name (s : Sidecar) : string := Container_Name (Sidecar_Container s).
Definition Step_Name (s : Step) : string := Container_Name (Step_Container s).

Definition sidecar_conflict (ss s : Sidecar) : option error :=
  Some (errorString ("Duplicated sidecars: " +:+ Sidecar_Name s)).

Definition mergeSidecars (utSidecars : list Sidecar) : taskSpecTransformer := λ spec,
  transform (mergeByName Sidecar_Name sidecar_conflict (TaskSpec_Sidecars spec) utSidecars) set_Sidecars spec.

Definition volume_conflict (sv v : Volume) : option error :=
  Some (errorString ("Duplicated volumes: " +:+ Volume_Name v)).

Definition mergeVolumes (utVolumes : list Volume) : taskSpecTransformer := λ spec,
  transform (mergeByName Volume_Name volume_conflict (TaskSpec_Volumes spec) utVolumes) set_Volumes spec.

(** The last loop of [TaskSpec]. The transformers mutate the spec they are
    given, so the spec returned in the end has all their assignments. *)
Fixpoint applyTransformers (ts : list taskSpecTransformer) (spec : TaskSpec) : TaskSpec * option error :=
  match ts with
  | [] => (spec, None)
  | t :: ts =>
    match t spec with
    | (spec, Some err) => (spec, Some err)
    | (spec, None) => applyTransformers ts spec
    end
  end.

(** ** The steps of a used task *)

(** The inner loop of [resolveSteps]. *)
Fixpoint runTransformers (ts : list stepTransformer) (ps : Step) : Step * option error :=
  match ts with
  | [] => (ps, None)
  | t :: ts =>
    match t ps with
    | (ps, Some err) => (ps, Some err)
    | (ps, None) => runTransformers ts ps
    end
  end.

(** The outer loop. A transformer works on the step it is given in place, so
    the [s.Name] of the last assignment is the transformed name. On an error
    the entries not yet assigned are zero steps. *)
Fixpoint resolveStepList (name : string) (ts : list stepTransformer) (steps : list Step) :
    list Step * option error :=
  match steps with
  | [] => ([], None)
  | s :: steps =>
    match runTransformers ts s with
    | (_, Some err) => (replicate (length (s :: steps)) zero_Step, Some err)
    | (ps, None) =>
      let '(rest, err) := resolveStepList name ts steps in
      (set_Step_Name (name +:+ "-" +:+ Step_Name ps) ps :: rest, err)
    end
  end.

(** [func resolveSteps(name string, taskSpec v1beta1.TaskSpec, transformers ...stepTransformer)] *)
Definition resolveSteps (name : string) (taskSpec : TaskSpec) (ts : list stepTransformer) :
    list Step * option error :=
  resolveStepList name ts (TaskSpec_Steps taskSpec).

Section resolve.
Context {MO : MapOrder} {CM : ContainerMerge}.

(** The table [r] of [replaceParams]. *)
Definition params_entry (r : gmap string string) (b : string * string) : gmap string string :=
  let '(old, new) := b in
  let r := <["params." +:+ old := "$(params." +:+ new +:+ ")"]> r in
  let r := <["params['" +:+ old +:+ "']" := "$(params['" +:+ new +:+ "'])"]> r in
  <["params[" +:+ String "034" (old +:+ String "034" "]") :=
    "$(params[" +:+ String "034" (new +:+ String "034" "])")]> r.

Definition params_table (bindings : gmap string string) : gmap string string :=
  foldl params_entry ∅ (map_range bindings).

(** [func replaceParams(bindings map[string]string) stepTransformer] *)
Definition replaceParams (bindings : gmap string string) : stepTransformer := λ s,
  (ApplyStepReplacements s (params_table bindings) [], None).

(** The table [r] of [replaceWorkspaces]. *)
Definition workspace_key (field name : string) : string := "workspaces." +:+ name +:+ "." +:+ field.

Definition workspaces_entry (r : gmap string string) (b : string * string) : gmap string string :=
  let '(old, new) := b in
  foldl (λ r field, <[workspace_key field old := reference (workspace_key field new)]> r) r
    ["path"; "bound"; "claim"; "volume"].

Definition workspaces_table (bindings : gmap string string) : gmap string string :=
  foldl workspaces_entry ∅ (map_range bindings).

(** [func replaceWorkspaces(bindings map[string]string) stepTransformer] *)
Definition replaceWorkspaces (bindings : gmap string string) : stepTransformer := λ s,
  (ApplyStepReplacements s (workspaces_table bindings) [], None).

(** ** [TaskSpec] *)

(** The variables of the loop over the group's steps. *)
Record Acc := {
  taskSpec : TaskSpec;
  usedTaskSpecsParams : list ParamSpec;
  usedTaskSpecsWorkspaces : list WorkspaceDeclaration;
  usedTaskSpecResults : list TaskResult;
  usedTaskSpecSidecars : list Sidecar;
  usedTaskSpecVolumes : list Volume
}.

(** The map of the bindings (the last binding of a name wins), and the
    items of the used task that no binding names. *)
Definition bindAll {B} (name target : B → string) (bs : list B) : gmap string string :=
  foldl (λ m b, <[name b := target b]> m) ∅ bs.

Definition notBound {A} (name : A → string) (bindings : gmap string string) (items : list A) : list A :=
  filter (λ x, bindings !! name x = None) items.

(** [if len(bs) > 0 { fill the map; append the unbound } else { append all }] *)
Definition bindItems {A B} (bname btarget : B → string) (name : A → string) (bs : list B) (items : list A) :
    gmap string string * list A :=
  if bool_decide (0 < length bs)
  then let bindings := bindAll bname btarget bs in (bindings, notBound name bindings items)
  else (∅, items).

(** [stepName], when the step has a [uses]. *)
Definition useName (i : nat) (name : string) : string :=
  if bool_decide (name = "") then "unamed-" +:+ Itoa i else name.

(** The body of the loop over [spec.Steps]. *)
Definition TaskSpec_step (spec : V1alpha1.TaskGroupSpec) (usedTaskSpecs : gmap nat TaskSpec)
    (i : nat) (step : V1alpha1.Step) (a : Acc) : (TaskSpec * error) + Acc :=
  let collected :=
    match V1alpha1.Step_Uses step with
    | Some uses =>
      match usedTaskSpecs !! i with
      | None =>
        inl (errorString ("step " +:+ Step_Name (V1alpha1.Step_Step step) +:+ " uses not found"))
      | Some usedTaskSpec =>
        let '(paramBindings, params) :=
          bindItems V1alpha1.ParamBinding_Name V1alpha1.ParamBinding_Param ParamSpec_Name
            (V1alpha1.Uses_ParamBindings uses) (TaskSpec_Params usedTaskSpec) in
        let '(workspaceBindings, workspaces) :=
          bindItems V1alpha1.WorkspaceBinding_Name V1alpha1.WorkspaceBinding_Workspace
            WorkspaceDeclaration_Name
            (V1alpha1.Uses_WorkspaceBindings uses) (TaskSpec_Workspaces usedTaskSpec) in
        let a := {|
          taskSpec := taskSpec a;
          usedTaskSpecsParams := usedTaskSpecsParams a ++ params;
          usedTaskSpecsWorkspaces := usedTaskSpecsWorkspaces a ++ workspaces;
          usedTaskSpecResults := usedTaskSpecResults a ++ TaskSpec_Results usedTaskSpec;
          usedTaskSpecSidecars := usedTaskSpecSidecars a ++ TaskSpec_Sidecars usedTaskSpec;
          usedTaskSpecVolumes := usedTaskSpecVolumes a ++ TaskSpec_Volumes usedTaskSpec |} in
        let stepName := useName i (Step_Name (V1alpha1.Step_Step step)) in
        match resolveSteps stepName usedTaskSpec
                [replaceParams paramBindings; replaceWorkspaces workspaceBindings] with
        | (_, Some err) => inl err
        | (rs, None) => inr (a, rs, TaskSpec_StepTemplate usedTaskSpec)
        end
      end
    | None => inr (a, [V1alpha1.Step_Step step], V1alpha1.TaskGroupSpec_StepTemplate spec)
    end in
  match collected with
  | inl err => inl (taskSpec a, err)
  | inr (a, steps, stepTemplate) =>
    match MergeStepsWithStepTemplate stepTemplate steps with
    | inl err => inl (taskSpec a, err)
    | inr steps => inr {|
        taskSpec := set_Steps (TaskSpec_Steps (taskSpec a) ++ steps) (taskSpec a);
        usedTaskSpecsParams := usedTaskSpecsParams a;
        usedTaskSpecsWorkspaces := usedTaskSpecsWorkspaces a;
        usedTaskSpecResults := usedTaskSpecResults a;
        usedTaskSpecSidecars := usedTaskSpecSidecars a;
        usedTaskSpecVolumes := usedTaskSpecVolumes a |}
    end
  end.

(** The spec the loop starts from: the group's own items, without steps and
    without a step template. *)
Definition initialSpec (spec : V1alpha1.TaskGroupSpec) : TaskSpec := {|
  TaskSpec_Resources := None;
  TaskSpec_Params := V1alpha1.TaskGroupSpec_Params spec;
  TaskSpec_Description := V1alpha1.TaskGroupSpec_Description spec;
  TaskSpec_Steps := [];
  TaskSpec_Volumes := V1alpha1.TaskGroupSpec_Volumes spec;
  TaskSpec_StepTemplate := None;
  TaskSpec_Sidecars := V1alpha1.TaskGroupSpec_Sidecars spec;
  TaskSpec_Workspaces := V1alpha1.TaskGroupSpec_Workspaces spec;
  TaskSpec_Results := V1alpha1.TaskGroupSpec_Results spec |}.

Definition initialAcc (spec : V1alpha1.TaskGroupSpec) : Acc := {|
  taskSpec := initialSpec spec; usedTaskSpecsParams := []; usedTaskSpecsWorkspaces := [];
  usedTaskSpecResults := []; usedTaskSpecSidecars := []; usedTaskSpecVolumes := [] |}.

(** [func TaskSpec(spec, usedTaskSpecs)], with the spec built so far also when
    there is an error. *)
Definition resolveTaskSpec (spec : V1alpha1.TaskGroupSpec) (usedTaskSpecs : gmap nat TaskSpec) :
    TaskSpec * option error :=
  match forRange (TaskSpec_step spec usedTaskSpecs) 0 (V1alpha1.TaskGroupSpec_Steps spec)
          (initialAcc spec) with
  | inl (taskSpec, err) => (taskSpec, Some err)
  | inr a =>
    applyTransformers [
      mergeParams (usedTaskSpecsParams a);
      mergeWorkspaces (usedTaskSpecsWorkspaces a);
      mergeResults (usedTaskSpecResults a);
      mergeSidecars (usedTaskSpecSidecars a);
      mergeVolumes (usedTaskSpecVolumes a)] (taskSpec a)
  end.
End resolve.
