(* ===== verification/ResolveSpec.v ===== *)
(** What the resolver of pkg/resolve/taskgroup.go promises, and that
    [resolveTaskSpec] keeps it.

    The specification is relational: a step of the group [contributes] steps,
    parameters, workspaces, results, sidecars and volumes; the contributions
    are put together by [assemble]; and the group and its contributions must
    be [compatible]. The lemmas take the merges and the loop apart; the
    theorems are in ResolveTheorems. *)
From S2P Require Import Prelude GoStrings Types Substitution StepMerge Resolve.
From Stdlib Require Import Ascii.
Import V1beta1.

(** ** Specification *)

(** The last item of a name, which is the one that counts. *)
Definition lastNamed {A} (name : A → string) (items : list A) (n : string) : option A :=
  last (filter (λ x, name x = n) items).

(** The items whose name is not one of the group's own. *)
Definition fresh {A} (name : A → string) (own items : list A) : list A :=
  filter (λ x, name x ∉ name <$> own) items.

(** The items no binding names. *)
Definition unbound {A B} (bname : B → string) (name : A → string) (bs : list B) (items : list A) : list A :=
  filter (λ x, name x ∉ bname <$> bs) items.

(** What one step of the group adds to the task. *)
Record Contribution := {
  c_steps : list Step;
  c_params : list ParamSpec;
  c_workspaces : list WorkspaceDeclaration;
  c_results : list TaskResult;
  c_sidecars : list Sidecar;
  c_volumes : list Volume
}.

Section specification.
Context {MO : MapOrder} {CM : ContainerMerge}.
Implicit Types (spec : V1alpha1.TaskGroupSpec) (used : gmap nat TaskSpec).

Definition boundParams (u : V1alpha1.Uses) : gmap string string :=
  bindAll V1alpha1.ParamBinding_Name V1alpha1.ParamBinding_Param (V1alpha1.Uses_ParamBindings u).

Definition boundWorkspaces (u : V1alpha1.Uses) : gmap string string :=
  bindAll V1alpha1.WorkspaceBinding_Name V1alpha1.WorkspaceBinding_Workspace
    (V1alpha1.Uses_WorkspaceBindings u).

(** A step of the used task with the bound names replaced. *)
Definition interpolate (pb wb : gmap string string) (s : Step) : Step :=
  ApplyStepReplacements (ApplyStepReplacements s (params_table pb) []) (workspaces_table wb) [].

(** The steps of the used task, before they meet its step template. *)
Definition usedSteps (i : nat) (step : V1alpha1.Step) (u : V1alpha1.Uses) (t : TaskSpec) : list Step :=
  map (λ s, let s := interpolate (boundParams u) (boundWorkspaces u) s in
            set_Step_Name (useName i (Step_Name (V1alpha1.Step_Step step)) +:+ "-" +:+ Step_Name s) s)
    (TaskSpec_Steps t).

Inductive contributes spec used (i : nat) (step : V1alpha1.Step) : Contribution → Prop :=
  | contributes_own steps :
      V1alpha1.Step_Uses step = None →
      MergeStepsWithStepTemplate (V1alpha1.TaskGroupSpec_StepTemplate spec)
        [V1alpha1.Step_Step step] = inr steps →
      contributes spec used i step
        {| c_steps := steps; c_params := []; c_workspaces := []; c_results := [];
           c_sidecars := []; c_volumes := [] |}
  | contributes_use u t steps :
      V1alpha1.Step_Uses step = Some u →
      used !! i = Some t →
      MergeStepsWithStepTemplate (TaskSpec_StepTemplate t) (usedSteps i step u t) = inr steps →
      contributes spec used i step
        {| c_steps := steps;
           c_params := unbound V1alpha1.ParamBinding_Name ParamSpec_Name
                         (V1alpha1.Uses_ParamBindings u) (TaskSpec_Params t);
           c_workspaces := unbound V1alpha1.WorkspaceBinding_Name WorkspaceDeclaration_Name
                             (V1alpha1.Uses_WorkspaceBindings u) (TaskSpec_Workspaces t);
           c_results := TaskSpec_Results t;
           c_sidecars := TaskSpec_Sidecars t;
           c_volumes := TaskSpec_Volumes t |}.

(** The contributions of the steps from index [i] on. *)
Inductive contributions spec used : nat → list V1alpha1.Step → list Contribution → Prop :=
  | contributions_nil i : contributions spec used i [] []
  | contributions_cons i step steps c cs :
      contributes spec used i step c →
      contributions spec used (i + 1) steps cs →
      contributions spec used i (step :: steps) (c :: cs).

Definition allParams (cs : list Contribution) : list ParamSpec := concat (map c_params cs).
Definition allWorkspaces (cs : list Contribution) : list WorkspaceDeclaration :=
  concat (map c_workspaces cs).
Definition allResults (cs : list Contribution) : list TaskResult := concat (map c_results cs).
Definition allSidecars (cs : list Contribution) : list Sidecar := concat (map c_sidecars cs).
Definition allVolumes (cs : list Contribution) : list Volume := concat (map c_volumes cs).

(** The task: the group's own items, then what the used tasks add. *)
Definition assemble spec (cs : list Contribution) : TaskSpec := {|
  TaskSpec_Resources := None;
  TaskSpec_Params := V1alpha1.TaskGroupSpec_Params spec ++
    fresh ParamSpec_Name (V1alpha1.TaskGroupSpec_Params spec) (allParams cs);
  TaskSpec_Description := V1alpha1.TaskGroupSpec_Description spec;
  TaskSpec_Steps := concat (map c_steps cs);
  TaskSpec_Volumes := V1alpha1.TaskGroupSpec_Volumes spec ++ allVolumes cs;
  TaskSpec_StepTemplate := None;
  TaskSpec_Sidecars := V1alpha1.TaskGroupSpec_Sidecars spec ++ allSidecars cs;
  TaskSpec_Workspaces := V1alpha1.TaskGroupSpec_Workspaces spec ++
    fresh WorkspaceDeclaration_Name (V1alpha1.TaskGroupSpec_Workspaces spec) (allWorkspaces cs);
  TaskSpec_Results := V1alpha1.TaskGroupSpec_Results spec ++
    fresh TaskResult_Name (V1alpha1.TaskGroupSpec_Results spec) (allResults cs)
|}.

(** What the group declares agrees with what the used tasks need: equal
    parameter types, equal workspace options, no sidecar and no volume
    twice. *)
Record compatible spec (cs : list Contribution) : Prop := {
  compatible_params : ∀ p d, p ∈ allParams cs →
    lastNamed ParamSpec_Name (V1alpha1.TaskGroupSpec_Params spec) (ParamSpec_Name p) = Some d →
    ParamSpec_Type d = ParamSpec_Type p;
  compatible_workspaces : ∀ w d, w ∈ allWorkspaces cs →
    lastNamed WorkspaceDeclaration_Name (V1alpha1.TaskGroupSpec_Workspaces spec)
      (WorkspaceDeclaration_Name w) = Some d →
    WorkspaceDeclaration_MountPath d = WorkspaceDeclaration_MountPath w ∧
    WorkspaceDeclaration_ReadOnly d = WorkspaceDeclaration_ReadOnly w ∧
    WorkspaceDeclaration_Optional d = WorkspaceDeclaration_Optional w;
  compatible_sidecars : ∀ s, s ∈ allSidecars cs →
    Sidecar_Name s ∉ Sidecar_Name <$> V1alpha1.TaskGroupSpec_Sidecars spec;
  compatible_volumes : ∀ v, v ∈ allVolumes cs →
    Volume_Name v ∉ Volume_Name <$> V1alpha1.TaskGroupSpec_Volumes spec
}.

End specification.

(** ** Lemmas on the merge functions *)
Section merge_lemmas.
Context {A : Type} (name : A → string) (conflict : A → A → option error).
Implicit Types (items ut : list A).

Lemma seenNames_snoc items x :
  seenNames name (items ++ [x]) = <[name x := x]> (seenNames name items).
Proof using name. unfold seenNames. by rewrite foldl_app. Qed.

Lemma seenNames_lookup items n : seenNames name items !! n = lastNamed name items n.
Proof using name.
  unfold lastNamed. induction items as [|x items IH] using rev_ind; [done|].
  rewrite seenNames_snoc, filter_app, filter_cons, filter_nil.
  destruct (decide (name x = n)) as [<-|Hne].
  - by rewrite lookup_insert_eq, last_snoc.
  - by rewrite lookup_insert_ne, IH, app_nil_r.
Qed.

Lemma lastNamed_None items n : lastNamed name items n = None ↔ n ∉ name <$> items.
Proof using name.
  clear conflict. unfold lastNamed. rewrite last_None, filter_nil_iff, list_elem_of_fmap. naive_solver.
Qed.

Lemma lastNamed_Some items n x : lastNamed name items n = Some x → x ∈ items ∧ name x = n.
Proof using name. clear conflict. unfold lastNamed. intros H%last_Some_elem_of. by apply list_elem_of_filter in H as []. Qed.

(** An item of a used task that may be dropped or appended. *)
Definition admissible items (u : A) : Prop :=
  ∀ d, lastNamed name items (name u) = Some d → conflict d u = None.

(** The loop ends when every item is admissible, and then it has appended
    the items of new names. *)
Lemma mergeLoop_inr items result ut l :
  mergeLoop name conflict (seenNames name items) result ut = inr l ↔
  (∀ u, u ∈ ut → admissible items u) ∧ l = result ++ fresh name items ut.
Proof.
  revert result. induction ut as [|u ut IH]; intros result; simpl.
  - unfold fresh. rewrite filter_nil, app_nil_r. split; [intros [= <-]|intros [_ ->]]; [|done].
    split; [|done]. intros u Hu. by apply elem_of_nil in Hu.
  - rewrite seenNames_lookup. unfold fresh, admissible in *. setoid_rewrite elem_of_cons.
    destruct (lastNamed name items (name u)) as [d|] eqn:Hd.
    + rewrite filter_cons_False.
      2: { intros Hn. apply Hn, dec_stable. intros Hn'. apply lastNamed_None in Hn'. congruence. }
      destruct (conflict d u) as [e|] eqn:Hc.
      * split; [done|]. intros [H _]. rewrite (H u (or_introl eq_refl) d Hd) in Hc. done.
      * rewrite IH. naive_solver.
    + rewrite filter_cons_True by by apply lastNamed_None.
      rewrite IH, <-app_assoc. naive_solver.
Qed.

Lemma mergeByName_inr items ut l :
  mergeByName name conflict items ut = inr l ↔
  (∀ u, u ∈ ut → admissible items u) ∧ l = items ++ fresh name items ut.
Proof. apply mergeLoop_inr. Qed.

(** The error is that of the first item that is not admissible. *)
Lemma mergeLoop_inl items result ut e :
  mergeLoop name conflict (seenNames name items) result ut = inl e ↔
  ∃ ut1 u ut2 d, ut = ut1 ++ u :: ut2 ∧ (∀ v, v ∈ ut1 → admissible items v) ∧
    lastNamed name items (name u) = Some d ∧ conflict d u = Some e.
Proof.
  revert result. induction ut as [|u ut IH]; intros result; simpl.
  - split; [done|]. by intros ([] & ? & ? & ? & ? & _).
  - rewrite seenNames_lookup. split.
    + destruct (lastNamed name items (name u)) as [d|] eqn:Hd.
      * destruct (conflict d u) as [e'|] eqn:Hc; intros Hrun; simplify_eq.
        { exists [], u, ut, d. split_and!; [done| |done..]. intros v Hv. by apply elem_of_nil in Hv. }
        apply IH in Hrun as (ut1 & v & ut2 & d' & -> & H1 & H2 & H3).
        exists (u :: ut1), v, ut2, d'. split_and!; [done| |done..].
        intros w [->|Hw]%elem_of_cons; [|by apply H1]. intros d'' Hd''. congruence.
      * intros Hrun. apply IH in Hrun as (ut1 & v & ut2 & d' & -> & H1 & H2 & H3).
        exists (u :: ut1), v, ut2, d'. split_and!; [done| |done..].
        intros w [->|Hw]%elem_of_cons; [|by apply H1]. intros d'' Hd''. congruence.
    + intros (ut1 & v & ut2 & d & Heq & H1 & H2 & H3).
      destruct ut1 as [|w ut1]; simplify_eq/=.
      * by rewrite H2, H3.
      * assert (mergeLoop name conflict (seenNames name items) result (ut1 ++ v :: ut2) = inl e) as Hr.
        { apply IH. exists ut1, v, ut2, d. split_and!; [done| |done..].
          intros x Hx. apply H1. by right. }
        destruct (lastNamed name items (name w)) as [d'|] eqn:Hd'.
        { rewrite (H1 w (list_elem_of_here _ _) d' Hd'). done. }
        apply IH. exists ut1, v, ut2, d. split_and!; [done| |done..].
        intros x Hx. apply H1. by right.
Qed.
End merge_lemmas.

(** ** Lemmas on the bindings *)
Lemma bindAll_None {B} (bname target : B → string) bs n :
  bindAll bname target bs !! n = None ↔ n ∉ bname <$> bs.
Proof.
  induction bs as [|b bs IH] using rev_ind; unfold bindAll in *.
  - simpl. rewrite lookup_empty. set_solver.
  - rewrite foldl_app, fmap_app. cbn [foldl]. rewrite lookup_insert_None, IH. set_solver.
Qed.

Lemma bindItems_spec {A B} (bname target : B → string) (name : A → string) bs items :
  bindItems bname target name bs items = (bindAll bname target bs, unbound bname name bs items).
Proof.
  unfold bindItems, notBound, unbound. case_bool_decide as Hlen.
  - f_equal. apply filter_equiv. intros x _. by rewrite bindAll_None.
  - destruct bs; [|simpl in *; lia]. f_equal. symmetry. apply filter_id. intros x _.
    apply not_elem_of_nil.
Qed.

(** ** The refinement *)
Section refinement.
Context {MO : MapOrder} {CM : ContainerMerge}.
Implicit Types (spec : V1alpha1.TaskGroupSpec) (used : gmap nat TaskSpec) (a : Acc).

(** The replacements of the program never fail. *)
Lemma resolveStepList_pure name pb wb steps :
  resolveStepList name [replaceParams pb; replaceWorkspaces wb] steps =
  (map (λ s, let s := interpolate pb wb s in set_Step_Name (name +:+ "-" +:+ Step_Name s) s) steps,
   None).
Proof. induction steps as [|s steps IH]; [done|]. simpl. by rewrite IH. Qed.

Lemma resolveSteps_usedSteps i step u t :
  resolveSteps (useName i (Step_Name (V1alpha1.Step_Step step))) t
    [replaceParams (boundParams u); replaceWorkspaces (boundWorkspaces u)] =
  (usedSteps i step u t, None).
Proof. apply resolveStepList_pure. Qed.

(** What one contribution adds to the variables of the loop. *)
Definition add (a : Acc) (c : Contribution) : Acc := {|
  taskSpec := set_Steps (TaskSpec_Steps (taskSpec a) ++ c_steps c) (taskSpec a);
  usedTaskSpecsParams := usedTaskSpecsParams a ++ c_params c;
  usedTaskSpecsWorkspaces := usedTaskSpecsWorkspaces a ++ c_workspaces c;
  usedTaskSpecResults := usedTaskSpecResults a ++ c_results c;
  usedTaskSpecSidecars := usedTaskSpecSidecars a ++ c_sidecars c;
  usedTaskSpecVolumes := usedTaskSpecVolumes a ++ c_volumes c |}.

Lemma TaskSpec_step_inr spec used i step a a' :
  TaskSpec_step spec used i step a = inr a' ↔ ∃ c, contributes spec used i step c ∧ a' = add a c.
Proof.
  unfold TaskSpec_step. split.
  - destruct (V1alpha1.Step_Uses step) as [u|] eqn:Hu.
    + destruct (used !! i) as [t|] eqn:Ht; [|done].
      rewrite !bindItems_spec. cbv beta iota zeta.
      fold (boundParams u) (boundWorkspaces u). rewrite resolveSteps_usedSteps.
      destruct (MergeStepsWithStepTemplate _ _) as [e|steps] eqn:Hm; [done|]. intros [= <-].
      eexists. split; [by eapply contributes_use|]. done.
    + destruct (MergeStepsWithStepTemplate _ _) as [e|steps] eqn:Hm; [done|]. intros [= <-].
      eexists. split; [by eapply contributes_own|]. unfold add. cbn. by rewrite !app_nil_r.
  - intros (c & [steps Hu Hm|u t steps Hu Ht Hm] & ->); rewrite Hu.
    + rewrite Hm. unfold add. cbn. by rewrite !app_nil_r.
    + rewrite Ht, !bindItems_spec. cbv beta iota zeta.
      fold (boundParams u) (boundWorkspaces u). rewrite resolveSteps_usedSteps.
      by rewrite Hm.
Qed.

Lemma TaskSpec_loop_inr spec used i steps a a' :
  forRange (TaskSpec_step spec used) i steps a = inr a' ↔
  ∃ cs, contributions spec used i steps cs ∧ a' = foldl add a cs.
Proof.
  revert i a. induction steps as [|step steps IH]; intros i a; simpl.
  - split.
    + intros [= <-]. exists []. split; [constructor|done].
    + intros (cs & Hcs & ->). by inversion Hcs.
  - split.
    + destruct (TaskSpec_step _ _ _ _ _) as [e|b] eqn:Hb; [done|].
      apply TaskSpec_step_inr in Hb as (c & Hc & ->).
      intros (cs & Hcs & ->)%IH. exists (c :: cs). split; [by constructor|done].
    + intros (cs & Hcs & ->). inversion Hcs as [|??? c cs' Hc Hcs']; subst.
      assert (TaskSpec_step spec used i step a = inr (add a c)) as -> by (apply TaskSpec_step_inr; eauto).
      apply IH. eauto.
Qed.

Lemma foldl_add a cs :
  foldl add a cs = {|
    taskSpec := set_Steps (TaskSpec_Steps (taskSpec a) ++ concat (map c_steps cs)) (taskSpec a);
    usedTaskSpecsParams := usedTaskSpecsParams a ++ allParams cs;
    usedTaskSpecsWorkspaces := usedTaskSpecsWorkspaces a ++ allWorkspaces cs;
    usedTaskSpecResults := usedTaskSpecResults a ++ allResults cs;
    usedTaskSpecSidecars := usedTaskSpecSidecars a ++ allSidecars cs;
    usedTaskSpecVolumes := usedTaskSpecVolumes a ++ allVolumes cs |}.
Proof.
  revert a. induction cs as [|c cs IH]; intros a.
  - unfold allParams, allWorkspaces, allResults, allSidecars, allVolumes. simpl.
    rewrite !app_nil_r. by destruct a as [[] ? ? ? ? ?].
  - cbn [foldl]. rewrite IH. unfold allParams, allWorkspaces, allResults, allSidecars, allVolumes.
    cbn. by rewrite <-!app_assoc.
Qed.

(** The five merges, each on its own field. *)
Lemma applyTransformers_None t ps ws rs ss vs t' :
  applyTransformers [mergeParams ps; mergeWorkspaces ws; mergeResults rs; mergeSidecars ss;
                     mergeVolumes vs] t = (t', None) ↔
  ∃ ps' ws' rs' ss' vs',
    mergeByName ParamSpec_Name param_conflict (TaskSpec_Params t) ps = inr ps' ∧
    mergeByName WorkspaceDeclaration_Name workspace_conflict (TaskSpec_Workspaces t) ws = inr ws' ∧
    mergeByName TaskResult_Name result_conflict (TaskSpec_Results t) rs = inr rs' ∧
    mergeByName Sidecar_Name sidecar_conflict (TaskSpec_Sidecars t) ss = inr ss' ∧
    mergeByName Volume_Name volume_conflict (TaskSpec_Volumes t) vs = inr vs' ∧
    t' = {| TaskSpec_Resources := TaskSpec_Resources t; TaskSpec_Params := ps';
            TaskSpec_Description := TaskSpec_Description t; TaskSpec_Steps := TaskSpec_Steps t;
            TaskSpec_Volumes := vs'; TaskSpec_StepTemplate := TaskSpec_StepTemplate t;
            TaskSpec_Sidecars := ss'; TaskSpec_Workspaces := ws'; TaskSpec_Results := rs' |}.
Proof.
  unfold mergeParams, mergeWorkspaces, mergeResults, mergeSidecars, mergeVolumes, transform.
  cbn -[mergeByName].
  repeat (match goal with |- context [match mergeByName ?n ?c ?l ?u with _ => _ end] =>
            destruct (mergeByName n c l u) end; cbn -[mergeByName]; [naive_solver|]).
  split; [intros [= <-]; do 5 eexists; split_and!; done|naive_solver].
Qed.

(** Admissibility of the items of each kind. *)
Lemma param_admissible own p :
  admissible ParamSpec_Name param_conflict own p ↔
  ∀ d, lastNamed ParamSpec_Name own (ParamSpec_Name p) = Some d → ParamSpec_Type d = ParamSpec_Type p.
Proof.
  unfold admissible, param_conflict. apply forall_proper. intros d.
  case_bool_decide; naive_solver.
Qed.

Lemma workspace_admissible own w :
  admissible WorkspaceDeclaration_Name workspace_conflict own w ↔
  ∀ d, lastNamed WorkspaceDeclaration_Name own (WorkspaceDeclaration_Name w) = Some d →
    WorkspaceDeclaration_MountPath d = WorkspaceDeclaration_MountPath w ∧
    WorkspaceDeclaration_ReadOnly d = WorkspaceDeclaration_ReadOnly w ∧
    WorkspaceDeclaration_Optional d = WorkspaceDeclaration_Optional w.
Proof.
  unfold admissible, workspace_conflict. apply forall_proper. intros d.
  repeat case_bool_decide; naive_solver.
Qed.

(** Sidecars and volumes are never dropped: a shared name is an error. *)
Lemma always_conflict {A} (name : A → string) conflict own (u : A) :
  (∀ d, is_Some (conflict d u)) →
  admissible name conflict own u ↔ name u ∉ name <$> own.
Proof.
  intros Hc. unfold admissible. rewrite <-lastNamed_None.
  destruct (lastNamed name own (name u)) as [d|] eqn:Hd.
  - split; [|done]. intros H1. specialize (H1 d eq_refl). destruct (Hc d). congruence.
  - by split.
Qed.

Lemma sidecar_admissible own s :
  admissible Sidecar_Name sidecar_conflict own s ↔ Sidecar_Name s ∉ Sidecar_Name <$> own.
Proof. apply always_conflict. by eexists. Qed.

Lemma volume_admissible own v :
  admissible Volume_Name volume_conflict own v ↔ Volume_Name v ∉ Volume_Name <$> own.
Proof. apply always_conflict. by eexists. Qed.

Lemma result_admissible own r : admissible TaskResult_Name result_conflict own r.
Proof. by intros d _. Qed.

(** The contributions are determined by the group and the used tasks. *)
Lemma contributes_unique spec used i step c c' :
  contributes spec used i step c → contributes spec used i step c' → c = c'.
Proof. intros [] []; congruence. Qed.

Lemma contributions_unique spec used i steps cs cs' :
  contributions spec used i steps cs → contributions spec used i steps cs' → cs = cs'.
Proof.
  intros Hcs. revert cs'. induction Hcs; inversion 1; subst; f_equal; eauto using contributes_unique.
Qed.

Lemma fresh_all {A} (name : A → string) own items :
  (∀ u, u ∈ items → name u ∉ name <$> own) → fresh name own items = items.
Proof. apply filter_id. Qed.

(** [resolveTaskSpec] returns a task without an error exactly when every
    step makes its contribution and the contributions are compatible with
    the group; the task is then the assembled one. *)
Lemma resolveTaskSpec_None spec used ts :
  resolveTaskSpec spec used = (ts, None) ↔
  ∃ cs, contributions spec used 0 (V1alpha1.TaskGroupSpec_Steps spec) cs ∧
    compatible spec cs ∧ ts = assemble spec cs.
Proof.
  unfold resolveTaskSpec.
  destruct (forRange _ _ _ _) as [[t e]|a] eqn:Hloop.
  { split; [done|]. intros (cs & Hcs & _).
    assert (forRange (TaskSpec_step spec used) 0 (V1alpha1.TaskGroupSpec_Steps spec)
      (initialAcc spec) = inr (foldl add (initialAcc spec) cs)) by (apply TaskSpec_loop_inr; eauto).
    congruence. }
  apply TaskSpec_loop_inr in Hloop as (cs & Hcs & ->). rewrite foldl_add.
  rewrite applyTransformers_None. cbn -[mergeByName]. split.
  - intros (? & ? & ? & ? & ? & [Hp ->]%mergeByName_inr & [Hw ->]%mergeByName_inr &
      [_ ->]%mergeByName_inr & [Hs ->]%mergeByName_inr & [Hv ->]%mergeByName_inr & ->).
    exists cs. split; [done|]. split.
    + constructor; intros.
      * by eapply param_admissible; [apply Hp|].
      * by eapply workspace_admissible; [apply Hw|].
      * by apply sidecar_admissible, Hs.
      * by apply volume_admissible, Hv.
    + unfold assemble.
      rewrite (fresh_all Sidecar_Name), (fresh_all Volume_Name); [done|..].
      * intros v Hin. by apply volume_admissible, Hv.
      * intros v Hin. by apply sidecar_admissible, Hs.
  - intros (cs' & Hcs' & [Hp Hw Hs Hv] & ->).
    rewrite (contributions_unique _ _ _ _ _ _ Hcs' Hcs) in *. clear Hcs' cs'.
    do 5 eexists. rewrite !mergeByName_inr. split_and!; try reflexivity.
    + intros p Hin. apply param_admissible. eauto.
    + intros w Hin. apply workspace_admissible. eauto.
    + intros r _. apply result_admissible.
    + intros v Hin. apply sidecar_admissible. eauto.
    + intros v Hin. apply volume_admissible. eauto.
    + unfold assemble. by rewrite (fresh_all Sidecar_Name), (fresh_all Volume_Name).
Qed.
End refinement.
