(* ===== verification/ResolveErrors.v ===== *)
(** The errors of the resolver: which of them [resolveTaskSpec] returns, and
    that one of them or the assembled task is always the outcome. *)
From S2P Require Import Prelude GoStrings Types Substitution StepMerge Resolve ResolveSpec.
Import V1beta1.

Section errors.
Context {MO : MapOrder} {CM : ContainerMerge}.
Implicit Types (spec : V1alpha1.TaskGroupSpec) (used : gmap nat TaskSpec) (a : Acc).

(** Why a step of the group contributes nothing. *)
Inductive step_fails spec used (i : nat) (step : V1alpha1.Step) : error → Prop :=
  | step_fails_missing u :
      V1alpha1.Step_Uses step = Some u →
      used !! i = None →
      step_fails spec used i step
        (errorString ("step " +:+ Step_Name (V1alpha1.Step_Step step) +:+ " uses not found"))
  | step_fails_own e :
      V1alpha1.Step_Uses step = None →
      MergeStepsWithStepTemplate (V1alpha1.TaskGroupSpec_StepTemplate spec)
        [V1alpha1.Step_Step step] = inl e →
      step_fails spec used i step e
  | step_fails_used u t e :
      V1alpha1.Step_Uses step = Some u →
      used !! i = Some t →
      MergeStepsWithStepTemplate (TaskSpec_StepTemplate t) (usedSteps i step u t) = inl e →
      step_fails spec used i step e.

(** The first item, in order, that the group's own items do not admit. *)
Definition first_conflict {A} (name : A → string) (conflict : A → A → option error)
    (own items : list A) (e : error) : Prop :=
  ∃ before u after d, items = before ++ u :: after ∧
    (∀ v, v ∈ before → admissible name conflict own v) ∧
    lastNamed name own (name u) = Some d ∧ conflict d u = Some e.

(** All items of a kind are admitted. *)
Definition admits {A} (name : A → string) (conflict : A → A → option error) (own items : list A) : Prop :=
  ∀ u, u ∈ items → admissible name conflict own u.

Definition admits_params spec cs : Prop :=
  admits ParamSpec_Name param_conflict (V1alpha1.TaskGroupSpec_Params spec) (allParams cs).
Definition admits_workspaces spec cs : Prop :=
  admits WorkspaceDeclaration_Name workspace_conflict (V1alpha1.TaskGroupSpec_Workspaces spec)
    (allWorkspaces cs).
Definition admits_sidecars spec cs : Prop :=
  admits Sidecar_Name sidecar_conflict (V1alpha1.TaskGroupSpec_Sidecars spec) (allSidecars cs).

(** The merges come after all the steps, in the order params, workspaces,
    (results,) sidecars, volumes. *)
Inductive merge_fails spec (cs : list Contribution) : error → Prop :=
  | merge_fails_params e :
      first_conflict ParamSpec_Name param_conflict (V1alpha1.TaskGroupSpec_Params spec)
        (allParams cs) e →
      merge_fails spec cs e
  | merge_fails_workspaces e :
      admits_params spec cs →
      first_conflict WorkspaceDeclaration_Name workspace_conflict
        (V1alpha1.TaskGroupSpec_Workspaces spec) (allWorkspaces cs) e →
      merge_fails spec cs e
  | merge_fails_sidecars e :
      admits_params spec cs → admits_workspaces spec cs →
      first_conflict Sidecar_Name sidecar_conflict (V1alpha1.TaskGroupSpec_Sidecars spec)
        (allSidecars cs) e →
      merge_fails spec cs e
  | merge_fails_volumes e :
      admits_params spec cs → admits_workspaces spec cs → admits_sidecars spec cs →
      first_conflict Volume_Name volume_conflict (V1alpha1.TaskGroupSpec_Volumes spec)
        (allVolumes cs) e →
      merge_fails spec cs e.

Inductive resolve_fails spec used : error → Prop :=
  | resolve_fails_step before step after cs e :
      V1alpha1.TaskGroupSpec_Steps spec = before ++ step :: after →
      contributions spec used 0 before cs →
      step_fails spec used (length before) step e →
      resolve_fails spec used e
  | resolve_fails_merge cs e :
      contributions spec used 0 (V1alpha1.TaskGroupSpec_Steps spec) cs →
      merge_fails spec cs e →
      resolve_fails spec used e.

(** ** Lemmas *)
Lemma TaskSpec_step_inl spec used i step a t e :
  TaskSpec_step spec used i step a = inl (t, e) → step_fails spec used i step e.
Proof.
  unfold TaskSpec_step. destruct (V1alpha1.Step_Uses step) as [u|] eqn:Hu.
  - destruct (used !! i) as [ut|] eqn:Ht; [|intros [= _ <-]; by eapply step_fails_missing].
    rewrite !bindItems_spec. cbv beta iota zeta.
    fold (boundParams u) (boundWorkspaces u). rewrite resolveSteps_usedSteps.
    destruct (MergeStepsWithStepTemplate _ _) as [e'|] eqn:Hm; [|done].
    intros [= _ <-]. by eapply step_fails_used.
  - destruct (MergeStepsWithStepTemplate _ _) as [e'|] eqn:Hm; [|done].
    intros [= _ <-]. by eapply step_fails_own.
Qed.

Lemma step_fails_TaskSpec_step spec used i step a e :
  step_fails spec used i step e → ∃ t, TaskSpec_step spec used i step a = inl (t, e).
Proof.
  unfold TaskSpec_step. intros [u Hu Ht|e' Hu Hm|u t e' Hu Ht Hm]; rewrite Hu.
  - rewrite Ht. by eexists.
  - rewrite Hm. by eexists.
  - rewrite Ht, !bindItems_spec. cbv beta iota zeta.
    fold (boundParams u) (boundWorkspaces u). rewrite resolveSteps_usedSteps, Hm. by eexists.
Qed.

Lemma TaskSpec_loop_inl spec used steps e :
  (∃ t, forRange (TaskSpec_step spec used) 0 steps (initialAcc spec) = inl (t, e)) ↔
  ∃ before step after cs, steps = before ++ step :: after ∧
    contributions spec used 0 before cs ∧ step_fails spec used (length before) step e.
Proof.
  setoid_rewrite forRange_inl. split.
  - intros (t & l1 & x & l2 & a & -> & (cs & Hcs & _)%TaskSpec_loop_inr & Hx%TaskSpec_step_inl).
    by exists l1, x, l2, cs.
  - intros (l1 & x & l2 & cs & -> & Hcs & Hx).
    destruct (step_fails_TaskSpec_step spec used (length l1) x (foldl add (initialAcc spec) cs) e Hx)
      as [t Ht].
    exists t, l1, x, l2, (foldl add (initialAcc spec) cs). split_and!; [done| |done].
    apply TaskSpec_loop_inr. eauto.
Qed.

Lemma mergeByName_inl {A} (name : A → string) conflict own items e :
  mergeByName name conflict own items = inl e ↔ first_conflict name conflict own items e.
Proof. apply mergeLoop_inl. Qed.

Lemma mergeByName_admits {A} (name : A → string) conflict own items :
  (∃ l, mergeByName name conflict own items = inr l) ↔ admits name conflict own items.
Proof. setoid_rewrite mergeByName_inr. unfold admits. naive_solver. Qed.

Lemma applyTransformers_Some t ps ws rs ss vs e :
  (∃ t', applyTransformers [mergeParams ps; mergeWorkspaces ws; mergeResults rs; mergeSidecars ss;
                            mergeVolumes vs] t = (t', Some e)) ↔
  let fp := first_conflict ParamSpec_Name param_conflict (TaskSpec_Params t) ps e in
  let fw := first_conflict WorkspaceDeclaration_Name workspace_conflict (TaskSpec_Workspaces t) ws e in
  let fs := first_conflict Sidecar_Name sidecar_conflict (TaskSpec_Sidecars t) ss e in
  let fv := first_conflict Volume_Name volume_conflict (TaskSpec_Volumes t) vs e in
  let ap := admits ParamSpec_Name param_conflict (TaskSpec_Params t) ps in
  let aw := admits WorkspaceDeclaration_Name workspace_conflict (TaskSpec_Workspaces t) ws in
  let as_ := admits Sidecar_Name sidecar_conflict (TaskSpec_Sidecars t) ss in
  fp ∨ (ap ∧ fw) ∨ (ap ∧ aw ∧ fs) ∨ (ap ∧ aw ∧ as_ ∧ fv).
Proof.
  cbv zeta. rewrite <-!mergeByName_inl, <-!mergeByName_admits.
  assert (∃ l, mergeByName TaskResult_Name result_conflict (TaskSpec_Results t) rs = inr l) as [rl Hr].
  { apply mergeByName_admits. intros r _. apply result_admissible. }
  unfold mergeParams, mergeWorkspaces, mergeResults, mergeSidecars, mergeVolumes, transform.
  cbn -[mergeByName].
  destruct (mergeByName ParamSpec_Name _ _ _) as [ep|lp]; cbn -[mergeByName]; [naive_solver|].
  destruct (mergeByName WorkspaceDeclaration_Name _ _ _) as [ew|lw]; cbn -[mergeByName]; [naive_solver|].
  rewrite Hr. cbn -[mergeByName].
  destruct (mergeByName Sidecar_Name _ _ _) as [es|ls]; cbn -[mergeByName]; [naive_solver|].
  destruct (mergeByName Volume_Name _ _ _) as [ev|lv]; cbn -[mergeByName]; naive_solver.
Qed.

Lemma merge_fails_iff spec cs e :
  (∃ t', applyTransformers [mergeParams (allParams cs); mergeWorkspaces (allWorkspaces cs);
           mergeResults (allResults cs); mergeSidecars (allSidecars cs); mergeVolumes (allVolumes cs)]
           (set_Steps (concat (map c_steps cs)) (initialSpec spec)) = (t', Some e)) ↔
  merge_fails spec cs e.
Proof.
  rewrite applyTransformers_Some. split.
  - intros [?|[[??]|[(?&?&?)|(?&?&?&?)]]]; [by apply merge_fails_params|by apply merge_fails_workspaces|
      by apply merge_fails_sidecars|by apply merge_fails_volumes].
  - unfold admits_params, admits_workspaces, admits_sidecars.
    intros []; [by left|right; by left|right; right; by left|right; right; by right].
Qed.

Lemma resolveTaskSpec_Some spec used e :
  (∃ ts, resolveTaskSpec spec used = (ts, Some e)) ↔ resolve_fails spec used e.
Proof.
  pose proof (TaskSpec_loop_inl spec used (V1alpha1.TaskGroupSpec_Steps spec) e) as Hinl.
  pose proof (TaskSpec_loop_inr spec used 0 (V1alpha1.TaskGroupSpec_Steps spec) (initialAcc spec)) as Hinr.
  unfold resolveTaskSpec.
  destruct (forRange _ _ _ _) as [[t e']|a].
  - transitivity (e' = e); [naive_solver|]. split.
    + intros ->. destruct Hinl as [(b & s & r & cs & ?) _]; [by eexists|].
      eapply resolve_fails_step; naive_solver.
    + intros Hf. inversion Hf as [b s r cs ? ? ? ?|cs ? Hcs _]; subst.
      * destruct Hinl as [_ Hl]. destruct Hl as [t' Ht']; [by exists b, s, r, cs|]. congruence.
      * destruct (Hinr (foldl add (initialAcc spec) cs)) as [_ Hr].
        discriminate Hr; eauto.
  - destruct (Hinr a) as [(cs & Hcs & ->) _]; [done|]. rewrite foldl_add. cbn -[applyTransformers].
    rewrite merge_fails_iff. split; [by eapply resolve_fails_merge|].
    intros Hf. inversion Hf as [b s r cs' ? ? ? ?|cs' ? Hcs' Hm]; subst.
    + destruct Hinl as [_ Hl]. destruct Hl as [t' Ht']; [by exists b, s, r, cs'|]. done.
    + by rewrite (contributions_unique _ _ _ _ _ _ Hcs Hcs').
Qed.
End errors.
