(* ===== verification/Interpolation.v ===== *)
(** What the bindings of a [uses] do to the texts of the used task's steps.

    A bound name may be referred to in three forms when it is a parameter,
    and in four when it is a workspace; the resolver's tables rename each form
    of the old name to the same form of the new one. the
    lemmas say so for every text of a step, and that the order in which Go
    visits the maps of the bindings does not matter. *)
From S2P Require Import Prelude GoStrings Types Substitution StepMerge Resolve ResolveSpec.
From Stdlib Require Import Ascii.
Import V1beta1.

(** ** Specification *)

(** The forms of a reference to a parameter and to a workspace. *)
Definition param_forms : list (string → string) := [
  (λ x, "params." +:+ x);
  (λ x, "params['" +:+ x +:+ "']");
  (λ x, "params[" +:+ String "034" (x +:+ String "034" "]"))].

Definition workspace_forms : list (string → string) := [
  workspace_key "path"; workspace_key "bound"; workspace_key "claim"; workspace_key "volume"].

(** [k] refers to a bound name, and [k'] to the name it is bound to. *)
Inductive renames (forms : list (string → string)) (b : gmap string string) : string → string → Prop :=
  | renames_form form old new :
      form ∈ forms → b !! old = Some new → renames forms b (form old) (form new).

(** What becomes of a piece of text: literals and the references to unbound
    names stay. *)
Inductive renamed (pb wb : gmap string string) : segment → segment → Prop :=
  | renamed_Lit s : renamed pb wb (Lit s) (Lit s)
  | renamed_param k k' : renames param_forms pb k k' → renamed pb wb (Ref k) (Ref k')
  | renamed_workspace k k' : renames workspace_forms wb k k' → renamed pb wb (Ref k) (Ref k')
  | renamed_free k :
      (∀ k', ¬ renames param_forms pb k k') → (∀ k', ¬ renames workspace_forms wb k k') →
      renamed pb wb (Ref k) (Ref k).

(** The texts of a step that may hold references. *)
Definition KeySelector_texts (k : KeySelector) : list string := [KeySelector_Name k; KeySelector_Key k].

Definition EnvVar_texts (e : EnvVar) : list string :=
  EnvVar_Value e ::
  match EnvVar_ValueFrom e with
  | None => []
  | Some vf =>
    from_option KeySelector_texts [] (EnvVarSource_ConfigMapKeyRef vf) ++
    from_option KeySelector_texts [] (EnvVarSource_SecretKeyRef vf)
  end.

Definition EnvFromSource_texts (e : EnvFromSource) : list string :=
  EnvFromSource_Prefix e ::
  from_option (λ s, [EnvSource_Name s]) [] (EnvFromSource_ConfigMapRef e) ++
  from_option (λ s, [EnvSource_Name s]) [] (EnvFromSource_SecretRef e).

Definition VolumeMount_texts (v : VolumeMount) : list string :=
  [VolumeMount_Name v; VolumeMount_MountPath v; VolumeMount_SubPath v].

Definition Container_texts (c : Container) : list string :=
  [Container_Name c; Container_Image c; Container_WorkingDir c; Container_ImagePullPolicy c] ++
  elems (Container_Command c) ++ elems (Container_Args c) ++
  concat (map EnvFromSource_texts (Container_EnvFrom c)) ++
  concat (map EnvVar_texts (Container_Env c)) ++
  concat (map VolumeMount_texts (Container_VolumeMounts c)).

Definition Step_texts (s : Step) : list string := Step_Script s :: Container_texts (Step_Container s).

(** Binding names that can be part of a reference. *)
Definition plain (s : string) : Prop := no_dollar s ∧ no_paren s.

Global Instance plain_dec s : Decision (plain s).
Proof. unfold plain, no_dollar, no_paren. apply _. Defined.

Definition plain_bindings (b : gmap string string) : Prop := map_Forall (λ old new, plain old ∧ plain new) b.

Global Instance plain_bindings_dec b : Decision (plain_bindings b).
Proof. unfold plain_bindings. apply _. Defined.

(** ** The tables of replacements *)

(** A family of forms in which no key can be read in two ways. *)
Class UniqueForms (forms : list (string → string)) : Prop :=
  unique_forms f g x y : f ∈ forms → g ∈ forms → f x = g y → f = g ∧ x = y.

Lemma app_last_inj s t c d : s +:+ String c "" = t +:+ String d "" → c = d.
Proof.
  revert t. induction s as [|a s IH]; intros [|b t]; rewrite ?app_empty_l, ?app_cons; intros Heq.
  - by injection Heq.
  - injection Heq as _ Heq. by destruct t.
  - injection Heq as _ Heq. by destruct s.
  - injection Heq as _ Heq. eauto.
Qed.

Global Instance param_forms_unique : UniqueForms param_forms.
Proof.
  intros f g x y Hf Hg. unfold param_forms in *. rewrite !elem_of_cons in Hf. rewrite !elem_of_cons in Hg.
  repeat destruct Hf as [->|Hf]; repeat destruct Hg as [->|Hg];
    try (by apply elem_of_nil in Hf); try (by apply elem_of_nil in Hg);
    intros Heq; try done; split; try done.
  - by apply app_inj_l in Heq.
  - by apply app_inj_l, app_inj_r in Heq.
  - apply app_inj_l in Heq. injection Heq as Heq. by apply app_inj_r in Heq.
Qed.

Lemma workspace_key_path x : workspace_key "path" x = ("workspaces." +:+ x +:+ ".pat") +:+ "h".
Proof. unfold workspace_key. by rewrite !app_assoc_string. Qed.
Lemma workspace_key_bound x : workspace_key "bound" x = ("workspaces." +:+ x +:+ ".boun") +:+ "d".
Proof. unfold workspace_key. by rewrite !app_assoc_string. Qed.
Lemma workspace_key_claim x : workspace_key "claim" x = ("workspaces." +:+ x +:+ ".clai") +:+ "m".
Proof. unfold workspace_key. by rewrite !app_assoc_string. Qed.
Lemma workspace_key_volume x : workspace_key "volume" x = ("workspaces." +:+ x +:+ ".volum") +:+ "e".
Proof. unfold workspace_key. by rewrite !app_assoc_string. Qed.

Global Instance workspace_forms_unique : UniqueForms workspace_forms.
Proof.
  assert (∀ field x y, workspace_key field x = workspace_key field y → x = y) as Hinj.
  { intros field x y Heq. unfold workspace_key in Heq. by apply app_inj_l, app_inj_r in Heq. }
  intros f g x y Hf Hg. unfold workspace_forms in *. rewrite !elem_of_cons in Hf. rewrite !elem_of_cons in Hg.
  repeat destruct Hf as [->|Hf]; repeat destruct Hg as [->|Hg];
    try (by apply elem_of_nil in Hf); try (by apply elem_of_nil in Hg);
    intros Heq; try (by split; [|eapply Hinj]);
    rewrite ?workspace_key_path, ?workspace_key_bound, ?workspace_key_claim, ?workspace_key_volume in Heq;
    by apply app_last_inj in Heq.
Qed.

Lemma renames_functional forms `{!UniqueForms forms} b k k1 k2 :
  renames forms b k k1 → renames forms b k k2 → k1 = k2.
Proof.
  intros [f o n Hf Ho] Hk2. inversion Hk2 as [g o' n' Hg Ho' Heq]; subst.
  apply unique_forms in Heq as [-> ->]; [|done..]. congruence.
Qed.

(** [m[k] = v] *)
Definition assign (m : gmap string string) (kv : string * string) : gmap string string := <[kv.1 := kv.2]> m.

(** A map filled by assigning a list of pairs, in which no key has two values. *)
Lemma foldl_insert_lookup (E : list (string * string)) k v :
  (∀ k v v', (k, v) ∈ E → (k, v') ∈ E → v = v') →
  foldl assign ∅ E !! k = Some v ↔ (k, v) ∈ E.
Proof.
  induction E as [|[k' v'] E IH] using rev_ind; intros Hfun; simpl.
  - rewrite lookup_empty. set_solver.
  - rewrite foldl_app. cbn [foldl]. unfold assign at 1. simpl. rewrite lookup_insert_Some, IH by set_solver.
    rewrite elem_of_app, list_elem_of_singleton. split.
    + intros [[-> ->]|[_ ?]]; auto.
    + intros [Hin|[= -> ->]]; [|by left]. destruct (decide (k' = k)) as [->|]; [|by right].
      left. split; [done|]. apply (Hfun k); apply elem_of_app; [right; by left|by left].
Qed.

Section table.
Context {MO : MapOrder} (forms : list (string → string)) `{!UniqueForms forms}.

(** The entries of a binding, one per form. *)
Definition form_entries (b : string * string) : list (string * string) :=
  map (λ form, (form b.1, reference (form b.2))) forms.

Definition forms_table (bindings : gmap string string) : gmap string string :=
  foldl (λ r b, foldl assign r (form_entries b)) ∅ (map_range bindings).

Lemma forms_table_concat bindings :
  forms_table bindings =
  foldl assign ∅ (concat (map form_entries (map_range bindings))).
Proof.
  unfold forms_table. generalize (∅ : gmap string string), (map_range bindings). intros r l. revert r.
  induction l as [|b l IH]; intros r; [done|]. cbn [map concat foldl]. by rewrite foldl_app, IH.
Qed.

Lemma elem_of_form_entries bindings k v :
  (k, v) ∈ concat (map form_entries (map_range bindings)) ↔
  ∃ k', renames forms bindings k k' ∧ v = reference k'.
Proof using Type.
  rewrite list_elem_of_In, in_concat. setoid_rewrite in_map_iff. setoid_rewrite <-list_elem_of_In. split.
  - intros (? & ((old & new) & <- & Hb) & Hk). rewrite map_range_perm, elem_of_map_to_list in Hb.
    unfold form_entries in Hk. apply list_elem_of_fmap in Hk as (form & [= -> ->] & Hform).
    exists (form new). by split.
  - intros (k' & [form old new Hform Hb] & ->).
    exists (form_entries (old, new)). split.
    + exists (old, new). split; [done|]. by rewrite map_range_perm, elem_of_map_to_list.
    + unfold form_entries. apply list_elem_of_fmap. by exists form.
Qed.

(** A table renames. *)
Lemma forms_table_lookup bindings k v :
  forms_table bindings !! k = Some v ↔ ∃ k', renames forms bindings k k' ∧ v = reference k'.
Proof using UniqueForms0.
  rewrite forms_table_concat, foldl_insert_lookup, elem_of_form_entries; [done|].
  intros ??? (k1 & H1 & ->)%elem_of_form_entries (k2 & H2 & ->)%elem_of_form_entries.
  f_equal. by eapply renames_functional.
Qed.

Lemma forms_table_None bindings k :
  forms_table bindings !! k = None ↔ ∀ k', ¬ renames forms bindings k k'.
Proof using UniqueForms0.
  rewrite eq_None_not_Some. unfold is_Some. setoid_rewrite forms_table_lookup. naive_solver.
Qed.
End table.

Lemma params_table_forms {MO : MapOrder} bindings : params_table bindings = forms_table param_forms bindings.
Proof.
  unfold params_table, forms_table. apply foldl_equiv. intros r [old new].
  cbn [form_entries map param_forms foldl fst snd params_entry]. unfold reference, assign.
  cbn [fst snd].
  by repeat (rewrite app_cons || rewrite app_empty_l || rewrite app_assoc_string).
Qed.

Lemma workspaces_table_forms {MO : MapOrder} bindings :
  workspaces_table bindings = forms_table workspace_forms bindings.
Proof. unfold workspaces_table, forms_table. apply foldl_equiv. by intros r [old new]. Qed.

(** Forms that turn plain names into plain keys. *)
Definition plain_form (form : string → string) : Prop := ∀ x, (no_paren (form x) ↔ no_paren x) ∧ (no_dollar (form x) ↔ no_dollar x).

Lemma free_of_cons P c s : free_of P (String c s) ↔ P c = false ∧ free_of P s.
Proof. done. Qed.

Ltac solve_plain_form :=
  intros x; unfold workspace_key, no_paren, no_dollar;
  rewrite ?free_of_app, ?free_of_cons, ?free_of_app; cbn; naive_solver.

Lemma param_forms_plain : Forall plain_form param_forms.
Proof. repeat (apply Forall_cons; split; [solve_plain_form|]). apply Forall_nil_2. Qed.

Lemma workspace_forms_plain : Forall plain_form workspace_forms.
Proof. repeat (apply Forall_cons; split; [solve_plain_form|]). apply Forall_nil_2. Qed.

Section one_pass.
Context {MO : MapOrder} (forms : list (string → string)) `{!UniqueForms forms}.
Context (Hforms : Forall plain_form forms).

Lemma wf_forms_table b : map_Forall (λ old _, no_paren old) b → wf_table (forms_table forms b).
Proof using Hforms UniqueForms0.
  intros Hb k v (k' & [form old new Hform Hold] & _)%forms_table_lookup; [|done].
  rewrite Forall_forall in Hforms. apply (Hforms form Hform). by eapply Hb.
Qed.

Lemma renames_plain b k k' : plain_bindings b → renames forms b k k' → plain k'.
Proof using Hforms.
  intros Hb [form old new Hform Hold]. rewrite Forall_forall in Hforms.
  destruct (Hb _ _ Hold) as [_ [Hd Hp]]. by split; apply (Hforms form Hform).
Qed.

(** One pass renames one family of references. *)
Inductive renamed_by (b : gmap string string) : segment → segment → Prop :=
  | renamed_by_Lit s : renamed_by b (Lit s) (Lit s)
  | renamed_by_bound k k' : renames forms b k k' → renamed_by b (Ref k) (Ref k')
  | renamed_by_free k : (∀ k', ¬ renames forms b k k') → renamed_by b (Ref k) (Ref k).

Lemma plain_forms_table b : plain_bindings b → map_Forall (λ k _, no_dollar k) (forms_table forms b).
Proof using Hforms UniqueForms0.
  intros Hb k v (k' & [form old new Hform Hold] & _)%forms_table_lookup; [|done].
  rewrite Forall_forall in Hforms. apply (Hforms form Hform). by destruct (Hb _ _ Hold) as [[? _] _].
Qed.

Lemma plain_keys b : plain_bindings b → map_Forall (λ old _, no_paren old) b.
Proof. intros Hb old new Hold. by destruct (Hb old new Hold) as [[_ ?] _]. Qed.

(** What a pass makes of a text is read as the renamed segments. *)
Lemma one_pass b t :
  plain_bindings b → ∃ segs, Forall2 (renamed_by b) (parse t) segs ∧
    ApplyReplacements t (forms_table forms b) = render segs ∧ parse (render segs) = segs.
Proof using Hforms UniqueForms0.
  intros Hb. rewrite ApplyReplacements_parse by auto using wf_forms_table, plain_keys, plain_forms_table.
  assert (∀ segs0, (∀ k, Ref k ∈ segs0 → no_dollar k ∧ no_paren k) → ∃ segs, Forall2 (renamed_by b) segs0 segs ∧
    render (map (subst_segment (forms_table forms b)) segs0) = render segs ∧ Forall2 same_shape segs0 segs) as H.
  { induction segs0 as [|seg segs0 IH]; intros Hplain; [by exists []|]. destruct IH as (segs & H1 & H2 & H3); [intros k Hk; apply Hplain; by right|].
    destruct seg as [s|k]; [exists (Lit s :: segs); cbn [map render]; rewrite H2; split_and!; by repeat constructor|].
    cbn [map render subst_segment]. rewrite H2. destruct (forms_table forms b !! k) as [v|] eqn:Hk.
    - apply forms_table_lookup in Hk as (k' & Hk & ->); [|done]. destruct (renames_plain _ _ _ Hb Hk).
      exists (Ref k' :: segs). split_and!; [constructor; [by constructor|done]|done|constructor; [by constructor|done]].
    - pose proof (proj1 (forms_table_None _ _ _) Hk) as Hfree. destruct (Hplain k) as [??]; [left|].
      exists (Ref k :: segs). split_and!; [constructor; [by constructor|done]|done|constructor; [by constructor|done]]. }
  destruct (H (parse t)) as (segs & H1 & H2 & H3).
  { clear. induction t as [|k rest Hd Hp IH|c s Hat IH] using text_ind; intros k0.
    - by intros ?%elem_of_nil.
    - rewrite parse_reference by done. intros [[= ->]|Hin]%elem_of_cons; [done|by apply IH].
    - rewrite parse_literal by done. intros [?|Hin]%elem_of_cons; [done|by apply IH]. }
  exists segs. split_and!; [done..|by eapply parse_render].
Qed.
End one_pass.

Lemma params_not_workspaces pb wb k k1 k2 :
  renames param_forms pb k k1 → renames workspace_forms wb k k2 → False.
Proof.
  intros [f o n Hf _] Hk. inversion Hk as [g o' n' Hg _ Heq]; subst.
  unfold param_forms, workspace_forms in *. rewrite !elem_of_cons in Hf. rewrite !elem_of_cons in Hg.
  repeat destruct Hf as [->|Hf]; repeat destruct Hg as [->|Hg];
    try (by apply elem_of_nil in Hf); try (by apply elem_of_nil in Hg);
    unfold workspace_key in Heq; discriminate Heq.
Qed.

Lemma params_stay_params pb wb k k' k2 :
  renames param_forms pb k k' → ¬ renames workspace_forms wb k' k2.
Proof.
  intros [f o n Hf _] Hk.
  eapply (params_not_workspaces {[ n := n ]}), Hk. constructor; [done|apply lookup_singleton_eq].
Qed.

(** The two passes rename parameters and workspaces at once. *)
Lemma renamed_two_passes pb wb seg mid seg' :
  renamed_by param_forms pb seg mid → renamed_by workspace_forms wb mid seg' → renamed pb wb seg seg'.
Proof.
  intros [s|k k' Hk|k Hk] H2; inversion H2 as [|k1 k1' Hk1|k1 Hk1]; subst.
  - apply renamed_Lit.
  - by edestruct params_stay_params.
  - by apply renamed_param.
  - by apply renamed_workspace.
  - by apply renamed_free.
Qed.

(** ** The texts of a step under a replacement *)
Section texts.
Context {MO : MapOrder} (r : gmap string string).

Lemma elems_append {A} (s : slice A) (l : list A) : elems (append s l) = elems s ++ l.
Proof. destruct s, l; cbn; by rewrite ?app_nil_r. Qed.

Lemma elems_replace_all l : elems (replace_all l r []) = map (λ t, ApplyReplacements t r) (elems l).
Proof.
  unfold replace_all. cbn [ApplyArrayReplacements]. generalize (elems l). clear l. intros l.
  change (map (λ t, ApplyReplacements t r) l) with (elems (@None (list string)) ++ map (λ t, ApplyReplacements t r) l).
  generalize (@None (list string)). induction l as [|t l IH]; intros acc.
  - by rewrite app_nil_r.
  - cbn [foldl map]. by rewrite IH, elems_append, <-app_assoc.
Qed.

Lemma concat_texts {A} (texts : A → list string) (f : A → A) (l : list A) :
  (∀ x, texts (f x) = map (λ t, ApplyReplacements t r) (texts x)) →
  concat (map texts (map f l)) = map (λ t, ApplyReplacements t r) (concat (map texts l)).
Proof.
  intros Hf. induction l as [|x l IH]; [done|]. cbn [map concat]. by rewrite map_app, Hf, IH.
Qed.

Lemma EnvVar_texts_replace e : EnvVar_texts (replace_EnvVar r e) = map (λ t, ApplyReplacements t r) (EnvVar_texts e).
Proof. by destruct e as [n v [[f rf [[]|] [[]|]]|]]. Qed.

Lemma EnvFromSource_texts_replace e :
  EnvFromSource_texts (replace_EnvFromSource r e) = map (λ t, ApplyReplacements t r) (EnvFromSource_texts e).
Proof. by destruct e as [p [[]|] [[]|]]. Qed.

Lemma Step_texts_replace s :
  Step_texts (ApplyStepReplacements s r []) = map (λ t, ApplyReplacements t r) (Step_texts s).
Proof.
  unfold Step_texts, Container_texts, ApplyStepReplacements, applyContainerReplacements.
  cbn -[replace_all elems]. rewrite !elems_replace_all, !map_app.
  rewrite (concat_texts EnvVar_texts), (concat_texts EnvFromSource_texts),
    (concat_texts VolumeMount_texts);
    auto using EnvVar_texts_replace, EnvFromSource_texts_replace.
Qed.
End texts.

(** The result of a replacement depends on the text function only. *)
Lemma ApplyStepReplacements_equiv (O1 O2 : MapOrder) r1 r2 s :
  (∀ t, @ApplyReplacements O1 t r1 = @ApplyReplacements O2 t r2) →
  @ApplyStepReplacements O1 s r1 [] = @ApplyStepReplacements O2 s r2 [].
Proof.
  intros Hr. unfold ApplyStepReplacements, applyContainerReplacements. rewrite !Hr.
  assert (∀ l, @replace_all O1 l r1 [] = @replace_all O2 l r2 []) as Hall.
  { intros l. unfold replace_all. apply foldl_equiv. intros acc t. simpl. by rewrite Hr. }
  rewrite !Hall. f_equal. f_equal; apply map_ext.
  - intros [p cm sec]. unfold replace_EnvFromSource, replace_EnvSource. cbn -[ApplyReplacements]. rewrite Hr.
    f_equal; apply option_fmap_ext; intros e; by rewrite Hr.
  - intros [n v [vf|]]; unfold replace_EnvVar, replace_KeySelector; cbn -[ApplyReplacements]; rewrite Hr; [|done].
    do 3 f_equal; apply option_fmap_ext; intros e; by rewrite !Hr.
  - intros v. unfold replace_VolumeMount. by rewrite !Hr.
Qed.

Lemma forms_table_order (O1 O2 : MapOrder) forms `{!UniqueForms forms} b :
  @forms_table O1 forms b = @forms_table O2 forms b.
Proof.
  apply map_eq. intros k. apply option_eq. intros v. by rewrite !forms_table_lookup.
Qed.

Lemma interpolate_order (O1 O2 : MapOrder) pb wb s :
  map_Forall (λ old _, no_paren old) pb → map_Forall (λ old _, no_paren old) wb →
  @interpolate O1 pb wb s = @interpolate O2 pb wb s.
Proof.
  intros Hpb Hwb. unfold interpolate.
  rewrite !params_table_forms, !workspaces_table_forms, !(forms_table_order O1 O2) by apply _.
  rewrite (ApplyStepReplacements_equiv O1 O2 (forms_table param_forms pb) (forms_table param_forms pb) s).
  - apply ApplyStepReplacements_equiv. intros t. apply order_ApplyReplacements.
    by apply wf_forms_table; [apply _|apply workspace_forms_plain|].
  - intros t. apply order_ApplyReplacements.
    by apply wf_forms_table; [apply _|apply param_forms_plain|].
Qed.

(** The names of the bindings of a [uses]. *)
Definition paren_free_uses (u : V1alpha1.Uses) : Prop :=
  Forall (λ b, no_paren (V1alpha1.ParamBinding_Name b)) (V1alpha1.Uses_ParamBindings u) ∧
  Forall (λ b, no_paren (V1alpha1.WorkspaceBinding_Name b)) (V1alpha1.Uses_WorkspaceBindings u).

Lemma bindAll_keys {B} (bname target : B → string) bs (P : string → Prop) :
  Forall (λ b, P (bname b)) bs → map_Forall (λ old _, P old) (bindAll bname target bs).
Proof.
  intros Hbs n v Hn. rewrite Forall_forall in Hbs.
  destruct (decide (n ∈ bname <$> bs)) as [Hin|Hin].
  - apply list_elem_of_fmap in Hin as (b & -> & Hb). eauto.
  - apply (bindAll_None bname target) in Hin. congruence.
Qed.

(** Both passes on one text. *)
Lemma interpolate_text {MO : MapOrder} pb wb t :
  plain_bindings pb → plain_bindings wb →
  ∃ segs, Forall2 (renamed pb wb) (parse t) segs ∧
    ApplyReplacements (ApplyReplacements t (params_table pb)) (workspaces_table wb) = render segs.
Proof.
  intros Hpb Hwb. rewrite params_table_forms, workspaces_table_forms.
  destruct (one_pass _ param_forms_plain pb t Hpb) as (mid & H1 & -> & Hmid).
  destruct (one_pass _ workspace_forms_plain wb (render mid) Hwb) as (segs & H2 & -> & _). rewrite Hmid in H2.
  exists segs. split; [|done]. revert H2. generalize segs. clear -H1. induction H1 as [|seg m segs0 mid Hs _ IH]; intros segs.
  - intros ->%Forall2_nil_inv_l. constructor.
  - intros (seg' & segs' & Hs' & Hsegs & ->)%Forall2_cons_inv_l. constructor; [by eapply renamed_two_passes|by apply IH].
Qed.

Lemma Step_texts_interpolate {MO : MapOrder} pb wb s :
  Step_texts (interpolate pb wb s) =
  map (λ t, ApplyReplacements (ApplyReplacements t (params_table pb)) (workspaces_table wb)) (Step_texts s).
Proof. unfold interpolate. by rewrite !Step_texts_replace, map_map. Qed.
