(* ===== verification/ResolveTheorems.v ===== *)
(** The properties of the resolver, pkg/resolve/taskgroup.go. *)
From S2P Require Import Prelude GoStrings Types Substitution StepMerge.
From S2P Require Import Resolve ResolveSpec ResolveErrors Interpolation.
Import V1beta1.

(** ** Definitions of the statements *)

(** The parameters that step [i] of a group leaves to the group's user. *)
Definition exposedParams (used : gmap nat TaskSpec) (i : nat) (step : V1alpha1.Step) : list ParamSpec :=
  match V1alpha1.Step_Uses step, used !! i with
  | Some u, Some t =>
    unbound V1alpha1.ParamBinding_Name ParamSpec_Name (V1alpha1.Uses_ParamBindings u) (TaskSpec_Params t)
  | _, _ => []
  end.

(** The names of the steps that step [i] of a group stands for. *)
Definition expandedNames {MO : MapOrder} (used : gmap nat TaskSpec) (i : nat) (step : V1alpha1.Step) :
    list string :=
  let name := Step_Name (V1alpha1.Step_Step step) in
  match V1alpha1.Step_Uses step, used !! i with
  | Some u, Some t =>
    map (λ s, useName i name +:+ "-" +:+
              ApplyReplacements (ApplyReplacements (Step_Name s) (params_table (boundParams u)))
                (workspaces_table (boundWorkspaces u)))
      (TaskSpec_Steps t)
  | _, _ => [name]
  end.

(** What a step without a [uses] contributes when there is no template. *)
Definition ownContribution (step : V1alpha1.Step) : Contribution := {|
  c_steps := [V1alpha1.Step_Step step]; c_params := []; c_workspaces := []; c_results := [];
  c_sidecars := []; c_volumes := [] |}.

(** ** Lemmas *)
Section lemmas.
Context {MO : MapOrder} {CM : ContainerMerge}.
Implicit Types (spec : V1alpha1.TaskGroupSpec) (used : gmap nat TaskSpec).

Lemma contributions_allParams spec used i steps cs :
  contributions spec used i steps cs →
  allParams cs = concat (imap (λ j, exposedParams used (i + j)) steps).
Proof.
  induction 1 as [|i step steps c cs Hc _ IH]; [done|].
  rewrite imap_cons. cbn [concat]. rewrite Nat.add_0_r.
  unfold allParams in *. cbn [map concat]. rewrite IH. f_equal.
  - destruct Hc as [? Hu|u t ? Hu Ht]; unfold exposedParams; rewrite Hu; [done|]. by rewrite Ht.
  - f_equal. apply imap_ext. intros j x _. cbn. f_equal. lia.
Qed.

Lemma elem_of_exposedParams used steps p :
  p ∈ concat (imap (exposedParams used) steps) ↔
  ∃ i step u t, steps !! i = Some step ∧ V1alpha1.Step_Uses step = Some u ∧ used !! i = Some t ∧
    p ∈ TaskSpec_Params t ∧
    ParamSpec_Name p ∉ V1alpha1.ParamBinding_Name <$> V1alpha1.Uses_ParamBindings u.
Proof.
  rewrite list_elem_of_In, in_concat. setoid_rewrite <-list_elem_of_In.
  setoid_rewrite elem_of_lookup_imap. unfold exposedParams, unbound. split.
  - intros (? & (i & step & -> & Hi) & Hp).
    destruct (V1alpha1.Step_Uses step) as [u|] eqn:Hu; [|by apply elem_of_nil in Hp].
    destruct (used !! i) as [t|] eqn:Ht; [|by apply elem_of_nil in Hp].
    apply list_elem_of_filter in Hp as [? ?]. by exists i, step, u, t.
  - intros (i & step & u & t & Hi & Hu & Ht & Hp & Hb). eexists. split; [by exists i, step|].
    rewrite Hu, Ht. by apply list_elem_of_filter.
Qed.

(** The params of a task without an error. *)
Lemma resolveTaskSpec_Params spec used ts :
  resolveTaskSpec spec used = (ts, None) →
  TaskSpec_Params ts = V1alpha1.TaskGroupSpec_Params spec ++
    fresh ParamSpec_Name (V1alpha1.TaskGroupSpec_Params spec)
      (concat (imap (exposedParams used) (V1alpha1.TaskGroupSpec_Steps spec))).
Proof.
  intros (cs & Hcs & _ & ->)%resolveTaskSpec_None. cbn [assemble TaskSpec_Params].
  by rewrite (contributions_allParams _ _ _ _ _ Hcs).
Qed.

Lemma contributions_names {CML : ContainerMergeLaws CM} spec used i steps cs :
  contributions spec used i steps cs →
  map Step_Name (concat (map c_steps cs)) = concat (imap (λ j, expandedNames used (i + j)) steps).
Proof.
  induction 1 as [|i step steps c cs Hc _ IH]; [done|].
  rewrite imap_cons. cbn [map concat]. rewrite Nat.add_0_r, map_app, IH. f_equal.
  - destruct Hc as [? Hu Hm|u t ? Hu Ht Hm]; unfold expandedNames; rewrite Hu;
      apply names_MergeSteps in Hm; simpl; [exact Hm|].
    rewrite Ht. etransitivity; [exact Hm|]. unfold usedSteps. by rewrite map_map.
  - f_equal. apply imap_ext. intros j x _. cbn. f_equal. lia.
Qed.

Lemma contributions_own spec used i steps :
  V1alpha1.TaskGroupSpec_StepTemplate spec = None →
  Forall (λ step, V1alpha1.Step_Uses step = None) steps →
  contributions spec used i steps (map ownContribution steps).
Proof.
  intros Ht Hsteps. revert i. induction Hsteps as [|step steps Hu _ IH]; intros i; constructor; [|done].
  apply contributes_own; [done|]. by rewrite Ht.
Qed.

Lemma concat_ownContribution {A} (f : Contribution → list A) steps :
  (∀ step, f (ownContribution step) = []) → concat (map f (map ownContribution steps)) = [].
Proof. intros Hf. induction steps as [|step steps IH]; [done|]. cbn [map concat]. by rewrite Hf. Qed.
End lemmas.

(** ** Properties *)
Section properties.
Context {MO : MapOrder} {CM : ContainerMerge}.
Implicit Types (spec : V1alpha1.TaskGroupSpec) (used : gmap nat TaskSpec).

(** C1: [TaskSpec] refines its specification: it returns a task without an
    error exactly when every step of the group makes its contribution (its
    own step, or the interpolated and renamed steps of the task it uses with
    that task's unbound params and workspaces, results, sidecars and
    volumes) and the contributions agree with the group's own declarations;
    the task is then the group's items followed by those contributed. *)
Theorem TaskSpec_refines spec used ts :
  resolveTaskSpec spec used = (ts, None) ↔
  ∃ cs, contributions spec used 0 (V1alpha1.TaskGroupSpec_Steps spec) cs ∧
    compatible spec cs ∧ ts = assemble spec cs.
Proof. apply resolveTaskSpec_None. Qed.

(** C8: [TaskSpec] returns the error [e] exactly when [e] is the error of the
    first step that contributes nothing (its [uses] has no task, or the
    merge with the step template fails) or, when all steps contribute, of
    the first conflict of a param, then of a workspace, a sidecar, a
    volume. *)
Theorem TaskSpec_errors spec used e :
  (∃ ts, resolveTaskSpec spec used = (ts, Some e)) ↔ resolve_fails spec used e.
Proof. apply resolveTaskSpec_Some. Qed.

(** C18: A user of the group sees a param exactly when the group declares it
    or a used task declares it and its step does not bind it: bound params
    are hidden. *)
Theorem TaskSpec_visible_params spec used ts n :
  resolveTaskSpec spec used = (ts, None) →
  n ∈ ParamSpec_Name <$> TaskSpec_Params ts ↔
  n ∈ ParamSpec_Name <$> V1alpha1.TaskGroupSpec_Params spec ∨
  ∃ i step u t, V1alpha1.TaskGroupSpec_Steps spec !! i = Some step ∧
    V1alpha1.Step_Uses step = Some u ∧ used !! i = Some t ∧
    n ∈ ParamSpec_Name <$> TaskSpec_Params t ∧
    n ∉ V1alpha1.ParamBinding_Name <$> V1alpha1.Uses_ParamBindings u.
Proof.
  intros ->%resolveTaskSpec_Params. rewrite fmap_app, elem_of_app.
  unfold fresh. rewrite !list_elem_of_fmap. setoid_rewrite list_elem_of_filter.
  setoid_rewrite elem_of_exposedParams. split.
  - intros [?|(p & -> & _ & i & step & u & t & ?)]; [by left|]. right.
    exists i, step, u, t. rewrite list_elem_of_fmap. naive_solver.
  - intros [?|(i & step & u & t & Hi & Hu & Ht & Hn & Hb)]; [by left|].
    destruct (decide (n ∈ ParamSpec_Name <$> V1alpha1.TaskGroupSpec_Params spec)) as [Hown|Hown].
    { left. by apply list_elem_of_fmap. }
    right. apply list_elem_of_fmap in Hn as (p & -> & Hp). exists p. split; [done|]. split; [done|].
    by exists i, step, u, t.
Qed.

(** The params that used tasks declare are not merged among themselves:
    of a name the group does not declare, the task has every param that some
    used task exposes, in order, duplicates and differing types included. *)
Theorem TaskSpec_keeps_duplicate_params spec used ts n :
  resolveTaskSpec spec used = (ts, None) →
  n ∉ ParamSpec_Name <$> V1alpha1.TaskGroupSpec_Params spec →
  filter (λ p, ParamSpec_Name p = n) (TaskSpec_Params ts) =
  filter (λ p, ParamSpec_Name p = n)
    (concat (imap (exposedParams used) (V1alpha1.TaskGroupSpec_Steps spec))).
Proof.
  intros ->%resolveTaskSpec_Params Hn. rewrite filter_app.
  assert (filter (λ p, ParamSpec_Name p = n) (V1alpha1.TaskGroupSpec_Params spec) = []) as ->.
  { apply filter_nil_iff. intros p Hp <-. apply Hn. by apply list_elem_of_fmap_2. }
  unfold fresh. rewrite list_filter_filter_l; [done|]. by intros p ->.
Qed.

(** The steps of the task are, in the group's order, a step's own name
    when it has no [uses], and one name [<name>-<used step's name>] per step
    of the used task otherwise, where an unnamed step [i] is
    [unamed-<i>]; the used step's name is taken after interpolation. *)
Theorem TaskSpec_step_names {CML : ContainerMergeLaws CM} spec used ts :
  resolveTaskSpec spec used = (ts, None) →
  map Step_Name (TaskSpec_Steps ts) =
  concat (imap (expandedNames used) (V1alpha1.TaskGroupSpec_Steps spec)).
Proof.
  intros (cs & Hcs & _ & ->)%resolveTaskSpec_None. by apply contributions_names in Hcs.
Qed.

(** A group in which no step has a [uses] and that has no step template
    is resolved, whatever the used tasks, to the task with the group's own
    items and its steps as they are. *)
Theorem TaskSpec_without_uses spec used :
  V1alpha1.TaskGroupSpec_StepTemplate spec = None →
  Forall (λ step, V1alpha1.Step_Uses step = None) (V1alpha1.TaskGroupSpec_Steps spec) →
  resolveTaskSpec spec used =
  (set_Steps (map V1alpha1.toUpstream (V1alpha1.TaskGroupSpec_Steps spec)) (initialSpec spec), None).
Proof.
  intros Ht Hsteps. apply resolveTaskSpec_None. eexists. split; [by apply contributions_own|].
  pose proof (concat_ownContribution c_params) as Hp.
  pose proof (concat_ownContribution c_workspaces) as Hw.
  pose proof (concat_ownContribution c_results) as Hr.
  pose proof (concat_ownContribution c_sidecars) as Hs.
  pose proof (concat_ownContribution c_volumes) as Hv.
  split.
  - constructor; unfold allParams, allWorkspaces, allSidecars, allVolumes; rewrite ?Hp, ?Hw, ?Hs, ?Hv by done;
      [intros x d Hx|intros x d Hx|intros x Hx|intros x Hx]; by apply elem_of_nil in Hx.
  - unfold assemble, allParams, allWorkspaces, allResults, allSidecars, allVolumes.
    rewrite Hp, Hw, Hr, Hs, Hv by done. unfold fresh. rewrite !filter_nil, !app_nil_r.
    unfold set_Steps. cbn. f_equal.
    induction (V1alpha1.TaskGroupSpec_Steps spec) as [|step steps IH]; [done|].
    inversion Hsteps; subst. cbn. f_equal. auto.
Qed.

(** C9: Binding a name renames it everywhere: every text of a used step (name,
    image, command, arguments, script, environment, volume mounts, ...),
    whatever it holds, is read from the left as references, [$(] up to the next
    [)] with no other [$] between, and literal bytes; in it each reference to a
    bound param, in any of its three forms, and to a bound workspace, in any of
    its four, becomes the same reference to the name it is bound to, and
    literals and all other references stay. The bound names and their targets
    are free of [$] and [)]. *)
Theorem interpolate_renames pb wb s :
  plain_bindings pb → plain_bindings wb →
  ∃ s', runTransformers [replaceParams pb; replaceWorkspaces wb] s = (s', None) ∧
    Forall2 (λ before after, render (parse before) = before ∧
      ∃ segs, Forall2 (renamed pb wb) (parse before) segs ∧ after = render segs)
      (Step_texts s) (Step_texts s').
Proof.
  intros Hpb Hwb. exists (interpolate pb wb s). split; [done|].
  rewrite Step_texts_interpolate. apply Forall2_fmap_r.
  apply Forall_Forall2_diag, Forall_true. intros t. split; [apply render_parse|by apply interpolate_text].
Qed.

(** A whole-array reference [$(params.x[*])] in the arguments of a used
    step stays as it is, also when [x] is bound and so no longer a param of
    the resolved task. *)
Theorem interpolate_keeps_array_reference pb wb s x :
  plain_bindings pb → plain_bindings wb → plain x → pb !! (x +:+ "[*]") = None →
  Container_Args (Step_Container s) = Some [reference ("params." +:+ x +:+ "[*]")] →
  ∃ s', runTransformers [replaceParams pb; replaceWorkspaces wb] s = (s', None) ∧
    Container_Args (Step_Container s') = Container_Args (Step_Container s).
Proof.
  intros Hpb Hwb [Hd Hp] Hx Hargs. exists (interpolate pb wb s). split; [done|].
  cbn. rewrite Hargs. cbn -[ApplyReplacements].
  destruct (interpolate_text pb wb (reference ("params." +:+ x +:+ "[*]")) Hpb Hwb) as (segs & Hsegs & ->).
  rewrite parse_plain_reference in Hsegs by (unfold no_dollar, no_paren in *; by rewrite !free_of_app).
  apply Forall2_cons_inv_l in Hsegs as (seg & segs' & Hseg & ->%Forall2_nil_inv_l & ->). cbn [render]. rewrite app_empty_r. do 2 f_equal.
  inversion Hseg as [|k k' Hk|k k' Hk|]; subst; [exfalso..|done]; inversion Hk as [f o n Hf Ho Heq]; subst.
  - unfold param_forms in Hf. rewrite !elem_of_cons in Hf.
    destruct Hf as [->|[->|[->|Hf]]]; [|done|done|by apply elem_of_nil in Hf].
    apply app_inj_l in Heq. congruence.
  - unfold workspace_forms in Hf. rewrite !elem_of_cons in Hf. unfold workspace_key in *.
    by destruct Hf as [->|[->|[->|[->|Hf]]]]; try discriminate Heq; apply elem_of_nil in Hf.
Qed.
End properties.

(** C35: The order in which Go visits the maps of the bindings cannot be
    observed: with any two orders [TaskSpec] returns the same task and the
    same error, when no name that is bound holds a closing parenthesis. *)
Theorem TaskSpec_order_independent (O1 O2 : MapOrder) {CM : ContainerMerge} spec used :
  Forall (λ step, ∀ u, V1alpha1.Step_Uses step = Some u → paren_free_uses u)
    (V1alpha1.TaskGroupSpec_Steps spec) →
  @resolveTaskSpec O1 CM spec used = @resolveTaskSpec O2 CM spec used.
Proof.
  intros Hnames. unfold resolveTaskSpec. rewrite (forRange_equiv _ (@TaskSpec_step O2 CM spec used)); [done|].
  intros i step a Hi. rewrite Forall_lookup in Hnames. specialize (Hnames i step Hi).
  unfold TaskSpec_step. destruct (V1alpha1.Step_Uses step) as [u|]; [|done].
  destruct (Hnames u eq_refl) as [Hp Hw]. destruct (used !! (0 + i)) as [t|]; [|done].
  rewrite !bindItems_spec. cbv beta iota zeta. fold (boundParams u) (boundWorkspaces u).
  rewrite !resolveSteps_usedSteps.
  assert (@usedSteps O1 (0 + i) step u t = @usedSteps O2 (0 + i) step u t) as ->; [|done].
  apply map_ext. intros s. rewrite (interpolate_order O1 O2); [done|by apply bindAll_keys..].
Qed.

(** ** Witnesses

    A group with a step of its own and a step that uses a task of two steps,
    with one of the task's two params bound. *)
Module Example.

Definition step (name script : string) : Step := {|
  Step_Container := {|
    Container_Name := name; Container_Image := ""; Container_Command := None;
    Container_Args := Some ["$(params.files[*])"]; Container_WorkingDir := "";
    Container_Ports := []; Container_EnvFrom := []; Container_Env := [];
    Container_Resources := JObj []; Container_VolumeMounts := []; Container_VolumeDevices := [];
    Container_LivenessProbe := None; Container_ReadinessProbe := None;
    Container_StartupProbe := None; Container_Lifecycle := None;
    Container_TerminationMessagePath := ""; Container_TerminationMessagePolicy := "";
    Container_ImagePullPolicy := ""; Container_SecurityContext := None; Container_Stdin := false;
    Container_StdinOnce := false; Container_TTY := false |};
  Step_Script := script; Step_Timeout := None; Step_Workspaces := []; Step_OnError := "" |}.

Definition param (name type : string) : ParamSpec := {|
  ParamSpec_Name := name; ParamSpec_Type := type; ParamSpec_Description := ""; ParamSpec_Default := None |}.

Definition task : TaskSpec := {|
  TaskSpec_Resources := None; TaskSpec_Params := [param "foo" "string"; param "bar" "string"];
  TaskSpec_Description := ""; TaskSpec_Steps := [step "one" "echo $(params.foo)"; step "two" "true"];
  TaskSpec_Volumes := []; TaskSpec_StepTemplate := Some zero_Container; TaskSpec_Sidecars := [];
  TaskSpec_Workspaces := []; TaskSpec_Results := [] |}.

Definition uses : V1alpha1.Uses := {|
  V1alpha1.Uses_TaskRef := {| TaskRef_Name := "task"; TaskRef_Kind := ""; TaskRef_APIVersion := "";
                              TaskRef_Bundle := ""; TaskRef_ResolverRef := JNull |};
  V1alpha1.Uses_ParamBindings := [{| V1alpha1.ParamBinding_Name := "foo"; V1alpha1.ParamBinding_Param := "msg" |}];
  V1alpha1.Uses_WorkspaceBindings := [] |}.

Definition group : V1alpha1.TaskGroupSpec := {|
  V1alpha1.TaskGroupSpec_Params := [param "msg" "string"]; V1alpha1.TaskGroupSpec_Description := "";
  V1alpha1.TaskGroupSpec_Steps := [
    {| V1alpha1.Step_Step := step "own" "true"; V1alpha1.Step_Uses := None |};
    {| V1alpha1.Step_Step := step "" ""; V1alpha1.Step_Uses := Some uses |};
    {| V1alpha1.Step_Step := step "again" ""; V1alpha1.Step_Uses := Some uses |}];
  V1alpha1.TaskGroupSpec_Volumes := []; V1alpha1.TaskGroupSpec_StepTemplate := None;
  V1alpha1.TaskGroupSpec_Sidecars := []; V1alpha1.TaskGroupSpec_Workspaces := [];
  V1alpha1.TaskGroupSpec_Results := [] |}.

Definition used : gmap nat TaskSpec := {[ 1 := task; 2 := task ]}.

(** What the group is resolved to. *)
Definition resolved : TaskSpec := (@resolveTaskSpec canonical_order image_merge group used).1.

Definition own_group : V1alpha1.TaskGroupSpec := {|
  V1alpha1.TaskGroupSpec_Params := [param "msg" "string"]; V1alpha1.TaskGroupSpec_Description := "";
  V1alpha1.TaskGroupSpec_Steps := [
    {| V1alpha1.Step_Step := step "own" "true"; V1alpha1.Step_Uses := None |}];
  V1alpha1.TaskGroupSpec_Volumes := []; V1alpha1.TaskGroupSpec_StepTemplate := None;
  V1alpha1.TaskGroupSpec_Sidecars := []; V1alpha1.TaskGroupSpec_Workspaces := [];
  V1alpha1.TaskGroupSpec_Results := [] |}.

Lemma resolved_ok : @resolveTaskSpec canonical_order image_merge group used = (resolved, None).
Proof. vm_compute. reflexivity. Qed.
End Example.

(** The bound [foo] is hidden, the unbound [bar] is seen. *)
Lemma TaskSpec_visible_params_witness :
  "bar" ∈ ParamSpec_Name <$> TaskSpec_Params Example.resolved ∧
  "foo" ∉ ParamSpec_Name <$> TaskSpec_Params Example.resolved.
Proof.
  split.
  - apply (TaskSpec_visible_params (MO := canonical_order) (CM := image_merge) _ _ _ "bar" Example.resolved_ok).
    right. exists 1. do 3 eexists. do 3 (split; [reflexivity|]). split; apply (bool_decide_unpack _); vm_compute; exact I.
  - vm_compute. intros H. by repeat (apply elem_of_cons in H as [?|H]); [done..|apply elem_of_nil in H].
Defined.

(** Both uses of the task leave a param [bar]. *)
Lemma TaskSpec_keeps_duplicate_params_witness :
  filter (λ p, ParamSpec_Name p = "bar") (TaskSpec_Params Example.resolved) =
  [Example.param "bar" "string"; Example.param "bar" "string"].
Proof.
  rewrite (TaskSpec_keeps_duplicate_params (MO := canonical_order) (CM := image_merge) _ _ _ "bar"
    Example.resolved_ok) by (apply (bool_decide_unpack _); vm_compute; exact I).
  vm_compute. reflexivity.
Defined.

Lemma TaskSpec_step_names_witness :
  map Step_Name (TaskSpec_Steps Example.resolved) =
  ["own"; "unamed-1-one"; "unamed-1-two"; "again-one"; "again-two"].
Proof.
  rewrite (TaskSpec_step_names (MO := canonical_order) (CM := image_merge) (CML := image_merge_laws)
    _ _ _ Example.resolved_ok).
  vm_compute. reflexivity.
Defined.

Lemma TaskSpec_without_uses_witness :
  @resolveTaskSpec canonical_order image_merge Example.own_group ∅ =
  (set_Steps [Example.step "own" "true"] (initialSpec Example.own_group), None).
Proof.
  apply (TaskSpec_without_uses (MO := canonical_order) (CM := image_merge) Example.own_group ∅).
  - reflexivity.
  - repeat constructor.
Defined.

Lemma interpolate_renames_witness :
  ∃ segs, Forall2 (renamed {[ "foo" := "msg" ]} ∅) (parse "echo $HOME $(id $(params.foo) ${X}") segs ∧
    render segs = "echo $HOME $(id $(params.msg) ${X}" ∧
    Step_Script (runTransformers [@replaceParams canonical_order {[ "foo" := "msg" ]}; @replaceWorkspaces canonical_order ∅]
                   (Example.step "one" "echo $HOME $(id $(params.foo) ${X}")).1 = render segs.
Proof.
  destruct (interpolate_renames (MO := canonical_order) {[ "foo" := "msg" ]} ∅
    (Example.step "one" "echo $HOME $(id $(params.foo) ${X}")) as (s' & Hrun & H);
    [apply (bool_decide_unpack _); vm_compute; exact I..|].
  destruct (Forall2_lookup_lr _ _ _ 0 "echo $HOME $(id $(params.foo) ${X}" (Step_Script s') H eq_refl eq_refl) as (_ & segs & Hsegs & Hs).
  exists segs. split; [exact Hsegs|]. rewrite Hrun. split; [|exact Hs]. rewrite <-Hs.
  change (Step_Script (s', @None error).1 = "echo $HOME $(id $(params.msg) ${X}"). rewrite <-Hrun. vm_compute. reflexivity.
Defined.

Lemma interpolate_keeps_array_reference_witness :
  ∃ s', runTransformers [@replaceParams canonical_order {[ "files" := "all" ]};
                         @replaceWorkspaces canonical_order ∅] (Example.step "one" "") = (s', None) ∧
    Container_Args (Step_Container s') = Some ["$(params.files[*])"].
Proof.
  apply (interpolate_keeps_array_reference (MO := canonical_order) {[ "files" := "all" ]} ∅
    (Example.step "one" "") "files");
    try (apply (bool_decide_unpack _); vm_compute; exact I); reflexivity.
Defined.

Lemma TaskSpec_order_independent_witness :
  @resolveTaskSpec canonical_order image_merge Example.group Example.used =
  @resolveTaskSpec reverse_order image_merge Example.group Example.used.
Proof.
  apply (TaskSpec_order_independent canonical_order reverse_order).
  repeat (apply Forall_cons; split); [intros u [=]|intros u [= <-]..|apply Forall_nil_2];
    split; apply (bool_decide_unpack _); vm_compute; exact I.
Defined.
