(* ===== verification/Validation.v ===== *)
(** pkg/apis/taskgroup/v1alpha1/taskgroup_validation.go and
    taskgroup_defaults.go, with the checks of Tekton's
    v1beta1/task_validation.go and pkg/apis/validate they share: which
    TaskGroups are accepted, and the errors of the others. *)
From S2P Require Import Prelude GoStrings FieldErrors Types Substitution.
From Stdlib Require Import Ascii.

(** ** Regular expressions *)

Definition is_lower (c : ascii) : bool := in_range "a" "z" c.
Definition is_alnum (c : ascii) : bool := is_letter c || is_digit c.
Definition is_lower_alnum (c : ascii) : bool := is_lower c || is_digit c.

(** A non-empty string of bytes in [mid] that starts and ends with a byte in
    [edge]: [edge(mid*edge)?], where [mid] includes [edge]. *)
Fixpoint ends_in (edge mid : ascii → bool) (s : string) : bool :=
  match s with
  | EmptyString => false
  | String c EmptyString => edge c
  | String c s => mid c && ends_in edge mid s
  end.

Definition delimited (edge mid : ascii → bool) (s : string) : bool :=
  match s with
  | EmptyString => false
  | String c EmptyString => edge c
  | String c s => edge c && ends_in edge mid s
  end.

(** [resultNameFormatRegex] *)
Definition ResultNameFormat : string := "^([A-Za-z0-9][-A-Za-z0-9_.]*)?[A-Za-z0-9]$".

Definition resultNameFormatRegex (s : string) : bool := delimited is_alnum var_char s.

(** [IsDNS1123Subdomain]: whether it returns no message. *)
Definition label_char (c : ascii) : bool := is_lower_alnum c || Ascii.eqb c "-".

Definition dns1123Label (s : string) : bool := delimited is_lower_alnum label_char s.

Definition DNS1123SubdomainMaxLength : nat := 253.

Definition IsDNS1123Subdomain (value : string) : bool :=
  bool_decide (String.length value ≤ DNS1123SubdomainMaxLength) &&
  forallb dns1123Label (Split value ".").

(** ** pkg/apis/validate/metadata.go *)

Definition MaxLength : nat := 63.

(** [func ObjectMetadata(meta metav1.Object) *apis.FieldError], of the name. *)
Definition ObjectMetadata (name : string) : option FieldError :=
  if negb (IsDNS1123Subdomain name)
  then Some (mkFieldError ("invalid resource name " +:+ Quote name +:+ ": must be a valid DNS label")
               ["name"] "" [])
  else if bool_decide (MaxLength < String.length name)
  then Some (mkFieldError "Invalid resource name: length must be no more than 63 characters" ["name"] "" [])
  else None.

(** ** v1beta1/task_validation.go *)

(** The body of the loop of [ValidateVolumes], over the errors and the names. *)
Definition ValidateVolumes_step (idx : nat) (v : Volume) (s : option FieldError * gset string) :
    option FieldError * gset string :=
  let '(errs, vols) := s in
  if bool_decide (Volume_Name v ∈ vols)
  then (Also errs [ViaIndex
          (Some (ErrGeneric ("multiple volumes with same name " +:+ Quote (Volume_Name v)) ["name"])) idx],
        vols)
  else (errs, {[ Volume_Name v ]} ∪ vols).

(** [func ValidateVolumes(volumes []corev1.Volume) (errs *apis.FieldError)] *)
Definition ValidateVolumes (volumes : list Volume) : option FieldError :=
  (foldRange ValidateVolumes_step 0 volumes (None, ∅)).1.

(** [func (p ParamSpec) ValidateType() *apis.FieldError] *)
Definition ValidateType (p : V1beta1.ParamSpec) : option FieldError :=
  let name := V1beta1.ParamSpec_Name p in
  let type := V1beta1.ParamSpec_Type p in
  let validType := existsb (λ allowedType, bool_decide (type = allowedType)) V1beta1.AllParamTypes in
  if negb validType then Some (ErrInvalidValue type (name +:+ ".type"))
  else
    match V1beta1.ParamSpec_Default p with
    | Some d =>
      if bool_decide (V1beta1.ArrayOrString_Type d ≠ type)
      then Some (mkFieldError
             (String "034" (type +:+ String "034" (" type does not match default value's type: " +:+
                String "034" (V1beta1.ArrayOrString_Type d +:+ String "034" ""))))
             [name +:+ ".type"; name +:+ ".default.type"] "" [])
      else None
    | None => None
    end.

(** [func ValidateParameterTypes(params []ParamSpec) (errs *apis.FieldError)] *)
Definition ValidateParameterTypes (params : list V1beta1.ParamSpec) : option FieldError :=
  foldRange (λ _ p errs, Also errs [ValidateType p]) 0 params None.

(** [func validateStepVariables(step Step, prefix string, vars sets.String)] *)
Definition validateStepVariables (step : V1beta1.Step) (prefix : string) (vars : gset string) :
    option FieldError :=
  let c := V1beta1.Step_Container step in
  let check value := ValidateVariableP value prefix vars in
  let errs := ViaField (check (Container_Name c)) ["name"] in
  let errs := Also errs [ViaField (check (Container_Image c)) ["image"]] in
  let errs := Also errs [ViaField (check (Container_WorkingDir c)) ["workingDir"]] in
  let errs := Also errs [ViaField (check (V1beta1.Step_Script step)) ["script"]] in
  let errs := foldRange (λ i cmd errs, Also errs [ViaFieldIndex (check cmd) "command" i]) 0
                (elems (Container_Command c)) errs in
  let errs := foldRange (λ i arg errs, Also errs [ViaFieldIndex (check arg) "args" i]) 0
                (elems (Container_Args c)) errs in
  let errs := foldRange (λ _ env errs, Also errs [ViaFieldKey (check (EnvVar_Value env)) "env" (EnvVar_Name env)]) 0
                (Container_Env c) errs in
  foldRange (λ i v errs,
    let errs := Also errs [ViaFieldIndex (ViaField (check (VolumeMount_Name v)) ["name"]) "volumeMount" i] in
    let errs := Also errs [ViaFieldIndex (ViaField (check (VolumeMount_MountPath v)) ["MountPath"]) "volumeMount" i] in
    Also errs [ViaFieldIndex (ViaField (check (VolumeMount_SubPath v)) ["SubPath"]) "volumeMount" i]) 0
    (Container_VolumeMounts c) errs.

(** [func validateStepArrayUsage(step Step, prefix string, vars sets.String)] *)
Definition validateStepArrayUsage (step : V1beta1.Step) (prefix : string) (vars : gset string) :
    option FieldError :=
  let c := V1beta1.Step_Container step in
  let noArray value := ValidateVariableProhibitedP value prefix vars in
  let isolated value := ValidateVariableIsolatedP value prefix vars in
  let errs := ViaField (noArray (Container_Name c)) ["name"] in
  let errs := Also errs [ViaField (noArray (Container_Image c)) ["image"]] in
  let errs := Also errs [ViaField (noArray (Container_WorkingDir c)) ["workingDir"]] in
  let errs := Also errs [ViaField (noArray (V1beta1.Step_Script step)) ["script"]] in
  let errs := foldRange (λ i cmd errs, Also errs [ViaFieldIndex (isolated cmd) "command" i]) 0
                (elems (Container_Command c)) errs in
  let errs := foldRange (λ i arg errs, Also errs [ViaFieldIndex (isolated arg) "args" i]) 0
                (elems (Container_Args c)) errs in
  let errs := foldRange (λ _ env errs, Also errs [ViaFieldKey (noArray (EnvVar_Value env)) "env" (EnvVar_Name env)]) 0
                (Container_Env c) errs in
  foldRange (λ i v errs,
    let errs := Also errs [ViaFieldIndex (ViaField (noArray (VolumeMount_Name v)) ["name"]) "volumeMount" i] in
    let errs := Also errs [ViaFieldIndex (ViaField (noArray (VolumeMount_MountPath v)) ["mountPath"]) "volumeMount" i] in
    Also errs [ViaFieldIndex (ViaField (noArray (VolumeMount_SubPath v)) ["subPath"]) "volumeMount" i]) 0
    (Container_VolumeMounts c) errs.

(** [func validateVariables(steps []Step, prefix string, vars sets.String)] *)
Definition validateVariables (steps : list V1beta1.Step) (prefix : string) (vars : gset string) :
    option FieldError :=
  foldRange (λ idx step errs, Also errs [ViaFieldIndex (validateStepVariables step prefix vars) "steps" idx])
    0 steps None.

(** [func validateArrayUsage(steps []Step, prefix string, vars sets.String)]:
    [ViaFieldIndex] is applied to all the errors collected so far. *)
Definition validateArrayUsage (steps : list V1beta1.Step) (prefix : string) (vars : gset string) :
    option FieldError :=
  foldRange (λ idx step errs, ViaFieldIndex (Also errs [validateStepArrayUsage step prefix vars]) "steps" idx)
    0 steps None.

(** [parameterNames] and [arrayParameterNames] *)
Definition parameterNames (params : list V1beta1.ParamSpec) : gset string :=
  list_to_set (map V1beta1.ParamSpec_Name params).

Definition arrayParameterNames (params : list V1beta1.ParamSpec) : gset string :=
  list_to_set (map V1beta1.ParamSpec_Name
    (filter (λ p, V1beta1.ParamSpec_Type p = V1beta1.ParamTypeArray) params)).

(** [func ValidateParameterVariables(steps []Step, params []ParamSpec) *apis.FieldError] *)
Definition ValidateParameterVariables (steps : list V1beta1.Step) (params : list V1beta1.ParamSpec) :
    option FieldError :=
  let errs := validateVariables steps "params" (parameterNames params) in
  Also errs [validateArrayUsage steps "params" (arrayParameterNames params)].

(** [func ValidateResourcesVariables(steps, nil)]: the only call is without
    resources. *)
Definition ValidateResourcesVariables (steps : list V1beta1.Step) : option FieldError := None.

(** [func (tr TaskResult) Validate(_ context.Context) *apis.FieldError] *)
Definition TaskResult_Validate (tr : V1beta1.TaskResult) : option FieldError :=
  if resultNameFormatRegex (V1beta1.TaskResult_Name tr) then None
  else Some (ErrInvalidKeyName (V1beta1.TaskResult_Name tr) "name"
    ["Name must consist of alphanumeric characters, '-', '_', and must start and end with an alphanumeric character (e.g. 'MyName',  or 'my-name',  or 'my_name', regex used for validation is '" +:+ ResultNameFormat +:+ "')"]).

(** ** taskgroup_validation.go *)

(** [func (u *Uses) Validate(ctx context.Context) (errs *apis.FieldError)] *)
Definition Uses_Validate (u : option V1alpha1.Uses) : option FieldError :=
  match u with
  | None => None
  | Some u =>
    if bool_decide (V1beta1.TaskRef_Name (V1alpha1.Uses_TaskRef u) = "")
    then Also None [Some (ErrMissingField ["taskref.name"])]
    else None
  end.

(** [func (s Step) Validate(ctx context.Context) (errs *apis.FieldError)] *)
Definition Step_Validate (s : V1alpha1.Step) : option FieldError :=
  Also None [ViaField (Uses_Validate (V1alpha1.Step_Uses s)) ["uses"]].

(** [func toUpstreamStep(steps []Step) []v1beta1.Step] *)
Definition toUpstreamStep (steps : list V1alpha1.Step) : list V1beta1.Step := map V1alpha1.toUpstream steps.

(** [func validateSteps(ctx, steps []Step, usteps, stepTemplate) (errs *apis.FieldError)];
    the last two arguments are not used. *)
Definition validateSteps (steps : list V1alpha1.Step) (usteps : list V1beta1.Step)
    (stepTemplate : option Container) : option FieldError :=
  foldRange (λ idx s errs, Also errs [ViaIndex (Step_Validate s) idx]) 0 steps None.

(** [func validateResults(ctx, results []v1beta1.TaskResult) (errs *apis.FieldError)] *)
Definition validateResults (results : list V1beta1.TaskResult) : option FieldError :=
  foldRange (λ index result errs, Also errs [ViaIndex (TaskResult_Validate result) index]) 0 results None.

(** [func (tgs *TaskGroupSpec) Validate(ctx context.Context) (errs *apis.FieldError)] *)
Definition TaskGroupSpec_Validate (tgs : V1alpha1.TaskGroupSpec) : option FieldError :=
  let errs := if bool_decide (length (V1alpha1.TaskGroupSpec_Steps tgs) = 0)
              then Also None [Some (ErrMissingField ["steps"])] else None in
  let steps := toUpstreamStep (V1alpha1.TaskGroupSpec_Steps tgs) in
  let errs := Also errs [ViaField (validateSteps (V1alpha1.TaskGroupSpec_Steps tgs) steps
                                     (V1alpha1.TaskGroupSpec_StepTemplate tgs)) ["steps"]] in
  let errs := Also errs [ViaField (ValidateVolumes (V1alpha1.TaskGroupSpec_Volumes tgs)) ["volumes"]] in
  let errs := Also errs [ViaField (ValidateParameterTypes (V1alpha1.TaskGroupSpec_Params tgs)) ["params"]] in
  let errs := Also errs [ValidateParameterVariables steps (V1alpha1.TaskGroupSpec_Params tgs)] in
  let errs := Also errs [ValidateResourcesVariables steps] in
  Also errs [ViaField (validateResults (V1alpha1.TaskGroupSpec_Results tgs)) ["results"]].

(** [func (tg *TaskGroup) Validate(ctx context.Context) *apis.FieldError], of
    a TaskGroup with this name and spec. *)
Definition TaskGroup_Validate (name : string) (spec : V1alpha1.TaskGroupSpec) : option FieldError :=
  match ObjectMetadata name with
  | Some err => ViaField (Some err) ["metadata"]
  | None => TaskGroupSpec_Validate spec
  end.

(** ** taskgroup_defaults.go *)

(** [func (tls *TaskGroupSpec) SetDefaults(ctx context.Context)] *)
Definition TaskGroupSpec_SetDefaults (tls : V1alpha1.TaskGroupSpec) : V1alpha1.TaskGroupSpec := tls.

(** [func (tl *TaskGroup) SetDefaults(ctx context.Context)], of the spec. *)
Definition TaskGroup_SetDefaults (spec : V1alpha1.TaskGroupSpec) : V1alpha1.TaskGroupSpec :=
  TaskGroupSpec_SetDefaults spec.
