(* ===== verification/ValidationSpec.v ===== *)
(** When a TaskGroup is valid, and that [TaskGroupSpec_Validate] decides it. *)
From S2P Require Import Prelude GoStrings FieldErrors Types Substitution Validation.
From Stdlib Require Import Ascii.

(** ** Specification *)

(** The text [t] refers to the parameter [v], as [$(params.v)] or
    [$(params.v[*])], possibly with a suffix after a dot. *)
Definition refers_to (t v : string) : Prop :=
  ∃ w, w ∈ extractVariablesFromString t "params" ∧ v = TrimSuffix w "[*]".

(** The texts of a step that hold one string, and those that hold a list. *)
Definition scalar_texts (s : V1beta1.Step) : list string :=
  let c := V1beta1.Step_Container s in
  [Container_Name c; Container_Image c; Container_WorkingDir c; V1beta1.Step_Script s] ++
  map EnvVar_Value (Container_Env c) ++
  concat (map (λ v, [VolumeMount_Name v; VolumeMount_MountPath v; VolumeMount_SubPath v])
            (Container_VolumeMounts c)).

Definition list_texts (s : V1beta1.Step) : list string :=
  elems (Container_Command (V1beta1.Step_Container s)) ++ elems (Container_Args (V1beta1.Step_Container s)).

(** A text refers to declared parameters only. *)
Definition declared (names : gset string) (t : string) : Prop := ∀ v, refers_to t v → v ∈ names.

(** A text refers to no array. *)
Definition array_free (arrays : gset string) (t : string) : Prop := ∀ v, refers_to t v → v ∉ arrays.

(** A text that refers to an array is as long as its first reference. *)
Definition isolated (arrays : gset string) (t : string) : Prop :=
  ∀ v, refers_to t v → v ∈ arrays →
    String.length t = String.length (extractExpressionFromString t "params").

(** A parameter has one of the two types, and so has its default. *)
Definition well_typed (p : V1beta1.ParamSpec) : Prop :=
  V1beta1.ParamSpec_Type p ∈ V1beta1.AllParamTypes ∧
  ∀ d, V1beta1.ParamSpec_Default p = Some d → V1beta1.ArrayOrString_Type d = V1beta1.ParamSpec_Type p.

Definition uses_named (s : V1alpha1.Step) : Prop :=
  ∀ u, V1alpha1.Step_Uses s = Some u → V1beta1.TaskRef_Name (V1alpha1.Uses_TaskRef u) ≠ "".

Record valid_TaskGroupSpec (tgs : V1alpha1.TaskGroupSpec) : Prop := {
  valid_nonempty : V1alpha1.TaskGroupSpec_Steps tgs ≠ [];
  valid_uses : Forall uses_named (V1alpha1.TaskGroupSpec_Steps tgs);
  valid_volumes : NoDup (Volume_Name <$> V1alpha1.TaskGroupSpec_Volumes tgs);
  valid_params : Forall well_typed (V1alpha1.TaskGroupSpec_Params tgs);
  valid_references : Forall (λ s, Forall (declared (parameterNames (V1alpha1.TaskGroupSpec_Params tgs)))
                                    (scalar_texts s ++ list_texts s))
                       (toUpstreamStep (V1alpha1.TaskGroupSpec_Steps tgs));
  valid_scalars : Forall (λ s, Forall (array_free (arrayParameterNames (V1alpha1.TaskGroupSpec_Params tgs)))
                                 (scalar_texts s))
                    (toUpstreamStep (V1alpha1.TaskGroupSpec_Steps tgs));
  valid_lists : Forall (λ s, Forall (isolated (arrayParameterNames (V1alpha1.TaskGroupSpec_Params tgs)))
                               (list_texts s))
                  (toUpstreamStep (V1alpha1.TaskGroupSpec_Steps tgs));
  valid_results : Forall (λ r, resultNameFormatRegex (V1beta1.TaskResult_Name r) = true)
                    (V1alpha1.TaskGroupSpec_Results tgs)
}.

(** ** The checks one by one *)
Lemma ViaIndex_None e i : ViaIndex e i = None ↔ e = None.
Proof. apply ViaField_None. Qed.
Lemma ViaFieldIndex_None e f i : ViaFieldIndex e f i = None ↔ e = None.
Proof. unfold ViaFieldIndex. by rewrite ViaField_None, ViaIndex_None. Qed.
Lemma ViaFieldKey_None e f k : ViaFieldKey e f k = None ↔ e = None.
Proof. unfold ViaFieldKey. by rewrite ViaField_None; unfold ViaKey; rewrite ViaField_None. Qed.

Lemma wf_ViaIndex e i : wf e → wf (ViaIndex e i).
Proof. apply wf_ViaField. Qed.
Lemma wf_ViaFieldIndex e f i : wf e → wf (ViaFieldIndex e f i).
Proof. intros. by apply wf_ViaField, wf_ViaField. Qed.
Lemma wf_ViaFieldKey e f k : wf e → wf (ViaFieldKey e f k).
Proof. intros. by apply wf_ViaField, wf_ViaField. Qed.
#[export] Hint Resolve wf_ViaIndex wf_ViaFieldIndex wf_ViaFieldKey : golib.

Lemma check_variables_None value bad m :
  check_variables value "params" bad m = None ↔ ∀ v, refers_to value v → bad v = false.
Proof.
  unfold check_variables, refers_to. destruct (existsb _ _) eqn:Hex; split; try done.
  - intros Hv. apply existsb_exists in Hex as (w & Hw & Hb).
    rewrite Hv in Hb; [done|]. exists w. by rewrite list_elem_of_In.
  - intros _ v (w & Hw & ->). rewrite list_elem_of_In in Hw.
    apply not_true_iff_false. intros Hb. apply not_true_iff_false in Hex. apply Hex.
    apply existsb_exists. by exists w.
Qed.

Lemma wf_check_variables value bad c m : wf (check_variables value "params" bad (String c m)).
Proof. unfold check_variables. destruct (existsb _ _); [|done]. by apply wf_leaf. Qed.

Lemma ValidateVariableP_None value names : ValidateVariableP value "params" names = None ↔ declared names value.
Proof.
  unfold ValidateVariableP. rewrite check_variables_None. apply forall_proper. intros v.
  by rewrite negb_false_iff, bool_decide_eq_true.
Qed.

Lemma ValidateVariableProhibitedP_None value arrays :
  ValidateVariableProhibitedP value "params" arrays = None ↔ array_free arrays value.
Proof.
  unfold ValidateVariableProhibitedP. rewrite check_variables_None. apply forall_proper. intros v.
  by rewrite bool_decide_eq_false.
Qed.

Lemma ValidateVariableIsolatedP_None value arrays :
  ValidateVariableIsolatedP value "params" arrays = None ↔ isolated arrays value.
Proof.
  unfold ValidateVariableIsolatedP. rewrite check_variables_None. apply forall_proper. intros v.
  rewrite andb_false_iff, negb_false_iff, bool_decide_eq_false, bool_decide_eq_true.
  destruct (decide (v ∈ arrays)); naive_solver.
Qed.

Lemma wf_ValidateVariableP value names : wf (ValidateVariableP value "params" names).
Proof. apply wf_check_variables. Qed.
Lemma wf_ValidateVariableProhibitedP value names : wf (ValidateVariableProhibitedP value "params" names).
Proof. apply wf_check_variables. Qed.
Lemma wf_ValidateVariableIsolatedP value names : wf (ValidateVariableIsolatedP value "params" names).
Proof. apply wf_check_variables. Qed.
#[export] Hint Resolve wf_ValidateVariableP wf_ValidateVariableProhibitedP wf_ValidateVariableIsolatedP : golib.

(** A chain of [errs = errs.Also(...)]. *)
Ltac solve_chain :=
  repeat (rewrite Also_None; [|solve [eauto 10 with golib]]);
  rewrite ?ViaFieldIndex_None, ?ViaFieldKey_None, ?ViaField_None.

Lemma Forall_scalar_texts (P : string → Prop) s :
  let c := V1beta1.Step_Container s in
  Forall P (scalar_texts s) ↔
  P (Container_Name c) ∧ P (Container_Image c) ∧ P (Container_WorkingDir c) ∧ P (V1beta1.Step_Script s) ∧
  Forall (λ e, P (EnvVar_Value e)) (Container_Env c) ∧
  Forall (λ v, P (VolumeMount_Name v) ∧ P (VolumeMount_MountPath v) ∧ P (VolumeMount_SubPath v))
    (Container_VolumeMounts c).
Proof.
  cbv zeta. unfold scalar_texts. rewrite !Forall_app, !Forall_cons, Forall_concat, !Forall_map, Forall_nil.
  unfold compose. do 3 setoid_rewrite Forall_cons. setoid_rewrite Forall_nil.
  assert (∀ A B C : Prop, A ∧ B ∧ C ∧ True ↔ A ∧ B ∧ C) as Htrue by tauto.
  setoid_rewrite Htrue. tauto.
Qed.

(** The loops of a step check, given what the check of a text decides. *)
Ltac solve_step_check iff :=
  match goal with
  | |- context [foldRange ?body 0 (Container_VolumeMounts ?c) ?errs] =>
    match type of iff with
    | ∀ value, _ = None ↔ @?P value =>
      rewrite (foldRange_None (λ v, P (VolumeMount_Name v) ∧ P (VolumeMount_MountPath v) ∧
        P (VolumeMount_SubPath v))) by (intros ? ? ?; solve_chain; rewrite !iff; tauto);
      rewrite (foldRange_None (λ e, P (EnvVar_Value e))) by (intros ? ? ?; solve_chain; by rewrite iff)
    end
  end.

Lemma validateStepVariables_None names step :
  validateStepVariables step "params" names = None ↔
  Forall (declared names) (scalar_texts step ++ list_texts step).
Proof.
  pose proof (λ v, ValidateVariableP_None v names) as Hiff.
  unfold validateStepVariables. solve_step_check Hiff.
  do 2 (rewrite (foldRange_None (declared names)) by (intros ? ? ?; solve_chain; by rewrite Hiff)).
  solve_chain. rewrite !Hiff. unfold list_texts. rewrite !Forall_app, Forall_scalar_texts. tauto.
Qed.

Lemma validateStepArrayUsage_None arrays step :
  validateStepArrayUsage step "params" arrays = None ↔
  Forall (array_free arrays) (scalar_texts step) ∧ Forall (isolated arrays) (list_texts step).
Proof.
  pose proof (λ v, ValidateVariableProhibitedP_None v arrays) as Hiff.
  pose proof (λ v, ValidateVariableIsolatedP_None v arrays) as Hiso.
  unfold validateStepArrayUsage. solve_step_check Hiff.
  do 2 (rewrite (foldRange_None (isolated arrays)) by (intros ? ? ?; solve_chain; by rewrite Hiso)).
  solve_chain. rewrite !Hiff. unfold list_texts. rewrite !Forall_app, Forall_scalar_texts. tauto.
Qed.

(** The checks return well-formed errors. *)
Ltac solve_wf_check := repeat (apply foldRange_wf; [intros; eauto 20 with golib|]); eauto 20 with golib.

Lemma wf_validateStepVariables names step : wf (validateStepVariables step "params" names).
Proof. unfold validateStepVariables. solve_wf_check. Qed.

Lemma wf_validateStepArrayUsage arrays step : wf (validateStepArrayUsage step "params" arrays).
Proof. unfold validateStepArrayUsage. solve_wf_check. Qed.
#[export] Hint Resolve wf_validateStepVariables wf_validateStepArrayUsage : golib.

Lemma validateVariables_None names steps :
  validateVariables steps "params" names = None ↔
  Forall (λ s, Forall (declared names) (scalar_texts s ++ list_texts s)) steps.
Proof.
  unfold validateVariables. rewrite foldRange_None; [naive_solver|].
  intros i s errs. solve_chain. by rewrite validateStepVariables_None.
Qed.

Lemma validateArrayUsage_None arrays steps :
  validateArrayUsage steps "params" arrays = None ↔
  Forall (λ s, Forall (array_free arrays) (scalar_texts s) ∧ Forall (isolated arrays) (list_texts s)) steps.
Proof.
  unfold validateArrayUsage. rewrite foldRange_None; [naive_solver|].
  intros i s errs. rewrite ViaFieldIndex_None. solve_chain. by rewrite validateStepArrayUsage_None.
Qed.

Lemma wf_validateVariables names steps : wf (validateVariables steps "params" names).
Proof. unfold validateVariables. solve_wf_check. Qed.

Lemma wf_validateArrayUsage arrays steps : wf (validateArrayUsage steps "params" arrays).
Proof. unfold validateArrayUsage. solve_wf_check. Qed.
#[export] Hint Resolve wf_validateVariables wf_validateArrayUsage : golib.

(** The volumes: every name is new. *)
Lemma ValidateVolumes_loop i volumes errs vols :
  (foldRange ValidateVolumes_step i volumes (errs, vols)).1 = None ↔
  errs = None ∧ Forall (λ v, Volume_Name v ∉ vols) volumes ∧ NoDup (Volume_Name <$> volumes).
Proof.
  revert i errs vols. induction volumes as [|v volumes IH]; intros i errs vols;
    cbn [foldRange ValidateVolumes_step fmap list_fmap].
  - simpl. split; [intros ->; split_and!; [done|done|constructor]|naive_solver].
  - rewrite Forall_cons, NoDup_cons. case_bool_decide as Hin; rewrite IH.
    + split; [|naive_solver]. intros [HA _]. rewrite Also_None in HA by (apply wf_ViaIndex; by apply wf_leaf).
      destruct HA as [_ HA]. by apply ViaIndex_None in HA.
    + rewrite list_elem_of_fmap. rewrite !Forall_forall. split.
      * intros (-> & Hv & Hnd). split_and!; [done|done|set_solver| |done].
        intros (w & Heq & Hw). apply (Hv w Hw). set_solver.
      * intros (-> & (_ & Hv) & Hn & Hnd). split_and!; [done| |done].
        intros w Hw. rewrite elem_of_union, elem_of_singleton. intros [Heq|?]; [|by apply (Hv w)].
        apply Hn. eauto.
Qed.

Lemma ValidateVolumes_None volumes : ValidateVolumes volumes = None ↔ NoDup (Volume_Name <$> volumes).
Proof.
  unfold ValidateVolumes. rewrite ValidateVolumes_loop. split; [naive_solver|]. intros Hnd.
  split_and!; [done| |done]. apply Forall_true. intros v. apply not_elem_of_empty.
Qed.

Lemma wf_ValidateVolumes volumes : wf (ValidateVolumes volumes).
Proof.
  unfold ValidateVolumes. assert (wf (@None FieldError)) as Hwf by done. revert Hwf.
  generalize 0, (@None FieldError), (∅ : gset string).
  induction volumes as [|v volumes IH]; intros i errs vols Hwf; [done|]. cbn [foldRange ValidateVolumes_step].
  case_bool_decide; apply IH; [|done]. apply wf_Also; [done|]. by apply wf_ViaIndex, wf_leaf.
Qed.

Lemma ValidateType_None p : ValidateType p = None ↔ well_typed p.
Proof.
  unfold ValidateType, well_typed. destruct (existsb _ _) eqn:Hty; cbn [negb].
  - apply existsb_exists in Hty as (t & Ht & ->%bool_decide_eq_true).
    apply list_elem_of_In in Ht. destruct (V1beta1.ParamSpec_Default p) as [d|]; [|naive_solver].
    case_bool_decide as Hd.
    + split; [done|]. intros [_ Hall]. by destruct Hd; apply Hall.
    + split; [|done]. intros _. split; [done|]. intros d' [= <-].
      destruct (decide (V1beta1.ArrayOrString_Type d = V1beta1.ParamSpec_Type p)); [done|]. by destruct Hd.
  - split; [done|]. intros [Hin _]. apply not_true_iff_false in Hty. destruct Hty.
    apply existsb_exists. exists (V1beta1.ParamSpec_Type p).
    rewrite <-list_elem_of_In, bool_decide_eq_true. done.
Qed.

Lemma wf_ValidateType p : wf (ValidateType p).
Proof. unfold ValidateType. repeat case_match; try done; by apply wf_leaf. Qed.
#[export] Hint Resolve wf_ValidateVolumes wf_ValidateType : golib.

Lemma ValidateParameterTypes_None params : ValidateParameterTypes params = None ↔ Forall well_typed params.
Proof.
  unfold ValidateParameterTypes. rewrite foldRange_None; [naive_solver|].
  intros i p errs. solve_chain. by rewrite ValidateType_None.
Qed.

Lemma wf_ValidateParameterTypes params : wf (ValidateParameterTypes params).
Proof. unfold ValidateParameterTypes. solve_wf_check. Qed.

Lemma TaskResult_Validate_None r :
  TaskResult_Validate r = None ↔ resultNameFormatRegex (V1beta1.TaskResult_Name r) = true.
Proof. unfold TaskResult_Validate. by destruct (resultNameFormatRegex _). Qed.

Lemma wf_TaskResult_Validate r : wf (TaskResult_Validate r).
Proof. unfold TaskResult_Validate. destruct (resultNameFormatRegex _); [done|]. by apply wf_leaf. Qed.
#[export] Hint Resolve wf_ValidateParameterTypes wf_TaskResult_Validate : golib.

Lemma validateResults_None results :
  validateResults results = None ↔
  Forall (λ r, resultNameFormatRegex (V1beta1.TaskResult_Name r) = true) results.
Proof.
  unfold validateResults. rewrite foldRange_None; [naive_solver|].
  intros i r errs. solve_chain. by rewrite ViaIndex_None, TaskResult_Validate_None.
Qed.

Lemma wf_validateResults results : wf (validateResults results).
Proof. unfold validateResults. solve_wf_check. Qed.

Lemma Uses_Validate_None s : Uses_Validate (V1alpha1.Step_Uses s) = None ↔ uses_named s.
Proof.
  unfold Uses_Validate, uses_named. destruct (V1alpha1.Step_Uses s) as [u|]; [|naive_solver].
  case_bool_decide; naive_solver.
Qed.

Lemma wf_Uses_Validate u : wf (Uses_Validate u).
Proof. unfold Uses_Validate. repeat case_match; try done. apply wf_Also; [done|]. by apply wf_leaf. Qed.
#[export] Hint Resolve wf_validateResults wf_Uses_Validate : golib.

Lemma Step_Validate_None s : Step_Validate s = None ↔ uses_named s.
Proof. unfold Step_Validate. solve_chain. rewrite Uses_Validate_None. naive_solver. Qed.

Lemma wf_Step_Validate s : wf (Step_Validate s).
Proof. unfold Step_Validate. eauto with golib. Qed.
#[export] Hint Resolve wf_Step_Validate : golib.

Lemma validateSteps_None steps usteps template :
  validateSteps steps usteps template = None ↔ Forall uses_named steps.
Proof.
  unfold validateSteps. rewrite foldRange_None; [naive_solver|].
  intros i s errs. solve_chain. by rewrite ViaIndex_None, Step_Validate_None.
Qed.

Lemma wf_validateSteps steps usteps template : wf (validateSteps steps usteps template).
Proof. unfold validateSteps. solve_wf_check. Qed.

Lemma wf_ValidateParameterVariables steps params : wf (ValidateParameterVariables steps params).
Proof. unfold ValidateParameterVariables. eauto with golib. Qed.
#[export] Hint Resolve wf_validateSteps wf_ValidateParameterVariables : golib.

Lemma ValidateParameterVariables_None steps params :
  ValidateParameterVariables steps params = None ↔
  Forall (λ s, Forall (declared (parameterNames params)) (scalar_texts s ++ list_texts s)) steps ∧
  Forall (λ s, Forall (array_free (arrayParameterNames params)) (scalar_texts s)) steps ∧
  Forall (λ s, Forall (isolated (arrayParameterNames params)) (list_texts s)) steps.
Proof.
  unfold ValidateParameterVariables. solve_chain.
  by rewrite validateVariables_None, validateArrayUsage_None, Forall_and.
Qed.

(** ** The theorem *)
Lemma TaskGroupSpec_Validate_None tgs : TaskGroupSpec_Validate tgs = None ↔ valid_TaskGroupSpec tgs.
Proof.
  unfold TaskGroupSpec_Validate. solve_chain.
  rewrite validateSteps_None, ValidateVolumes_None, ValidateParameterTypes_None,
    ValidateParameterVariables_None, validateResults_None.
  assert ((if bool_decide (length (V1alpha1.TaskGroupSpec_Steps tgs) = 0)
           then Also None [Some (ErrMissingField ["steps"])] else None) = None ↔
          V1alpha1.TaskGroupSpec_Steps tgs ≠ []) as ->.
  { rewrite <-length_zero_iff_nil. case_bool_decide; [|done]. split; [done|]. by intros []. }
  unfold ValidateResourcesVariables. split; [|intros []; tauto]. intros. constructor; tauto.
Qed.
