(* ===== verification/ValidationTheorems.v ===== *)
(** The properties of the validation of a TaskGroup. *)
From S2P Require Import Prelude GoStrings FieldErrors Types Substitution Validation ValidationSpec.
From Stdlib Require Import Ascii.

(** ** Properties *)

(** C11: A TaskGroup's spec, after defaulting, passes its validation exactly
    when it is valid: it has steps, every [uses] names a task, volume names
    are unique, params and their defaults are well typed, its steps refer to
    declared params only and to arrays only in isolated items of commands and
    arguments, and result names have the required form. *)
Theorem TaskGroupSpec_Validate_decides tgs :
  TaskGroupSpec_Validate (TaskGroup_SetDefaults tgs) = None ↔ valid_TaskGroupSpec tgs.
Proof. apply TaskGroupSpec_Validate_None. Qed.

(** A TaskGroup is accepted exactly when its name is a DNS-1123 subdomain
    of at most 63 bytes and its spec is valid; the limit of 253 bytes of a
    subdomain never decides. *)
Theorem TaskGroup_Validate_decides name spec :
  TaskGroup_Validate name spec = None ↔
  String.length name ≤ 63 ∧ Forall (λ label, dns1123Label label = true) (Split name "."%char) ∧
  valid_TaskGroupSpec spec.
Proof.
  unfold TaskGroup_Validate, ObjectMetadata, IsDNS1123Subdomain, MaxLength, DNS1123SubdomainMaxLength.
  rewrite <-TaskGroupSpec_Validate_None, <-forallb_Forall, negb_andb.
  destruct (forallb dns1123Label _).
  - rewrite orb_false_r. repeat case_bool_decide; cbn [negb]; rewrite ?ViaField_None;
      split; intros; destruct_and?; split_and?; try done; lia.
  - rewrite orb_true_r, ViaField_None. split; [done|]. by intros (_ & ? & _).
Qed.

(** No check hides the errors of another one: the errors reported for a
    spec are those of its steps, volumes, params, the references in its steps
    and its results, in this order and each under the path of its field. *)
Theorem TaskGroupSpec_Validate_reports_all tgs :
  let steps := V1alpha1.TaskGroupSpec_Steps tgs in
  normalized (TaskGroupSpec_Validate tgs) =
  (if bool_decide (steps = []) then [ErrMissingField ["steps"]] else []) ++
  map (reprefix ["steps"])
    (concat (imap (λ i s, map (reprefix [asIndex i])
                            (map (reprefix ["uses"]) (normalized (Uses_Validate (V1alpha1.Step_Uses s)))))
               steps)) ++
  map (reprefix ["volumes"]) (normalized (ValidateVolumes (V1alpha1.TaskGroupSpec_Volumes tgs))) ++
  map (reprefix ["params"]) (concat (map (λ p, normalized (ValidateType p)) (V1alpha1.TaskGroupSpec_Params tgs))) ++
  normalized (ValidateParameterVariables (toUpstreamStep steps) (V1alpha1.TaskGroupSpec_Params tgs)) ++
  map (reprefix ["results"])
    (concat (imap (λ i r, map (reprefix [asIndex i]) (normalized (TaskResult_Validate r)))
               (V1alpha1.TaskGroupSpec_Results tgs))).
Proof.
  cbv zeta. unfold TaskGroupSpec_Validate, ValidateResourcesVariables. rewrite !normalized_Also, !normalized_ViaField.
  unfold validateSteps, validateResults, ValidateParameterTypes. rewrite !normalized_foldRange_Also.
  rewrite imap_const_map, app_nil_r, <-!app_assoc. cbn [normalized app].
  apply (f_equal2 app); [by destruct (V1alpha1.TaskGroupSpec_Steps tgs)|].
  apply (f_equal2 app); [|do 3 (apply (f_equal2 app); [done|])].
  - do 2 f_equal. apply imap_ext. intros i s _. unfold Step_Validate, ViaIndex.
    by rewrite normalized_ViaField, normalized_Also, normalized_ViaField.
  - do 2 f_equal. apply imap_ext. intros i r _. unfold ViaIndex. by rewrite normalized_ViaField.
Qed.

(** A param without a type is an error: nothing gives it the default type
    before the validation. *)
Theorem untyped_param_rejected tgs p :
  p ∈ V1alpha1.TaskGroupSpec_Params tgs → V1beta1.ParamSpec_Type p = "" →
  ErrInvalidValue "" (V1beta1.ParamSpec_Name p +:+ ".type") ∈
    normalized (ValidateParameterTypes (V1alpha1.TaskGroupSpec_Params (TaskGroup_SetDefaults tgs))) ∧
  is_Some (TaskGroupSpec_Validate (TaskGroup_SetDefaults tgs)).
Proof.
  intros Hp Hty. change (TaskGroup_SetDefaults tgs) with tgs. split.
  - unfold ValidateParameterTypes. rewrite normalized_foldRange_Also, imap_const_map.
    apply list_elem_of_In, in_concat. exists (normalized (ValidateType p)). split.
    + apply (in_map (λ p, normalized (ValidateType p))). by apply list_elem_of_In.
    + unfold ValidateType. rewrite Hty. cbn. by left.
  - apply not_eq_None_Some. intros [_ _ _ Hall _ _ _ _]%TaskGroupSpec_Validate_None.
    rewrite Forall_forall in Hall. destruct (Hall p Hp) as [Hin _]. rewrite Hty in Hin.
    by repeat (apply elem_of_cons in Hin as [?|Hin]); [..|apply elem_of_nil in Hin].
Qed.

(** The array check locates the errors of its last step only: at every
    step the path [steps[idx]] is put in front of the errors of all the steps
    so far. *)
Theorem validateArrayUsage_prefixes steps step prefix vars :
  normalized (validateArrayUsage (steps ++ [step]) prefix vars) =
  map (reprefix ["steps"]) (map (reprefix [asIndex (length steps)])
    (normalized (validateArrayUsage steps prefix vars) ++
     normalized (validateStepArrayUsage step prefix vars))).
Proof.
  unfold validateArrayUsage. rewrite foldRange_app. cbn [foldRange].
  unfold ViaFieldIndex, ViaIndex. by rewrite !normalized_ViaField, normalized_Also.
Qed.

(** ** Witnesses *)

(** A group of one step and a param without a type. *)
Definition untyped_param : V1beta1.ParamSpec := {|
  V1beta1.ParamSpec_Name := "rev"; V1beta1.ParamSpec_Type := "";
  V1beta1.ParamSpec_Description := ""; V1beta1.ParamSpec_Default := None |}.

Definition untyped_group : V1alpha1.TaskGroupSpec := {|
  V1alpha1.TaskGroupSpec_Params := [untyped_param]; V1alpha1.TaskGroupSpec_Description := "";
  V1alpha1.TaskGroupSpec_Steps := [{| V1alpha1.Step_Step := V1beta1.zero_Step; V1alpha1.Step_Uses := None |}];
  V1alpha1.TaskGroupSpec_Volumes := []; V1alpha1.TaskGroupSpec_StepTemplate := None;
  V1alpha1.TaskGroupSpec_Sidecars := []; V1alpha1.TaskGroupSpec_Workspaces := [];
  V1alpha1.TaskGroupSpec_Results := [] |}.

Lemma untyped_param_rejected_witness :
  is_Some (TaskGroupSpec_Validate untyped_group) ∧
  Error (TaskGroupSpec_Validate untyped_group) = "invalid value: : params.rev.type".
Proof.
  split; [|vm_compute; reflexivity].
  apply (untyped_param_rejected untyped_group untyped_param); [left|reflexivity].
Defined.
