(* ===== verification/Conditions.v ===== *)
(** knative.dev/pkg/apis condition_set.go and condition_types.go, for the set
    of conditions of a Run or a TaskRun: one happy condition, [Succeeded],
    without dependents; and the parts of time.Time and metav1.Time the
    controller uses. A function that reads the clock takes the readings as
    arguments, in the order in which it makes them. *)
From S2P Require Import Prelude GoStrings.

(** ** Time

    A [time.Time] is its number of nanoseconds since January 1 of year 1, the
    zero value. *)
Definition Time : Type := Z.

Definition zero_time : Time := 0%Z.

(** [func (t *Time) IsZero() bool] of a [*metav1.Time] *)
Definition IsZero (t : option Time) : bool :=
  match t with
  | None => true
  | Some t => bool_decide (t = zero_time)
  end.

(** [func (t *Time) Before(u *Time) bool] of a [*metav1.Time] *)
Definition Before (t u : option Time) : bool :=
  match t, u with
  | Some t, Some u => bool_decide (t < u)%Z
  | _, _ => false
  end.

(** [func (t Time) Sub(u Time) Duration]: an int64, saturating. *)
Definition minDuration : Z := (- 2 ^ 63)%Z.
Definition maxDuration : Z := (2 ^ 63 - 1)%Z.
Definition Sub (t u : Time) : Z := Z.max minDuration (Z.min maxDuration (t - u)).

Lemma Sub_negative t u : (Sub t u < 0 ↔ t < u)%Z.
Proof. unfold Sub, minDuration, maxDuration. lia. Qed.

(** ** Conditions *)
Record Condition := {
  Condition_Type : string;
  Condition_Status : string;
  Condition_Severity : string;
  Condition_LastTransitionTime : Time;
  Condition_Reason : string;
  Condition_Message : string
}.

Global Instance Condition_eq_dec : EqDecision Condition.
Proof. solve_decision. Defined.

Definition ConditionTrue : string := "True".
Definition ConditionFalse : string := "False".
Definition ConditionUnknown : string := "Unknown".

(** [ConditionSucceeded], the happy condition of [runCondSet], and the
    severity of a terminal condition. *)
Definition ConditionSucceeded : string := "Succeeded".
Definition ConditionSeverityError : string := "".
Definition ConditionSeverityInfo : string := "Info".

Definition set_LastTransitionTime (t : Time) (c : Condition) : Condition := {|
  Condition_Type := Condition_Type c; Condition_Status := Condition_Status c; Condition_Severity := Condition_Severity c; Condition_LastTransitionTime := t;
  Condition_Reason := Condition_Reason c; Condition_Message := Condition_Message c |}.

Definition set_Reason (reason : string) (c : Condition) : Condition := {|
  Condition_Type := Condition_Type c; Condition_Status := Condition_Status c; Condition_Severity := Condition_Severity c;
  Condition_LastTransitionTime := Condition_LastTransitionTime c; Condition_Reason := reason; Condition_Message := Condition_Message c |}.

(** [IsTrue], [IsFalse] and [IsUnknown] of a [*Condition] *)
Definition IsTrue (c : option Condition) : bool :=
  match c with None => false | Some c => bool_decide (Condition_Status c = ConditionTrue) end.
Definition IsFalse (c : option Condition) : bool :=
  match c with None => false | Some c => bool_decide (Condition_Status c = ConditionFalse) end.
Definition IsUnknown (c : option Condition) : bool :=
  match c with None => true | Some c => bool_decide (Condition_Status c = ConditionUnknown) end.

(** [equality.Semantic.DeepEqual] of two [*Condition]: a [VolatileTime] is
    equal to every other one. *)
Definition forget_time (c : Condition) : Condition := set_LastTransitionTime zero_time c.

Definition SemanticDeepEqual (c d : option Condition) : bool :=
  bool_decide (forget_time <$> c = forget_time <$> d).

(** ** The condition manager *)

(** [func (r conditionsImpl) GetCondition(t ConditionType) *Condition] *)
Fixpoint GetCondition (conditions : list Condition) (t : string) : option Condition :=
  match conditions with
  | [] => None
  | c :: conditions => if bool_decide (Condition_Type c = t) then Some c else GetCondition conditions t
  end.

(** [func (r conditionsImpl) severity(t ConditionType) ConditionSeverity] *)
Definition severity (t : string) : string :=
  if bool_decide (t = ConditionSucceeded) then ConditionSeverityError else ConditionSeverityInfo.

(** The order in which the conditions are stored. *)
Definition condition_le (c d : Condition) : Prop := String.le (Condition_Type c) (Condition_Type d).

Global Instance condition_le_dec : RelDecision condition_le.
Proof. intros c d. unfold condition_le. apply _. Defined.

(** The loop of [SetCondition]: [None] is its early return; otherwise the
    conditions of other types, in [acc]. *)
Fixpoint SetCondition_loop (cond : Condition) (conditions acc : list Condition) :
    option (list Condition) :=
  match conditions with
  | [] => Some acc
  | c :: conditions =>
    if bool_decide (Condition_Type c ≠ Condition_Type cond) then SetCondition_loop cond conditions (acc ++ [c])
    else
      let cond := set_LastTransitionTime (Condition_LastTransitionTime c) cond in
      if bool_decide (cond = c) then None else SetCondition_loop cond conditions acc
  end.

(** [func (r conditionsImpl) SetCondition(cond Condition)] *)
Definition SetCondition (now : Time) (cond : Condition) (conditions : list Condition) : list Condition :=
  match SetCondition_loop cond conditions [] with
  | None => conditions
  | Some others => merge_sort condition_le (others ++ [set_LastTransitionTime now cond])
  end.

Definition newCondition (t status reason message : string) : Condition := {|
  Condition_Type := t; Condition_Status := status; Condition_Severity := severity t; Condition_LastTransitionTime := zero_time;
  Condition_Reason := reason; Condition_Message := message |}.

(** [MarkTrueWithReason], [MarkUnknown] and [MarkFalse]: without dependents
    they set the one condition, and [recomputeHappiness] does nothing for the
    happy one. *)
Definition MarkTrueWithReason (now : Time) (t reason message : string) (conditions : list Condition) :
    list Condition :=
  SetCondition now (newCondition t ConditionTrue reason message) conditions.

Definition MarkUnknown (now : Time) (t reason message : string) (conditions : list Condition) :
    list Condition :=
  SetCondition now (newCondition t ConditionUnknown reason message) conditions.

Definition MarkFalse (now : Time) (t reason message : string) (conditions : list Condition) :
    list Condition :=
  SetCondition now (newCondition t ConditionFalse reason message) conditions.

(** [func (r conditionsImpl) InitializeConditions()] *)
Definition InitializeConditions (now : Time) (conditions : list Condition) : list Condition :=
  match GetCondition conditions ConditionSucceeded with
  | Some _ => conditions
  | None =>
    SetCondition now {|
      Condition_Type := ConditionSucceeded; Condition_Status := ConditionUnknown; Condition_Severity := ConditionSeverityError;
      Condition_LastTransitionTime := zero_time; Condition_Reason := ""; Condition_Message := "" |} conditions
  end.

(** ** Invariant *)

(** A list of conditions as the manager stores it: one per type. *)
Definition wf_conditions (conditions : list Condition) : Prop := NoDup (Condition_Type <$> conditions).

(** ** Lemmas *)
Lemma GetCondition_Some conditions t c :
  GetCondition conditions t = Some c → c ∈ conditions ∧ Condition_Type c = t.
Proof.
  induction conditions as [|d conditions IH]; simpl; [done|].
  case_bool_decide as Ht; [intros [= <-]; split; [left|done]|].
  intros [Hin Hty]%IH. split; [by right|done].
Qed.

Lemma GetCondition_None conditions t : GetCondition conditions t = None ↔ t ∉ Condition_Type <$> conditions.
Proof.
  induction conditions as [|d conditions IH]; simpl; [split; [intros _; apply not_elem_of_nil|done]|].
  rewrite not_elem_of_cons. case_bool_decide as Ht; [naive_solver|]. rewrite IH. naive_solver.
Qed.

(** In a list with one condition per type, the order does not matter. *)
Lemma GetCondition_elem_of conditions c :
  wf_conditions conditions → c ∈ conditions → GetCondition conditions (Condition_Type c) = Some c.
Proof.
  unfold wf_conditions. induction conditions as [|d conditions IH]; intros Hnd Hin; [by apply elem_of_nil in Hin|].
  simpl in *. apply NoDup_cons in Hnd as [Hd Hnd]. apply elem_of_cons in Hin as [->|Hin].
  - by rewrite bool_decide_true.
  - rewrite bool_decide_false; [by apply IH|]. intros Heq. apply Hd. rewrite Heq. by apply list_elem_of_fmap_2.
Qed.

Lemma GetCondition_Permutation conditions conditions' t :
  wf_conditions conditions → conditions ≡ₚ conditions' →
  GetCondition conditions t = GetCondition conditions' t.
Proof.
  intros Hwf Hp. assert (wf_conditions conditions') as Hwf' by (unfold wf_conditions in *; by rewrite <-Hp).
  destruct (GetCondition conditions t) as [c|] eqn:Hc.
  - apply GetCondition_Some in Hc as [Hin <-]. symmetry. apply GetCondition_elem_of; [done|]. by rewrite <-Hp.
  - symmetry. apply GetCondition_None. apply GetCondition_None in Hc. by rewrite <-Hp.
Qed.

(** The loop of [SetCondition], in a list with at most one condition of the
    type that is set. *)
Lemma SetCondition_loop_spec cond conditions acc :
  wf_conditions conditions →
  SetCondition_loop cond conditions acc =
  match GetCondition conditions (Condition_Type cond) with
  | Some c =>
    if bool_decide (set_LastTransitionTime (Condition_LastTransitionTime c) cond = c) then None
    else Some (acc ++ filter (λ c, Condition_Type c ≠ Condition_Type cond) conditions)
  | None => Some (acc ++ filter (λ c, Condition_Type c ≠ Condition_Type cond) conditions)
  end.
Proof.
  unfold wf_conditions. revert acc. induction conditions as [|d conditions IH]; intros acc Hnd.
  - simpl. by rewrite app_nil_r.
  - cbn [SetCondition_loop GetCondition fmap list_fmap] in *. apply NoDup_cons in Hnd as [Hd Hnd].
    destruct (decide (Condition_Type d = Condition_Type cond)) as [Heq|Hne].
    + rewrite (bool_decide_false (_ ≠ _)) by naive_solver. rewrite (bool_decide_true (Condition_Type d = _)) by done.
      case_bool_decide as Hsame; [done|].
      assert (∀ t acc, SetCondition_loop (set_LastTransitionTime t cond) conditions acc =
        Some (acc ++ filter (λ c, Condition_Type c ≠ Condition_Type cond) conditions)) as Hrest.
      { rewrite Heq in Hd. clear -Hd. intros t. induction conditions as [|e conditions IH]; intros acc.
        { simpl. by rewrite app_nil_r. }
        apply not_elem_of_cons in Hd as [He Hd]. cbn [SetCondition_loop].
        rewrite bool_decide_true by (cbn; congruence).
        rewrite IH by done. rewrite filter_cons_True by congruence. by rewrite <-app_assoc. }
      rewrite Hrest, filter_cons_False by naive_solver. done.
    + rewrite (bool_decide_true (_ ≠ _)), (bool_decide_false (Condition_Type d = _)) by done.
      rewrite IH by done. rewrite filter_cons_True by done. by rewrite <-!app_assoc.
Qed.

Lemma filter_others_wf conditions t :
  wf_conditions conditions → wf_conditions (filter (λ c, Condition_Type c ≠ t) conditions) ∧
  t ∉ Condition_Type <$> filter (λ c, Condition_Type c ≠ t) conditions.
Proof.
  unfold wf_conditions. intros Hnd. split.
  - induction conditions as [|d conditions IH]; [constructor|]. rewrite filter_cons.
    simpl in Hnd. apply NoDup_cons in Hnd as [Hd Hnd]. case_decide; [|by apply IH].
    simpl. constructor; [|by apply IH]. intros Hin. apply Hd.
    apply list_elem_of_fmap in Hin as (e & -> & [_ He]%list_elem_of_filter). by apply list_elem_of_fmap_2.
  - intros Hin. by apply list_elem_of_fmap in Hin as (e & -> & [He _]%list_elem_of_filter).
Qed.

Lemma GetCondition_filter conditions t t' :
  t' ≠ t → GetCondition (filter (λ c, Condition_Type c ≠ t) conditions) t' = GetCondition conditions t'.
Proof.
  intros Hne. induction conditions as [|d conditions IH]; [done|]. rewrite filter_cons.
  case_decide; simpl; [|rewrite bool_decide_false by naive_solver; done]. case_bool_decide; [done|]. apply IH.
Qed.

Lemma GetCondition_snoc conditions c t :
  t ∉ Condition_Type <$> conditions → GetCondition (conditions ++ [c]) t = if bool_decide (Condition_Type c = t) then Some c else None.
Proof.
  induction conditions as [|d conditions IH]; intros Hn; [done|]. simpl in *.
  apply not_elem_of_cons in Hn as [Hne Hn]. rewrite bool_decide_false by done. by apply IH.
Qed.

Lemma GetCondition_snoc_ne conditions c t :
  Condition_Type c ≠ t → GetCondition (conditions ++ [c]) t = GetCondition conditions t.
Proof.
  intros Hne. induction conditions as [|d conditions IH]; simpl; [by rewrite bool_decide_false|].
  case_bool_decide; [done|]. apply IH.
Qed.

(** What [SetCondition] stores: the condition with the time of the one it
    equals, or with the current time, and the others. *)
Definition stored_condition (now : Time) (cond : Condition) (conditions : list Condition) : Condition :=
  match GetCondition conditions (Condition_Type cond) with
  | Some c => if bool_decide (set_LastTransitionTime (Condition_LastTransitionTime c) cond = c) then c
              else set_LastTransitionTime now cond
  | None => set_LastTransitionTime now cond
  end.

Lemma SetCondition_Permutation now cond conditions :
  wf_conditions conditions →
  SetCondition now cond conditions ≡ₚ
    stored_condition now cond conditions :: filter (λ c, Condition_Type c ≠ Condition_Type cond) conditions.
Proof.
  intros Hwf. unfold SetCondition, stored_condition. rewrite SetCondition_loop_spec by done.
  assert (merge_sort condition_le ([] ++ filter (λ c, Condition_Type c ≠ Condition_Type cond) conditions ++
      [set_LastTransitionTime now cond]) ≡ₚ
    set_LastTransitionTime now cond :: filter (λ c, Condition_Type c ≠ Condition_Type cond) conditions) as Hnew.
  { rewrite merge_sort_Permutation. simpl. by rewrite Permutation_app_comm. }
  destruct (GetCondition conditions (Condition_Type cond)) as [c|] eqn:Hc; [case_bool_decide as Heq|]; try exact Hnew.
  apply GetCondition_Some in Hc as [Hin Hty]. clear Hnew Heq. unfold wf_conditions in Hwf.
  induction conditions as [|d conditions IH]; [by apply elem_of_nil in Hin|].
  simpl in Hwf. apply NoDup_cons in Hwf as [Hd Hnd]. apply elem_of_cons in Hin as [->|Hin].
  - rewrite filter_cons_False by naive_solver. rewrite filter_id; [done|].
    intros e He Heq. apply Hd. rewrite Hty, <-Heq. by apply list_elem_of_fmap_2.
  - rewrite filter_cons_True, (IH Hnd Hin) at 1.
    + by rewrite Permutation_swap.
    + intros Heq. apply Hd. rewrite Heq, <-Hty. by apply list_elem_of_fmap_2.
Qed.

Lemma Type_stored_condition now cond conditions : Condition_Type (stored_condition now cond conditions) = Condition_Type cond.
Proof.
  unfold stored_condition. destruct (GetCondition conditions (Condition_Type cond)) as [c|] eqn:Hc; [|done].
  apply GetCondition_Some in Hc as [_ Hty]. by case_bool_decide.
Qed.

Lemma wf_SetCondition now cond conditions : wf_conditions conditions → wf_conditions (SetCondition now cond conditions).
Proof.
  intros Hwf. pose proof (filter_others_wf _ (Condition_Type cond) Hwf) as [Hf Hn].
  unfold wf_conditions in *. rewrite SetCondition_Permutation by done. simpl.
  rewrite Type_stored_condition. by constructor.
Qed.

Lemma GetCondition_SetCondition now cond conditions t :
  wf_conditions conditions →
  GetCondition (SetCondition now cond conditions) t =
  if bool_decide (t = Condition_Type cond) then Some (stored_condition now cond conditions)
  else GetCondition conditions t.
Proof.
  intros Hwf. rewrite (GetCondition_Permutation _ _ t (wf_SetCondition now cond _ Hwf)
    (SetCondition_Permutation now cond _ Hwf)). cbn [GetCondition]. rewrite Type_stored_condition.
  destruct (decide (t = Condition_Type cond)) as [->|Hne].
  - by rewrite !bool_decide_true.
  - rewrite !bool_decide_false by done. by apply GetCondition_filter.
Qed.

(** The stored condition differs from the given one in its time only. *)
Lemma forget_stored_condition now cond conditions :
  forget_time (stored_condition now cond conditions) = forget_time cond.
Proof.
  unfold stored_condition. destruct (GetCondition conditions (Condition_Type cond)) as [c|]; [|done].
  case_bool_decide as Heq; [|done]. by rewrite <-Heq.
Qed.

(** Setting a condition that is there already changes nothing. *)
Lemma SetCondition_same now cond conditions c :
  wf_conditions conditions → GetCondition conditions (Condition_Type cond) = Some c →
  forget_time c = forget_time cond → SetCondition now cond conditions = conditions.
Proof.
  intros Hwf Hc Heq. unfold SetCondition. rewrite SetCondition_loop_spec, Hc by done.
  rewrite bool_decide_true; [done|]. destruct c, cond. unfold forget_time, set_LastTransitionTime in *. cbn in *.
  naive_solver.
Qed.
