(* ===== verification/RunTypes.v ===== *)
(** The objects the controller works on: object metadata, the Run, the
    TaskRun and the TaskGroup, and the operations of a Run's status
    (pipeline/pkg/apis/run/v1alpha1/runstatus_types.go and
    pipeline/pkg/apis/pipeline/v1alpha1/run_types.go). A Go map that may be
    nil is an [option (gmap string string)]; a field the program passes on
    without looking into it is its JSON value. *)
From S2P Require Import Prelude GoStrings Types Conditions.

(** ** Maps that may be nil *)
Definition gomap : Type := option (gmap string string).

(** The entries of a map; a nil map has none. *)
Definition entries (m : gomap) : gmap string string := default ∅ m.

(** ** k8s.io/apimachinery/pkg/apis/meta/v1 *)
Record OwnerReference := {
  OwnerReference_APIVersion : string;
  OwnerReference_Kind : string;
  OwnerReference_Name : string;
  OwnerReference_UID : string;
  OwnerReference_Controller : option bool;
  OwnerReference_BlockOwnerDeletion : option bool
}.

(** [ObjectMeta]; the fields the program never looks into are in the last one. *)
Record ObjectMeta := {
  ObjectMeta_Name : string;
  ObjectMeta_Namespace : string;
  ObjectMeta_UID : string;
  ObjectMeta_ResourceVersion : string;
  ObjectMeta_Generation : Z;
  ObjectMeta_CreationTimestamp : Time;
  ObjectMeta_DeletionTimestamp : option Time;
  ObjectMeta_Labels : gomap;
  ObjectMeta_Annotations : gomap;
  ObjectMeta_OwnerReferences : list OwnerReference;
  ObjectMeta_Other : json
}.

(** The zero value [ObjectMeta{}]. *)
Definition zero_ObjectMeta : ObjectMeta := {|
  ObjectMeta_Name := ""; ObjectMeta_Namespace := ""; ObjectMeta_UID := "";
  ObjectMeta_ResourceVersion := ""; ObjectMeta_Generation := 0;
  ObjectMeta_CreationTimestamp := zero_time; ObjectMeta_DeletionTimestamp := None; ObjectMeta_Labels := None; ObjectMeta_Annotations := None;
  ObjectMeta_OwnerReferences := []; ObjectMeta_Other := JObj [] |}.

Definition set_Labels_Annotations (labels annotations : gomap) (m : ObjectMeta) : ObjectMeta := {|
  ObjectMeta_Name := ObjectMeta_Name m; ObjectMeta_Namespace := ObjectMeta_Namespace m;
  ObjectMeta_UID := ObjectMeta_UID m; ObjectMeta_ResourceVersion := ObjectMeta_ResourceVersion m;
  ObjectMeta_Generation := ObjectMeta_Generation m; ObjectMeta_CreationTimestamp := ObjectMeta_CreationTimestamp m;
  ObjectMeta_DeletionTimestamp := ObjectMeta_DeletionTimestamp m;
  ObjectMeta_Labels := labels; ObjectMeta_Annotations := annotations;
  ObjectMeta_OwnerReferences := ObjectMeta_OwnerReferences m; ObjectMeta_Other := ObjectMeta_Other m |}.

(** [func GetControllerOf(controllee Object) *OwnerReference] *)
Definition GetControllerOf (m : ObjectMeta) : option OwnerReference :=
  head (filter (λ ref, OwnerReference_Controller ref = Some true) (ObjectMeta_OwnerReferences m)).

(** ** Tekton's Run *)
Record EmbeddedRunSpec := {
  EmbeddedRunSpec_APIVersion : string;
  EmbeddedRunSpec_Kind : string;
  EmbeddedRunSpec_Metadata : json;
  EmbeddedRunSpec_Spec : string
}.

Record RunSpec := {
  RunSpec_Ref : option V1beta1.TaskRef;
  RunSpec_Spec : option EmbeddedRunSpec;
  RunSpec_Params : list V1beta1.Param;
  RunSpec_Status : string;
  RunSpec_Retries : Z;
  RunSpec_ServiceAccountName : string;
  RunSpec_PodTemplate : option json;
  RunSpec_Timeout : option Z;
  RunSpec_Workspaces : list json
}.

(** [RunStatus]; [Annotations], [Results] and [RetriesStatus] are in the last
    field. *)
Record RunStatus := {
  RunStatus_ObservedGeneration : Z;
  RunStatus_Conditions : list Condition;
  RunStatus_StartTime : option Time;
  RunStatus_CompletionTime : option Time;
  RunStatus_ExtraFields : string;
  RunStatus_Other : json
}.

Record Run := {
  Run_ObjectMeta : ObjectMeta;
  Run_Spec : RunSpec;
  Run_Status : RunStatus
}.

Definition set_Conditions (cs : list Condition) (r : RunStatus) : RunStatus := {|
  RunStatus_ObservedGeneration := RunStatus_ObservedGeneration r;
  RunStatus_Conditions := cs; RunStatus_StartTime := RunStatus_StartTime r;
  RunStatus_CompletionTime := RunStatus_CompletionTime r;
  RunStatus_ExtraFields := RunStatus_ExtraFields r; RunStatus_Other := RunStatus_Other r |}.

Definition set_StartTime (t : option Time) (r : RunStatus) : RunStatus := {|
  RunStatus_ObservedGeneration := RunStatus_ObservedGeneration r;
  RunStatus_Conditions := RunStatus_Conditions r; RunStatus_StartTime := t;
  RunStatus_CompletionTime := RunStatus_CompletionTime r;
  RunStatus_ExtraFields := RunStatus_ExtraFields r; RunStatus_Other := RunStatus_Other r |}.

Definition set_CompletionTime (t : option Time) (r : RunStatus) : RunStatus := {|
  RunStatus_ObservedGeneration := RunStatus_ObservedGeneration r;
  RunStatus_Conditions := RunStatus_Conditions r; RunStatus_StartTime := RunStatus_StartTime r;
  RunStatus_CompletionTime := t;
  RunStatus_ExtraFields := RunStatus_ExtraFields r; RunStatus_Other := RunStatus_Other r |}.

Definition set_ExtraFields (raw : string) (r : RunStatus) : RunStatus := {|
  RunStatus_ObservedGeneration := RunStatus_ObservedGeneration r;
  RunStatus_Conditions := RunStatus_Conditions r; RunStatus_StartTime := RunStatus_StartTime r;
  RunStatus_CompletionTime := RunStatus_CompletionTime r;
  RunStatus_ExtraFields := raw; RunStatus_Other := RunStatus_Other r |}.

Definition set_ObservedGeneration (n : Z) (r : RunStatus) : RunStatus := {|
  RunStatus_ObservedGeneration := n;
  RunStatus_Conditions := RunStatus_Conditions r; RunStatus_StartTime := RunStatus_StartTime r;
  RunStatus_CompletionTime := RunStatus_CompletionTime r;
  RunStatus_ExtraFields := RunStatus_ExtraFields r; RunStatus_Other := RunStatus_Other r |}.

Definition set_Run_Status (s : RunStatus) (run : Run) : Run := {|
  Run_ObjectMeta := Run_ObjectMeta run; Run_Spec := Run_Spec run; Run_Status := s |}.

Definition set_Run_ObjectMeta (m : ObjectMeta) (run : Run) : Run := {|
  Run_ObjectMeta := m; Run_Spec := Run_Spec run; Run_Status := Run_Status run |}.

Definition RunSpecStatusCancelled : string := "RunCancelled".

(** [func (r *Run) IsCancelled() bool] *)
Definition Run_IsCancelled (run : Run) : bool :=
  bool_decide (RunSpec_Status (Run_Spec run) = RunSpecStatusCancelled).

(** [func (r *RunStatus) GetCondition(t apis.ConditionType) *apis.Condition],
    of the one condition the controller asks for. *)
Definition Succeeded (r : RunStatus) : option Condition :=
  GetCondition (RunStatus_Conditions r) ConditionSucceeded.

(** [func (r *Run) IsDone() bool] *)
Definition Run_IsDone (run : Run) : bool := negb (IsUnknown (Succeeded (Run_Status run))).

(** [func (r *Run) HasStarted() bool] *)
Definition Run_HasStarted (run : Run) : bool := negb (IsZero (RunStatus_StartTime (Run_Status run))).

(** ** The operations of a Run's status *)

(** [func (r *RunStatus) InitializeConditions()]; the clock is read for the
    start time, by the condition manager, and by the last [SetCondition]. *)
Definition RunStatus_InitializeConditions (now1 now2 now3 : Time) (r : RunStatus) : RunStatus :=
  let started := IsZero (RunStatus_StartTime r) in
  let r := if started then set_StartTime (Some now1) r else r in
  let r := set_Conditions (InitializeConditions now2 (RunStatus_Conditions r)) r in
  if started
  then
    match Succeeded r with
    | Some initialCondition =>
      set_Conditions (SetCondition now3 (set_Reason "Started" initialCondition) (RunStatus_Conditions r)) r
    | None => r
    end
  else r.

(** The completion time that [MarkRunSucceeded] and [MarkRunFailed] set. *)
Definition complete (r : RunStatus) : RunStatus :=
  set_CompletionTime (Condition_LastTransitionTime <$> Succeeded r) r.

(** [func (r *RunStatus) MarkRunSucceeded(reason, messageFormat string, ...)] *)
Definition MarkRunSucceeded (now : Time) (reason message : string) (r : RunStatus) : RunStatus :=
  complete (set_Conditions (MarkTrueWithReason now ConditionSucceeded reason message (RunStatus_Conditions r)) r).

(** [func (r *RunStatus) MarkRunFailed(reason, messageFormat string, ...)] *)
Definition MarkRunFailed (now : Time) (reason message : string) (r : RunStatus) : RunStatus :=
  complete (set_Conditions (MarkFalse now ConditionSucceeded reason message (RunStatus_Conditions r)) r).

(** [func (r *RunStatus) MarkRunRunning(reason, messageFormat string, ...)] *)
Definition MarkRunRunning (now : Time) (reason message : string) (r : RunStatus) : RunStatus :=
  set_Conditions (MarkUnknown now ConditionSucceeded reason message (RunStatus_Conditions r)) r.

(** ** Tekton's TaskRun *)
Record TaskRunSpec := {
  TaskRunSpec_Debug : option json;
  TaskRunSpec_Params : list V1beta1.Param;
  TaskRunSpec_Resources : option json;
  TaskRunSpec_ServiceAccountName : string;
  TaskRunSpec_TaskRef : option V1beta1.TaskRef;
  TaskRunSpec_TaskSpec : option V1beta1.TaskSpec;
  TaskRunSpec_Status : string;
  TaskRunSpec_Timeout : option Z;
  TaskRunSpec_PodTemplate : option json;
  TaskRunSpec_Workspaces : list json;
  TaskRunSpec_StepOverrides : list json;
  TaskRunSpec_SidecarOverrides : list json
}.

(** [TaskRunStatus]: its conditions, and the other fields. *)
Record TaskRunStatus := {
  TaskRunStatus_Conditions : list Condition;
  TaskRunStatus_Other : json
}.

Record TaskRun := {
  TaskRun_ObjectMeta : ObjectMeta;
  TaskRun_Spec : TaskRunSpec;
  TaskRun_Status : TaskRunStatus
}.

Definition TaskRunSpecStatusCancelled : string := "TaskRunCancelled".

(** [IsDone], [IsSuccessful] and [IsCancelled] of a [*TaskRun] *)
Definition TaskRun_Succeeded (tr : TaskRun) : option Condition :=
  GetCondition (TaskRunStatus_Conditions (TaskRun_Status tr)) ConditionSucceeded.

Definition TaskRun_IsDone (tr : TaskRun) : bool := negb (IsUnknown (TaskRun_Succeeded tr)).
Definition TaskRun_IsSuccessful (tr : TaskRun) : bool := IsTrue (TaskRun_Succeeded tr).
Definition TaskRun_IsCancelled (tr : TaskRun) : bool :=
  bool_decide (TaskRunSpec_Status (TaskRun_Spec tr) = TaskRunSpecStatusCancelled).

(** ** The TaskGroup *)
Record TaskGroup := {
  TaskGroup_ObjectMeta : ObjectMeta;
  TaskGroup_Spec : V1alpha1.TaskGroupSpec
}.

(** [TaskGroupRunStatus], the extra fields of a Run of a TaskGroup. *)
Record TaskGroupRunStatus := {
  TaskGroupRunStatus_TaskGroupSpec : option V1alpha1.TaskGroupSpec;
  TaskGroupRunStatus_TaskRun : option TaskRunStatus
}.

Definition zero_TaskGroupRunStatus : TaskGroupRunStatus :=
  {| TaskGroupRunStatus_TaskGroupSpec := None; TaskGroupRunStatus_TaskRun := None |}.

Definition set_Status_TaskRun (s : TaskRunStatus) (status : TaskGroupRunStatus) : TaskGroupRunStatus :=
  {| TaskGroupRunStatus_TaskGroupSpec := TaskGroupRunStatus_TaskGroupSpec status;
     TaskGroupRunStatus_TaskRun := Some s |}.

(** ** Lemmas on a Run's status *)
Section status.
Context (now : Time) (reason message : string) (r : RunStatus).
Context (Hwf : wf_conditions (RunStatus_Conditions r)).

(** The three marks set the condition, and its completion time if it is final. *)
Lemma Succeeded_Mark status :
  forget_time <$> Succeeded (set_Conditions (SetCondition now (newCondition ConditionSucceeded status reason message)
    (RunStatus_Conditions r)) r) =
  Some (newCondition ConditionSucceeded status reason message).
Proof using Hwf.
  unfold Succeeded. cbn [RunStatus_Conditions set_Conditions].
  rewrite GetCondition_SetCondition, bool_decide_true by done. cbn. by rewrite forget_stored_condition.
Qed.

Lemma Succeeded_MarkRunSucceeded :
  forget_time <$> Succeeded (MarkRunSucceeded now reason message r) =
  Some (newCondition ConditionSucceeded ConditionTrue reason message).
Proof using Hwf. apply Succeeded_Mark. Qed.

Lemma Succeeded_MarkRunFailed :
  forget_time <$> Succeeded (MarkRunFailed now reason message r) =
  Some (newCondition ConditionSucceeded ConditionFalse reason message).
Proof using Hwf. apply Succeeded_Mark. Qed.

Lemma Succeeded_MarkRunRunning :
  forget_time <$> Succeeded (MarkRunRunning now reason message r) =
  Some (newCondition ConditionSucceeded ConditionUnknown reason message).
Proof using Hwf. apply Succeeded_Mark. Qed.

Lemma wf_MarkRunSucceeded : wf_conditions (RunStatus_Conditions (MarkRunSucceeded now reason message r)).
Proof using Hwf. by apply wf_SetCondition. Qed.

Lemma wf_MarkRunFailed : wf_conditions (RunStatus_Conditions (MarkRunFailed now reason message r)).
Proof using Hwf. by apply wf_SetCondition. Qed.

Lemma wf_MarkRunRunning : wf_conditions (RunStatus_Conditions (MarkRunRunning now reason message r)).
Proof using Hwf. by apply wf_SetCondition. Qed.
End status.

Lemma IsUnknown_forget c : IsUnknown (forget_time <$> c) = IsUnknown c.
Proof. by destruct c. Qed.
Lemma IsTrue_forget c : IsTrue (forget_time <$> c) = IsTrue c.
Proof. by destruct c. Qed.
Lemma IsFalse_forget c : IsFalse (forget_time <$> c) = IsFalse c.
Proof. by destruct c. Qed.

#[export] Hint Resolve wf_MarkRunSucceeded wf_MarkRunFailed wf_MarkRunRunning : golib.
#[export] Hint Rewrite Succeeded_MarkRunSucceeded Succeeded_MarkRunFailed Succeeded_MarkRunRunning
  using solve [eauto with golib] : golib_rw.

(** A Run is done when its condition is known. *)
Lemma Run_IsDone_forget run : Run_IsDone run = negb (IsUnknown (forget_time <$> Succeeded (Run_Status run))).
Proof. unfold Run_IsDone. by rewrite IsUnknown_forget. Qed.

Lemma wf_RunStatus_InitializeConditions now1 now2 now3 r :
  wf_conditions (RunStatus_Conditions r) →
  wf_conditions (RunStatus_Conditions (RunStatus_InitializeConditions now1 now2 now3 r)).
Proof.
  intros Hwf. assert (wf_conditions (InitializeConditions now2 (RunStatus_Conditions r))) as Hi.
  { unfold InitializeConditions. case_match; [done|]. by apply wf_SetCondition. }
  unfold RunStatus_InitializeConditions. destruct (IsZero (RunStatus_StartTime r)); [|done].
  case_match; [|done]. by apply wf_SetCondition.
Qed.
