(* ===== verification/Listers.v ===== *)
(** The caches of the informers and the listers on them: cache/listers.go of
    client-go with its label selectors, and
    pkg/client/listers/taskgroup/v1alpha1/taskgroup.go. *)
From S2P Require Import Prelude GoStrings Types Conditions RunTypes.
From Stdlib Require Import Ascii.

(** [labels.SelectorFromSet(ls)]: does an object with these labels match? *)
Definition selector_matches (ls : gmap string string) (labels : gomap) : bool :=
  bool_decide (ls ⊆ entries labels).

(** [func MetaNamespaceKeyFunc(obj interface{}) (string, error)] *)
Definition MetaNamespaceKeyFunc (m : ObjectMeta) : string :=
  if bool_decide (0 < String.length (ObjectMeta_Namespace m))
  then ObjectMeta_Namespace m +:+ "/" +:+ ObjectMeta_Name m
  else ObjectMeta_Name m.

(** [func SplitMetaNamespaceKey(key string) (namespace, name string, err error)] *)
Definition SplitMetaNamespaceKey (key : string) : fallible (string * string) :=
  match Split key "/"%char with
  | [name] => inr ("", name)
  | [namespace; name] => inr (namespace, name)
  | _ => inl (errorString ("unexpected key format: " +:+ Quote key))
  end.

(** An [Indexer]: the objects in it, in the order in which this reading of the
    store returns them, and whether it has the index by namespace. *)
Record Indexer (A : Type) := { Indexer_objects : list A; Indexer_by_namespace : bool }.
Arguments Indexer_objects {A}.
Arguments Indexer_by_namespace {A}.

(** The text of the not-found error of apimachinery. *)
Definition NewNotFound (resource name : string) : error :=
  errorString (resource +:+ " " +:+ Quote name +:+ " not found").

Section lister.
Context {A : Type} (meta : A → ObjectMeta).
Implicit Types (indexer : Indexer A) (selector : gmap string string).

(** The loop of [ListAll], over [m in l], with [ret] what is appended so far. *)
Fixpoint ListAll_loop (selectAll : bool) selector (l ret : list A) : list A :=
  match l with
  | [] => ret
  | m :: l =>
    if selectAll then ListAll_loop selectAll selector l (ret ++ [m])
    else if selector_matches selector (ObjectMeta_Labels (meta m))
    then ListAll_loop selectAll selector l (ret ++ [m])
    else ListAll_loop selectAll selector l ret
  end.

(** The loop of the slow search of [ListAllByNamespace]. *)
Fixpoint slow_loop (namespace : string) selector (l ret : list A) : list A :=
  match l with
  | [] => ret
  | m :: l =>
    if bool_decide (ObjectMeta_Namespace (meta m) = namespace) &&
       selector_matches selector (ObjectMeta_Labels (meta m))
    then slow_loop namespace selector l (ret ++ [m])
    else slow_loop namespace selector l ret
  end.

(** [func ListAll(store Store, selector labels.Selector, appendFn AppendFunc) error] *)
Definition ListAll indexer selector : list A :=
  ListAll_loop (bool_decide (selector = ∅)) selector (Indexer_objects indexer) [].

(** [indexer.Index(NamespaceIndex, &metav1.ObjectMeta{Namespace: namespace})] *)
Definition Index_namespace indexer (namespace : string) : option (list A) :=
  if Indexer_by_namespace indexer
  then Some (filter (λ m, ObjectMeta_Namespace (meta m) = namespace) (Indexer_objects indexer))
  else None.

(** [func ListAllByNamespace(indexer, namespace, selector, appendFn) error] *)
Definition ListAllByNamespace indexer (namespace : string) selector : list A :=
  if bool_decide (namespace = "")
  then ListAll_loop (bool_decide (selector = ∅)) selector (Indexer_objects indexer) []
  else match Index_namespace indexer namespace with
       | None => slow_loop namespace selector (Indexer_objects indexer) []
       | Some items => ListAll_loop (bool_decide (selector = ∅)) selector items []
       end.

(** [indexer.GetByKey(key)] *)
Definition GetByKey indexer (key : string) : option A :=
  head (filter (λ m, MetaNamespaceKeyFunc (meta m) = key) (Indexer_objects indexer)).
End lister.

(** ** The lister of TaskGroups *)

(** [type taskGroupLister struct] *)
Record taskGroupLister := { taskGroupLister_indexer : Indexer TaskGroup }.

(** [func NewTaskGroupLister(indexer cache.Indexer) TaskGroupLister] *)
Definition NewTaskGroupLister (indexer : Indexer TaskGroup) : taskGroupLister := {| taskGroupLister_indexer := indexer |}.

(** [func (s *taskGroupLister) List(selector labels.Selector)] *)
Definition taskGroupLister_List (s : taskGroupLister) (selector : gmap string string) : list TaskGroup :=
  ListAll TaskGroup_ObjectMeta (taskGroupLister_indexer s) selector.

(** [taskGroupNamespaceLister], with the indexer and the namespace *)
Record taskGroupNamespaceLister := {
  taskGroupNamespaceLister_indexer : Indexer TaskGroup;
  taskGroupNamespaceLister_namespace : string
}.

(** [func (s *taskGroupLister) TaskGroups(namespace string) TaskGroupNamespaceLister] *)
Definition taskGroupLister_TaskGroups (s : taskGroupLister) (namespace : string) : taskGroupNamespaceLister :=
  {| taskGroupNamespaceLister_indexer := taskGroupLister_indexer s; taskGroupNamespaceLister_namespace := namespace |}.

(** [func (s taskGroupNamespaceLister) List(selector labels.Selector)] *)
Definition taskGroupNamespaceLister_List (s : taskGroupNamespaceLister) (selector : gmap string string) :
    list TaskGroup :=
  ListAllByNamespace TaskGroup_ObjectMeta (taskGroupNamespaceLister_indexer s)
    (taskGroupNamespaceLister_namespace s) selector.

(** [func (s taskGroupNamespaceLister) Get(name string)] *)
Definition taskGroupNamespaceLister_Get (s : taskGroupNamespaceLister) (name : string) : fallible TaskGroup :=
  match GetByKey TaskGroup_ObjectMeta (taskGroupNamespaceLister_indexer s)
          (taskGroupNamespaceLister_namespace s +:+ "/" +:+ name) with
  | None => inl (NewNotFound "taskgroup.custom.tekton.dev" name)
  | Some obj => inr obj
  end.

(** ** Lemmas *)
Section lemmas.
Context {A : Type} (meta : A → ObjectMeta).

(** What the listers select. *)
Definition selected (namespace : string) (selector : gmap string string) (m : A) : Prop :=
  (namespace = "" ∨ ObjectMeta_Namespace (meta m) = namespace) ∧
  selector_matches selector (ObjectMeta_Labels (meta m)) = true.

#[export] Instance selected_dec namespace selector : ∀ m, Decision (selected namespace selector m).
Proof. intros m. unfold selected. apply _. Defined.

Lemma selector_matches_empty labels : selector_matches ∅ labels = true.
Proof. apply bool_decide_eq_true_2, map_empty_subseteq. Qed.

Lemma ListAll_loop_filter selector l ret :
  ListAll_loop meta (bool_decide (selector = ∅)) selector l ret =
  ret ++ filter (λ m, selector_matches selector (ObjectMeta_Labels (meta m)) = true) l.
Proof.
  revert ret. induction l as [|m l IH]; intros ret; simpl; [by rewrite app_nil_r|].
  rewrite !IH, filter_cons. case_bool_decide as Hs.
  - subst selector. rewrite decide_True by apply selector_matches_empty. by rewrite <-app_assoc.
  - destruct (selector_matches selector (ObjectMeta_Labels (meta m))).
    + rewrite decide_True by done. by rewrite <-app_assoc.
    + by rewrite decide_False.
Qed.

Lemma slow_loop_filter namespace selector l ret :
  slow_loop meta namespace selector l ret =
  ret ++ filter (λ m, selector_matches selector (ObjectMeta_Labels (meta m)) = true)
           (filter (λ m, ObjectMeta_Namespace (meta m) = namespace) l).
Proof.
  revert ret. induction l as [|m l IH]; intros ret; simpl; [by rewrite app_nil_r|]. rewrite !IH, !filter_cons.
  case_bool_decide as Hns; cbn [andb].
  - rewrite decide_True by done. rewrite filter_cons.
    destruct (selector_matches selector (ObjectMeta_Labels (meta m))).
    + rewrite decide_True by done. by rewrite <-app_assoc.
    + by rewrite decide_False.
  - by rewrite decide_False.
Qed.

(** The listers return what is selected, with the index or without it. *)
Lemma ListAllByNamespace_selected indexer namespace selector :
  ListAllByNamespace meta indexer namespace selector = filter (selected namespace selector) (Indexer_objects indexer).
Proof.
  unfold ListAllByNamespace, Index_namespace. case_bool_decide as Hns.
  - rewrite ListAll_loop_filter. simpl. apply list_filter_iff. intros m. unfold selected. tauto.
  - assert (filter (selected namespace selector) (Indexer_objects indexer) =
      filter (λ m, selector_matches selector (ObjectMeta_Labels (meta m)) = true)
        (filter (λ m, ObjectMeta_Namespace (meta m) = namespace) (Indexer_objects indexer))) as ->.
    { rewrite list_filter_filter. apply list_filter_iff. intros m. unfold selected. tauto. }
    destruct (Indexer_by_namespace indexer); [apply ListAll_loop_filter|apply slow_loop_filter].
Qed.
End lemmas.

(** ** Theorems *)

(** A namespace: not empty, and without a slash. *)
Definition namespace_name (s : string) : Prop := s ≠ "" ∧ "/"%char ∉ String.list_ascii_of_string s.

Lemma slash_inj a b a' b' :
  "/"%char ∉ String.list_ascii_of_string a → "/"%char ∉ String.list_ascii_of_string a' →
  a +:+ "/" +:+ b = a' +:+ "/" +:+ b' → a = a' ∧ b = b'.
Proof.
  revert a'. induction a as [|c a IH]; intros [|c' a'] Ha Ha' Heq; rewrite ?app_cons in Heq.
  - by injection Heq.
  - injection Heq as <- _. exfalso. apply Ha'. simpl. left.
  - injection Heq as -> _. exfalso. apply Ha. simpl. left.
  - injection Heq as <- Heq. simpl in *. apply not_elem_of_cons in Ha as [_ Ha]. apply not_elem_of_cons in Ha' as [_ Ha'].
    destruct (IH a' Ha Ha' Heq) as [-> ->]. done.
Qed.

Lemma MetaNamespaceKeyFunc_inj m ns name :
  namespace_name (ObjectMeta_Namespace m) → "/"%char ∉ String.list_ascii_of_string ns →
  MetaNamespaceKeyFunc m = ns +:+ "/" +:+ name ↔ ObjectMeta_Namespace m = ns ∧ ObjectMeta_Name m = name.
Proof.
  intros [Hne Hm] Hns. unfold MetaNamespaceKeyFunc. rewrite bool_decide_true.
  - split; [by apply slash_inj|]. by intros [-> ->].
  - destruct (ObjectMeta_Namespace m); [done|]. simpl. lia.
Qed.

Lemma head_filter_NoDup {A B} `{EqDecision B} (f : A → B) (k : B) (l : list A) x :
  NoDup (f <$> l) → head (filter (λ y, f y = k) l) = Some x ↔ x ∈ l ∧ f x = k.
Proof.
  induction l as [|y l IH]; intros Hnd; [split; [done|]; by intros [?%elem_of_nil _]|].
  apply NoDup_cons in Hnd as [Hy Hnd]. rewrite filter_cons, elem_of_cons. destruct (decide (f y = k)) as [<-|Hne].
  - split; [intros [= ->]; naive_solver|]. intros [[->|Hin] Hf]; [done|]. exfalso. apply Hy. rewrite <-Hf.
    by apply list_elem_of_fmap_2.
  - rewrite IH by done. naive_solver.
Qed.

Lemma NoDup_fmap_inj_eq {A B} (f : A → B) (l : list A) x y :
  NoDup (f <$> l) → x ∈ l → y ∈ l → f x = f y → x = y.
Proof.
  intros Hnd (i & Hi)%list_elem_of_lookup (j & Hj)%list_elem_of_lookup Hf.
  assert (i = j) as ->; [|congruence]. apply (NoDup_lookup (f <$> l) i j (f x)); [done|..].
  - by rewrite list_lookup_fmap, Hi.
  - by rewrite list_lookup_fmap, Hj, Hf.
Qed.

(** The objects of a cache: namespaced, with distinct keys. *)
Definition wf_cache (s : Indexer TaskGroup) : Prop :=
  Forall (λ tg, namespace_name (ObjectMeta_Namespace (TaskGroup_ObjectMeta tg))) (Indexer_objects s) ∧
  NoDup ((λ tg, MetaNamespaceKeyFunc (TaskGroup_ObjectMeta tg)) <$> Indexer_objects s).

(** The lister of a namespace gets an object of this namespace and name, if
    there is one. *)
Lemma taskGroupNamespaceLister_Get_spec (s : Indexer TaskGroup) ns name :
  wf_cache s → namespace_name ns →
  match taskGroupNamespaceLister_Get (taskGroupLister_TaskGroups (NewTaskGroupLister s) ns) name with
  | inr tg => tg ∈ Indexer_objects s ∧ ObjectMeta_Namespace (TaskGroup_ObjectMeta tg) = ns ∧
      ObjectMeta_Name (TaskGroup_ObjectMeta tg) = name
  | inl err => err = NewNotFound "taskgroup.custom.tekton.dev" name ∧
      ∀ tg, tg ∈ Indexer_objects s → ObjectMeta_Namespace (TaskGroup_ObjectMeta tg) = ns →
        ObjectMeta_Name (TaskGroup_ObjectMeta tg) ≠ name
  end.
Proof.
  intros [Hvalid Hnd] [Hne Hns]. rewrite Forall_forall in Hvalid. unfold taskGroupNamespaceLister_Get, GetByKey. cbn.
  assert (∀ tg, head (filter (λ m, MetaNamespaceKeyFunc (TaskGroup_ObjectMeta m) = ns +:+ "/" +:+ name) (Indexer_objects s)) = Some tg ↔
    tg ∈ Indexer_objects s ∧ MetaNamespaceKeyFunc (TaskGroup_ObjectMeta tg) = ns +:+ "/" +:+ name) as Hhead.
  { intros tg. by rewrite (head_filter_NoDup (λ tg, MetaNamespaceKeyFunc (TaskGroup_ObjectMeta tg))). }
  destruct (head (filter (λ m, MetaNamespaceKeyFunc _ = _) (Indexer_objects s))) as [tg'|].
  - destruct (proj1 (Hhead tg') eq_refl) as [Hin Hk]. by apply MetaNamespaceKeyFunc_inj in Hk as [? ?]; auto.
  - split; [done|]. intros tg Hin <- <-. assert (None = Some tg) as H; [|discriminate H]. apply Hhead. split; [done|].
    by apply MetaNamespaceKeyFunc_inj; auto.
Qed.

(** The lister of a namespace gets the TaskGroup of a name exactly if the
    list of all TaskGroups of the namespace has it, and fails with a not-found
    error if the list has none of this name. The objects of the indexer have
    distinct keys and are namespaced; the index by namespace is not needed. *)
Theorem taskGroupLister_Get_List (s : Indexer TaskGroup) ns name :
  Forall (λ tg, namespace_name (ObjectMeta_Namespace (TaskGroup_ObjectMeta tg))) (Indexer_objects s) →
  NoDup ((λ tg, MetaNamespaceKeyFunc (TaskGroup_ObjectMeta tg)) <$> Indexer_objects s) → namespace_name ns →
  let lister := taskGroupLister_TaskGroups (NewTaskGroupLister s) ns in
  (∀ tg, taskGroupNamespaceLister_Get lister name = inr tg ↔
     tg ∈ taskGroupNamespaceLister_List lister ∅ ∧ ObjectMeta_Name (TaskGroup_ObjectMeta tg) = name) ∧
  (∀ err, taskGroupNamespaceLister_Get lister name = inl err ↔
     err = NewNotFound "taskgroup.custom.tekton.dev" name ∧
     name ∉ (λ tg, ObjectMeta_Name (TaskGroup_ObjectMeta tg)) <$> taskGroupNamespaceLister_List lister ∅).
Proof.
  intros Hvalid Hnd Hns lister. pose proof (taskGroupNamespaceLister_Get_spec s ns name (conj Hvalid Hnd) Hns) as Hget.
  assert (∀ tg, tg ∈ taskGroupNamespaceLister_List lister ∅ ↔
    tg ∈ Indexer_objects s ∧ ObjectMeta_Namespace (TaskGroup_ObjectMeta tg) = ns) as Hlist.
  { intros tg. unfold taskGroupNamespaceLister_List. rewrite ListAllByNamespace_selected, list_elem_of_filter. cbn.
    unfold selected. rewrite selector_matches_empty. destruct Hns as [Hne _]. naive_solver. }
  fold lister in Hget. destruct (taskGroupNamespaceLister_Get lister name) as [err'|tg'] eqn:Heq; split.
  - intros tg. split; [done|]. intros [[Hin Hn]%Hlist Hname]. by destruct Hget as [_ Hget], (Hget tg).
  - intros err. destruct Hget as [-> Hget]. split; [|naive_solver]. intros [= <-]. split; [done|].
    intros (tg & -> & [Hin Hn]%Hlist)%list_elem_of_fmap. by apply (Hget tg).
  - intros tg. destruct Hget as (Hin & Hn & Hname). split; [by intros [= <-]; rewrite Hlist|].
    intros [[Hin' Hn']%Hlist Hname']. f_equal. apply (NoDup_fmap_inj_eq _ _ _ _ Hnd Hin Hin').
    unfold MetaNamespaceKeyFunc. by rewrite Hn, Hn', Hname, Hname'.
  - intros err. split; [done|]. intros [_ Hno]. exfalso. apply Hno. destruct Hget as (Hin & Hn & <-).
    apply (list_elem_of_fmap_2 (λ tg, ObjectMeta_Name (TaskGroup_ObjectMeta tg))). by apply Hlist.
Qed.

(** Two TaskGroups of one name in two namespaces. *)
Lemma taskGroupLister_Get_List_witness :
  let tg ns := {| TaskGroup_ObjectMeta := {| ObjectMeta_Name := "group"; ObjectMeta_Namespace := ns; ObjectMeta_UID := "";
      ObjectMeta_ResourceVersion := ""; ObjectMeta_Generation := 0;
    ObjectMeta_CreationTimestamp := zero_time; ObjectMeta_DeletionTimestamp := None; ObjectMeta_Labels := None; ObjectMeta_Annotations := None;
      ObjectMeta_OwnerReferences := []; ObjectMeta_Other := JObj [] |}; TaskGroup_Spec := V1alpha1.zero_TaskGroupSpec |} in
  let s := {| Indexer_objects := [tg "a"; tg "b"]; Indexer_by_namespace := false |} in
  tg "b" ∈ taskGroupNamespaceLister_List (taskGroupLister_TaskGroups (NewTaskGroupLister s) "b") ∅.
Proof.
  intros tg s. assert (∀ c, namespace_name (String c "") ∨ c = "/"%char) as Hc.
  { intros c. destruct (decide (c = "/"%char)); [by right|left]. split; [done|]. simpl. by apply not_elem_of_cons; split; [|apply not_elem_of_nil]. }
  destruct (taskGroupLister_Get_List s "b" "group") as [H _].
  - constructor; [by destruct (Hc "a"%char)|]. constructor; [by destruct (Hc "b"%char)|constructor].
  - apply (bool_decide_unpack _). vm_compute. exact I.
  - by destruct (Hc "b"%char).
  - apply H. vm_compute. reflexivity.
Defined.
