(* ===== verification/ThreadSafeStore.v ===== *)
(** client-go's tools/cache/thread_safe_store.go: the store behind the cache of
    an informer, with its indices; they have what a search of all items would
    find. *)
From S2P Require Import Prelude GoStrings Types Conditions RunTypes Listers.

Section store.
Context {A : Type}.

(** [type IndexFunc], of one that does not fail (that of the namespaces does not
    on objects of the API), [type Index], [type Indexers] and [type Indices] *)
Abbreviation IndexFunc := (A → list string).
Abbreviation Index := (gmap string (gset string)).
Abbreviation Indexers := (gmap string IndexFunc).
Abbreviation Indices := (gmap string Index).

(** [type threadSafeMap struct] *)
Record threadSafeMap := { items : gmap string A; indexers : Indexers; indices : Indices }.

(** The orders in which ranges visit the entries of maps and sets *)
Class StoreOrder := {
  indexers_range (m : Indexers) : list (string * IndexFunc);
  indexers_range_perm m : indexers_range m ≡ₚ map_to_list m;
  items_range (m : gmap string A) : list (string * A);
  items_range_perm m : items_range m ≡ₚ map_to_list m;
  keys_range (s : gset string) : list string;
  keys_range_perm s : keys_range s ≡ₚ elements s
}.
Context `{StoreOrder}.

(** [func NewThreadSafeStore(indexers Indexers, indices Indices) ThreadSafeStore] *)
Definition NewThreadSafeStore (indexers : Indexers) (indices : Indices) : threadSafeMap :=
  {| items := ∅; indexers := indexers; indices := indices |}.

(** The loops over the indexed values of an object, for one index *)
Definition insert_key (key : string) (index : Index) (indexValue : string) : Index :=
  <[indexValue := default ∅ (index !! indexValue) ∪ {[key]}]> index.
Definition delete_key (key : string) (index : Index) (indexValue : string) : Index :=
  match index !! indexValue with
  | None => index
  | Some set => if bool_decide (set ∖ {[key]} = ∅) then delete indexValue index else <[indexValue := set ∖ {[key]}]> index
  end.

(** [func (c *threadSafeMap) deleteFromIndices(obj interface{}, key string)] *)
Definition deleteFromIndices (c : Indexers) (obj : A) (key : string) (ind : Indices) : Indices :=
  foldl (λ ind '(name, indexFunc), partial_alter (fmap (λ index, foldl (delete_key key) index (indexFunc obj))) name ind)
    ind (indexers_range c).

(** [func (c *threadSafeMap) updateIndices(oldObj, newObj interface{}, key string)] *)
Definition updateIndices (c : Indexers) (oldObj : option A) (newObj : A) (key : string) (ind : Indices) : Indices :=
  let ind := match oldObj with Some oldObj => deleteFromIndices c oldObj key ind | None => ind end in
  foldl (λ ind '(name, indexFunc), partial_alter (λ index, Some (foldl (insert_key key) (default ∅ index) (indexFunc newObj))) name ind)
    ind (indexers_range c).

(** [Add], [Update], [Delete], [Replace] and [AddIndexers] of a [threadSafeMap] *)
Definition store_Add (key : string) (obj : A) (c : threadSafeMap) : threadSafeMap :=
  {| items := <[key := obj]> (items c); indexers := indexers c; indices := updateIndices (indexers c) (items c !! key) obj key (indices c) |}.
Definition store_Update : string → A → threadSafeMap → threadSafeMap := store_Add.
Definition store_Delete (key : string) (c : threadSafeMap) : threadSafeMap :=
  match items c !! key with
  | Some obj => {| items := delete key (items c); indexers := indexers c; indices := deleteFromIndices (indexers c) obj key (indices c) |}
  | None => c
  end.
Definition store_Replace (m : gmap string A) (c : threadSafeMap) : threadSafeMap :=
  {| items := m; indexers := indexers c;
     indices := foldl (λ ind '(key, item), updateIndices (indexers c) None item key ind) ∅ (items_range m) |}.
Definition indexer_conflict (keys : gset string) : error :=
  errorString ("indexer conflict: map[" +:+ Join ((λ key, key +:+ ":{}") <$> merge_sort String.le (elements keys)) " " +:+ "]").
Definition store_AddIndexers (new : Indexers) (c : threadSafeMap) : option error * threadSafeMap :=
  if bool_decide (items c ≠ ∅) then (Some (errorString "cannot add indexers to running index"), c)
  else if bool_decide (dom (indexers c) ∩ dom new ≠ ∅) then (Some (indexer_conflict (dom (indexers c) ∩ dom new)), c)
  else (None, {| items := items c; indexers := new ∪ indexers c; indices := indices c |}).

(** [Get], [List] and [ListKeys] *)
Definition store_Get (key : string) (c : threadSafeMap) : option A := items c !! key.
Definition store_List (c : threadSafeMap) : list A := (items_range (items c)).*2.
Definition store_ListKeys (c : threadSafeMap) : list string := (items_range (items c)).*1.

(** [func (c *threadSafeMap) Index(indexName string, obj interface{})] and
    [ByIndex(indexName, indexedValue)]; an item that is not there is nil. *)
Definition index_of (indexName : string) (c : threadSafeMap) : Index := default ∅ (indices c !! indexName).
Definition no_index (indexName : string) : error := errorString ("Index with name " +:+ indexName +:+ " does not exist").
Definition store_Index (indexName : string) (obj : A) (c : threadSafeMap) : fallible (list (option A)) :=
  match indexers c !! indexName with
  | None => inl (no_index indexName)
  | Some indexFunc =>
    let storeKeySet := match indexFunc obj with
      | [indexedValue] => default ∅ (index_of indexName c !! indexedValue)
      | indexedValues => foldl (λ set indexedValue, set ∪ default ∅ (index_of indexName c !! indexedValue)) ∅ indexedValues
      end in
    inr ((λ storeKey, items c !! storeKey) <$> keys_range storeKeySet)
  end.
Definition store_ByIndex (indexName indexedValue : string) (c : threadSafeMap) : fallible (list (option A)) :=
  match indexers c !! indexName with
  | None => inl (no_index indexName)
  | Some _ => inr ((λ key, items c !! key) <$> keys_range (default ∅ (index_of indexName c !! indexedValue)))
  end.

(** [IndexKeys], which sorts the keys, and [ListIndexFuncValues], with the values
    in the order of a range *)
Definition store_IndexKeys (indexName indexedValue : string) (c : threadSafeMap) : fallible (list string) :=
  match indexers c !! indexName with
  | None => inl (no_index indexName)
  | Some _ => inr (merge_sort String.le (elements (default ∅ (index_of indexName c !! indexedValue) : gset string)))
  end.
Definition store_ListIndexFuncValues (indexName : string) (c : threadSafeMap) : list string := keys_range (dom (index_of indexName c)).

(** ** The indices *)

(** The keys of a value *)
Definition keys_at (index : Index) (v : string) : gset string := default ∅ (index !! v).
Definition tidy (index : Index) : Prop := ∀ v, index !! v ≠ Some ∅.

Lemma insert_key_spec key index v : tidy index → tidy (insert_key key index v) ∧
  ∀ v' k, k ∈ keys_at (insert_key key index v) v' ↔ k ∈ keys_at index v' ∨ k = key ∧ v' = v.
Proof.
  intros Ht. unfold insert_key, keys_at. split.
  - intros v' [[_ He]|[_ He]]%lookup_insert_Some; [set_solver|by eapply Ht].
  - intros v' k. destruct (decide (v' = v)) as [->|Hne]; [rewrite lookup_insert_eq; simpl; set_solver|rewrite lookup_insert_ne by done; naive_solver].
Qed.

Lemma delete_key_spec key index v : tidy index → tidy (delete_key key index v) ∧
  ∀ v' k, k ∈ keys_at (delete_key key index v) v' ↔ k ∈ keys_at index v' ∧ ¬ (k = key ∧ v' = v).
Proof.
  intros Ht. unfold delete_key, keys_at. destruct (index !! v) as [set|] eqn:Hv.
  - case_bool_decide as Hempty; split.
    + intros v' [_ He]%lookup_delete_Some. by eapply Ht.
    + intros v' k. destruct (decide (v' = v)) as [->|Hne]; [rewrite lookup_delete_eq, Hv; simpl; set_solver|rewrite lookup_delete_ne by done; naive_solver].
    + intros v' [[_ He]|[_ He]]%lookup_insert_Some; [done|by eapply Ht].
    + intros v' k. destruct (decide (v' = v)) as [->|Hne]; [rewrite lookup_insert_eq, Hv; simpl; set_solver|rewrite lookup_insert_ne by done; naive_solver].
  - split; [done|]. intros v' k. split; [|naive_solver]. intros Hk. split; [done|]. intros [-> ->]. rewrite Hv in Hk. set_solver.
Qed.

Lemma insert_keys_spec key index vs : tidy index → tidy (foldl (insert_key key) index vs) ∧
  ∀ v k, k ∈ keys_at (foldl (insert_key key) index vs) v ↔ k ∈ keys_at index v ∨ k = key ∧ v ∈ vs.
Proof.
  revert index. induction vs as [|v0 vs IH]; intros index Ht; [split; [done|set_solver]|]. simpl.
  destruct (insert_key_spec key index v0 Ht) as [Ht' Hk]. destruct (IH _ Ht') as [? Hk']. split; [done|]. intros v k. rewrite Hk', Hk. set_solver.
Qed.

Lemma delete_keys_spec key index vs : tidy index → tidy (foldl (delete_key key) index vs) ∧
  ∀ v k, k ∈ keys_at (foldl (delete_key key) index vs) v ↔ k ∈ keys_at index v ∧ ¬ (k = key ∧ v ∈ vs).
Proof.
  revert index. induction vs as [|v0 vs IH]; intros index Ht; [split; [done|set_solver]|]. simpl.
  destruct (delete_key_spec key index v0 Ht) as [Ht' Hk]. destruct (IH _ Ht') as [? Hk']. split; [done|]. intros v k. rewrite Hk', Hk. set_solver.
Qed.

(** The loops over the indexers *)
Lemma fold_alter {B C} (h : B → option C → option C) (l : list (string * B)) (m : gmap string C) name :
  NoDup l.*1 →
  foldl (λ m '(name, f), partial_alter (h f) name m) m l !! name = match (list_to_map l : gmap string B) !! name with Some f => h f (m !! name) | None => m !! name end.
Proof.
  revert m. induction l as [|[n f] l IH]; intros m Hnd; [done|]. simpl in *. apply NoDup_cons in Hnd as [Hn Hnd]. rewrite IH by done.
  destruct (decide (name = n)) as [->|Hne].
  - rewrite (not_elem_of_list_to_map_1 l n Hn), lookup_insert_eq. by rewrite lookup_partial_alter_eq.
  - rewrite lookup_insert_ne by done. by rewrite lookup_partial_alter_ne by done.
Qed.

Lemma over_indexers {C} (h : IndexFunc → option C → option C) (c : Indexers) (m : gmap string C) name :
  foldl (λ m '(name, f), partial_alter (h f) name m) m (indexers_range c) !! name = match c !! name with Some f => h f (m !! name) | None => m !! name end.
Proof.
  rewrite fold_alter by (rewrite indexers_range_perm; apply NoDup_fst_map_to_list).
  rewrite (list_to_map_proper _ (map_to_list c)), list_to_map_to_list; [done|rewrite indexers_range_perm; apply NoDup_fst_map_to_list|apply indexers_range_perm].
Qed.

(** An index has for each value the keys of the items with that value; there are
    indices of indexers only. *)
Definition reflects (c : Indexers) (m : gmap string A) (ind : Indices) : Prop :=
  (∀ name f, c !! name = Some f → tidy (default ∅ (ind !! name)) ∧
    ∀ v key, key ∈ keys_at (default ∅ (ind !! name)) v ↔ ∃ x, m !! key = Some x ∧ v ∈ f x) ∧
  ∀ name, c !! name = None → ind !! name = None.

Lemma reflects_empty c : reflects c ∅ ∅.
Proof. split; [|done]. intros name f _. rewrite lookup_empty. simpl. split; [done|]. intros v key. unfold keys_at. rewrite !lookup_empty. naive_solver set_solver. Qed.

Lemma reflects_delete c m ind key obj : reflects c m ind → m !! key = Some obj → reflects c (delete key m) (deleteFromIndices c obj key ind).
Proof.
  intros [Hin Hno] Hobj. unfold deleteFromIndices. split.
  - intros name f Hf. rewrite (over_indexers (λ indexFunc, fmap (λ index, foldl (delete_key key) index (indexFunc obj)))), Hf. destruct (Hin _ _ Hf) as [Ht Hk].
    destruct (ind !! name) as [index|]; simpl in *.
    + destruct (delete_keys_spec key index (f obj) Ht) as [? Hd]. split; [done|]. intros v k. rewrite Hd, Hk. destruct (decide (k = key)) as [->|Hne].
      * rewrite lookup_delete_eq, Hobj. naive_solver.
      * rewrite lookup_delete_ne by done. naive_solver.
    + split; [done|]. intros v k. split; [intros Hv; unfold keys_at in Hv; rewrite lookup_empty in Hv; set_solver|].
      intros (x & [_ Hx]%lookup_delete_Some & Hv). apply Hk. by exists x.
  - intros name Hf. rewrite (over_indexers (λ indexFunc, fmap (λ index, foldl (delete_key key) index (indexFunc obj)))), Hf. by apply Hno.
Qed.

Lemma reflects_insert c m ind key obj : reflects c m ind → m !! key = None →
  reflects c (<[key := obj]> m) (updateIndices c None obj key ind).
Proof.
  intros [Hin Hno] Hnone. unfold updateIndices. split.
  - intros name f Hf. rewrite (over_indexers (λ indexFunc index, Some (foldl (insert_key key) (default ∅ index) (indexFunc obj)))), Hf. simpl.
    destruct (Hin _ _ Hf) as [Ht Hk]. destruct (insert_keys_spec key (default ∅ (ind !! name)) (f obj) Ht) as [? Hd]. split; [done|]. intros v k. rewrite Hd, Hk.
    destruct (decide (k = key)) as [->|Hne]; [rewrite lookup_insert_eq, Hnone; naive_solver|rewrite lookup_insert_ne by done; naive_solver].
  - intros name Hf. rewrite (over_indexers (λ indexFunc index, Some (foldl (insert_key key) (default ∅ index) (indexFunc obj)))), Hf. by apply Hno.
Qed.

Definition wf_store (c : threadSafeMap) : Prop := reflects (indexers c) (items c) (indices c).

Lemma wf_Add key obj c : wf_store c → wf_store (store_Add key obj c).
Proof.
  intros Hwf. unfold wf_store, store_Add. simpl. destruct (items c !! key) as [old|] eqn:Hold; [|by apply reflects_insert].
  rewrite <-(insert_delete_eq (items c)). apply (reflects_insert _ (delete key (items c)) (deleteFromIndices (indexers c) old key (indices c)) key obj); [|apply lookup_delete_eq].
  by apply reflects_delete.
Qed.

Lemma wf_Delete key c : wf_store c → wf_store (store_Delete key c).
Proof. intros Hwf. unfold wf_store, store_Delete. destruct (items c !! key) as [obj|] eqn:Hobj; [by apply reflects_delete|done]. Qed.

Lemma wf_Replace m c : wf_store (store_Replace m c).
Proof.
  unfold wf_store, store_Replace. simpl. pose proof (items_range_perm m) as Hperm.
  assert (NoDup (items_range m).*1) as Hnd by (rewrite Hperm; apply NoDup_fst_map_to_list).
  rewrite <-(list_to_map_to_list m) at 1. rewrite <-(list_to_map_proper (M := gmap string) (items_range m)) by done. clear Hperm.
  induction (items_range m) as [|[key x] l IH] using rev_ind; [apply reflects_empty|]. rewrite foldl_app, list_to_map_snoc.
  - rewrite fmap_app in Hnd. apply NoDup_app in Hnd as (? & Hnew & _). apply reflects_insert; [by apply IH|].
    apply not_elem_of_list_to_map_1. intros Hin. by apply (Hnew _ Hin), list_elem_of_singleton.
  - rewrite fmap_app in Hnd. apply NoDup_app in Hnd as (_ & Hnew & _). intros Hin. by apply (Hnew _ Hin), list_elem_of_singleton.
Qed.

Lemma wf_AddIndexers new c : wf_store c → wf_store (store_AddIndexers new c).2.
Proof.
  intros [Hin Hno]. unfold wf_store, store_AddIndexers. case_bool_decide as Hitems; [done|]. case_bool_decide as Hconf; [done|].
  simpl. split.
  - intros name f [Hf|[_ Hf]]%lookup_union_Some_raw; [|by apply Hin]. assert (indexers c !! name = None) as Hnone.
    { apply not_elem_of_dom. intros Hd. apply elem_of_dom_2 in Hf. set_solver. }
    rewrite (Hno _ Hnone), Hitems. simpl. split; [done|]. intros v key. unfold keys_at. rewrite !lookup_empty. naive_solver set_solver.
  - intros name [_ ?]%lookup_union_None. by apply Hno.
Qed.

(** ** Sequences of calls *)
Inductive store_call : Type :=
  | CallAdd (key : string) (obj : A)
  | CallUpdate (key : string) (obj : A)
  | CallDelete (key : string)
  | CallReplace (m : gmap string A)
  | CallAddIndexers (new : Indexers).

Definition store_do (c : threadSafeMap) (op : store_call) : threadSafeMap :=
  match op with
  | CallAdd key obj => store_Add key obj c
  | CallUpdate key obj => store_Update key obj c
  | CallDelete key => store_Delete key c
  | CallReplace m => store_Replace m c
  | CallAddIndexers new => (store_AddIndexers new c).2
  end.
Definition map_do (m : gmap string A) (op : store_call) : gmap string A :=
  match op with
  | CallAdd key obj | CallUpdate key obj => <[key := obj]> m
  | CallDelete key => delete key m
  | CallReplace m => m
  | CallAddIndexers _ => m
  end.

Lemma store_reached calls init :
  let c := foldl store_do (NewThreadSafeStore init ∅) calls in wf_store c ∧ items c = foldl map_do ∅ calls.
Proof.
  cbv zeta. induction calls as [|op calls [Hwf Hitems]] using rev_ind; [split; [apply reflects_empty|done]|]. rewrite !foldl_app. simpl. rewrite <-Hitems.
  destruct op as [key obj|key obj|key|m|new]; simpl.
  - split; [by apply wf_Add|done].
  - split; [by apply wf_Add|done].
  - split; [by apply wf_Delete|]. unfold store_Delete. destruct (items _ !! key) eqn:Hk; [done|]. by rewrite delete_id.
  - split; [apply wf_Replace|done].
  - split; [by apply wf_AddIndexers|]. unfold store_AddIndexers. by repeat case_bool_decide.
Qed.

(** The items of a set of keys *)
Lemma items_at (m : gmap string A) (keys : gset string) (P : A → Prop) `{∀ x, Decision (P x)} :
  (∀ key, key ∈ keys ↔ ∃ x, m !! key = Some x ∧ P x) → ((λ key, m !! key) <$> keys_range keys) ≡ₚ Some <$> filter P (map_to_list m).*2.
Proof.
  intros Hkeys. rewrite keys_range_perm. assert (keys = dom (filter (λ kv, P kv.2) m)) as ->.
  { apply set_eq. intros key. rewrite Hkeys, elem_of_dom. unfold is_Some. setoid_rewrite map_lookup_filter_Some. naive_solver. }
  clear Hkeys. induction m as [|key x m Hkey IH] using map_ind.
  { by rewrite map_filter_empty, dom_empty_L, elements_empty, map_to_list_empty. }
  assert (((λ k, <[key := x]> m !! k) <$> elements (dom (filter (λ kv, P kv.2) m))) = (λ k, m !! k) <$> elements (dom (filter (λ kv, P kv.2) m))) as Heq.
  { apply list_fmap_ext. intros i k Hk. apply list_elem_of_lookup_2, elem_of_elements, elem_of_dom in Hk as [y Hy].
    apply map_lookup_filter_Some in Hy as [Hy _]. by rewrite lookup_insert_ne by (by intros ->; rewrite Hkey in Hy). }
  assert (filter (λ kv, P kv.2) m !! key = None) as Hnone by (apply map_lookup_filter_None; by left).
  rewrite (map_to_list_insert _ _ _ Hkey), fmap_cons, filter_cons. simpl. case_decide as HP.
  - rewrite map_filter_insert_True by done. rewrite dom_insert_L, elements_union_singleton by by apply not_elem_of_dom.
    rewrite !fmap_cons, lookup_insert_eq, Heq. by f_equiv.
  - rewrite map_filter_insert_False, delete_id by done. by rewrite Heq.
Qed.

Lemma index_keys c name f v : wf_store c → indexers c !! name = Some f →
  ∀ key, key ∈ default ∅ (index_of name c !! v) ↔ ∃ x, items c !! key = Some x ∧ v ∈ f x.
Proof. intros [Hin _] Hf key. by apply (Hin _ _ Hf). Qed.

Lemma elem_of_indexed (index : Index) vs set k :
  k ∈ foldl (λ set v, set ∪ default ∅ (index !! v)) set vs ↔ k ∈ set ∨ ∃ v, v ∈ vs ∧ k ∈ default ∅ (index !! v).
Proof. revert set. induction vs as [|v vs IH]; intros set; simpl; [set_solver|]. rewrite IH. set_solver. Qed.

(** After any calls of the store, however the maps are ranged over, an index
    that has been added finds by a value exactly the items that have it, each
    once and none nil, by an object exactly the items that share a value with
    it, and an index that has not been added is an error; the items are those
    that were added last under each key. *)
Theorem index_is_search calls init name :
  let c := foldl store_do (NewThreadSafeStore init ∅) calls in
  let found P `{∀ x, Decision (P x)} (r : fallible (list (option A))) :=
    ∃ l, r = inr (Some <$> l) ∧ l ≡ₚ filter P (map_to_list (foldl map_do ∅ calls)).*2 in
  match indexers c !! name with
  | Some f => (∀ v, found (λ x, v ∈ f x) (store_ByIndex name v c)) ∧
              ∀ obj, found (λ x, Exists (λ v, v ∈ f x) (f obj)) (store_Index name obj c)
  | None => (∀ v, store_ByIndex name v c = inl (no_index name)) ∧ ∀ obj, store_Index name obj c = inl (no_index name)
  end.
Proof.
  intros c found. destruct (store_reached calls init) as [Hwf Hitems]. fold c in Hwf, Hitems. unfold store_ByIndex, store_Index.
  destruct (indexers c !! name) as [f|] eqn:Hf; [|done]. pose proof (λ v, index_keys c name _ v Hwf Hf) as Hkeys.
  assert (∀ keys (P : A → Prop) `{∀ x, Decision (P x)}, (∀ key, key ∈ keys ↔ ∃ x, items c !! key = Some x ∧ P x) →
    found P _ (inr ((λ key, items c !! key) <$> keys_range keys))) as Hfound.
  { intros keys P HP Hin. destruct (Permutation_map_inv _ _ (items_at (items c) keys P Hin)) as (l & Hl & Hperm).
    exists l. rewrite <-Hitems, Hl. by split. }
  split; intros v; apply Hfound; [exact (Hkeys v)|].
  intros key. setoid_rewrite Exists_exists. destruct (f v) as [|v1 [|v2 vs]].
  - simpl. set_solver.
  - rewrite Hkeys. set_solver.
  - generalize (v1 :: v2 :: vs). intros l. rewrite elem_of_indexed. setoid_rewrite Hkeys. set_solver.
Qed.
End store.
Arguments threadSafeMap : clear implicits.
Arguments store_call : clear implicits.
Arguments StoreOrder : clear implicits.

(** ** The index by namespace of a lister *)

(** [MetaNamespaceIndexFunc], under the name [NamespaceIndex] *)
Definition MetaNamespaceIndexFunc {A} (meta : A → ObjectMeta) (obj : A) : list string := [ObjectMeta_Namespace (meta obj)].
Definition NamespaceIndex : string := "namespace".

(** The search of a lister in an indexer ([Listers.Index_namespace]) is that of
    the store by this index, whatever was added to the store and taken from it. *)
Theorem namespace_index_is_search `{StoreOrder A} (meta : A → ObjectMeta) calls (init : gmap string (A → list string)) s obj ns :
  let c := foldl store_do (NewThreadSafeStore init ∅) calls in
  indexers c !! NamespaceIndex = Some (MetaNamespaceIndexFunc meta) →
  Indexer_by_namespace s = true → Indexer_objects s ≡ₚ store_List c → ObjectMeta_Namespace (meta obj) = ns →
  ∃ l, store_Index NamespaceIndex obj c = inr (Some <$> l) ∧ option_Forall2 (≡ₚ) (Index_namespace meta s ns) (Some l).
Proof.
  intros c Hf Hs Hobjects Hns. pose proof (index_is_search calls init NamespaceIndex) as Hindex. cbv zeta in Hindex. fold c in Hindex. rewrite Hf in Hindex.
  destruct (proj2 Hindex obj) as (l & -> & Hl). exists l. split; [done|]. unfold Index_namespace. rewrite Hs. constructor. rewrite Hl, Hobjects.
  unfold store_List. rewrite items_range_perm. destruct (store_reached calls init) as [_ Hitems]. fold c in Hitems. rewrite Hitems. apply reflexive_eq, list_filter_iff.
  intros x. unfold MetaNamespaceIndexFunc. rewrite Exists_cons, Exists_nil. set_solver.
Qed.

(** ** An example *)
Definition listed_order {A} : StoreOrder A :=
  {| indexers_range := map_to_list; indexers_range_perm _ := reflexivity _; items_range := map_to_list; items_range_perm _ := reflexivity _;
     keys_range := elements; keys_range_perm _ := reflexivity _ |}.

(** Numbers by parity: one that is changed moves, one that is deleted is not found. *)
Definition parity (n : nat) : list string := [if Nat.even n then "even" else "odd"].
Example parity_index :
  let c := foldl (store_do (H := listed_order)) (NewThreadSafeStore {["parity" := parity]} ∅)
    [CallAdd "a" 1; CallAdd "b" 2; CallUpdate "a" 4; CallAdd "c" 6; CallDelete "b"] in
  store_ByIndex (H := listed_order) "parity" "even" c = inr [Some 6; Some 4] ∧
  store_ByIndex (H := listed_order) "parity" "odd" c = inr [] ∧
  store_Index (H := listed_order) "size" 1 c = inl (errorString "Index with name size does not exist") ∧
  (store_AddIndexers {["parity" := parity]} c).1 = Some (errorString "cannot add indexers to running index") ∧
  (store_AddIndexers {["parity" := parity]} (NewThreadSafeStore {["parity" := parity]} ∅)).1 = Some (errorString "indexer conflict: map[parity:{}]").
Proof. by vm_compute. Qed.
