(* ===== verification/Cluster.v ===== *)
(** What the controller runs in: the clients and listers of the cluster, the
    clock, the random suffixes and the JSON codec as an interface, the effects
    it has on the cluster, and the monad its methods are written in.

    Every reading of the outside world takes the number of the reading, so
    that two readings in one reconciliation may differ: the clock advances,
    a cache is updated, a client fails once and then answers. *)
From S2P Require Import Prelude GoStrings Types RunTypes Conditions.
From Stdlib Require Import Ascii.

(** ** The outside world *)
Class Cluster := {
  (** [time.Now()] *)
  now : nat → Time;
  (** [taskgroupClientSet...TaskGroups(namespace).Get(name)] *)
  TaskGroups_Get : nat → string → string → fallible TaskGroup;
  (** [Tekton.V1beta1().Tasks(namespace).Get(name)] and [ClusterTasks().Get(name)]: the spec *)
  Tasks_Get : nat → string → string → fallible V1beta1.TaskSpec;
  ClusterTasks_Get : nat → string → fallible V1beta1.TaskSpec;
  (** the OCI resolver: bundle, kind, name, namespace, service account *)
  Bundles_Get : nat → string → string → string → string → string → fallible V1beta1.TaskSpec;
  (** the feature flag of the context's configuration *)
  EnableTektonOCIBundles : bool;
  (** the cloud events sink of the context's configuration *)
  DefaultCloudEventsSink : string;
  (** the cache behind the TaskRun lister *)
  TaskRuns_cache : nat → fallible (list TaskRun);
  (** [runLister.Runs(namespace).Get(name)] *)
  Runs_lister_Get : nat → string → string → fallible Run;
  (** [TaskRuns(namespace).Create(taskRun)] and [.Patch(name, cancelPatchBytes)] *)
  TaskRuns_Create : nat → string → TaskRun → fallible TaskRun;
  TaskRuns_Patch : nat → string → string → option error;
  (** [Runs(namespace).Patch(name, the merge patch of labels and annotations)] *)
  Runs_Patch : nat → string → string → gomap → gomap → option error;
  (** [utilrand.String(n)] *)
  rand_String : nat → nat → string;
  (** [json.Unmarshal(raw, status)], which may fail half way, and [json.Marshal(status)] *)
  decode_status : string → TaskGroupRunStatus → TaskGroupRunStatus * option error;
  encode_status : TaskGroupRunStatus → fallible string;
  (** [json.Unmarshal(raw, &taskGroupSpec)] *)
  decode_TaskGroupSpec : string → fallible V1alpha1.TaskGroupSpec;
  (** the verb [%#v] of fmt on an error *)
  GoSyntax : error → string
}.

(** ** Effects *)
Inductive effect : Type :=
  | CreateTaskRun (namespace : string) (tr : TaskRun)
  | CancelTaskRun (namespace name : string)
  | PatchRun (namespace name : string) (labels annotations : gomap)
  | KubeEvent (type reason message : string)
  | CloudEvent
  (** a request of the generated reconciler *)
  | UpdateRunStatus (namespace : string) (r : Run).

(** ** The monad of the reconciler

    Its state is the Run that the methods are given and mutate, the extra
    fields of its status, the number of readings of the outside world so far
    and the effects so far, in order. *)
Record State := {
  run : Run;
  status : TaskGroupRunStatus;
  tick : nat;
  trace : list effect
}.

Definition M (A : Type) : Type := State → A * State.

Definition ret {A} (a : A) : M A := λ s, (a, s).

Definition bind {A B} (m : M A) (k : A → M B) : M B := λ s, let '(a, s) := m s in k a s.

Notation "'let!' x ':=' m 'in' k" := (bind m (λ x, k))
  (at level 10, x pattern, m at level 100, k at level 200) : go_scope.

Notation "'do!' m 'in' k" := (bind m (λ _, k))
  (at level 10, m at level 100, k at level 200) : go_scope.

Definition with_run (r : Run) (s : State) : State :=
  {| run := r; status := status s; tick := tick s; trace := trace s |}.
Definition with_status (st : TaskGroupRunStatus) (s : State) : State :=
  {| run := run s; status := st; tick := tick s; trace := trace s |}.
Definition advance (s : State) : State :=
  {| run := run s; status := status s; tick := S (tick s); trace := trace s |}.
Definition emitting (e : effect) (s : State) : State :=
  {| run := run s; status := status s; tick := tick s; trace := trace s ++ [e] |}.

Definition get_run : M Run := λ s, (run s, s).
Definition get_status : M TaskGroupRunStatus := λ s, (status s, s).
Definition set_run (r : Run) : M unit := λ s, (tt, with_run r s).
Definition set_status (st : TaskGroupRunStatus) : M unit := λ s, (tt, with_status st s).

(** A reading of the outside world. *)
Definition reading {A} (f : nat → A) : M A := λ s, (f (tick s), advance s).

Definition emit (e : effect) : M unit := λ s, (tt, emitting e s).

Definition update_run_status (f : RunStatus → RunStatus) : M unit :=
  let! r := get_run in set_run (set_Run_Status (f (Run_Status r)) r).

(** ** Texts of errors *)

(** [err.Error()] *)
Fixpoint error_text (e : error) : string :=
  match e with
  | errorString text => text
  | wrapError text inner => text +:+ error_text inner
  | permanentError inner => error_text inner
  | skipKeyError key => "skipped key: " +:+ Quote key
  | multiError errs =>
    let points := map (λ e, "* " +:+ error_text e) errs in
    let nl := String "010" "" in
    match points with
    | [p] => "1 error occurred:" +:+ nl +:+ String "009" p +:+ nl +:+ nl
    | _ => Itoa (length points) +:+ " errors occurred:" +:+ nl +:+ String "009" "" +:+
           Join points (nl +:+ String "009" "") +:+ nl +:+ nl
    end
  end.

(** [multierror.Append(merr, err)] of a non-nil error. *)
Definition multierror_Append (merr : option error) (err : error) : error :=
  let errs := match merr with
              | Some (multiError errs) => errs
              | Some e => [e]
              | None => []
              end in
  match err with
  | multiError es => multiError (errs ++ es)
  | e => multiError (errs ++ [e])
  end.

(** ** Reasoning

    [wp m s Q]: from state [s], [m] returns a value and ends in a state that
    satisfy [Q]. The methods are total, so this is both partial and total
    correctness. *)
Definition wp {A} (m : M A) (s : State) (Q : A → State → Prop) : Prop := Q (m s).1 (m s).2.

Section wp.
Context {A B : Type}.
Implicit Types (m : M A) (k : A → M B) (Q : A → State → Prop).

Lemma wp_ret (a : A) s Q : wp (ret a) s Q ↔ Q a s.
Proof. done. Qed.

Lemma wp_bind m k s (Q : B → State → Prop) : wp (bind m k) s Q ↔ wp m s (λ a s', wp (k a) s' Q).
Proof. unfold wp, bind. by destruct (m s). Qed.

Lemma wp_reading (f : nat → A) s Q : wp (reading f) s Q ↔ Q (f (tick s)) (advance s).
Proof. done. Qed.

Lemma wp_mono m s Q Q' : wp m s Q → (∀ a s', Q a s' → Q' a s') → wp m s Q'.
Proof. unfold wp. auto. Qed.

Lemma wp_run m s : wp m s (λ a s', m s = (a, s')).
Proof. unfold wp. by destruct (m s). Qed.
End wp.

Lemma wp_get_run s Q : wp get_run s Q ↔ Q (run s) s.
Proof. done. Qed.
Lemma wp_get_status s Q : wp get_status s Q ↔ Q (status s) s.
Proof. done. Qed.
Lemma wp_set_run r s Q : wp (set_run r) s Q ↔ Q tt (with_run r s).
Proof. done. Qed.
Lemma wp_set_status st s Q : wp (set_status st) s Q ↔ Q tt (with_status st s).
Proof. done. Qed.
Lemma wp_emit e s Q : wp (emit e) s Q ↔ Q tt (emitting e s).
Proof. done. Qed.
Lemma wp_update_run_status f s Q :
  wp (update_run_status f) s Q ↔ Q tt (with_run (set_Run_Status (f (Run_Status (run s))) (run s)) s).
Proof. done. Qed.

(** Symbolic execution, up to the next case distinction. *)
Ltac wp_step :=
  match goal with
  | |- wp (bind _ _) _ _ => apply wp_bind
  | |- wp (ret _) _ _ => apply wp_ret
  | |- wp (reading _) _ _ => apply wp_reading
  | |- wp get_run _ _ => apply wp_get_run
  | |- wp get_status _ _ => apply wp_get_status
  | |- wp (set_run _) _ _ => apply wp_set_run
  | |- wp (set_status _) _ _ => apply wp_set_status
  | |- wp (emit _) _ _ => apply wp_emit
  | |- wp (update_run_status _) _ _ => apply wp_update_run_status
  end; cbv beta.

Ltac wp_steps := repeat wp_step.
