(* ===== verification/Reconciler.v ===== *)
(** pkg/reconciler/taskgroup/taskgroup.go: the reconciler of the Runs that
    refer to a TaskGroup, with the parts of Tekton it calls (the task
    reference resolver, the name generator, the events and the filters of the
    informers, which controller.go installs). *)
From S2P Require Import Prelude GoStrings FieldErrors Types Substitution StepMerge Resolve.
From S2P Require Import Validation Conditions RunTypes Listers Cluster.
From Stdlib Require Import Ascii.

(** ** Constants *)

(** pkg/apis/taskgroup: [GroupName], [TaskGroupControllerName] and
    [SchemeGroupVersion.String()] *)
Definition GroupName : string := "custom.tekton.dev".
Definition TaskGroupControllerName : string := "TaskGroup".
Definition SchemeGroupVersion : string := GroupName +:+ "/" +:+ "v1alpha1".

Definition taskGroupLabelKey : string := "/taskGroup".
Definition taskGroupRunLabelKey : string := "/run".

(** pipeline's [GroupName], [SchemeGroupVersion] of v1alpha1 and [RunControllerName] *)
Definition pipeline_GroupName : string := "tekton.dev".
Definition pipeline_SchemeGroupVersion : string := pipeline_GroupName +:+ "/v1alpha1".
Definition RunControllerName : string := "Run".

(** ** Labels and annotations *)

(** [func getTaskRunAnnotations(run *v1alpha1.Run) map[string]string] *)
Definition getTaskRunAnnotations (run : Run) : gmap string string :=
  entries (ObjectMeta_Annotations (Run_ObjectMeta run)).

(** [func getTaskRunLabels(run *v1alpha1.Run, includeRunLabels bool) map[string]string] *)
Definition getTaskRunLabels (run : Run) (includeRunLabels : bool) : gmap string string :=
  let labels := if includeRunLabels then entries (ObjectMeta_Labels (Run_ObjectMeta run)) else ∅ in
  <[pipeline_GroupName +:+ taskGroupRunLabelKey := ObjectMeta_Name (Run_ObjectMeta run)]> labels.

(** [func propagateTaskGroupLabelsAndAnnotations(run, taskGroupMeta)]: the
    entries of the TaskGroup overwrite those of the Run. *)
Definition propagateTaskGroupLabelsAndAnnotations (run : Run) (taskGroupMeta : ObjectMeta) : Run :=
  let m := Run_ObjectMeta run in
  let labels := entries (ObjectMeta_Labels taskGroupMeta) ∪ entries (ObjectMeta_Labels m) in
  let labels := <[GroupName +:+ taskGroupLabelKey := ObjectMeta_Name taskGroupMeta]> labels in
  let annotations := entries (ObjectMeta_Annotations taskGroupMeta) ∪ entries (ObjectMeta_Annotations m) in
  set_Run_ObjectMeta (set_Labels_Annotations (Some labels) (Some annotations) m) run.

(** [func storeTaskGroupSpec(status, tls)] *)
Definition storeTaskGroupSpec (status : TaskGroupRunStatus) (tls : V1alpha1.TaskGroupSpec) :
    TaskGroupRunStatus :=
  match TaskGroupRunStatus_TaskGroupSpec status with
  | None => {| TaskGroupRunStatus_TaskGroupSpec := Some tls;
               TaskGroupRunStatus_TaskRun := TaskGroupRunStatus_TaskRun status |}
  | Some _ => status
  end.

(** ** Names *)
Definition maxNameLength : nat := 63.
Definition randomLength : nat := 5.
Definition maxGeneratedNameLength : nat := maxNameLength - randomLength - 1.

(** [base[:n]] *)
Fixpoint take_bytes (n : nat) (s : string) : string :=
  match n, s with
  | S n, String c s => String c (take_bytes n s)
  | _, _ => ""
  end.

(** [RestrictLengthWithRandomSuffix(base)], with the random suffix *)
Definition RestrictLengthWithRandomSuffix (base suffix : string) : string :=
  let base := if bool_decide (maxGeneratedNameLength < String.length base)
              then take_bytes maxGeneratedNameLength base else base in
  base +:+ "-" +:+ suffix.

(** [kmeta.NewControllerRef(run)] *)
Definition NewControllerRef (run : Run) : OwnerReference := {|
  OwnerReference_APIVersion := pipeline_SchemeGroupVersion;
  OwnerReference_Kind := RunControllerName;
  OwnerReference_Name := ObjectMeta_Name (Run_ObjectMeta run);
  OwnerReference_UID := ObjectMeta_UID (Run_ObjectMeta run);
  OwnerReference_Controller := Some true;
  OwnerReference_BlockOwnerDeletion := Some true |}.

(** ** Defaults of a fetched task (v1beta1/param_types.go, task_defaults.go) *)

(** [func (pp *ParamSpec) SetDefaults(ctx context.Context)] *)
Definition ParamSpec_SetDefaults (pp : V1beta1.ParamSpec) : V1beta1.ParamSpec :=
  if bool_decide (V1beta1.ParamSpec_Type pp = "")
  then
    let type :=
      match V1beta1.ParamSpec_Default pp with
      | Some d =>
        if bool_decide (V1beta1.ArrayOrString_Type d ≠ "") then V1beta1.ArrayOrString_Type d
        else match V1beta1.ArrayOrString_ArrayVal d with
             | Some _ => V1beta1.ParamTypeArray
             | None => V1beta1.ParamTypeString
             end
      | None => V1beta1.ParamTypeString
      end in
    {| V1beta1.ParamSpec_Name := V1beta1.ParamSpec_Name pp; V1beta1.ParamSpec_Type := type;
       V1beta1.ParamSpec_Description := V1beta1.ParamSpec_Description pp;
       V1beta1.ParamSpec_Default := V1beta1.ParamSpec_Default pp |}
  else pp.

(** [func (ts *TaskSpec) SetDefaults(ctx context.Context)] *)
Definition TaskSpec_SetDefaults (ts : V1beta1.TaskSpec) : V1beta1.TaskSpec :=
  set_Params (map ParamSpec_SetDefaults (V1beta1.TaskSpec_Params ts)) ts.

(** ** The filters of the informers (pipeline/pkg/controller/filter.go) *)

(** The API version and kind a Run refers to. *)
Definition referenced (run : Run) : string * string :=
  match RunSpec_Ref (Run_Spec run), RunSpec_Spec (Run_Spec run) with
  | Some ref, _ => (V1beta1.TaskRef_APIVersion ref, V1beta1.TaskRef_Kind ref)
  | None, Some spec => (EmbeddedRunSpec_APIVersion spec, EmbeddedRunSpec_Kind spec)
  | None, None => ("", "")
  end.

(** [FilterRunRef(apiVersion, kind)], of a Run *)
Definition FilterRunRef (apiVersion kind : string) (r : Run) : bool :=
  match RunSpec_Ref (Run_Spec r), RunSpec_Spec (Run_Spec r) with
  | None, None => false
  | Some ref, _ => bool_decide (V1beta1.TaskRef_APIVersion ref = apiVersion) &&
                   bool_decide (V1beta1.TaskRef_Kind ref = kind)
  | None, Some spec => bool_decide (EmbeddedRunSpec_APIVersion spec = apiVersion) &&
                       bool_decide (EmbeddedRunSpec_Kind spec = kind)
  end.

(** [FilterOwnerRunRef(runLister, apiVersion, kind)], of an object, given the
    lister's answer for a namespace and name *)
Definition FilterOwnerRunRef (Runs_Get : string → string → fallible Run) (apiVersion kind : string)
    (object : ObjectMeta) : bool :=
  match GetControllerOf object with
  | None => false
  | Some owner =>
    if bool_decide (OwnerReference_APIVersion owner ≠ pipeline_SchemeGroupVersion) ||
       bool_decide (OwnerReference_Kind owner ≠ RunControllerName)
    then false
    else
      match Runs_Get (ObjectMeta_Namespace object) (OwnerReference_Name owner) with
      | inl _ => false
      | inr run =>
        match RunSpec_Ref (Run_Spec run), RunSpec_Spec (Run_Spec run) with
        | None, None => false
        | Some _, Some _ => false
        | Some ref, None => bool_decide (V1beta1.TaskRef_APIVersion ref = apiVersion) &&
                            bool_decide (V1beta1.TaskRef_Kind ref = kind)
        | None, Some spec => bool_decide (EmbeddedRunSpec_APIVersion spec = apiVersion) &&
                             bool_decide (EmbeddedRunSpec_Kind spec = kind)
        end
      end
  end.

Section reconciler.
Context {MO : MapOrder} {CM : ContainerMerge} {CL : Cluster}.

(** ** Events (pipeline/pkg/reconciler/events/event.go) *)

Definition sendKubernetesEvents (beforeCondition afterCondition : option Condition) : M unit :=
  match afterCondition with
  | Some after =>
    if negb (SemanticDeepEqual beforeCondition afterCondition) then
      if bool_decide (Condition_Status after = ConditionTrue)
      then emit (KubeEvent "Normal" "Succeeded" (Condition_Message after))
      else if bool_decide (Condition_Status after = ConditionFalse)
      then emit (KubeEvent "Warning" "Failed" (Condition_Message after))
      else if bool_decide (Condition_Status after = ConditionUnknown)
      then match beforeCondition with
           | None => emit (KubeEvent "Normal" "Started" "")
           | Some _ => emit (KubeEvent "Normal" (Condition_Reason after) (Condition_Message after))
           end
      else ret tt
    else ret tt
  | None => ret tt
  end.

(** [func Emit(ctx, beforeCondition, afterCondition *apis.Condition, object)] *)
Definition Emit (beforeCondition afterCondition : option Condition) : M unit :=
  do! sendKubernetesEvents beforeCondition afterCondition in
  if bool_decide (DefaultCloudEventsSink ≠ "") && negb (SemanticDeepEqual beforeCondition afterCondition)
  then emit CloudEvent
  else ret tt.

(** ** Status marks, with a reading of the clock *)
Definition markRunFailed (reason : V1alpha1.TaskGroupRunReason) (message : string) : M unit :=
  let! t := reading now in update_run_status (MarkRunFailed t (V1alpha1.reason_String reason) message).

Definition markRunSucceeded (reason : V1alpha1.TaskGroupRunReason) (message : string) : M unit :=
  let! t := reading now in update_run_status (MarkRunSucceeded t (V1alpha1.reason_String reason) message).

Definition markRunRunning (reason : V1alpha1.TaskGroupRunReason) (message : string) : M unit :=
  let! t := reading now in update_run_status (MarkRunRunning t (V1alpha1.reason_String reason) message).

(** [fmt.Sprintf("%s/%s", meta.Namespace, meta.Name)] *)
Definition namespaced (m : ObjectMeta) : string := ObjectMeta_Namespace m +:+ "/" +:+ ObjectMeta_Name m.

(** ** The TaskGroup of a Run *)

(** The error branch of [getTaskGroup]. *)
Definition couldntGetTaskGroup (run : Run) (err : error) : M (fallible (ObjectMeta * V1alpha1.TaskGroupSpec)) :=
  let name := namespaced (Run_ObjectMeta run) in
  do! markRunFailed V1alpha1.TaskGroupRunReasonCouldntGetTaskGroup
        ("Error retrieving TaskGroup for Run " +:+ name +:+ ": " +:+ error_text err) in
  ret (inl (wrapError ("Error retrieving TaskGroup for Run " +:+ name +:+ ": ") err)).

(** [func (c *Reconciler) getTaskGroup(ctx, logger, run)] *)
Definition getTaskGroup : M (fallible (ObjectMeta * V1alpha1.TaskGroupSpec)) :=
  let! run := get_run in
  let refName := match RunSpec_Ref (Run_Spec run) with
                 | Some ref => V1beta1.TaskRef_Name ref
                 | None => ""
                 end in
  if bool_decide (refName ≠ "") then
    let! tl := reading (λ n, TaskGroups_Get n (ObjectMeta_Namespace (Run_ObjectMeta run)) refName) in
    match tl with
    | inl err => couldntGetTaskGroup run err
    | inr tl => ret (inr (TaskGroup_ObjectMeta tl, TaskGroup_Spec tl))
    end
  else
    match RunSpec_Spec (Run_Spec run) with
    | Some embedded =>
      match decode_TaskGroupSpec (EmbeddedRunSpec_Spec embedded) with
      | inl err => couldntGetTaskGroup run err
      | inr spec => ret (inr (zero_ObjectMeta, spec))
      end
    | None => ret (inr (zero_ObjectMeta, V1alpha1.zero_TaskGroupSpec))
    end.

(** ** The tasks the steps use (taskrun/resources/taskref.go, taskspec.go) *)

Definition NamespacedTaskKind : string := "Task".
Definition ClusterTaskKind : string := "ClusterTask".

(** [func (l *LocalTaskRefResolver) GetTask(ctx, name string)] *)
Definition LocalTaskRefResolver_GetTask (namespace kind name : string) : M (fallible V1beta1.TaskSpec) :=
  if bool_decide (kind = ClusterTaskKind) then reading (λ n, ClusterTasks_Get n name)
  else if bool_decide (namespace = "")
  then ret (inl (errorString ("must specify namespace to resolve reference to task " +:+ name)))
  else reading (λ n, Tasks_Get n namespace name).

(** [func GetTaskFunc(ctx, k8s, tekton, tr *TaskRef, namespace, saName string) (GetTask, error)],
    which returns no error *)
Definition GetTaskFunc (tr : V1beta1.TaskRef) (namespace saName : string) :
    string → M (fallible V1beta1.TaskSpec) :=
  let kind := if bool_decide (V1beta1.TaskRef_Kind tr ≠ "") then V1beta1.TaskRef_Kind tr
              else NamespacedTaskKind in
  if EnableTektonOCIBundles && bool_decide (V1beta1.TaskRef_Bundle tr ≠ "")
  then λ name, reading (λ n, Bundles_Get n (V1beta1.TaskRef_Bundle tr) kind name namespace saName)
  else λ name, LocalTaskRefResolver_GetTask namespace kind name.

(** [func GetTaskData(ctx, taskRun, getTask)], of a TaskRun without a name
    and with only a task reference *)
Definition GetTaskData (taskRef : V1beta1.TaskRef) (getTask : string → M (fallible V1beta1.TaskSpec)) :
    M (fallible V1beta1.TaskSpec) :=
  if bool_decide (V1beta1.TaskRef_Name taskRef ≠ "") then
    let! t := getTask (V1beta1.TaskRef_Name taskRef) in
    match t with
    | inl err => ret (inl (wrapError "error when listing tasks for taskRun : " err))
    | inr taskSpec => ret (inr (TaskSpec_SetDefaults taskSpec))
    end
  else ret (inl (errorString "taskRun  not providing TaskRef or TaskSpec")).

Definition errEtcdLeaderChange : string := "etcdserver: leader changed".

(** [func IsGetTaskErrTransient(err error) bool] *)
Definition IsGetTaskErrTransient (err : error) : bool := Contains (error_text err) errEtcdLeaderChange.

(** The loop of [fetchUsesTaskSpec]. *)
Fixpoint fetchUsesTaskSpec_loop (namespace saName : string) (i : nat) (steps : list V1alpha1.Step)
    (taskSpecs : gmap nat V1beta1.TaskSpec) : M (fallible (gmap nat V1beta1.TaskSpec)) :=
  match steps with
  | [] => ret (inr taskSpecs)
  | step :: steps =>
    match V1alpha1.Step_Uses step with
    | None => fetchUsesTaskSpec_loop namespace saName (i + 1) steps taskSpecs
    | Some uses =>
      let taskRef := V1alpha1.Uses_TaskRef uses in
      let! taskSpec := GetTaskData taskRef (GetTaskFunc taskRef namespace saName) in
      match taskSpec with
      | inl err => ret (inl (if IsGetTaskErrTransient err then err else permanentError err))
      | inr taskSpec =>
        fetchUsesTaskSpec_loop namespace saName (i + 1) steps (<[i := taskSpec]> taskSpecs)
      end
    end
  end.

(** [func (c *Reconciler) fetchUsesTaskSpec(ctx, logger, spec, run)] *)
Definition fetchUsesTaskSpec (spec : V1alpha1.TaskGroupSpec) : M (fallible (gmap nat V1beta1.TaskSpec)) :=
  let! run := get_run in
  fetchUsesTaskSpec_loop (ObjectMeta_Namespace (Run_ObjectMeta run)) (RunSpec_ServiceAccountName (Run_Spec run))
    0 (V1alpha1.TaskGroupSpec_Steps spec) ∅.

(** ** The TaskRun of a Run *)

(** The TaskRun that [createTaskRun] builds. *)
Definition newTaskRun (run : Run) (suffix : string) (taskSpec : V1beta1.TaskSpec) : TaskRun := {|
  TaskRun_ObjectMeta := {|
    ObjectMeta_Name := RestrictLengthWithRandomSuffix (ObjectMeta_Name (Run_ObjectMeta run)) suffix;
    ObjectMeta_Namespace := ObjectMeta_Namespace (Run_ObjectMeta run);
    ObjectMeta_UID := ""; ObjectMeta_ResourceVersion := ""; ObjectMeta_Generation := 0;
    ObjectMeta_CreationTimestamp := zero_time; ObjectMeta_DeletionTimestamp := None;
    ObjectMeta_Labels := Some (getTaskRunLabels run true);
    ObjectMeta_Annotations := Some (getTaskRunAnnotations run);
    ObjectMeta_OwnerReferences := [NewControllerRef run];
    ObjectMeta_Other := JObj [] |};
  TaskRun_Spec := {|
    TaskRunSpec_Debug := None; TaskRunSpec_Params := RunSpec_Params (Run_Spec run);
    TaskRunSpec_Resources := None;
    TaskRunSpec_ServiceAccountName := RunSpec_ServiceAccountName (Run_Spec run);
    TaskRunSpec_TaskRef := None; TaskRunSpec_TaskSpec := Some taskSpec; TaskRunSpec_Status := "";
    TaskRunSpec_Timeout := None; TaskRunSpec_PodTemplate := RunSpec_PodTemplate (Run_Spec run);
    TaskRunSpec_Workspaces := RunSpec_Workspaces (Run_Spec run);
    TaskRunSpec_StepOverrides := []; TaskRunSpec_SidecarOverrides := [] |};
  TaskRun_Status := {| TaskRunStatus_Conditions := []; TaskRunStatus_Other := JObj [] |} |}.

(** [func (c *Reconciler) createTaskRun(ctx, logger, spec, run)] *)
Definition createTaskRun (spec : V1alpha1.TaskGroupSpec) : M (fallible TaskRun) :=
  let! usedTaskSpecs := fetchUsesTaskSpec spec in
  match usedTaskSpecs with
  | inl err => ret (inl err)
  | inr usedTaskSpecs =>
    match resolveTaskSpec spec usedTaskSpecs with
    | (_, Some err) => ret (inl err)
    | (taskSpec, None) =>
      let! run := get_run in
      let! suffix := reading (λ n, rand_String n randomLength) in
      let tr := newTaskRun run suffix taskSpec in
      let namespace := ObjectMeta_Namespace (Run_ObjectMeta run) in
      do! emit (CreateTaskRun namespace tr) in
      reading (λ n, TaskRuns_Create n namespace tr)
    end
  end.

(** [func (c *Reconciler) processTaskRun(ctx, logger, tr, run, status, taskGroupSpec) error] *)
Definition processTaskRun (tr : TaskRun) : M (option error) :=
  let! run := get_run in
  if negb (TaskRun_IsDone tr) && Run_IsCancelled run && negb (TaskRun_IsCancelled tr) then
    let namespace := ObjectMeta_Namespace (Run_ObjectMeta run) in
    let name := ObjectMeta_Name (TaskRun_ObjectMeta tr) in
    do! emit (CancelTaskRun namespace name) in
    let! err := reading (λ n, TaskRuns_Patch n namespace name) in
    match err with
    | Some err => ret (Some (errorString ("Failed to patch TaskRun `" +:+ name +:+ "` with cancellation: " +:+ error_text err)))
    | None => ret None
    end
  else ret None.

(** [c.taskRunLister.TaskRuns(namespace).List(selector)]: of all namespaces
    when [namespace] is empty. *)
Definition TaskRuns_List (n : nat) (namespace : string) (ls : gmap string string) : fallible (list TaskRun) :=
  let? cache := TaskRuns_cache n in
  inr (ListAllByNamespace TaskRun_ObjectMeta {| Indexer_objects := cache; Indexer_by_namespace := true |} namespace ls).

(** [func (c *Reconciler) updateTaskRunStatus(ctx, logger, run, status, taskGroupSpec)
    (taskRunDone bool, taskRunFailed bool, retryableErr error)] *)
Definition updateTaskRunStatus : M (bool * bool * option error) :=
  let! run := get_run in
  let taskRunLabels := getTaskRunLabels run false in
  let! taskRuns := reading (λ n, TaskRuns_List n (ObjectMeta_Namespace (Run_ObjectMeta run)) taskRunLabels) in
  match taskRuns with
  | inl err => ret (false, false, Some (errorString ("could not list TaskRuns " +:+ GoSyntax err)))
  | inr [] => ret (false, false, None)
  | inr (_ :: _ :: _) => ret (false, false, Some (errorString "Multiple taskRuns, this is a problem"))
  | inr [tr] =>
    let! status := get_status in
    do! set_status (set_Status_TaskRun (TaskRun_Status tr) status) in
    let created := ObjectMeta_CreationTimestamp (TaskRun_ObjectMeta tr) in
    do! (if Before (Some created) (RunStatus_CompletionTime (Run_Status run))
         then update_run_status (set_CompletionTime (Some created)) else ret tt) in
    let! err := processTaskRun tr in
    match err with
    | Some err =>
      ret (false, false, Some (errorString ("error processing TaskRun " +:+ ObjectMeta_Name (TaskRun_ObjectMeta tr) +:+
                                            ": " +:+ GoSyntax err)))
    | None => ret (TaskRun_IsDone tr, TaskRun_IsDone tr && negb (TaskRun_IsSuccessful tr), None)
    end
  end.

(** ** The labels and annotations of the Run *)

(** [func (c *Reconciler) updateLabelsAndAnnotations(ctx, run) error] *)
Definition updateLabelsAndAnnotations : M (option error) :=
  let! run := get_run in
  let m := Run_ObjectMeta run in
  let! newRun := reading (λ n, Runs_lister_Get n (ObjectMeta_Namespace m) (ObjectMeta_Name m)) in
  match newRun with
  | inl err =>
    ret (Some (wrapError ("error getting Run " +:+ ObjectMeta_Name m +:+ " when updating labels/annotations: ") err))
  | inr newRun =>
    let new := Run_ObjectMeta newRun in
    if bool_decide (ObjectMeta_Labels m ≠ ObjectMeta_Labels new) ||
       bool_decide (ObjectMeta_Annotations m ≠ ObjectMeta_Annotations new)
    then
      do! emit (PatchRun (ObjectMeta_Namespace m) (ObjectMeta_Name m) (ObjectMeta_Labels m) (ObjectMeta_Annotations m)) in
      reading (λ n, Runs_Patch n (ObjectMeta_Namespace m) (ObjectMeta_Name m) (ObjectMeta_Labels m) (ObjectMeta_Annotations m))
    else ret None
  end.

(** ** The reconciliation *)

(** [func (c *Reconciler) reconcile(ctx, run, status) error] *)
Definition reconcile : M (option error) :=
  let! taskGroup := getTaskGroup in
  match taskGroup with
  | inl err => ret (Some err)
  | inr (taskGroupMeta, taskGroupSpec) =>
    let! status := get_status in
    do! set_status (storeTaskGroupSpec status taskGroupSpec) in
    let! run := get_run in
    do! set_run (propagateTaskGroupLabelsAndAnnotations run taskGroupMeta) in
    match TaskGroupSpec_Validate taskGroupSpec with
    | Some err =>
      do! markRunFailed V1alpha1.TaskGroupRunReasonFailedValidation
            ("TaskGroup " +:+ namespaced taskGroupMeta +:+ " can't be Run; it has an invalid spec: " +:+ Error (Some err)) in
      ret None
    | None =>
      let! r := updateTaskRunStatus in
      match r with
      | (_, _, Some err) =>
        ret (Some (wrapError ("error updating TaskRun status for Run " +:+ namespaced (Run_ObjectMeta run) +:+ ": ") err))
      | (true, true, None) =>
        do! markRunFailed V1alpha1.TaskGroupRunReasonFailed "TaskRun failed" in ret None
      | (true, false, None) =>
        do! markRunSucceeded V1alpha1.TaskGroupRunReasonSucceeded "TaskRun succeeded" in ret None
      | (false, _, None) =>
        do! markRunRunning V1alpha1.TaskGroupRunReasonRunning (ObjectMeta_Name (Run_ObjectMeta run) +:+ " running") in
        let! status := get_status in
        match TaskGroupRunStatus_TaskRun status with
        | Some _ => ret None
        | None =>
          let! tr := createTaskRun taskGroupSpec in
          match tr with
          | inl err =>
            do! markRunFailed V1alpha1.TaskGroupRunReasonFailedValidation
                  ("TaskGroup " +:+ namespaced taskGroupMeta +:+ " can't be Run; failed to create TaskRun: " +:+ error_text err) in
            ret None
          | inr tr =>
            let! status := get_status in
            do! set_status (set_Status_TaskRun (TaskRun_Status tr) status) in
            ret None
          end
        end
      end
    end
  end.

(** The start of a Run: its conditions, its start time and the first event. *)
Definition startRun : M unit :=
  let! now1 := reading now in
  let! now2 := reading now in
  let! now3 := reading now in
  do! update_run_status (RunStatus_InitializeConditions now1 now2 now3) in
  let! run := get_run in
  let created := ObjectMeta_CreationTimestamp (Run_ObjectMeta run) in
  do! (if bool_decide (Sub (default zero_time (RunStatus_StartTime (Run_Status run))) created < 0)%Z
       then update_run_status (set_StartTime (Some created)) else ret tt) in
  let! run := get_run in
  Emit None (Succeeded (Run_Status run)).

(** [func (r *RunStatus) DecodeExtraFields(into interface{}) error] *)
Definition DecodeExtraFields (r : RunStatus) (into : TaskGroupRunStatus) : TaskGroupRunStatus * option error :=
  if bool_decide (String.length (RunStatus_ExtraFields r) = 0) then (into, None)
  else decode_status (RunStatus_ExtraFields r) into.

(** The decoding of the extra fields into the new [status]. *)
Definition decodeStatus : M unit :=
  let! run := get_run in
  let! status := get_status in
  let '(status, err) := DecodeExtraFields (Run_Status run) status in
  do! set_status status in
  match err with
  | Some err => markRunFailed V1alpha1.TaskGroupRunReasonInternalError
                  ("Internal error calling DecodeExtraFields: " +:+ error_text err)
  | None => ret tt
  end.

(** The encoding of [status], with [EncodeExtraFields]. *)
Definition encodeStatus : M unit :=
  let! status := get_status in
  match encode_status status with
  | inl err => markRunFailed V1alpha1.TaskGroupRunReasonInternalError
                 ("Internal error calling EncodeExtraFields: " +:+ error_text err)
  | inr raw => update_run_status (set_ExtraFields raw)
  end.

(** The part of [ReconcileKind] after the check that the Run is not done,
    with [status] a new [TaskGroupRunStatus]. *)
Definition reconcileRunning : M (option error) :=
  let! run := get_run in
  let beforeCondition := Succeeded (Run_Status run) in
  do! decodeStatus in
  let! err := reconcile in
  let merr := multierror_Append None <$> err in
  let! err := updateLabelsAndAnnotations in
  let merr := match err with Some err => Some (multierror_Append merr err) | None => merr end in
  do! encodeStatus in
  let! run := get_run in
  do! Emit beforeCondition (Succeeded (Run_Status run)) in
  ret merr.

(** [func (c *Reconciler) ReconcileKind(ctx, run *v1alpha1.Run) pkgreconciler.Event] *)
Definition ReconcileKind : M (option error) :=
  let! run := get_run in
  let '(apiVersion, kind) := referenced run in
  if bool_decide (apiVersion ≠ SchemeGroupVersion) || bool_decide (kind ≠ TaskGroupControllerName)
  then ret None
  else
    do! (if negb (Run_HasStarted run) then startRun else ret tt) in
    let! run := get_run in
    if Run_IsDone run then ret None else reconcileRunning.

(** One reconciliation of a Run. *)
Definition Reconcile (run : Run) (start : nat) : option error * State :=
  ReconcileKind {| run := run; status := zero_TaskGroupRunStatus; tick := start; trace := [] |}.

End reconciler.

(** ** The owner of a TaskRun *)

(** The metadata of the TaskRun of a Run leads back to the Run. *)
Lemma newTaskRun_controller r suffix ts : GetControllerOf (TaskRun_ObjectMeta (newTaskRun r suffix ts)) = Some (NewControllerRef r).
Proof. unfold GetControllerOf. change (ObjectMeta_OwnerReferences _) with [NewControllerRef r]. by rewrite filter_cons_True. Qed.

(** What a TaskRun that the reconciler made for a Run keeps on the API server,
    which gives it a uid, a version and times, and lets others add labels and
    annotations: where it is, who controls it, and its labels. *)
Record made_for (r : Run) (m : ObjectMeta) : Prop := {
  made_namespace : ObjectMeta_Namespace m = ObjectMeta_Namespace (Run_ObjectMeta r);
  made_controller : GetControllerOf m = Some (NewControllerRef r);
  made_labels : getTaskRunLabels r true ⊆ entries (ObjectMeta_Labels m)
}.

Lemma newTaskRun_made_for r suffix ts : made_for r (TaskRun_ObjectMeta (newTaskRun r suffix ts)).
Proof. split; [done|apply newTaskRun_controller|done]. Qed.

(** The filter maps an object that a Run controls to what the Run refers to,
    unless the Run has both a reference and an embedded spec. *)
Lemma FilterOwnerRunRef_controlled Runs_Get apiVersion kind m r :
  GetControllerOf m = Some (NewControllerRef r) →
  Runs_Get (ObjectMeta_Namespace m) (ObjectMeta_Name (Run_ObjectMeta r)) = inr r →
  FilterOwnerRunRef Runs_Get apiVersion kind m =
    FilterRunRef apiVersion kind r &&
    negb (bool_decide (is_Some (RunSpec_Ref (Run_Spec r))) && bool_decide (is_Some (RunSpec_Spec (Run_Spec r)))).
Proof.
  intros Hc Hget. unfold FilterOwnerRunRef. rewrite Hc.
  cbn [OwnerReference_APIVersion OwnerReference_Kind OwnerReference_Name NewControllerRef].
  rewrite !bool_decide_false by (intros H; by apply H). cbn [orb]. rewrite Hget. unfold FilterRunRef.
  destruct (RunSpec_Ref (Run_Spec r)), (RunSpec_Spec (Run_Spec r)); cbn;
    rewrite ?(bool_decide_true (is_Some (Some _))) by (by eexists);
    rewrite ?(bool_decide_false (is_Some None)) by (by intros [? ?]); by rewrite ?andb_true_r, ?andb_false_r.
Qed.
