(* ===== verification/Progress.v ===== *)
(** Every method of the reconciler makes progress: the number of readings of
    the outside world only grows, and no effect is withdrawn. *)
From S2P Require Import Prelude GoStrings FieldErrors Types Substitution StepMerge Resolve.
From S2P Require Import Validation Conditions RunTypes Listers Cluster Reconciler.

(** [s'] is later than [s]. *)
Definition later (s s' : State) : Prop := tick s ≤ tick s' ∧ trace s `prefix_of` trace s'.

#[export] Instance later_preorder : PreOrder later.
Proof.
  split; [by intros s|]. intros s1 s2 s3 [? ?] [? ?]. split; [lia|]. by etrans.
Qed.

Class Progress {A} (m : M A) : Prop := progress s : later s (m s).2.

Create HintDb progress.

Section combinators.
Context {A B : Type}.
Implicit Types (m : M A) (k : A → M B).

Lemma progress_ret (a : A) : Progress (ret a).
Proof. intros s. reflexivity. Qed.

Lemma progress_bind m k : Progress m → (∀ a, Progress (k a)) → Progress (bind m k).
Proof.
  intros Hm Hk s. unfold bind. specialize (Hm s). destruct (m s) as [a s']. cbn in Hm. etrans; [exact Hm|]. apply Hk.
Qed.

Lemma progress_reading (f : nat → A) : Progress (reading f).
Proof. intros s. split; [cbn; lia|done]. Qed.
End combinators.

Lemma progress_get_run : Progress get_run.
Proof. intros s. reflexivity. Qed.
Lemma progress_get_status : Progress get_status.
Proof. intros s. reflexivity. Qed.
Lemma progress_set_run r : Progress (set_run r).
Proof. intros s. split; [cbn; lia|done]. Qed.
Lemma progress_set_status st : Progress (set_status st).
Proof. intros s. split; [cbn; lia|done]. Qed.
Lemma progress_emit e : Progress (emit e).
Proof. intros s. split; [cbn; lia|]. by apply prefix_app_r. Qed.
Lemma progress_update_run_status f : Progress (update_run_status f).
Proof. intros s. split; [cbn; lia|done]. Qed.

#[export] Hint Resolve progress_ret progress_reading progress_get_run progress_get_status progress_set_run
  progress_set_status progress_emit progress_update_run_status : progress.

(** Follows the method, up to the methods it calls. *)
Ltac progress_steps :=
  repeat first
    [ progress eauto with progress
    | solve [eauto with progress]
    | apply progress_bind; [|intros ?]
    | lazymatch goal with |- Progress (match ?x with _ => _ end) => destruct x end
    | progress cbv zeta ].

Section reconciler.
Context {MO : MapOrder} {CM : ContainerMerge} {CL : Cluster}.

Lemma progress_Emit before after : Progress (Emit before after).
Proof. unfold Emit, sendKubernetesEvents. progress_steps. Qed.
Lemma progress_marks reason message :
  Progress (markRunFailed reason message) ∧ Progress (markRunSucceeded reason message) ∧ Progress (markRunRunning reason message).
Proof. unfold markRunFailed, markRunSucceeded, markRunRunning. split_and!; progress_steps. Qed.
Lemma progress_markRunFailed reason message : Progress (markRunFailed reason message).
Proof. apply progress_marks. Qed.
Lemma progress_markRunSucceeded reason message : Progress (markRunSucceeded reason message).
Proof. apply progress_marks. Qed.
Lemma progress_markRunRunning reason message : Progress (markRunRunning reason message).
Proof. apply progress_marks. Qed.
#[local] Hint Resolve progress_Emit progress_markRunFailed progress_markRunSucceeded progress_markRunRunning : progress.

Lemma progress_getTaskGroup : Progress getTaskGroup.
Proof. unfold getTaskGroup, couldntGetTaskGroup. progress_steps. Qed.

Lemma progress_GetTaskFunc ref ns sa name : Progress (GetTaskFunc ref ns sa name).
Proof. unfold GetTaskFunc, LocalTaskRefResolver_GetTask. destruct (_ && bool_decide (V1beta1.TaskRef_Bundle ref ≠ "")); progress_steps. Qed.

Lemma progress_GetTaskData ref getTask : (∀ name, Progress (getTask name)) → Progress (GetTaskData ref getTask).
Proof. intros H. unfold GetTaskData. progress_steps. Qed.

Lemma progress_fetchUsesTaskSpec_loop ns sa i steps used : Progress (fetchUsesTaskSpec_loop ns sa i steps used).
Proof.
  revert i used. induction steps as [|step steps IH]; intros i used; cbn [fetchUsesTaskSpec_loop]; [progress_steps|].
  destruct (V1alpha1.Step_Uses step); [|apply IH]. apply progress_bind; [|intros []; [progress_steps|apply IH]].
  apply progress_GetTaskData. intros ?. apply progress_GetTaskFunc.
Qed.

Lemma progress_createTaskRun spec : Progress (createTaskRun spec).
Proof.
  unfold createTaskRun, fetchUsesTaskSpec. pose proof progress_fetchUsesTaskSpec_loop. progress_steps.
Qed.

Lemma progress_updateTaskRunStatus : Progress updateTaskRunStatus.
Proof. unfold updateTaskRunStatus, processTaskRun. progress_steps. Qed.

Lemma progress_updateLabelsAndAnnotations : Progress updateLabelsAndAnnotations.
Proof. unfold updateLabelsAndAnnotations. progress_steps. Qed.

#[local] Hint Resolve progress_getTaskGroup progress_createTaskRun progress_updateTaskRunStatus
  progress_updateLabelsAndAnnotations : progress.

Lemma progress_reconcile : Progress reconcile.
Proof. unfold reconcile. progress_steps. Qed.
#[local] Hint Resolve progress_reconcile : progress.

Lemma progress_ReconcileKind : Progress ReconcileKind.
Proof. unfold ReconcileKind, reconcileRunning, startRun, decodeStatus, encodeStatus. progress_steps. Qed.
End reconciler.

#[export] Hint Resolve progress_ReconcileKind progress_Emit : progress.
