(* ===== verification/ReconcilerSpec.v ===== *)
(** What one reconciliation of a Run does: an abstract [verdict] on the Run,
    reached from what the controller finds in the cluster, and the effect of
    a verdict on the Run's condition, its record and the cluster.
    [reconcile_verdict] is the refinement: the method [reconcile] reaches a
    verdict and realizes it. *)
From S2P Require Import Prelude GoStrings FieldErrors Types Substitution StepMerge Resolve.
From S2P Require Import Validation Conditions RunTypes Listers Cluster Reconciler.

Section spec.
Context {MO : MapOrder} {CM : ContainerMerge} {CL : Cluster}.

(** ** What the controller finds *)

(** The name of the TaskGroup a Run refers to, if it has a reference. *)
Definition refName (r : Run) : string :=
  match RunSpec_Ref (Run_Spec r) with Some ref => V1beta1.TaskRef_Name ref | None => "" end.

Definition namespace (r : Run) : string := ObjectMeta_Namespace (Run_ObjectMeta r).

(** The TaskGroup, from the cluster or embedded in the Run. *)
Definition fetched (s : State) : fallible (ObjectMeta * V1alpha1.TaskGroupSpec) :=
  if bool_decide (refName (run s) ≠ "") then
    let? tg := TaskGroups_Get (tick s) (namespace (run s)) (refName (run s)) in
    inr (TaskGroup_ObjectMeta tg, TaskGroup_Spec tg)
  else
    match RunSpec_Spec (Run_Spec (run s)) with
    | Some embedded =>
      let? spec := decode_TaskGroupSpec (EmbeddedRunSpec_Spec embedded) in inr (zero_ObjectMeta, spec)
    | None => inr (zero_ObjectMeta, V1alpha1.zero_TaskGroupSpec)
    end.

(** The number of readings when the TaskRuns are listed. *)
Definition list_tick (s : State) : nat := if bool_decide (refName (run s) ≠ "") then S (tick s) else tick s.

(** The TaskRuns of the Run. *)
Definition found (s : State) : fallible (list TaskRun) :=
  TaskRuns_List (list_tick s) (namespace (run s)) (getTaskRunLabels (run s) false).

(** The TaskRun is to be cancelled, and what comes of it. *)
Definition to_cancel (r : Run) (tr : TaskRun) : bool :=
  negb (TaskRun_IsDone tr) && Run_IsCancelled r && negb (TaskRun_IsCancelled tr).

Definition cancel_effects (r : Run) (tr : TaskRun) : list effect :=
  if to_cancel r tr then [CancelTaskRun (namespace r) (ObjectMeta_Name (TaskRun_ObjectMeta tr))] else [].

Definition cancel_error (s : State) (tr : TaskRun) : option error :=
  if to_cancel (run s) tr
  then TaskRuns_Patch (S (list_tick s)) (namespace (run s)) (ObjectMeta_Name (TaskRun_ObjectMeta tr))
  else None.

(** ** The creation of a TaskRun *)

(** The task a [uses] refers to, at some reading. *)
Definition task_of (n : nat) (r : Run) (ref : V1beta1.TaskRef) : fallible V1beta1.TaskSpec :=
  let kind := if bool_decide (V1beta1.TaskRef_Kind ref ≠ "") then V1beta1.TaskRef_Kind ref
              else NamespacedTaskKind in
  let name := V1beta1.TaskRef_Name ref in
  if EnableTektonOCIBundles && bool_decide (V1beta1.TaskRef_Bundle ref ≠ "")
  then Bundles_Get n (V1beta1.TaskRef_Bundle ref) kind name (namespace r) (RunSpec_ServiceAccountName (Run_Spec r))
  else if bool_decide (kind = ClusterTaskKind) then ClusterTasks_Get n name
  else if bool_decide (namespace r = "")
  then inl (errorString ("must specify namespace to resolve reference to task " +:+ name))
  else Tasks_Get n (namespace r) name.

(** The tasks of the steps from index [i] on, each with its defaults. *)
Inductive uses_fetched (r : Run) : nat → list V1alpha1.Step → gmap nat V1beta1.TaskSpec →
    gmap nat V1beta1.TaskSpec → Prop :=
  | uses_fetched_nil i used : uses_fetched r i [] used used
  | uses_fetched_own i step steps used used' :
      V1alpha1.Step_Uses step = None →
      uses_fetched r (i + 1) steps used used' →
      uses_fetched r i (step :: steps) used used'
  | uses_fetched_use i step steps u n t used used' :
      V1alpha1.Step_Uses step = Some u →
      V1beta1.TaskRef_Name (V1alpha1.Uses_TaskRef u) ≠ "" →
      task_of n r (V1alpha1.Uses_TaskRef u) = inr t →
      uses_fetched r (i + 1) steps (<[i := TaskSpec_SetDefaults t]> used) used' →
      uses_fetched r i (step :: steps) used used'.

(** The error of the first step whose task is not found. *)
Definition fetch_error (n : nat) (r : Run) (ref : V1beta1.TaskRef) (err : error) : Prop :=
  ∃ e, (if bool_decide (V1beta1.TaskRef_Name ref ≠ "")
        then ∃ e', task_of n r ref = inl e' ∧ e = wrapError "error when listing tasks for taskRun : " e'
        else e = errorString "taskRun  not providing TaskRef or TaskSpec") ∧
    err = if IsGetTaskErrTransient e then e else permanentError e.

Inductive creates (r : Run) (spec : V1alpha1.TaskGroupSpec) : fallible TaskRun → list effect → Prop :=
  | creates_no_task before step after u n used err :
      V1alpha1.TaskGroupSpec_Steps spec = before ++ step :: after →
      uses_fetched r 0 before ∅ used →
      V1alpha1.Step_Uses step = Some u →
      fetch_error n r (V1alpha1.Uses_TaskRef u) err →
      creates r spec (inl err) []
  | creates_unresolved used ts err :
      uses_fetched r 0 (V1alpha1.TaskGroupSpec_Steps spec) ∅ used →
      resolveTaskSpec spec used = (ts, Some err) →
      creates r spec (inl err) []
  | creates_request used ts n m :
      uses_fetched r 0 (V1alpha1.TaskGroupSpec_Steps spec) ∅ used →
      resolveTaskSpec spec used = (ts, None) →
      let tr := newTaskRun r (rand_String n randomLength) ts in
      creates r spec (TaskRuns_Create m (namespace r) tr) [CreateTaskRun (namespace r) tr].

(** ** Verdicts *)
Inductive verdict : Type :=
  | CouldntGetTaskGroup (err : error)
  | InvalidSpec (meta : ObjectMeta) (err : FieldError)
  | Retry (err : error)
  | Failed
  | Succeeded_
  | Running
  | Created (created : TaskRun)
  | CouldntCreate (meta : ObjectMeta) (err : error).

(** What is found and the verdict it leads to, with the effects on the cluster
    and the TaskRun status that is recorded. *)
Inductive judges (s : State) : verdict → list effect → option TaskRunStatus → Prop :=
  | judges_no_group err :
      fetched s = inl err →
      judges s (CouldntGetTaskGroup err) [] (TaskGroupRunStatus_TaskRun (status s))
  | judges_invalid meta spec err :
      fetched s = inr (meta, spec) → TaskGroupSpec_Validate spec = Some err →
      judges s (InvalidSpec meta err) [] (TaskGroupRunStatus_TaskRun (status s))
  | judges_no_list meta spec err :
      fetched s = inr (meta, spec) → TaskGroupSpec_Validate spec = None → found s = inl err →
      judges s (Retry (errorString ("could not list TaskRuns " +:+ GoSyntax err))) []
        (TaskGroupRunStatus_TaskRun (status s))
  | judges_many meta spec tr1 tr2 trs :
      fetched s = inr (meta, spec) → TaskGroupSpec_Validate spec = None → found s = inr (tr1 :: tr2 :: trs) →
      judges s (Retry (errorString "Multiple taskRuns, this is a problem")) []
        (TaskGroupRunStatus_TaskRun (status s))
  | judges_no_cancel meta spec tr err :
      fetched s = inr (meta, spec) → TaskGroupSpec_Validate spec = None → found s = inr [tr] →
      cancel_error s tr = Some err →
      judges s (Retry (errorString ("error processing TaskRun " +:+ ObjectMeta_Name (TaskRun_ObjectMeta tr) +:+ ": " +:+
          GoSyntax (errorString ("Failed to patch TaskRun `" +:+ ObjectMeta_Name (TaskRun_ObjectMeta tr) +:+
                                 "` with cancellation: " +:+ error_text err)))))
        (cancel_effects (run s) tr) (Some (TaskRun_Status tr))
  | judges_found meta spec tr :
      fetched s = inr (meta, spec) → TaskGroupSpec_Validate spec = None → found s = inr [tr] →
      cancel_error s tr = None →
      judges s (if TaskRun_IsDone tr then if TaskRun_IsSuccessful tr then Succeeded_ else Failed else Running)
        (cancel_effects (run s) tr) (Some (TaskRun_Status tr))
  | judges_recorded meta spec st :
      fetched s = inr (meta, spec) → TaskGroupSpec_Validate spec = None → found s = inr [] →
      TaskGroupRunStatus_TaskRun (status s) = Some st →
      judges s Running [] (Some st)
  | judges_created meta spec tr es :
      fetched s = inr (meta, spec) → TaskGroupSpec_Validate spec = None → found s = inr [] →
      TaskGroupRunStatus_TaskRun (status s) = None →
      creates (propagateTaskGroupLabelsAndAnnotations (run s) meta) spec (inr tr) es →
      judges s (Created tr) es (Some (TaskRun_Status tr))
  | judges_not_created meta spec err es :
      fetched s = inr (meta, spec) → TaskGroupSpec_Validate spec = None → found s = inr [] →
      TaskGroupRunStatus_TaskRun (status s) = None →
      creates (propagateTaskGroupLabelsAndAnnotations (run s) meta) spec (inl err) es →
      judges s (CouldntCreate meta err) es None.

(** The condition a verdict gives the Run: none when it stays as it is. *)
Definition verdict_condition (r : Run) (v : verdict) : option Condition :=
  let cond status reason message :=
    Some (newCondition ConditionSucceeded status (V1alpha1.reason_String reason) message) in
  match v with
  | CouldntGetTaskGroup err =>
    cond ConditionFalse V1alpha1.TaskGroupRunReasonCouldntGetTaskGroup
      ("Error retrieving TaskGroup for Run " +:+ namespaced (Run_ObjectMeta r) +:+ ": " +:+ error_text err)
  | InvalidSpec meta err =>
    cond ConditionFalse V1alpha1.TaskGroupRunReasonFailedValidation
      ("TaskGroup " +:+ namespaced meta +:+ " can't be Run; it has an invalid spec: " +:+ Error (Some err))
  | Retry _ => None
  | Failed => cond ConditionFalse V1alpha1.TaskGroupRunReasonFailed "TaskRun failed"
  | Succeeded_ => cond ConditionTrue V1alpha1.TaskGroupRunReasonSucceeded "TaskRun succeeded"
  | Running | Created _ =>
    cond ConditionUnknown V1alpha1.TaskGroupRunReasonRunning (ObjectMeta_Name (Run_ObjectMeta r) +:+ " running")
  | CouldntCreate meta err =>
    cond ConditionFalse V1alpha1.TaskGroupRunReasonFailedValidation
      ("TaskGroup " +:+ namespaced meta +:+ " can't be Run; failed to create TaskRun: " +:+ error_text err)
  end.

(** The error a verdict is returned with. *)
Definition verdict_error (r : Run) (v : verdict) : option error :=
  match v with
  | CouldntGetTaskGroup err =>
    Some (wrapError ("Error retrieving TaskGroup for Run " +:+ namespaced (Run_ObjectMeta r) +:+ ": ") err)
  | Retry err =>
    Some (wrapError ("error updating TaskRun status for Run " +:+ namespaced (Run_ObjectMeta r) +:+ ": ") err)
  | _ => None
  end.

(** The spec that is kept for auditing. *)
Definition audited (s : State) : option V1alpha1.TaskGroupSpec :=
  match TaskGroupRunStatus_TaskGroupSpec (status s), fetched s with
  | Some spec, _ => Some spec
  | None, inr (_, spec) => Some spec
  | None, inl _ => None
  end.

(** The metadata of the Run. *)
Definition propagated (s : State) : ObjectMeta :=
  match fetched s with
  | inl _ => Run_ObjectMeta (run s)
  | inr (meta, _) => Run_ObjectMeta (propagateTaskGroupLabelsAndAnnotations (run s) meta)
  end.

(** The completion time of a Run that goes on: a TaskRun that was created
    before moves it back. *)
Definition moved_back (s : State) : option Time :=
  let completed := RunStatus_CompletionTime (Run_Status (run s)) in
  match found s with
  | inr [tr] =>
    let created := Some (ObjectMeta_CreationTimestamp (TaskRun_ObjectMeta tr)) in
    if Before created completed then created else completed
  | _ => completed
  end.

(** A verdict that ends the Run. *)
Definition final (r : Run) (v : verdict) : bool :=
  match verdict_condition r v with Some c => negb (IsUnknown (Some c)) | None => false end.

(** A verdict is realized: the error, the condition, the metadata, the record
    and the effects are those of the verdict; a final verdict completes the
    Run at the time of its condition; the rest of the Run stays. *)
Record realizes (s : State) (v : verdict) (es : list effect) (st : option TaskRunStatus)
    (e : option error) (s' : State) : Prop := {
  realizes_error : e = verdict_error (run s) v;
  realizes_condition :
    match verdict_condition (run s) v with
    | Some c => forget_time <$> Succeeded (Run_Status (run s')) = Some c
    | None => RunStatus_Conditions (Run_Status (run s')) = RunStatus_Conditions (Run_Status (run s))
    end;
  realizes_CompletionTime : RunStatus_CompletionTime (Run_Status (run s')) =
    if final (run s) v then Condition_LastTransitionTime <$> Succeeded (Run_Status (run s')) else moved_back s;
  realizes_wf : wf_conditions (RunStatus_Conditions (Run_Status (run s')));
  realizes_StartTime : RunStatus_StartTime (Run_Status (run s')) = RunStatus_StartTime (Run_Status (run s));
  realizes_ObjectMeta : Run_ObjectMeta (run s') = propagated s;
  realizes_Spec : Run_Spec (run s') = Run_Spec (run s);
  realizes_rest :
    RunStatus_ExtraFields (Run_Status (run s')) = RunStatus_ExtraFields (Run_Status (run s)) ∧
    RunStatus_Other (Run_Status (run s')) = RunStatus_Other (Run_Status (run s)) ∧
    RunStatus_ObservedGeneration (Run_Status (run s')) = RunStatus_ObservedGeneration (Run_Status (run s));
  realizes_status : status s' = {| TaskGroupRunStatus_TaskGroupSpec := audited s; TaskGroupRunStatus_TaskRun := st |};
  realizes_trace : trace s' = trace s ++ es
}.

(** ** The creation of a TaskRun refines [creates] *)

(** A method that only reads the outside world and has the effects [es]. *)
Definition extends (s s' : State) (es : list effect) : Prop :=
  run s' = run s ∧ status s' = status s ∧ trace s' = trace s ++ es.

Lemma extends_refl s : extends s s [].
Proof. unfold extends. by rewrite app_nil_r. Qed.

Lemma extends_advance s : extends s (advance s) [].
Proof. unfold extends. cbn. by rewrite app_nil_r. Qed.

Lemma extends_trans s1 s2 s3 es1 es2 : extends s1 s2 es1 → extends s2 s3 es2 → extends s1 s3 (es1 ++ es2).
Proof. intros (H1 & H2 & H3) (H4 & H5 & H6). unfold extends. by rewrite H4, H5, H6, H1, H2, H3, app_assoc. Qed.

Lemma GetTask_task_of r ref s :
  wp (GetTaskFunc ref (namespace r) (RunSpec_ServiceAccountName (Run_Spec r)) (V1beta1.TaskRef_Name ref)) s
    (λ t s', extends s s' [] ∧ ∃ n, task_of n r ref = t).
Proof.
  unfold GetTaskFunc, LocalTaskRefResolver_GetTask, task_of.
  destruct (EnableTektonOCIBundles && bool_decide (V1beta1.TaskRef_Bundle ref ≠ "")); [|repeat case_bool_decide];
    wp_steps; (split; [apply extends_advance || apply extends_refl|by exists (tick s)]).
Qed.

Lemma GetTaskData_task_of r ref s :
  wp (GetTaskData ref (GetTaskFunc ref (namespace r) (RunSpec_ServiceAccountName (Run_Spec r)))) s
    (λ t s', extends s s' [] ∧ ∃ n,
      match t with
      | inl e => fetch_error n r ref (if IsGetTaskErrTransient e then e else permanentError e)
      | inr t => V1beta1.TaskRef_Name ref ≠ "" ∧ ∃ t0, task_of n r ref = inr t0 ∧ t = TaskSpec_SetDefaults t0
      end).
Proof.
  unfold GetTaskData, fetch_error. case_bool_decide as Hname; wp_steps.
  - eapply wp_mono; [apply GetTask_task_of|]. cbv beta. intros [e|t] s' [Hs' [n Hn]]; wp_steps;
      (split; [done|]); exists n; [|by eauto]. eexists. split; [|done]. by exists e.
  - split; [apply extends_refl|]. exists 0. eexists. by split; [|done].
Qed.

Lemma uses_fetched_app r i l1 l2 used0 used1 used2 :
  uses_fetched r i l1 used0 used1 → uses_fetched r (i + length l1) l2 used1 used2 →
  uses_fetched r i (l1 ++ l2) used0 used2.
Proof.
  induction 1 as [i used|i step l1 used0 used1 Hu _ IH|i step l1 u n t used0 used1 Hu Hname Ht _ IH]; simpl;
    intros H2.
  - by rewrite Nat.add_0_r in H2.
  - apply uses_fetched_own; [done|]. apply IH. by replace (i + 1 + length l1) with (i + S (length l1)) by lia.
  - eapply uses_fetched_use; [done..|]. apply IH. by replace (i + 1 + length l1) with (i + S (length l1)) by lia.
Qed.

Lemma fetchUsesTaskSpec_loop_spec r before steps used s :
  uses_fetched r 0 before ∅ used →
  wp (fetchUsesTaskSpec_loop (namespace r) (RunSpec_ServiceAccountName (Run_Spec r)) (length before) steps used) s
    (λ x s', extends s s' [] ∧
      match x with
      | inr used' => uses_fetched r 0 (before ++ steps) ∅ used'
      | inl err => ∃ before' step after u n used, before ++ steps = before' ++ step :: after ∧
          uses_fetched r 0 before' ∅ used ∧ V1alpha1.Step_Uses step = Some u ∧
          fetch_error n r (V1alpha1.Uses_TaskRef u) err
      end).
Proof.
  revert before used s. induction steps as [|step steps IH]; intros before used s Hbefore;
    cbn [fetchUsesTaskSpec_loop].
  - wp_steps. rewrite app_nil_r. split; [apply extends_refl|done].
  - assert (length before + 1 = length (before ++ [step])) as Hlen by (rewrite length_app; simpl; lia).
    assert (∀ l, before ++ step :: l = (before ++ [step]) ++ l) as Happ by (intros; by rewrite <-app_assoc).
    destruct (V1alpha1.Step_Uses step) as [u|] eqn:Hu; wp_steps.
    + eapply wp_mono; [apply GetTaskData_task_of|]. cbv beta. intros [e|t] s1 [H1 [n Hn]].
      * wp_steps. split; [done|]. by exists before, step, steps, u, n, used.
      * destruct Hn as (Hname & t0 & Ht0 & ->). rewrite Hlen.
        eapply wp_mono; [apply IH|].
        { eapply uses_fetched_app; [done|]. eapply uses_fetched_use; [done..|]. constructor. }
        cbv beta. intros x s2 [H2 Hx]. rewrite Happ. split; [|done]. change [] with (@nil effect ++ []).
        by eapply extends_trans.
    + rewrite Hlen. eapply wp_mono; [apply IH|].
      { eapply uses_fetched_app; [done|]. apply uses_fetched_own; [done|]. constructor. }
      cbv beta. intros x s2 Hx. by rewrite Happ.
Qed.

Lemma createTaskRun_spec spec s :
  wp (createTaskRun spec) s (λ r s', ∃ es, creates (run s) spec r es ∧ extends s s' es).
Proof.
  unfold createTaskRun, fetchUsesTaskSpec. wp_steps.
  eapply wp_mono; [apply (fetchUsesTaskSpec_loop_spec (run s) [] _ ∅ s); constructor|]. cbv beta. cbn [app].
  intros [err|used] s1 [H1 Hx]; wp_steps.
  - destruct Hx as (before & step & after & u & n & used & ? & ? & ? & ?). exists []. split; [|done].
    by eapply creates_no_task.
  - destruct (resolveTaskSpec spec used) as [ts [err|]] eqn:Hres; wp_steps.
    + exists []. split; [|done]. by eapply creates_unresolved.
    + pose proof H1 as (Hrun & _ & _). rewrite Hrun. eexists. split; [by eapply creates_request|].
      change [CreateTaskRun ?a ?b] with ([] ++ [CreateTaskRun a b]). eapply extends_trans; [exact H1|].
      by split_and!.
Qed.

(** ** The reconciliation refines the verdicts *)

(** A state on the way from [s] to a verdict: the metadata, the record and the
    effects are there, and the condition is well formed. *)
Record prepared (s : State) (es : list effect) (st : option TaskRunStatus) (s1 : State) : Prop := {
  prepared_wf : wf_conditions (RunStatus_Conditions (Run_Status (run s1)));
  prepared_StartTime : RunStatus_StartTime (Run_Status (run s1)) = RunStatus_StartTime (Run_Status (run s));
  prepared_ObjectMeta : Run_ObjectMeta (run s1) = propagated s;
  prepared_Spec : Run_Spec (run s1) = Run_Spec (run s);
  prepared_rest :
    RunStatus_ExtraFields (Run_Status (run s1)) = RunStatus_ExtraFields (Run_Status (run s)) ∧
    RunStatus_Other (Run_Status (run s1)) = RunStatus_Other (Run_Status (run s)) ∧
    RunStatus_ObservedGeneration (Run_Status (run s1)) = RunStatus_ObservedGeneration (Run_Status (run s));
  prepared_status : status s1 = {| TaskGroupRunStatus_TaskGroupSpec := audited s; TaskGroupRunStatus_TaskRun := st |};
  prepared_trace : trace s1 = trace s ++ es
}.

(** The state after a mark. *)
Definition after_mark (f : RunStatus → RunStatus) (s : State) : State :=
  with_run (set_Run_Status (f (Run_Status (run s))) (run s)) s.

Lemma wp_markRunFailed reason message s (Q : unit → State → Prop) :
  wp (markRunFailed reason message) s Q ↔
  Q tt (after_mark (MarkRunFailed (now (tick s)) (V1alpha1.reason_String reason) message) (advance s)).
Proof. done. Qed.

Lemma wp_markRunSucceeded reason message s (Q : unit → State → Prop) :
  wp (markRunSucceeded reason message) s Q ↔
  Q tt (after_mark (MarkRunSucceeded (now (tick s)) (V1alpha1.reason_String reason) message) (advance s)).
Proof. done. Qed.

Lemma wp_markRunRunning reason message s (Q : unit → State → Prop) :
  wp (markRunRunning reason message) s Q ↔
  Q tt (after_mark (MarkRunRunning (now (tick s)) (V1alpha1.reason_String reason) message) (advance s)).
Proof. done. Qed.

Lemma prepared_advance s es st s1 : prepared s es st s1 → prepared s es st (advance s1).
Proof. intros []. by constructor. Qed.

Lemma prepared_extends s es es' st s1 s2 : prepared s es st s1 → extends s1 s2 es' → prepared s (es ++ es') st s2.
Proof.
  intros [] (Hr & Hst & Htr). constructor; rewrite ?Hr, ?Hst; try done.
  rewrite Htr, prepared_trace0. by rewrite <-app_assoc.
Qed.

Lemma prepared_MarkRunRunning t reason message s es st s1 :
  prepared s es st s1 → prepared s es st (after_mark (MarkRunRunning t reason message) s1).
Proof. intros []. constructor; try done. by apply wf_MarkRunRunning. Qed.

Lemma realizes_prepared s v es st s1 :
  prepared s es st s1 →
  match verdict_condition (run s) v with
  | Some c => forget_time <$> Succeeded (Run_Status (run s1)) = Some c
  | None => RunStatus_Conditions (Run_Status (run s1)) = RunStatus_Conditions (Run_Status (run s))
  end →
  RunStatus_CompletionTime (Run_Status (run s1)) =
    (if final (run s) v then Condition_LastTransitionTime <$> Succeeded (Run_Status (run s1)) else moved_back s) →
  realizes s v es st (verdict_error (run s) v) s1.
Proof. intros [] Hc Ht. by constructor. Qed.

Lemma realizes_failed s v es st s1 t reason message :
  prepared s es st s1 →
  verdict_condition (run s) v = Some (newCondition ConditionSucceeded ConditionFalse reason message) →
  realizes s v es st (verdict_error (run s) v) (after_mark (MarkRunFailed t reason message) s1).
Proof.
  intros Hp Hv. pose proof (prepared_wf _ _ _ _ Hp) as Hwf. apply realizes_prepared.
  - destruct Hp. constructor; try done. by apply wf_MarkRunFailed.
  - rewrite Hv. by apply Succeeded_MarkRunFailed.
  - unfold final. by rewrite Hv.
Qed.

Lemma realizes_succeeded s v es st s1 t reason message :
  prepared s es st s1 →
  verdict_condition (run s) v = Some (newCondition ConditionSucceeded ConditionTrue reason message) →
  realizes s v es st (verdict_error (run s) v) (after_mark (MarkRunSucceeded t reason message) s1).
Proof.
  intros Hp Hv. pose proof (prepared_wf _ _ _ _ Hp) as Hwf. apply realizes_prepared.
  - destruct Hp. constructor; try done. by apply wf_MarkRunSucceeded.
  - rewrite Hv. by apply Succeeded_MarkRunSucceeded.
  - unfold final. by rewrite Hv.
Qed.

Lemma getTaskGroup_fetched s :
  wp getTaskGroup s (λ x s',
    match fetched s with
    | inl err => x = inl (wrapError ("Error retrieving TaskGroup for Run " +:+ namespaced (Run_ObjectMeta (run s)) +:+ ": ") err) ∧
        ∃ s1 t, extends s s1 [] ∧
        s' = after_mark (MarkRunFailed t (V1alpha1.reason_String V1alpha1.TaskGroupRunReasonCouldntGetTaskGroup)
          ("Error retrieving TaskGroup for Run " +:+ namespaced (Run_ObjectMeta (run s)) +:+ ": " +:+ error_text err)) s1
    | inr found => x = inr found ∧ extends s s' [] ∧ tick s' = list_tick s
    end).
Proof.
  unfold getTaskGroup, fetched, list_tick, refName, namespace, couldntGetTaskGroup. wp_steps.
  case_bool_decide; wp_steps.
  - destruct (TaskGroups_Get _ _ _) as [err|tg]; wp_steps; cbn; [|split_and!; [done|apply extends_advance|done]].
    split; [done|]. exists (advance (advance s)), (now (tick (advance s))). split; [|done].
    change [] with (@nil effect ++ []). eapply extends_trans; apply extends_advance.
  - destruct (RunSpec_Spec (Run_Spec (run s))) as [e|]; wp_steps;
      [|split_and!; [done|apply extends_refl|done]].
    destruct (decode_TaskGroupSpec _) as [err|spec]; wp_steps; cbn; [|split_and!; [done|apply extends_refl|done]].
    split; [done|]. exists (advance s), (now (tick s)). split; [apply extends_advance|done].
Qed.

Lemma propagated_Name s : ObjectMeta_Name (propagated s) = ObjectMeta_Name (Run_ObjectMeta (run s)).
Proof. unfold propagated. by destruct (fetched s) as [|[]]. Qed.

Lemma propagated_Namespace s : ObjectMeta_Namespace (propagated s) = ObjectMeta_Namespace (Run_ObjectMeta (run s)).
Proof. unfold propagated. by destruct (fetched s) as [|[]]. Qed.

Lemma propagated_UID s : ObjectMeta_UID (propagated s) = ObjectMeta_UID (Run_ObjectMeta (run s)).
Proof. unfold propagated. by destruct (fetched s) as [|[]]. Qed.

Lemma propagated_Generation s : ObjectMeta_Generation (propagated s) = ObjectMeta_Generation (Run_ObjectMeta (run s)).
Proof. unfold propagated. by destruct (fetched s) as [|[]]. Qed.

Lemma prepared_Name s es st s1 : prepared s es st s1 →
  ObjectMeta_Name (Run_ObjectMeta (run s1)) = ObjectMeta_Name (Run_ObjectMeta (run s)).
Proof. intros Hp. by rewrite (prepared_ObjectMeta _ _ _ _ Hp), propagated_Name. Qed.

Lemma prepared_Namespace s es st s1 : prepared s es st s1 → namespace (run s1) = namespace (run s).
Proof. intros Hp. unfold namespace. by rewrite (prepared_ObjectMeta _ _ _ _ Hp), propagated_Namespace. Qed.

Lemma prepared_labels s es st s1 : prepared s es st s1 → getTaskRunLabels (run s1) false = getTaskRunLabels (run s) false.
Proof. intros Hp. unfold getTaskRunLabels. by rewrite (prepared_Name _ _ _ _ Hp). Qed.

Lemma prepared_to_cancel s es st s1 tr : prepared s es st s1 → to_cancel (run s1) tr = to_cancel (run s) tr.
Proof. intros Hp. unfold to_cancel, Run_IsCancelled. by rewrite (prepared_Spec _ _ _ _ Hp). Qed.

(** Recording the TaskRun keeps the rest of the preparation. *)
Lemma prepared_recorded s es st st' t s1 :
  prepared s es st s1 →
  prepared s es (Some st') (after_mark (set_CompletionTime t) (with_status (set_Status_TaskRun st' (status s1)) s1)).
Proof. intros []. constructor; try done. cbn. by rewrite prepared_status0. Qed.

Lemma prepared_recorded' s es st st' s1 :
  prepared s es st s1 → prepared s es (Some st') (with_status (set_Status_TaskRun st' (status s1)) s1).
Proof. intros []. constructor; try done. cbn. by rewrite prepared_status0. Qed.

Lemma processTaskRun_cancel s es st s1 tr :
  prepared s es st s1 → tick s1 = S (list_tick s) →
  wp (processTaskRun tr) s1 (λ err s2,
    prepared s (es ++ cancel_effects (run s) tr) st s2 ∧
    Run_Status (run s2) = Run_Status (run s1) ∧
    err = (λ err, errorString ("Failed to patch TaskRun `" +:+ ObjectMeta_Name (TaskRun_ObjectMeta tr) +:+
                               "` with cancellation: " +:+ error_text err)) <$> cancel_error s tr).
Proof.
  intros Hp Ht. unfold processTaskRun. wp_steps. unfold cancel_error, cancel_effects.
  rewrite <-(prepared_to_cancel _ _ _ _ tr Hp). unfold to_cancel.
  destruct (negb (TaskRun_IsDone tr) && _ && _) eqn:Hc; wp_steps.
  - cbn [tick emitting]. rewrite Ht, <-(prepared_Namespace _ _ _ _ Hp). unfold namespace.
    assert (∀ n m, prepared s (es ++ [CancelTaskRun n m]) st (advance (emitting (CancelTaskRun n m) s1))) as Hpe.
    { intros. by eapply prepared_extends; [done|]. }
    destruct (TaskRuns_Patch _ _ _); wp_steps; split_and!; try done; apply Hpe.
  - rewrite app_nil_r. by split_and!.
Qed.

(** The status of a Run without a verdict yet. *)
Definition goes_on (s : State) (r : Run) : Prop :=
  RunStatus_Conditions (Run_Status r) = RunStatus_Conditions (Run_Status (run s)) ∧
  RunStatus_CompletionTime (Run_Status r) = moved_back s.

(** The result of [updateTaskRunStatus] for the TaskRun it finds. *)
Definition update_result (s : State) (tr : TaskRun) : bool * bool * option error :=
  match cancel_error s tr with
  | Some err => (false, false, Some
     (errorString ("error processing TaskRun " +:+ ObjectMeta_Name (TaskRun_ObjectMeta tr) +:+ ": " +:+
       GoSyntax (errorString ("Failed to patch TaskRun `" +:+ ObjectMeta_Name (TaskRun_ObjectMeta tr) +:+
                              "` with cancellation: " +:+ error_text err)))))
  | None => (TaskRun_IsDone tr, TaskRun_IsDone tr && negb (TaskRun_IsSuccessful tr), None)
  end.

Lemma process_found s s1 tr :
  prepared s [] (Some (TaskRun_Status tr)) s1 → tick s1 = S (list_tick s) → goes_on s (run s1) →
  wp (processTaskRun tr) s1 (λ err s2, wp
    (match err with
     | Some err =>
       ret (false, false, Some (errorString ("error processing TaskRun " +:+ ObjectMeta_Name (TaskRun_ObjectMeta tr) +:+
                                             ": " +:+ GoSyntax err)))
     | None => ret (TaskRun_IsDone tr, TaskRun_IsDone tr && negb (TaskRun_IsSuccessful tr), None)
     end) s2 (λ x s3, goes_on s (run s3) ∧ x = update_result s tr ∧
                      prepared s (cancel_effects (run s) tr) (Some (TaskRun_Status tr)) s3)).
Proof.
  intros Hp Ht Hg. eapply wp_mono; [by apply processTaskRun_cancel|]. cbv beta.
  intros err s2 (Hp2 & Hst & ->). unfold goes_on, update_result in *. rewrite <-Hst in Hg.
  destruct Hg. destruct (cancel_error s tr); wp_steps; by split_and!.
Qed.

Lemma updateTaskRunStatus_found s s1 :
  prepared s [] (TaskGroupRunStatus_TaskRun (status s)) s1 → tick s1 = list_tick s →
  Run_Status (run s1) = Run_Status (run s) →
  wp updateTaskRunStatus s1 (λ x s2, goes_on s (run s2) ∧
    match found s with
    | inl err => x = (false, false, Some (errorString ("could not list TaskRuns " +:+ GoSyntax err))) ∧
        prepared s [] (TaskGroupRunStatus_TaskRun (status s)) s2
    | inr [] => x = (false, false, None) ∧ prepared s [] (TaskGroupRunStatus_TaskRun (status s)) s2
    | inr [tr] => x = update_result s tr ∧ prepared s (cancel_effects (run s) tr) (Some (TaskRun_Status tr)) s2
    | inr _ => x = (false, false, Some (errorString "Multiple taskRuns, this is a problem")) ∧
        prepared s [] (TaskGroupRunStatus_TaskRun (status s)) s2
    end).
Proof.
  intros Hp Ht Hst. unfold updateTaskRunStatus. wp_steps. cbn [tick advance].
  rewrite (prepared_labels _ _ _ _ Hp), Ht. pose proof (prepared_Namespace _ _ _ _ Hp) as Hns.
  unfold namespace in Hns. rewrite Hns. fold (namespace (run s)). fold (found s).
  pose proof (prepared_advance _ _ _ _ Hp) as Hpa.
  destruct (found s) as [err|[|tr [|tr2 trs]]] eqn:Hf; wp_steps;
    try by (unfold goes_on, moved_back; rewrite Hf; cbn; rewrite Hst; split_and!).
  cbn [run advance]. rewrite Hst. destruct (Before _ _) eqn:Hbefore; wp_steps; (apply process_found;
    [|by cbn; rewrite Ht|unfold goes_on, moved_back; rewrite Hf, Hbefore; cbn; by rewrite Hst]).
  - exact (prepared_recorded _ _ _ _ _ _ Hpa).
  - exact (prepared_recorded' _ _ _ _ _ Hpa).
Qed.

(** The creation of a TaskRun does not look at the status of the Run. *)
Lemma uses_fetched_Status st r i steps used used' :
  uses_fetched (set_Run_Status st r) i steps used used' → uses_fetched r i steps used used'.
Proof.
  induction 1; [constructor|by constructor|].
  by eapply uses_fetched_use; [done..|exact H1|].
Qed.

Lemma uses_fetched_propagated r meta i steps used used' :
  uses_fetched (propagateTaskGroupLabelsAndAnnotations r meta) i steps used used' → uses_fetched r i steps used used'.
Proof.
  induction 1; [constructor|by constructor|].
  by eapply uses_fetched_use; [done..|exact H1|].
Qed.

Lemma creates_Status st r spec x es : creates (set_Run_Status st r) spec x es → creates r spec x es.
Proof.
  destruct 1.
  - eapply creates_no_task; [done|by eapply uses_fetched_Status|done|]. done.
  - by eapply creates_unresolved; [eapply uses_fetched_Status|].
  - apply (creates_request r spec used ts n m); [|done]. by eapply uses_fetched_Status.
Qed.

Definition reaches_verdict (s : State) (e : option error) (s' : State) : Prop :=
  ∃ v es st, judges s v es st ∧ realizes s v es st e s'.

(** The state after the group is stored and its metadata propagated. *)
Lemma prepared_fetched s s1 meta spec :
  wf_conditions (RunStatus_Conditions (Run_Status (run s))) →
  fetched s = inr (meta, spec) → extends s s1 [] →
  prepared s [] (TaskGroupRunStatus_TaskRun (status s))
    (with_run (propagateTaskGroupLabelsAndAnnotations (run s1) meta)
      (with_status (storeTaskGroupSpec (status s1) spec) s1)).
Proof.
  intros Hwf Hf (Hr & Hst & Htr). rewrite Hr, Hst. constructor; cbn; try done.
  - unfold propagated. by rewrite Hf.
  - unfold audited, storeTaskGroupSpec. rewrite Hf. destruct (status s) as [[]]; done.
Qed.

(** The end of [reconcile], for a Run that goes on. *)
Lemma realizes_running s es st s1 t :
  prepared s es st s1 → goes_on s (run s1) →
  realizes s Running es st None (after_mark (MarkRunRunning t (V1alpha1.reason_String V1alpha1.TaskGroupRunReasonRunning)
    (ObjectMeta_Name (Run_ObjectMeta (run s)) +:+ " running")) s1).
Proof.
  intros Hp [_ Hct]. apply (realizes_prepared s Running); [by apply prepared_MarkRunRunning| |done].
  apply Succeeded_MarkRunRunning. apply Hp.
Qed.

Lemma realizes_created s tr es st s1 s2 :
  realizes s Running [] st None s1 → extends s1 s2 es →
  realizes s (Created tr) es (Some (TaskRun_Status tr)) None
    (with_status (set_Status_TaskRun (TaskRun_Status tr) (status s2)) s2).
Proof.
  intros [] (Hr & Hst & Htr). constructor; cbn; rewrite ?Hr, ?Hst; try done.
  - by rewrite realizes_status0.
  - by rewrite Htr, realizes_trace0, app_nil_r.
Qed.

Lemma prepared_realizes s v es st e s1 : realizes s v es st e s1 → prepared s es st s1.
Proof. intros []. by constructor. Qed.

Lemma propagated_run s st es s1 meta spec :
  prepared s es st s1 → fetched s = inr (meta, spec) →
  run s1 = set_Run_Status (Run_Status (run s1)) (propagateTaskGroupLabelsAndAnnotations (run s) meta).
Proof.
  intros Hp Hf. pose proof (prepared_ObjectMeta _ _ _ _ Hp) as Hm. pose proof (prepared_Spec _ _ _ _ Hp) as Hs.
  unfold propagated in Hm. rewrite Hf in Hm. destruct (run s1) as [m sp rs]. cbn in *. by rewrite Hm, Hs.
Qed.

(** What follows when no TaskRun is listed. *)
Lemma reconcile_untracked s meta spec s1 :
  fetched s = inr (meta, spec) → TaskGroupSpec_Validate spec = None → found s = inr [] →
  realizes s Running [] (TaskGroupRunStatus_TaskRun (status s)) None s1 →
  wp (let! status := get_status in
      match TaskGroupRunStatus_TaskRun status with
      | Some _ => ret None
      | None =>
        let! tr := createTaskRun spec in
        match tr with
        | inl err =>
          do! markRunFailed V1alpha1.TaskGroupRunReasonFailedValidation
                ("TaskGroup " +:+ namespaced meta +:+ " can't be Run; failed to create TaskRun: " +:+ error_text err) in
          ret None
        | inr tr =>
          let! status := get_status in
          do! set_status (set_Status_TaskRun (TaskRun_Status tr) status) in
          ret None
        end
      end) s1 (reaches_verdict s).
Proof.
  intros Hf Hv Hfound Hs1. wp_steps. pose proof (prepared_realizes _ _ _ _ _ _ Hs1) as Hp.
  rewrite (realizes_status _ _ _ _ _ _ Hs1). cbn [TaskGroupRunStatus_TaskRun].
  destruct (TaskGroupRunStatus_TaskRun (status s)) as [st|] eqn:Hst.
  { wp_steps. exists Running, [], (Some st). split; [by eapply judges_recorded|done]. }
  eapply wp_bind, wp_mono; [apply createTaskRun_spec|]. cbv beta. intros x s2 (es & Hes & Hs2).
  rewrite (propagated_run _ _ _ _ _ _ Hp Hf) in Hes. apply creates_Status in Hes.
  destruct x as [err|tr]; wp_steps.
  - apply wp_markRunFailed. wp_steps. exists (CouldntCreate meta err), es, None.
    split; [by eapply judges_not_created|]. apply (realizes_failed s (CouldntCreate meta err)); [|done].
    apply prepared_advance. by apply (prepared_extends _ [] _ _ _ _ Hp).
  - exists (Created tr), es, (Some (TaskRun_Status tr)). split; [by eapply judges_created|].
    by eapply realizes_created.
Qed.

Lemma reconcile_verdict s :
  wf_conditions (RunStatus_Conditions (Run_Status (run s))) → wp reconcile s (reaches_verdict s).
Proof.
  intros Hwf. unfold reconcile. wp_steps. eapply wp_mono; [apply getTaskGroup_fetched|]. cbv beta.
  intros x s1. destruct (fetched s) as [err|[meta spec]] eqn:Hf.
  { intros (-> & s2 & t & (Hr & Hst & Htr) & ->). wp_steps. exists (CouldntGetTaskGroup err), [], (TaskGroupRunStatus_TaskRun (status s)).
    split; [by constructor|]. apply (realizes_failed s (CouldntGetTaskGroup err)); [|done].
    constructor; rewrite ?Hr, ?Hst, ?Htr; try done.
    - unfold propagated. by rewrite Hf.
    - unfold audited. rewrite Hf. destruct (status s) as [[]]; done. }
  intros (-> & Hs1 & Ht1). wp_steps. pose proof (prepared_fetched _ _ _ _ Hwf Hf Hs1) as Hp.
  pose proof Hs1 as (Hr1 & Hst1 & _).
  cbn [run with_status] in *. rewrite Hr1 in *. set (s2 := with_run _ _) in *.
  destruct (TaskGroupSpec_Validate spec) as [err|] eqn:Hv.
  { wp_steps. apply wp_markRunFailed. wp_steps.
    exists (InvalidSpec meta err), [], (TaskGroupRunStatus_TaskRun (status s)).
    split; [by econstructor|]. apply (realizes_failed s (InvalidSpec meta err)); [|done]. by apply prepared_advance. }
  eapply wp_bind, wp_mono; [apply (updateTaskRunStatus_found s); done|]. cbv beta.
  intros x s3 [Hg Hx].
  destruct (found s) as [err|[|tr [|tr2 trs]]] eqn:Hfound; destruct Hx as [-> Hp3].
  - wp_steps. eexists (Retry _), [], (TaskGroupRunStatus_TaskRun (status s)).
    split; [by eapply judges_no_list|]. apply (realizes_prepared s (Retry _)); [done|apply Hg..].
  - apply wp_bind, wp_markRunRunning. cbv beta. wp_steps.
    apply (reconcile_untracked s meta spec); [done..|].
    apply realizes_running; [by apply prepared_advance|done].
  - unfold update_result. destruct (cancel_error s tr) as [err|] eqn:Hcancel.
    { wp_steps. eexists (Retry _), (cancel_effects (run s) tr), (Some (TaskRun_Status tr)).
      split; [by eapply judges_no_cancel|]. apply (realizes_prepared s (Retry _)); [done|apply Hg..]. }
    pose proof (judges_found s meta spec tr Hf Hv Hfound Hcancel) as Hj.
    pose proof (prepared_advance _ _ _ _ Hp3) as Hp4.
    destruct (TaskRun_IsDone tr); cbn [andb]; [destruct (TaskRun_IsSuccessful tr)|]; cbn [negb].
    + apply wp_bind, wp_markRunSucceeded. wp_steps.
      exists Succeeded_, (cancel_effects (run s) tr), (Some (TaskRun_Status tr)). split; [done|].
      by apply (realizes_succeeded s Succeeded_).
    + apply wp_bind, wp_markRunFailed. wp_steps.
      exists Failed, (cancel_effects (run s) tr), (Some (TaskRun_Status tr)). split; [done|].
      by apply (realizes_failed s Failed).
    + apply wp_bind, wp_markRunRunning. cbv beta. wp_steps.
      pose proof (realizes_running s _ _ _ (now (tick s3)) Hp4 Hg) as Hr.
      assert (TaskGroupRunStatus_TaskRun (status (advance s3)) = Some (TaskRun_Status tr)) as Hst.
      { by rewrite (prepared_status _ _ _ _ Hp4). }
      cbn in Hst |- *. rewrite Hst. wp_steps. by exists Running, (cancel_effects (run s) tr), (Some (TaskRun_Status tr)).
  - wp_steps. eexists (Retry _), [], (TaskGroupRunStatus_TaskRun (status s)).
    split; [by eapply judges_many|]. apply (realizes_prepared s (Retry _)); [done|apply Hg..].
Qed.
End spec.
