(* ===== verification/ReconcileKind.v ===== *)
(** The phases of [ReconcileKind]: the start of a Run, the decoding of its
    extra fields, [reconcile] (whose effect is in ReconcilerSpec), and what
    follows it: labels and annotations, the extra fields, the events. *)
From S2P Require Import Prelude GoStrings FieldErrors Types Substitution StepMerge Resolve.
From S2P Require Import Validation Conditions RunTypes Listers Cluster Reconciler ReconcilerSpec.

(** ** Effects *)

(** The TaskRuns that are created, each with the namespace. *)
Definition creations (es : list effect) : list (string * TaskRun) :=
  omap (λ e, match e with CreateTaskRun ns tr => Some (ns, tr) | _ => None end) es.

(** The TaskRuns that are cancelled. *)
Definition cancellations (es : list effect) : list (string * string) :=
  omap (λ e, match e with CancelTaskRun ns name => Some (ns, name) | _ => None end) es.

(** An event, or a request for the Run itself. *)
Definition minor (e : effect) : Prop :=
  match e with CreateTaskRun _ _ | CancelTaskRun _ _ => False | _ => True end.

Lemma creations_app es es' : creations (es ++ es') = creations es ++ creations es'.
Proof. apply omap_app. Qed.

Lemma cancellations_app es es' : cancellations (es ++ es') = cancellations es ++ cancellations es'.
Proof. apply omap_app. Qed.

Lemma creations_minor es : Forall minor es → creations es = [].
Proof. induction 1 as [|[] es]; simpl in *; done. Qed.

Lemma cancellations_minor es : Forall minor es → cancellations es = [].
Proof. induction 1 as [|[] es]; simpl in *; done. Qed.

Lemma creations_cancel_effects r tr : creations (cancel_effects r tr) = [].
Proof. unfold cancel_effects. by destruct (to_cancel r tr). Qed.

(** The state after more minor effects and readings. *)
Definition emits (s s' : State) : Prop := ∃ es, Forall minor es ∧ extends s s' es.

Lemma emits_refl s : emits s s.
Proof. exists []. split; [constructor|apply extends_refl]. Qed.

Lemma emits_advance s : emits s (advance s).
Proof. exists []. split; [constructor|apply extends_advance]. Qed.

Lemma emits_trans s1 s2 s3 : emits s1 s2 → emits s2 s3 → emits s1 s3.
Proof.
  intros (es1 & Hes1 & H1) (es2 & Hes2 & H2). exists (es1 ++ es2).
  split; [by apply Forall_app|by eapply extends_trans].
Qed.

Lemma emits_emitting s e : minor e → emits s (emitting e s).
Proof. intros He. exists [e]. split; [by repeat constructor|by split_and!]. Qed.

Section phases.
Context {MO : MapOrder} {CM : ContainerMerge} {CL : Cluster}.

(** ** Events *)
Lemma Emit_emits before after s : wp (Emit before after) s (λ _ s', emits s s').
Proof.
  unfold Emit. wp_steps.
  assert (∀ s1, emits s s1 → wp
    (if bool_decide (DefaultCloudEventsSink ≠ "") && negb (SemanticDeepEqual before after)
     then emit CloudEvent else ret tt) s1 (λ _ s', emits s s')) as Hcloud.
  { intros s1 H1. destruct (_ && _); wp_steps; [|done].
    eapply emits_trans; [done|]. by apply emits_emitting. }
  apply (wp_mono _ _ (λ _ s', emits s s')); [|intros [] s'; apply Hcloud]. unfold sendKubernetesEvents.
  repeat case_match; wp_steps; try apply emits_refl; by apply emits_emitting.
Qed.

(** ** Labels and annotations *)

(** The patch of the Run, when its labels or annotations differ from those of
    the lister's copy. *)
Definition needs_patch (m new : ObjectMeta) : bool :=
  bool_decide (ObjectMeta_Labels m ≠ ObjectMeta_Labels new) ||
  bool_decide (ObjectMeta_Annotations m ≠ ObjectMeta_Annotations new).

Lemma updateLabelsAndAnnotations_spec s :
  wp updateLabelsAndAnnotations s (λ e s',
    let m := Run_ObjectMeta (run s) in
    match Runs_lister_Get (tick s) (ObjectMeta_Namespace m) (ObjectMeta_Name m) with
    | inl err => is_Some e ∧ extends s s' []
    | inr new =>
      if needs_patch m (Run_ObjectMeta new)
      then e = Runs_Patch (S (tick s)) (ObjectMeta_Namespace m) (ObjectMeta_Name m) (ObjectMeta_Labels m) (ObjectMeta_Annotations m)
           ∧ extends s s' [PatchRun (ObjectMeta_Namespace m) (ObjectMeta_Name m) (ObjectMeta_Labels m) (ObjectMeta_Annotations m)]
      else e = None ∧ extends s s' []
    end).
Proof.
  unfold updateLabelsAndAnnotations, needs_patch. wp_steps. cbv zeta.
  destruct (Runs_lister_Get _ _ _) as [err|new]; wp_steps; [split; [by eexists|apply extends_advance]|].
  destruct (_ || _); wp_steps; [|split; [done|apply extends_advance]]. split; [done|].
  by split_and!.
Qed.

Lemma updateLabelsAndAnnotations_emits s : wp updateLabelsAndAnnotations s (λ _ s', emits s s').
Proof.
  eapply wp_mono; [apply updateLabelsAndAnnotations_spec|]. cbv beta zeta. intros e s'.
  destruct (Runs_lister_Get _ _ _) as [err|new].
  - intros [_ H]. exists []. by split; [constructor|].
  - destruct (needs_patch _ _); intros [_ H]; (eexists; split; [|done]); by repeat constructor.
Qed.

(** ** Invariant *)

(** A Run as the controller leaves it: one condition per type, and a Run that
    is done has a completion time. *)
Record wf_Run (r : Run) : Prop := {
  wf_Run_conditions : wf_conditions (RunStatus_Conditions (Run_Status r));
  wf_Run_done : Run_IsDone r = true → is_Some (RunStatus_CompletionTime (Run_Status r))
}.

(** The fields of a Run that only the start of the Run changes, if any. *)
Definition same_Run (r r' : Run) : Prop :=
  Run_ObjectMeta r' = Run_ObjectMeta r ∧ Run_Spec r' = Run_Spec r ∧
  RunStatus_StartTime (Run_Status r') = RunStatus_StartTime (Run_Status r).

(** A mark of failure ends a Run. *)
Lemma MarkRunFailed_done t reason message r rs :
  wf_conditions (RunStatus_Conditions rs) →
  Run_IsDone (set_Run_Status (MarkRunFailed t reason message rs) r) = true ∧
  wf_Run (set_Run_Status (MarkRunFailed t reason message rs) r).
Proof.
  intros Hwf. pose proof (Succeeded_MarkRunFailed t reason message rs Hwf) as Hs.
  pose proof (wf_MarkRunFailed t reason message rs Hwf) as Hw.
  assert (is_Some (RunStatus_CompletionTime (MarkRunFailed t reason message rs))) as Hc.
  { unfold MarkRunFailed, complete in *. cbn [RunStatus_CompletionTime set_CompletionTime].
    apply fmap_is_Some. apply fmap_Some in Hs as (c & Hs & _). by exists c. }
  split; [|by constructor]. rewrite Run_IsDone_forget. cbn [Run_Status set_Run_Status]. by rewrite Hs.
Qed.

(** ** Start *)

(** The time a Run starts at: now, but not before its creation. *)
Definition start_time (now : Time) (r : Run) : Time :=
  Z.max now (ObjectMeta_CreationTimestamp (Run_ObjectMeta r)).

(** The condition of a Run that starts. *)
Definition started_condition (before : option Condition) : Condition :=
  match before with
  | Some c => set_Reason "Started" c
  | None => newCondition ConditionSucceeded ConditionUnknown "Started" ""
  end.

Record starts (s s' : State) : Prop := {
  starts_ObjectMeta : Run_ObjectMeta (run s') = Run_ObjectMeta (run s);
  starts_Spec : Run_Spec (run s') = Run_Spec (run s);
  starts_StartTime : RunStatus_StartTime (Run_Status (run s')) = Some (start_time (now (tick s)) (run s));
  starts_condition : forget_time <$> Succeeded (Run_Status (run s')) =
    Some (forget_time (started_condition (Succeeded (Run_Status (run s)))));
  starts_CompletionTime : RunStatus_CompletionTime (Run_Status (run s')) = RunStatus_CompletionTime (Run_Status (run s));
  starts_ExtraFields : RunStatus_ExtraFields (Run_Status (run s')) = RunStatus_ExtraFields (Run_Status (run s));
  starts_wf : wf_conditions (RunStatus_Conditions (Run_Status (run s')));
  starts_status : status s' = status s;
  starts_trace : ∃ es, trace s' = trace s ++ es ∧ Forall minor es
}.

Lemma RunStatus_InitializeConditions_start t1 t2 t3 r :
  wf_conditions (RunStatus_Conditions r) → IsZero (RunStatus_StartTime r) = true →
  let r' := RunStatus_InitializeConditions t1 t2 t3 r in
  RunStatus_StartTime r' = Some t1 ∧ RunStatus_CompletionTime r' = RunStatus_CompletionTime r ∧
  RunStatus_ExtraFields r' = RunStatus_ExtraFields r ∧
  forget_time <$> Succeeded r' = Some (forget_time (started_condition (Succeeded r))).
Proof.
  intros Hwf Hz. cbv zeta. unfold RunStatus_InitializeConditions. rewrite Hz.
  set (cs := InitializeConditions t2 (RunStatus_Conditions r)).
  change (RunStatus_Conditions (set_StartTime (Some t1) r)) with (RunStatus_Conditions r). fold cs.
  assert (wf_conditions cs) as Hcs.
  { subst cs. unfold InitializeConditions. case_match; [done|]. by apply wf_SetCondition. }
  assert (∃ c, GetCondition cs ConditionSucceeded = Some c ∧
    forget_time (set_Reason "Started" c) = forget_time (started_condition (Succeeded r))) as (c & Hc & Heq).
  { subst cs. unfold InitializeConditions, started_condition, Succeeded.
    destruct (GetCondition (RunStatus_Conditions r) ConditionSucceeded) as [c|] eqn:Hc; [by exists c|].
    rewrite GetCondition_SetCondition, bool_decide_true by done. eexists. split; [done|].
    unfold stored_condition. cbn [Condition_Type]. by rewrite Hc. }
  assert (Succeeded (set_Conditions cs (set_StartTime (Some t1) r)) = Some c) as -> by done.
  split_and!; [done..|]. unfold Succeeded at 1. cbn [RunStatus_Conditions set_Conditions].
  pose proof (GetCondition_Some _ _ _ Hc) as [_ Hty].
  rewrite GetCondition_SetCondition, bool_decide_true by done. cbn [fmap option_fmap option_map].
  by rewrite forget_stored_condition, Heq.
Qed.

(** The state [startRun] is in before it emits the events. *)
Definition initialized (s : State) : State :=
  let r := RunStatus_InitializeConditions (now (tick s)) (now (S (tick s))) (now (S (S (tick s)))) (Run_Status (run s)) in
  {| run := set_Run_Status (set_StartTime (Some (start_time (now (tick s)) (run s))) r) (run s);
     status := status s; tick := S (S (S (tick s))); trace := trace s |}.

Lemma startRun_initialized s :
  wf_conditions (RunStatus_Conditions (Run_Status (run s))) → Run_HasStarted (run s) = false →
  wp startRun s (λ _ s',
    (Emit None (Succeeded (Run_Status (run (initialized s)))) (initialized s)).2 = s').
Proof.
  intros Hwf Hns. unfold startRun. wp_steps.
  assert (IsZero (RunStatus_StartTime (Run_Status (run s))) = true) as Hz.
  { unfold Run_HasStarted in Hns. by apply negb_false_iff in Hns. }
  destruct (RunStatus_InitializeConditions_start (now (tick s)) (now (S (tick s))) (now (S (S (tick s)))) _ Hwf Hz)
    as (Ht & _).
  cbn [run with_run advance Run_Status set_Run_Status Run_ObjectMeta tick]. rewrite Ht.
  cbn [default from_option id]. unfold initialized, start_time.
  set (rs := RunStatus_InitializeConditions _ _ _ _) in *.
  set (t1 := now (tick s)) in *. set (t2 := ObjectMeta_CreationTimestamp (Run_ObjectMeta (run s))).
  case_bool_decide as Hlt; rewrite Sub_negative in Hlt; wp_steps.
  - rewrite (Z.max_r t1 t2) by lia. done.
  - rewrite (Z.max_l t1 t2) by lia. destruct rs. cbn in *. rewrite Ht. done.
Qed.

Lemma startRun_starts s :
  wf_conditions (RunStatus_Conditions (Run_Status (run s))) → Run_HasStarted (run s) = false →
  wp startRun s (λ _ s', starts s s').
Proof.
  intros Hwf Hns. eapply wp_mono; [by apply startRun_initialized|]. cbv beta. intros _ s' <-.
  pose proof (Emit_emits None (Succeeded (Run_Status (run (initialized s)))) (initialized s)) as (es & Hes & Hr & Hst & Htr).
  assert (IsZero (RunStatus_StartTime (Run_Status (run s))) = true) as Hz.
  { unfold Run_HasStarted in Hns. by apply negb_false_iff in Hns. }
  destruct (RunStatus_InitializeConditions_start (now (tick s)) (now (S (tick s))) (now (S (S (tick s)))) _ Hwf Hz)
    as (_ & Hct & Hex & Hc).
  constructor; rewrite ?Hr, ?Hst, ?Htr; try done.
  - by apply wf_RunStatus_InitializeConditions.
  - by exists es.
Qed.

Lemma starts_IsDone s s' : starts s s' → Run_IsDone (run s') = Run_IsDone (run s).
Proof.
  intros []. rewrite Run_IsDone_forget, starts_condition0. unfold Run_IsDone.
  by destruct (Succeeded (Run_Status (run s))).
Qed.

(** ** Extra fields *)
Record decoded (s s' : State) : Prop := {
  decoded_same : same_Run (run s) (run s');
  decoded_ExtraFields : RunStatus_ExtraFields (Run_Status (run s')) = RunStatus_ExtraFields (Run_Status (run s));
  decoded_wf : wf_conditions (RunStatus_Conditions (Run_Status (run s')));
  decoded_wf_Run : wf_Run (run s) → wf_Run (run s');
  decoded_status : status s' = (DecodeExtraFields (Run_Status (run s)) (status s)).1;
  decoded_Run : (DecodeExtraFields (Run_Status (run s)) (status s)).2 = None → run s' = run s ∧ tick s' = tick s;
  decoded_trace : trace s' = trace s
}.

Lemma decodeStatus_decoded s :
  wf_conditions (RunStatus_Conditions (Run_Status (run s))) → wp decodeStatus s (λ _ s', decoded s s').
Proof.
  intros Hwf. unfold decodeStatus. wp_steps.
  destruct (DecodeExtraFields (Run_Status (run s)) (status s)) as [st [err|]] eqn:Hdec; wp_steps.
  - apply wp_markRunFailed. constructor; rewrite ?Hdec; try done; cbn; [by apply wf_MarkRunFailed|].
    intros _. by apply MarkRunFailed_done.
  - constructor; rewrite ?Hdec; try done; by cbn.
Qed.

Record encoded (s s' : State) : Prop := {
  encoded_same : same_Run (run s) (run s');
  encoded_wf : wf_conditions (RunStatus_Conditions (Run_Status (run s')));
  encoded_wf_Run : wf_Run (run s) → wf_Run (run s');
  encoded_status : status s' = status s;
  encoded_IsDone : Run_IsDone (run s) = true → Run_IsDone (run s') = true;
  encoded_Run : match encode_status (status s) with
                | inr raw => run s' = set_Run_Status (set_ExtraFields raw (Run_Status (run s))) (run s)
                | inl _ => Run_IsDone (run s') = true
                end;
  encoded_trace : trace s' = trace s
}.

Lemma encodeStatus_encoded s :
  wf_conditions (RunStatus_Conditions (Run_Status (run s))) → wp encodeStatus s (λ _ s', encoded s s').
Proof.
  intros Hwf. unfold encodeStatus. wp_steps. destruct (encode_status (status s)) as [err|raw] eqn:Henc.
  - apply wp_markRunFailed. constructor; rewrite ?Henc; try done; cbn; [by apply wf_MarkRunFailed|..];
      intros; by apply MarkRunFailed_done.
  - wp_steps. constructor; rewrite ?Henc; try done. intros []. by constructor.
Qed.

(** ** The phases together *)

(** A verdict that is not final leaves the Run as done as it was. *)
Lemma realizes_IsDone s v es st e s' :
  realizes s v es st e s' →
  Run_IsDone (run s') = match verdict_condition (run s) v with
                        | Some _ => final (run s) v
                        | None => Run_IsDone (run s)
                        end.
Proof.
  intros Hr. pose proof (realizes_condition _ _ _ _ _ _ Hr) as Hc. unfold final.
  destruct (verdict_condition (run s) v) as [c|].
  - by rewrite Run_IsDone_forget, Hc.
  - unfold Run_IsDone, Succeeded. by rewrite Hc.
Qed.

Lemma moved_back_Some s :
  is_Some (RunStatus_CompletionTime (Run_Status (run s))) → is_Some (moved_back s).
Proof. intros H. unfold moved_back. destruct (found s) as [|[|? []]]; try done. case_match; [by eexists|done]. Qed.

Lemma realizes_wf_Run s v es st e s' : realizes s v es st e s' → wf_Run (run s) → wf_Run (run s').
Proof.
  intros Hr [_ Hdone]. constructor; [apply (realizes_wf _ _ _ _ _ _ Hr)|].
  rewrite (realizes_IsDone _ _ _ _ _ _ Hr), (realizes_CompletionTime _ _ _ _ _ _ Hr).
  pose proof (realizes_condition _ _ _ _ _ _ Hr) as Hc. unfold final.
  destruct (verdict_condition (run s) v) as [c|].
  - destruct (negb _); [|done]. intros _. apply fmap_is_Some. apply fmap_Some in Hc as (c' & Hc' & _). by exists c'.
  - intros Hd. by apply moved_back_Some, Hdone.
Qed.

Lemma wf_Run_starts s s' : starts s s' → wf_Run (run s) → wf_Run (run s').
Proof.
  intros Hs [_ Hdone]. constructor; [apply (starts_wf _ _ Hs)|].
  rewrite (starts_IsDone _ _ Hs), (starts_CompletionTime _ _ Hs). done.
Qed.

(** The state in which a Run is reconciled: started, if it was not. *)
Definition begins (s s' : State) : Prop :=
  if Run_HasStarted (run s) then s' = s else starts s s'.

(** The controller is responsible for the Run. *)
Definition responsible (r : Run) : bool := FilterRunRef SchemeGroupVersion TaskGroupControllerName r.

Lemma referenced_responsible r :
  bool_decide ((referenced r).1 ≠ SchemeGroupVersion) || bool_decide ((referenced r).2 ≠ TaskGroupControllerName) =
  negb (responsible r).
Proof.
  unfold referenced, responsible, FilterRunRef.
  destruct (RunSpec_Ref (Run_Spec r)) as [ref|]; [|destruct (RunSpec_Spec (Run_Spec r)) as [e|]; [|done]]; cbn [fst snd];
    repeat case_bool_decide; naive_solver.
Qed.

Lemma ReconcileKind_inert s :
  responsible (run s) = false ∨ Run_HasStarted (run s) = true ∧ Run_IsDone (run s) = true →
  ReconcileKind s = (None, s).
Proof.
  intros H. unfold ReconcileKind, bind at 1, get_run at 1.
  pose proof (referenced_responsible (run s)) as Href.
  destruct (referenced (run s)) as [apiVersion kind]. cbn [fst snd] in Href. rewrite Href.
  destruct (responsible (run s)); cbn [negb]; [|done].
  destruct H as [|[Hst Hd]]; [done|]. unfold bind, get_run. rewrite Hst. cbn [negb ret]. by rewrite Hd.
Qed.

Lemma begins_wf s s' :
  begins s s' → wf_conditions (RunStatus_Conditions (Run_Status (run s))) →
  wf_conditions (RunStatus_Conditions (Run_Status (run s'))).
Proof. unfold begins. destruct (Run_HasStarted (run s)); [by intros ->|]. intros Hs _. apply (starts_wf _ _ Hs). Qed.

(** [ReconcileKind] on every branch. *)
Lemma ReconcileKind_phases s (Q : option error → State → Prop) :
  wf_conditions (RunStatus_Conditions (Run_Status (run s))) →
  (responsible (run s) = false → Q None s) →
  (responsible (run s) = true → ∀ s1, begins s s1 →
    if Run_IsDone (run s1) then Q None s1
    else ∀ s2 e s3 e' s4 s5 s6, decoded s1 s2 → reaches_verdict s2 e s3 → emits s3 s4 → encoded s4 s5 → emits s5 s6 →
      (is_Some e → is_Some e') → Q e' s6) →
  wp ReconcileKind s Q.
Proof.
  intros Hwf Hforeign Hmine. unfold ReconcileKind. wp_steps.
  pose proof (referenced_responsible (run s)) as Href. destruct (referenced (run s)) as [apiVersion kind].
  cbn [fst snd] in Href. rewrite Href. destruct (responsible (run s)); cbn [negb]; wp_steps; [|by apply Hforeign].
  specialize (Hmine eq_refl).
  apply (wp_mono _ _ (λ _ s1, begins s s1)).
  { unfold begins. destruct (Run_HasStarted (run s)) eqn:Hst; cbn [negb]; wp_steps; [done|]. by apply startRun_starts. }
  intros [] s1 Hs1. wp_steps. specialize (Hmine s1 Hs1). destruct (Run_IsDone (run s1)); [done|].
  pose proof (begins_wf _ _ Hs1 Hwf) as Hwf1. unfold reconcileRunning. wp_steps.
  eapply wp_mono; [by apply decodeStatus_decoded|]. cbv beta. intros [] s2 Hs2. wp_steps.
  eapply wp_mono; [apply reconcile_verdict; apply Hs2|]. cbv beta. intros e s3 Hs3. wp_steps.
  eapply wp_mono; [apply updateLabelsAndAnnotations_emits|]. cbv beta. intros e1 s4 Hs4. wp_steps.
  assert (wf_conditions (RunStatus_Conditions (Run_Status (run s4)))) as Hwf4.
  { destruct Hs4 as (es & _ & Hr & _). rewrite Hr. destruct Hs3 as (v & es' & st & _ & Hv). apply Hv. }
  eapply wp_mono; [by apply encodeStatus_encoded|]. cbv beta. intros [] s5 Hs5. wp_steps.
  eapply wp_mono; [apply Emit_emits|]. cbv beta. intros [] s6 Hs6. wp_steps.
  eapply Hmine; [done..|]. intros [e0 ->]. destruct e1; by eexists.
Qed.

(** ** The creation of a TaskRun *)

(** The TaskRun a Run asks for: its name, its task and its metadata. *)
Definition requested (r : Run) (tr : TaskRun) : Prop :=
  ∃ meta spec used ts n,
    TaskGroupSpec_Validate spec = None ∧
    uses_fetched r 0 (V1alpha1.TaskGroupSpec_Steps spec) ∅ used ∧
    resolveTaskSpec spec used = (ts, None) ∧
    tr = newTaskRun (propagateTaskGroupLabelsAndAnnotations r meta) (rand_String n randomLength) ts.

Lemma requested_Status st r tr : requested (set_Run_Status st r) tr → requested r tr.
Proof.
  intros (meta & spec & used & ts & n & Hv & Hu & Hts & ->). exists meta, spec, used, ts, n.
  split_and!; try done. by eapply uses_fetched_Status.
Qed.

(** The effects of a verdict: nothing is created, or the TaskRun that the Run
    asks for. *)
Lemma judges_creations s v es st :
  judges s v es st →
  creations es = [] ∧ (is_Some (TaskGroupRunStatus_TaskRun (status s)) → is_Some st) ∨
  ∃ tr, creations es = [(namespace (run s), tr)] ∧ requested (run s) tr ∧ found s = inr [] ∧
    TaskGroupRunStatus_TaskRun (status s) = None ∧
    (is_Some st ∨ final (run s) v = true ∧ ∃ n err, TaskRuns_Create n (namespace (run s)) tr = inl err).
Proof.
  assert (∀ meta spec x es, TaskGroupSpec_Validate spec = None →
    creates (propagateTaskGroupLabelsAndAnnotations (run s) meta) spec x es →
    creations es = [] ∨ ∃ tr, creations es = [(namespace (run s), tr)] ∧ requested (run s) tr ∧
      ∃ n, TaskRuns_Create n (namespace (run s)) tr = x) as Hcreates.
  { intros meta spec x es' Hv Hc. inversion Hc; subst; [by left..|right]. eexists. split; [done|].
    split; [|by exists m]. exists meta, spec, used, ts, n. split_and!; try done.
    by eapply (uses_fetched_propagated (run s) meta). }
  destruct 1; try (by left); try (left; split; [apply creations_cancel_effects|by eexists]).
  - destruct (Hcreates _ _ _ _ H0 H3) as [He|(tr' & He & Hr & _)]; [left|right].
    + split; [done|]. by eexists.
    + exists tr'. split_and!; try done. left. by eexists.
  - destruct (Hcreates _ _ _ _ H0 H3) as [He|(tr' & He & Hr & n & Hn)]; [left|right].
    + split; [done|]. by rewrite H2.
    + exists tr'. split_and!; try done. right. split; [done|]. by eexists _, _.
Qed.

(** A TaskRun is recorded in the extra fields of the Run. *)
Definition records_TaskRun (r : Run) : Prop :=
  is_Some (TaskGroupRunStatus_TaskRun (DecodeExtraFields (Run_Status r) zero_TaskGroupRunStatus).1).

(** What a reconciliation creates. The law of the codec: what is encoded with
    a TaskRun is not empty, and it is decoded with a TaskRun. *)
Definition keeps_TaskRun : Prop := ∀ st raw,
  encode_status st = inr raw → is_Some (TaskGroupRunStatus_TaskRun st) →
  raw ≠ "" ∧ is_Some (TaskGroupRunStatus_TaskRun (decode_status raw zero_TaskGroupRunStatus).1).

Lemma records_encode_status s s' raw :
  keeps_TaskRun → encoded s s' → encode_status (status s) = inr raw → is_Some (TaskGroupRunStatus_TaskRun (status s)) →
  records_TaskRun (run s').
Proof.
  intros Hlaw He Henc Hst. pose proof (encoded_Run _ _ He) as Hr. rewrite Henc in Hr.
  destruct (Hlaw _ _ Henc Hst) as [Hne Hdec]. rewrite Hr. unfold records_TaskRun, DecodeExtraFields. cbn.
  rewrite bool_decide_false; [done|]. by destruct raw.
Qed.

Lemma records_encoded s s' :
  keeps_TaskRun → encoded s s' → is_Some (TaskGroupRunStatus_TaskRun (status s)) ∨ Run_IsDone (run s) = true →
  Run_IsDone (run s') = true ∨ records_TaskRun (run s').
Proof.
  intros Hlaw He [Hst|Hd]; [|left; by apply (encoded_IsDone _ _ He)].
  pose proof (encoded_Run _ _ He) as Hr. destruct (encode_status (status s)) as [err|raw] eqn:Henc; [by left|right].
  by eapply records_encode_status.
Qed.

(** The API server creates what it is asked to, and the record is encoded. *)
Definition nothing_fails : Prop :=
  (∀ n ns tr, ∃ tr', TaskRuns_Create n ns tr = inr tr') ∧ (∀ st, ∃ raw, encode_status st = inr raw).

Definition creates_nothing (s s' : State) : Prop := creations (trace s') = creations (trace s).

Definition creates_one (s s' : State) : Prop :=
  ∃ tr n, creations (trace s') = creations (trace s) ++ [(namespace (run s), tr)] ∧ requested (run s) tr ∧
    TaskRuns_List n (namespace (run s)) (getTaskRunLabels (run s) false) = inr [] ∧
    responsible (run s) = true ∧ Run_IsDone (run s) = false.

Lemma creations_emits s s' : emits s s' → creations (trace s') = creations (trace s).
Proof. intros (es & Hes & _ & _ & ->). by rewrite creations_app, (creations_minor es), app_nil_r. Qed.

Lemma begins_keeps s s' :
  begins s s' →
  Run_ObjectMeta (run s') = Run_ObjectMeta (run s) ∧ Run_Spec (run s') = Run_Spec (run s) ∧
  Run_IsDone (run s') = Run_IsDone (run s) ∧
  RunStatus_ExtraFields (Run_Status (run s')) = RunStatus_ExtraFields (Run_Status (run s)) ∧
  status s' = status s ∧ creations (trace s') = creations (trace s).
Proof.
  unfold begins. destruct (Run_HasStarted (run s)); [by intros ->|]. intros Hs.
  destruct (starts_trace _ _ Hs) as (es & Htr & Hes).
  split_and!; try apply Hs; [by apply starts_IsDone|]. by rewrite Htr, creations_app, (creations_minor es), app_nil_r.
Qed.

Lemma same_meta_run r r' : Run_ObjectMeta r' = Run_ObjectMeta r → Run_Spec r' = Run_Spec r → r' = set_Run_Status (Run_Status r') r.
Proof. destruct r, r'. cbn. by intros -> ->. Qed.

(** One reconciliation creates at most one TaskRun, none when one is recorded,
    and then the Run is done or one is recorded. *)
Lemma ReconcileKind_creations s :
  wf_conditions (RunStatus_Conditions (Run_Status (run s))) →
  wp ReconcileKind s (λ _ s',
    creates_nothing s s' ∧
      (keeps_TaskRun → status s = zero_TaskGroupRunStatus →
       Run_IsDone (run s) = true ∨ records_TaskRun (run s) → Run_IsDone (run s') = true ∨ records_TaskRun (run s')) ∧
      (keeps_TaskRun → nothing_fails → status s = zero_TaskGroupRunStatus →
       records_TaskRun (run s) → records_TaskRun (run s')) ∨
    creates_one s s' ∧
      (status s = zero_TaskGroupRunStatus → ¬ records_TaskRun (run s)) ∧
      (keeps_TaskRun → Run_IsDone (run s') = true ∨ records_TaskRun (run s')) ∧
      (keeps_TaskRun → nothing_fails → records_TaskRun (run s'))).
Proof.
  intros Hwf. apply ReconcileKind_phases; [done|by left|]. intros Hmine s1 Hs1.
  apply begins_keeps in Hs1 as (Hm1 & Hsp1 & Hd1 & Hex1 & Hst1 & Htr1).
  destruct (Run_IsDone (run s1)) eqn:Hd.
  { left. split_and!; [done|left; congruence|]. intros _ _ _. unfold records_TaskRun, DecodeExtraFields. by rewrite Hex1. }
  intros s2 e s3 e' s4 s5 s6 H2 (v & es & st & Hj & H3) H4 H5 H6 _.
  pose proof (decoded_same _ _ H2) as (Hm2 & Hsp2 & _).
  assert (run s2 = set_Run_Status (Run_Status (run s2)) (run s)) as Hr2 by (apply same_meta_run; congruence).
  assert (creations (trace s6) = creations (trace s) ++ creations es) as Htr.
  { rewrite (creations_emits _ _ H6), (encoded_trace _ _ H5), (creations_emits _ _ H4), (realizes_trace _ _ _ _ _ _ H3),
      creations_app, (decoded_trace _ _ H2). by rewrite Htr1. }
  assert (keeps_TaskRun → is_Some st ∨ final (run s2) v = true → Run_IsDone (run s6) = true ∨ records_TaskRun (run s6)) as Hrec.
  { intros Hlaw Hst. destruct H6 as (_ & _ & -> & _). eapply records_encoded; [done..|].
    destruct H4 as (_ & _ & -> & -> & _). rewrite (realizes_status _ _ _ _ _ _ H3), (realizes_IsDone _ _ _ _ _ _ H3).
    destruct Hst as [Hst|Hfin]; [by left|right]. unfold final in *. by destruct (verdict_condition (run s2) v). }
  assert (keeps_TaskRun → nothing_fails → is_Some st → records_TaskRun (run s6)) as Hrec'.
  { intros Hlaw [_ Henc] Hst. destruct H6 as (_ & _ & -> & _), H4 as (_ & _ & _ & Hs4 & _).
    destruct (Henc (status s4)) as [raw Hraw]. eapply records_encode_status; [done..|].
    by rewrite Hs4, (realizes_status _ _ _ _ _ _ H3). }
  assert (TaskGroupRunStatus_TaskRun (status s2) = TaskGroupRunStatus_TaskRun (DecodeExtraFields (Run_Status (run s)) (status s)).1) as Hst2.
  { rewrite (decoded_status _ _ H2), Hst1. unfold DecodeExtraFields. by rewrite Hex1. }
  apply judges_creations in Hj as [[He Hst]|(tr & He & Hreq & Hf & Hnone & Hst)]; [left|right].
  - assert (status s = zero_TaskGroupRunStatus → records_TaskRun (run s) → is_Some st) as Hst'.
    { intros Hz Hr. apply Hst. unfold records_TaskRun in Hr. by rewrite Hst2, Hz. }
    split_and!; [unfold creates_nothing; by rewrite Htr, He, app_nil_r| |].
    + intros Hlaw Hz [Hdone|Hr]; [congruence|]. apply Hrec; [done|]. left. by apply Hst'.
    + intros Hlaw Hok Hz Hr. apply Hrec'; [done..|]. by apply Hst'.
  - rewrite Hr2 in Hreq. apply requested_Status in Hreq.
    split; [|split; [|split]].
    + assert (namespace (run s2) = namespace (run s)) as Hns by by rewrite Hr2.
      exists tr, (list_tick s2). rewrite Htr, He, <-Hns. unfold found in Hf. rewrite Hr2 in Hf at 2.
      split_and!; try done; congruence.
    + intros Hz Hr. unfold records_TaskRun in Hr. rewrite <-Hz, <-Hst2, Hnone in Hr. by destruct Hr.
    + intros Hlaw. apply Hrec; [done|]. destruct Hst as [|[]]; auto.
    + intros Hlaw Hok. apply Hrec'; [done..|]. destruct Hst as [|(_ & m & err & Herr)]; [done|].
      destruct Hok as [Hc _]. destruct (Hc m (namespace (run s2)) tr) as [tr' Htr']. congruence.
Qed.

Lemma ReconcileKind_wf s :
  wf_conditions (RunStatus_Conditions (Run_Status (run s))) →
  wp ReconcileKind s (λ _ s', wf_conditions (RunStatus_Conditions (Run_Status (run s')))).
Proof.
  intros Hwf. apply ReconcileKind_phases; [done..|]. intros _ s1 Hs1. pose proof (begins_wf _ _ Hs1 Hwf) as Hwf1.
  destruct (Run_IsDone (run s1)); [done|]. intros s2 e s3 e' s4 s5 s6 _ _ _ H5 (_ & _ & -> & _) _. apply H5.
Qed.

(** What of a Run a reconciliation keeps. *)
Definition keeps (r r' : Run) : Prop :=
  Run_Spec r' = Run_Spec r ∧
  ObjectMeta_Name (Run_ObjectMeta r') = ObjectMeta_Name (Run_ObjectMeta r) ∧
  ObjectMeta_Namespace (Run_ObjectMeta r') = ObjectMeta_Namespace (Run_ObjectMeta r) ∧
  ObjectMeta_UID (Run_ObjectMeta r') = ObjectMeta_UID (Run_ObjectMeta r) ∧
  ObjectMeta_Generation (Run_ObjectMeta r') = ObjectMeta_Generation (Run_ObjectMeta r) ∧
  (Run_HasStarted r = true → RunStatus_StartTime (Run_Status r') = RunStatus_StartTime (Run_Status r)) ∧
  (Run_IsDone r = true → Run_IsDone r' = true).

Lemma ReconcileKind_keeps s :
  wf_Run (run s) → wp ReconcileKind s (λ _ s', wf_Run (run s') ∧ keeps (run s) (run s')).
Proof.
  intros Hwf. apply ReconcileKind_phases;
    [apply Hwf|by split; [|by unfold keeps; split_and!]|].
  intros _ s1 Hs1.
  assert (wf_Run (run s1) ∧ keeps (run s) (run s1)) as (Hwf1 & Hk1).
  { unfold begins in Hs1. destruct (Run_HasStarted (run s)) eqn:Hst; [subst s1; by split; [|by unfold keeps; split_and!]|].
    split; [by eapply wf_Run_starts|]. unfold keeps.
    rewrite (starts_Spec _ _ Hs1), (starts_ObjectMeta _ _ Hs1), (starts_IsDone _ _ Hs1), Hst. by split_and!. }
  destruct (Run_IsDone (run s1)) eqn:Hd; [done|].
  intros s2 e s3 e' s4 s5 s6 H2 (v & es & st & _ & H3) (_ & _ & H4 & _) H5 (_ & _ & H6 & _) _.
  pose proof (decoded_same _ _ H2) as (Hm2 & Hsp2 & Ht2). pose proof (encoded_same _ _ H5) as (Hm5 & Hsp5 & Ht5).
  destruct Hk1 as (Hsp1 & Hn1 & Hns1 & Hu1 & Hg1 & Ht1 & Hd1). rewrite H6. split.
  - apply (encoded_wf_Run _ _ H5). rewrite H4. eapply realizes_wf_Run; [done|]. by apply (decoded_wf_Run _ _ H2).
  - unfold keeps. rewrite Hm5, Hsp5, Ht5, H4, (realizes_ObjectMeta _ _ _ _ _ _ H3), (realizes_Spec _ _ _ _ _ _ H3),
      (realizes_StartTime _ _ _ _ _ _ H3), propagated_Name, propagated_Namespace, propagated_UID, propagated_Generation, Hm2, Hsp2, Ht2.
    split_and!; [done..|]. intros Hdone. apply Hd1 in Hdone. congruence.
Qed.

(** ** The TaskRuns that are found *)
Lemma made_for_selected r r0 m :
  made_for r m → ObjectMeta_Name (Run_ObjectMeta r) = ObjectMeta_Name (Run_ObjectMeta r0) →
  selector_matches (getTaskRunLabels r0 false) (ObjectMeta_Labels m) = true.
Proof.
  intros Hm Hname. apply bool_decide_eq_true_2. etrans; [|exact (made_labels _ _ Hm)]. unfold getTaskRunLabels. rewrite Hname.
  apply insert_mono, map_empty_subseteq.
Qed.

Lemma newTaskRun_selected r r0 suffix ts :
  ObjectMeta_Name (Run_ObjectMeta r) = ObjectMeta_Name (Run_ObjectMeta r0) →
  selector_matches (getTaskRunLabels r0 false) (ObjectMeta_Labels (TaskRun_ObjectMeta (newTaskRun r suffix ts))) = true.
Proof. apply made_for_selected, newTaskRun_made_for. Qed.

(** A TaskRun that was created for the Run is listed. *)
Lemma TaskRuns_List_created n cache tr r r0 :
  TaskRuns_cache n = inr cache → tr ∈ cache → made_for r (TaskRun_ObjectMeta tr) →
  ObjectMeta_Name (Run_ObjectMeta r) = ObjectMeta_Name (Run_ObjectMeta r0) → namespace r = namespace r0 →
  TaskRuns_List n (namespace r0) (getTaskRunLabels r0 false) ≠ inr [].
Proof.
  intros Hc Hin Hm Hname Hns Hlist. unfold TaskRuns_List in Hlist. rewrite Hc in Hlist. cbn in Hlist.
  injection Hlist as Hlist. rewrite ListAllByNamespace_selected in Hlist.
  apply (not_elem_of_nil tr). rewrite <-Hlist. apply list_elem_of_filter. split; [|done].
  split; [right; rewrite (made_namespace _ _ Hm); exact Hns|]. by eapply made_for_selected.
Qed.
End phases.
