(* ===== verification/ReconcilerExample.v ===== *)
(** A small cluster, a TaskGroup and Runs of it, to evaluate the reconciler
    on. The codec of the extra fields keeps whether a TaskRun is recorded. *)
From S2P Require Import Prelude GoStrings FieldErrors Types Substitution StepMerge Resolve.
From S2P Require Import Validation Conditions RunTypes Listers Cluster Reconciler.

Module Sample.

Definition container (name image : string) : CoreV1.Container := {|
  CoreV1.Container_Name := name; CoreV1.Container_Image := image; CoreV1.Container_Command := None;
  CoreV1.Container_Args := None; CoreV1.Container_WorkingDir := ""; CoreV1.Container_Ports := [];
  CoreV1.Container_EnvFrom := []; CoreV1.Container_Env := []; CoreV1.Container_Resources := JObj [];
  CoreV1.Container_VolumeMounts := []; CoreV1.Container_VolumeDevices := [];
  CoreV1.Container_LivenessProbe := None; CoreV1.Container_ReadinessProbe := None;
  CoreV1.Container_StartupProbe := None; CoreV1.Container_Lifecycle := None;
  CoreV1.Container_TerminationMessagePath := ""; CoreV1.Container_TerminationMessagePolicy := "";
  CoreV1.Container_ImagePullPolicy := ""; CoreV1.Container_SecurityContext := None;
  CoreV1.Container_Stdin := false; CoreV1.Container_StdinOnce := false; CoreV1.Container_TTY := false |}.

(** A step of its own, and one that uses a task. *)
Definition own_step : V1alpha1.Step := {|
  V1alpha1.Step_Step := {| V1beta1.Step_Container := container "hello" "busybox"; V1beta1.Step_Script := "true";
    V1beta1.Step_Timeout := None; V1beta1.Step_Workspaces := []; V1beta1.Step_OnError := "" |};
  V1alpha1.Step_Uses := None |}.

Definition uses_step : V1alpha1.Step := {|
  V1alpha1.Step_Step := {| V1beta1.Step_Container := container "build" ""; V1beta1.Step_Script := "";
    V1beta1.Step_Timeout := None; V1beta1.Step_Workspaces := []; V1beta1.Step_OnError := "" |};
  V1alpha1.Step_Uses := Some {|
    V1alpha1.Uses_TaskRef := {| V1beta1.TaskRef_Name := "task"; V1beta1.TaskRef_Kind := "";
      V1beta1.TaskRef_APIVersion := ""; V1beta1.TaskRef_Bundle := ""; V1beta1.TaskRef_ResolverRef := JNull |};
    V1alpha1.Uses_ParamBindings := []; V1alpha1.Uses_WorkspaceBindings := [] |} |}.

Definition group_of (steps : list V1alpha1.Step) : TaskGroup := {|
  TaskGroup_ObjectMeta := {| ObjectMeta_Name := "group"; ObjectMeta_Namespace := "ns"; ObjectMeta_UID := "g";
    ObjectMeta_ResourceVersion := ""; ObjectMeta_Generation := 0;
    ObjectMeta_CreationTimestamp := 1%Z; ObjectMeta_DeletionTimestamp := None; ObjectMeta_Labels := Some {[ "team" := "blue" ]};
    ObjectMeta_Annotations := None; ObjectMeta_OwnerReferences := []; ObjectMeta_Other := JObj [] |};
  TaskGroup_Spec := {|
    V1alpha1.TaskGroupSpec_Params := []; V1alpha1.TaskGroupSpec_Description := "";
    V1alpha1.TaskGroupSpec_Steps := steps; V1alpha1.TaskGroupSpec_Volumes := [];
    V1alpha1.TaskGroupSpec_StepTemplate := None; V1alpha1.TaskGroupSpec_Sidecars := [];
    V1alpha1.TaskGroupSpec_Workspaces := []; V1alpha1.TaskGroupSpec_Results := [] |} |}.

Definition group : TaskGroup := group_of [own_step; uses_step].

Definition task : V1beta1.TaskSpec := {|
  V1beta1.TaskSpec_Resources := None; V1beta1.TaskSpec_Params := []; V1beta1.TaskSpec_Description := "";
  V1beta1.TaskSpec_Steps := [V1alpha1.Step_Step own_step]; V1beta1.TaskSpec_Volumes := [];
  V1beta1.TaskSpec_StepTemplate := None; V1beta1.TaskSpec_Sidecars := [];
  V1beta1.TaskSpec_Workspaces := []; V1beta1.TaskSpec_Results := [] |}.

(** A Run that refers to the group, with a status. *)
Definition run_of (kind cancelled : string) (rs : RunStatus) : Run := {|
  Run_ObjectMeta := {| ObjectMeta_Name := "run"; ObjectMeta_Namespace := "ns"; ObjectMeta_UID := "r";
    ObjectMeta_ResourceVersion := "1"; ObjectMeta_Generation := 0;
    ObjectMeta_CreationTimestamp := 5%Z; ObjectMeta_DeletionTimestamp := None; ObjectMeta_Labels := None; ObjectMeta_Annotations := None;
    ObjectMeta_OwnerReferences := []; ObjectMeta_Other := JObj [] |};
  Run_Spec := {|
    RunSpec_Ref := Some {| V1beta1.TaskRef_Name := "group"; V1beta1.TaskRef_Kind := kind;
      V1beta1.TaskRef_APIVersion := SchemeGroupVersion; V1beta1.TaskRef_Bundle := "";
      V1beta1.TaskRef_ResolverRef := JNull |};
    RunSpec_Spec := None; RunSpec_Params := []; RunSpec_Status := cancelled; RunSpec_Retries := 0%Z;
    RunSpec_ServiceAccountName := "sa"; RunSpec_PodTemplate := None; RunSpec_Timeout := None;
    RunSpec_Workspaces := [] |};
  Run_Status := rs |}.

Definition new_status : RunStatus := {|
  RunStatus_ObservedGeneration := 0; RunStatus_Conditions := []; RunStatus_StartTime := None; RunStatus_CompletionTime := None;
  RunStatus_ExtraFields := ""; RunStatus_Other := JObj [] |}.

(** The status of a Run that started, with a condition. *)
Definition status_of (status reason : string) (completed : option Time) : RunStatus := {|
  RunStatus_ObservedGeneration := 0; RunStatus_Conditions := [newCondition ConditionSucceeded status reason ""]; RunStatus_StartTime := Some 7%Z;
  RunStatus_CompletionTime := completed; RunStatus_ExtraFields := ""; RunStatus_Other := JObj [] |}.

Definition new_run : Run := run_of TaskGroupControllerName "" new_status.
Definition running_run : Run := run_of TaskGroupControllerName "" (status_of ConditionUnknown "Running" None).
Definition done_run : Run := run_of TaskGroupControllerName "" (status_of ConditionTrue "Succeeded" (Some 9%Z)).

(** A Run that is done, though it has no start time. *)
Definition done_unstarted : Run := run_of TaskGroupControllerName "" {|
  RunStatus_ObservedGeneration := 0; RunStatus_Conditions := [newCondition ConditionSucceeded ConditionTrue "Succeeded" ""];
  RunStatus_StartTime := None; RunStatus_CompletionTime := Some 9%Z; RunStatus_ExtraFields := ""; RunStatus_Other := JObj [] |}.

(** The TaskRun of a Run, with the status of its condition. *)
Definition taskrun_of (r : Run) (status : string) : TaskRun := {|
  TaskRun_ObjectMeta := TaskRun_ObjectMeta (newTaskRun r "abcde" task);
  TaskRun_Spec := TaskRun_Spec (newTaskRun r "abcde" task);
  TaskRun_Status := {| TaskRunStatus_Conditions := [newCondition ConditionSucceeded status "" ""];
                       TaskRunStatus_Other := JObj [] |} |}.

(** A TaskRun as the API server has it after its creation, with a uid, a version,
    a time and the fields that others manage. *)
Definition on_server (tr : TaskRun) : TaskRun := {|
  TaskRun_ObjectMeta :=
    let m := TaskRun_ObjectMeta tr in {|
    ObjectMeta_Name := ObjectMeta_Name m; ObjectMeta_Namespace := ObjectMeta_Namespace m; ObjectMeta_UID := "t";
    ObjectMeta_ResourceVersion := "3"; ObjectMeta_Generation := 1; ObjectMeta_CreationTimestamp := 9%Z;
    ObjectMeta_DeletionTimestamp := None;
    ObjectMeta_Labels := Some (<["app.kubernetes.io/managed-by" := "tekton-pipelines"]> (entries (ObjectMeta_Labels m)));
    ObjectMeta_Annotations := ObjectMeta_Annotations m; ObjectMeta_OwnerReferences := ObjectMeta_OwnerReferences m;
    ObjectMeta_Other := JObj [("managedFields", JNull)] |};
  TaskRun_Spec := TaskRun_Spec tr; TaskRun_Status := TaskRun_Status tr |}.

Definition recorded (t : option TaskRunStatus) : TaskGroupRunStatus :=
  {| TaskGroupRunStatus_TaskGroupSpec := None; TaskGroupRunStatus_TaskRun := t |}.

(** A cluster, given the group, the cache of TaskRuns and the lister's copy of
    the Run. *)
Definition cluster (found : fallible TaskGroup) (cache : nat → list TaskRun) (listed : Run) : Cluster := {|
  now n := Z.of_nat n;
  TaskGroups_Get _ _ _ := found;
  Tasks_Get _ _ _ := inr task;
  ClusterTasks_Get _ _ := inr task;
  Bundles_Get _ _ _ _ _ _ := inr task;
  EnableTektonOCIBundles := false;
  DefaultCloudEventsSink := "";
  TaskRuns_cache n := inr (cache n);
  Runs_lister_Get _ _ _ := inr listed;
  TaskRuns_Create _ _ tr := inr tr;
  TaskRuns_Patch _ _ _ := None;
  Runs_Patch _ _ _ _ _ := None;
  rand_String _ n := take_bytes n "abcdefghijklmnopqrstuvwxyz";
  decode_status raw into :=
    (recorded (if bool_decide (raw = "{}") then None
               else Some {| TaskRunStatus_Conditions := []; TaskRunStatus_Other := JObj [] |}), None);
  encode_status st := inr (match TaskGroupRunStatus_TaskRun st with None => "{}" | Some _ => "{taskRun}" end);
  decode_TaskGroupSpec _ := inl (errorString "no embedded spec");
  GoSyntax := error_text
|}.

(** The start of a reconciliation. *)
Definition at_start (r : Run) : State := {| run := r; status := zero_TaskGroupRunStatus; tick := 0; trace := [] |}.

(** The lister's copy of a Run after the propagation, without annotations. *)
Definition listed_copy : Run :=
  set_Run_ObjectMeta (set_Labels_Annotations
    (Some {[ "team" := "blue"; "custom.tekton.dev/taskGroup" := "group" ]}) None (Run_ObjectMeta running_run))
    running_run.

(** A cluster with the group, and the TaskRuns of the running Run in the cache. *)
Definition with_cache (trs : list TaskRun) : Cluster := cluster (inr group) (λ _, trs) listed_copy.

Definition cancelled_run : Run := run_of TaskGroupControllerName RunSpecStatusCancelled
  (status_of ConditionUnknown "Running" None).

(** A cluster whose cache of TaskRuns stays empty. *)
Definition stale : Cluster := cluster (inr group) (λ _, []) new_run.

Definition once : State := (Reconcile (MO := canonical_order) (CM := image_merge) (CL := stale) new_run 0).2.
Definition twice : State := (Reconcile (MO := canonical_order) (CM := image_merge) (CL := stale) (run once) 20).2.

End Sample.
