(* ===== verification/ReconcilerTheorems.v ===== *)
(** The properties of the reconciler. *)
From S2P Require Import Prelude GoStrings FieldErrors Types Substitution StepMerge Resolve.
From S2P Require Import Validation Conditions RunTypes Listers Cluster Reconciler ReconcilerSpec ReconcileKind ReconcilerExample.
From Stdlib Require Import Ascii.

(** ** Specifications *)
Section definitions.
Context {MO : MapOrder} {CM : ContainerMerge} {CL : Cluster}.

(** What [reconcile] cancels: the TaskRun of a cancelled Run that still runs,
    when the TaskGroup is found and valid. *)
Definition cancelled (s : State) : list (string * string) :=
  match fetched s, found s with
  | inr (_, spec), inr [tr] =>
    match TaskGroupSpec_Validate spec with
    | None => if to_cancel (run s) tr then [(namespace (run s), ObjectMeta_Name (TaskRun_ObjectMeta tr))] else []
    | Some _ => []
    end
  | _, _ => []
  end.

(** The patch of a Run's labels and annotations. *)
Definition patch_of (m : ObjectMeta) : effect :=
  PatchRun (ObjectMeta_Namespace m) (ObjectMeta_Name m) (ObjectMeta_Labels m) (ObjectMeta_Annotations m).
End definitions.

(** ** The verdict of a reconciliation *)
Section verdicts.
Context {MO : MapOrder} {CM : ContainerMerge} {CL : Cluster}.

(** C2: [reconcile] refines its specification. From what it finds in the
    cluster, by the rules of [judges], follows a verdict, the effects on the
    cluster and the TaskRun status to record; the error it returns, the
    condition, completion time, metadata and record of the Run, and the trace
    of effects are those of the verdict, and the rest of the Run stays. *)
Theorem reconcile_refines s :
  wf_conditions (RunStatus_Conditions (Run_Status (run s))) →
  ∃ v es st, judges s v es st ∧ realizes s v es st (reconcile s).1 (reconcile s).2.
Proof. apply reconcile_verdict. Qed.

(** C17: [reconcile] cancels a TaskRun exactly when the TaskGroup is found and
    valid, the Run has exactly one TaskRun, that TaskRun is neither done nor
    cancelled, and the Run is cancelled; and then it cancels this TaskRun,
    once. *)
Theorem reconcile_cancels s :
  wf_conditions (RunStatus_Conditions (Run_Status (run s))) →
  cancellations (trace (reconcile s).2) = cancellations (trace s) ++ cancelled s.
Proof.
  intros Hwf. destruct (reconcile_verdict s Hwf) as (v & es & st & Hj & Hr).
  rewrite (realizes_trace _ _ _ _ _ _ Hr), cancellations_app. f_equal.
  assert (∀ r spec x es, creates r spec x es → cancellations es = []) as Hcreates by by destruct 1.
  unfold cancelled. destruct Hj; rewrite ?H, ?H0, ?H1; try done; try by erewrite Hcreates.
  1: by destruct (found s) as [|[|? []]].
  all: unfold cancel_effects; by destruct (to_cancel (run s) tr).
Qed.

(** The reconciler leaves alone a Run that refers to another kind of
    object, and a Run that has started and is done: it returns no error,
    changes nothing and has no effect. *)
Theorem ReconcileKind_leaves_alone s :
  FilterRunRef SchemeGroupVersion TaskGroupControllerName (run s) = false ∨
  Run_HasStarted (run s) = true ∧ Run_IsDone (run s) = true →
  ReconcileKind s = (None, s).
Proof. apply ReconcileKind_inert. Qed.

(** C36: When the TaskRun of a Run is done, the next reconciliation that finds
    the TaskGroup valid and lists the TaskRun ends the Run: it succeeds if the
    TaskRun was successful and fails otherwise, with the TaskRun's status on
    record, without an error and without an effect. *)
Theorem reconcile_finishes s meta spec tr :
  wf_conditions (RunStatus_Conditions (Run_Status (run s))) →
  fetched s = inr (meta, spec) → TaskGroupSpec_Validate spec = None →
  found s = inr [tr] → TaskRun_IsDone tr = true →
  let '(e, s') := reconcile s in
  e = None ∧ trace s' = trace s ∧
  TaskGroupRunStatus_TaskRun (status s') = Some (TaskRun_Status tr) ∧
  is_Some (RunStatus_CompletionTime (Run_Status (run s'))) ∧
  forget_time <$> Succeeded (Run_Status (run s')) = Some
    (if TaskRun_IsSuccessful tr then newCondition ConditionSucceeded ConditionTrue "Succeeded" "TaskRun succeeded"
     else newCondition ConditionSucceeded ConditionFalse "Failed" "TaskRun failed").
Proof.
  intros Hwf Hf Hv Hfound Hdone. destruct (reconcile_verdict s Hwf) as (v & es & st & Hj & Hr).
  destruct (reconcile s) as [e s']. cbn in Hr.
  assert (to_cancel (run s) tr = false) as Hnc by (unfold to_cancel; by rewrite Hdone).
  assert (v = (if TaskRun_IsSuccessful tr then Succeeded_ else Failed) ∧ es = [] ∧ st = Some (TaskRun_Status tr)) as (-> & -> & ->).
  { destruct Hj; try congruence.
    - unfold cancel_error in *. assert (tr0 = tr) as -> by congruence. by rewrite Hnc in *.
    - assert (tr0 = tr) as -> by congruence. unfold cancel_effects. rewrite Hnc, Hdone. by destruct (TaskRun_IsSuccessful tr). }
  pose proof (realizes_condition _ _ _ _ _ _ Hr) as Hc. pose proof (realizes_CompletionTime _ _ _ _ _ _ Hr) as Ht.
  rewrite (realizes_error _ _ _ _ _ _ Hr), (realizes_trace _ _ _ _ _ _ Hr), app_nil_r, (realizes_status _ _ _ _ _ _ Hr).
  destruct (TaskRun_IsSuccessful tr); cbn in Hc, Ht; (split_and!; try done);
    rewrite Ht; apply fmap_is_Some; apply fmap_Some in Hc as (c & Hc & _); by exists c.
Qed.

(** C10: ReconcileKind keeps the invariant of a Run (one condition per type;
    a Run that is done has a completion time), its spec, its name, namespace,
    uid and generation, and the start time of a Run that has started; and a Run
    that is done when it begins is done when it returns. (It is the generated
    reconciler, before it calls ReconcileKind, that opens a done Run again when
    it has a new generation: [PreProcessReconcile_reopens].) *)
Theorem ReconcileKind_invariant s :
  wf_Run (run s) → wf_Run (run (ReconcileKind s).2) ∧ keeps (run s) (run (ReconcileKind s).2).
Proof. apply ReconcileKind_keeps. Qed.
End verdicts.

(** ** The TaskRun of a Run *)
Section creation.
Context {MO : MapOrder} {CM : ContainerMerge} {CL : Cluster}.

(** A reconciliation creates at most one TaskRun. When it creates one, the
    Run is of a TaskGroup and not done, the lister found no TaskRun of it, and
    the TaskRun is the requested one: the TaskGroup is valid, each task a step
    uses was fetched, and the TaskRun embeds the task they resolve to. *)
Theorem ReconcileKind_creates_once s :
  wf_conditions (RunStatus_Conditions (Run_Status (run s))) →
  creations (trace (ReconcileKind s).2) = creations (trace s) ∨
  ∃ tr n, creations (trace (ReconcileKind s).2) = creations (trace s) ++ [(namespace (run s), tr)] ∧
    requested (run s) tr ∧
    TaskRuns_List n (namespace (run s)) (getTaskRunLabels (run s) false) = inr [] ∧
    FilterRunRef SchemeGroupVersion TaskGroupControllerName (run s) = true ∧ Run_IsDone (run s) = false.
Proof. intros Hwf. destruct (ReconcileKind_creations s Hwf) as [[H _]|[H _]]; [by left|by right]. Qed.

(** The TaskRun of a Run is the Run's: it is in the Run's namespace, the
    selector by which the Run's TaskRuns are listed matches it, the Run is its
    controller, and the informer's filter maps it back to the Run, as long as
    the Run does not have both a reference and an embedded spec. *)
Theorem newTaskRun_belongs r suffix ts (Runs_Get : string → string → fallible Run) :
  Runs_Get (namespace r) (ObjectMeta_Name (Run_ObjectMeta r)) = inr r →
  let m := TaskRun_ObjectMeta (newTaskRun r suffix ts) in
  ObjectMeta_Namespace m = namespace r ∧
  selector_matches (getTaskRunLabels r false) (ObjectMeta_Labels m) = true ∧
  GetControllerOf m = Some (NewControllerRef r) ∧
  FilterOwnerRunRef Runs_Get SchemeGroupVersion TaskGroupControllerName m =
    FilterRunRef SchemeGroupVersion TaskGroupControllerName r &&
    negb (bool_decide (is_Some (RunSpec_Ref (Run_Spec r))) && bool_decide (is_Some (RunSpec_Spec (Run_Spec r)))).
Proof.
  intros Hget. cbv zeta. pose proof (newTaskRun_controller r suffix ts) as Hc. split_and!; [done| |done|].
  - by apply newTaskRun_selected.
  - by apply FilterOwnerRunRef_controlled.
Qed.

(** While the lister returns a TaskRun that an earlier reconciliation of
    the Run created, whatever else the API server or others have set of it,
    no reconciliation creates another. *)
Theorem ReconcileKind_finds_created s r :
  wf_conditions (RunStatus_Conditions (Run_Status (run s))) →
  ObjectMeta_Name (Run_ObjectMeta r) = ObjectMeta_Name (Run_ObjectMeta (run s)) →
  namespace r = namespace (run s) →
  (∀ n, match TaskRuns_cache n with
        | inl _ => True
        | inr cache => ∃ tr, tr ∈ cache ∧ made_for r (TaskRun_ObjectMeta tr)
        end) →
  creations (trace (ReconcileKind s).2) = creations (trace s).
Proof.
  intros Hwf Hname Hns Hcache. destruct (ReconcileKind_creations s Hwf) as [[H _]|[(tr & n & _ & _ & Hl & _) _]]; [done|].
  exfalso. specialize (Hcache n). destruct (TaskRuns_cache n) as [|cache] eqn:Hn; [unfold TaskRuns_List in Hl; by rewrite Hn in Hl|].
  destruct Hcache as (tr' & Hin & Hm). by eapply (TaskRuns_List_created n cache tr' r (run s)).
Qed.

(** The name of a TaskRun fits a label: with a suffix of five bytes it has
    at most 63 bytes; it is the name of the Run, cut to 57 bytes, a dash and
    the suffix. *)
Theorem RestrictLengthWithRandomSuffix_fits base suffix :
  String.length suffix = randomLength →
  RestrictLengthWithRandomSuffix base suffix = take_bytes 57 base +:+ "-" +:+ suffix ∧
  String.length (RestrictLengthWithRandomSuffix base suffix) = Nat.min (String.length base) 57 + 6 ∧
  String.length (RestrictLengthWithRandomSuffix base suffix) ≤ maxNameLength.
Proof.
  intros Hs. assert (∀ n s, String.length (take_bytes n s) = Nat.min (String.length s) n) as Hlen.
  { induction n as [|n IH]; intros [|c s]; cbn; [done..|]. by rewrite IH. }
  assert (∀ n s, String.length s ≤ n → take_bytes n s = s) as Hall.
  { induction n as [|n IH]; intros [|c s]; cbn; intros; [done|lia|done|]. f_equal. apply IH. lia. }
  assert (RestrictLengthWithRandomSuffix base suffix = take_bytes 57 base +:+ "-" +:+ suffix) as Heq.
  { unfold RestrictLengthWithRandomSuffix, maxGeneratedNameLength, maxNameLength, randomLength.
    case_bool_decide as Hb; [done|]. cbn in Hb. rewrite Hall by lia. done. }
  assert (String.length (RestrictLengthWithRandomSuffix base suffix) = Nat.min (String.length base) 57 + 6) as Hl.
  { rewrite Heq, !length_app_string, Hlen, Hs. unfold randomLength. cbn. lia. }
  split_and!; [done..|]. rewrite Hl. unfold maxNameLength. lia.
Qed.
End creation.

(** ** Labels and annotations *)
Section labels.
Context {MO : MapOrder} {CM : ContainerMerge} {CL : Cluster}.

(** After the metadata of a TaskGroup is propagated, a Run has the label
    of its TaskGroup, the TaskGroup's other labels and its annotations, and
    those of its own that the TaskGroup does not have. *)
Theorem propagated_lookup r meta key :
  let m := Run_ObjectMeta (propagateTaskGroupLabelsAndAnnotations r meta) in
  entries (ObjectMeta_Labels m) !! key =
    (if bool_decide (key = "custom.tekton.dev/taskGroup") then Some (ObjectMeta_Name meta)
     else match entries (ObjectMeta_Labels meta) !! key with
          | Some value => Some value
          | None => entries (ObjectMeta_Labels (Run_ObjectMeta r)) !! key
          end) ∧
  entries (ObjectMeta_Annotations m) !! key =
    (match entries (ObjectMeta_Annotations meta) !! key with
     | Some value => Some value
     | None => entries (ObjectMeta_Annotations (Run_ObjectMeta r)) !! key
     end) ∧
  propagateTaskGroupLabelsAndAnnotations (propagateTaskGroupLabelsAndAnnotations r meta) meta =
    propagateTaskGroupLabelsAndAnnotations r meta.
Proof.
  cbv zeta. change "custom.tekton.dev/taskGroup" with (GroupName +:+ taskGroupLabelKey). cbn -[taskGroupLabelKey GroupName].
  set (k := GroupName +:+ taskGroupLabelKey). split_and!.
  - case_bool_decide as Hk; [by subst key; rewrite lookup_insert_eq|]. rewrite lookup_insert_ne by done.
    rewrite lookup_union. by destruct (_ !! key), (_ !! key).
  - rewrite lookup_union. by destruct (_ !! key), (_ !! key).
  - unfold propagateTaskGroupLabelsAndAnnotations, set_Run_ObjectMeta, set_Labels_Annotations. cbn. fold k.
    f_equal. f_equal; f_equal; apply map_eq; intros i.
    + destruct (decide (i = k)) as [->|Hi]; [by rewrite !lookup_insert_eq|].
      rewrite !lookup_insert_ne, !lookup_union, lookup_insert_ne, lookup_union by done. by destruct (_ !! i), (_ !! i).
    + rewrite !lookup_union. by destruct (_ !! i), (_ !! i).
Qed.

(** The labels and annotations of a Run are patched exactly when they
    differ from those of the lister's copy, and with both; an error of the
    lister or of the patch is returned; the Run itself does not change. *)
Theorem updateLabelsAndAnnotations_patches s :
  let m := Run_ObjectMeta (run s) in
  let '(e, s') := updateLabelsAndAnnotations s in
  run s' = run s ∧ status s' = status s ∧
  match Runs_lister_Get (tick s) (ObjectMeta_Namespace m) (ObjectMeta_Name m) with
  | inl err => is_Some e ∧ trace s' = trace s
  | inr new =>
    if bool_decide (ObjectMeta_Labels m = ObjectMeta_Labels (Run_ObjectMeta new)) &&
       bool_decide (ObjectMeta_Annotations m = ObjectMeta_Annotations (Run_ObjectMeta new))
    then e = None ∧ trace s' = trace s
    else e = Runs_Patch (S (tick s)) (ObjectMeta_Namespace m) (ObjectMeta_Name m) (ObjectMeta_Labels m) (ObjectMeta_Annotations m)
         ∧ trace s' = trace s ++ [patch_of m]
  end.
Proof.
  cbv zeta. pose proof (updateLabelsAndAnnotations_spec s) as H. unfold wp in H.
  destruct (updateLabelsAndAnnotations s) as [e s']. cbn in H.
  destruct (Runs_lister_Get _ _ _) as [err|new].
  - destruct H as (He & Hr1 & Hst1 & Htr1). rewrite app_nil_r in Htr1. by split_and!.
  - unfold needs_patch in H. repeat case_bool_decide; cbn in *; try done; destruct H as (He & Hr1 & Hst1 & Htr1);
      rewrite ?app_nil_r in Htr1; by split_and!.
Qed.

(** A Run whose copy in the cluster has no annotations is patched in every
    reconciliation that finds its TaskGroup, even when nothing differs: the
    propagation leaves an empty map where the copy has none, and the two
    are compared as different. *)
Theorem unannotated_Run_always_patched s found new :
  wf_conditions (RunStatus_Conditions (Run_Status (run s))) → fetched s = inr found →
  let s1 := (reconcile s).2 in
  Runs_lister_Get (tick s1) (namespace (run s)) (ObjectMeta_Name (Run_ObjectMeta (run s))) = inr new →
  ObjectMeta_Annotations (Run_ObjectMeta new) = None →
  trace (updateLabelsAndAnnotations s1).2 = trace s1 ++ [patch_of (propagated s)].
Proof.
  intros Hwf Hf. cbv zeta. intros Hnew Hnone. destruct (reconcile_verdict s Hwf) as (v & es & st & _ & Hr).
  pose proof (updateLabelsAndAnnotations_spec (reconcile s).2) as H. unfold wp in H. cbv zeta in H.
  rewrite (realizes_ObjectMeta _ _ _ _ _ _ Hr), propagated_Namespace, propagated_Name in H. fold (namespace (run s)) in H.
  rewrite Hnew in H. assert (needs_patch (propagated s) (Run_ObjectMeta new) = true) as Hneed.
  { unfold needs_patch, propagated. destruct found as [meta spec]. rewrite Hf. apply orb_true_intro. right.
    apply bool_decide_eq_true_2. by rewrite Hnone. }
  rewrite Hneed in H. destruct H as (_ & _ & _ & ->). unfold patch_of. by rewrite propagated_Namespace, propagated_Name.
Qed.
End labels.

(** ** Start and failure *)
Section start.
Context {MO : MapOrder} {CM : ContainerMerge} {CL : Cluster}.

Lemma Emit_started after s reason message :
  forget_time <$> after = Some (newCondition ConditionSucceeded ConditionUnknown reason message) →
  trace (Emit None after s).2 = trace s ++ KubeEvent "Normal" "Started" "" ::
     (if bool_decide (DefaultCloudEventsSink ≠ "") then [CloudEvent] else []).
Proof.
  destruct after as [c|]; [|done]. intros [= Hty Hst _ _ _]. unfold Emit, sendKubernetesEvents.
  assert (SemanticDeepEqual None (Some c) = false) as -> by done. rewrite Hst.
  rewrite (bool_decide_false (ConditionUnknown = ConditionTrue)), (bool_decide_false (ConditionUnknown = ConditionFalse)),
    bool_decide_true by done. unfold bind. cbn. rewrite andb_true_r. case_bool_decide; cbn; [by rewrite <-app_assoc|done].
Qed.

(** A Run starts at the current time, but not before it was created, and
    stays started; its condition is the initial one, with the reason
    "Started", and a "Started" event is sent. The start of a Run that someone
    else gave a condition keeps the status of the condition. *)
Theorem startRun_started s :
  wf_conditions (RunStatus_Conditions (Run_Status (run s))) → Run_HasStarted (run s) = false →
  let s' := (startRun s).2 in
  RunStatus_StartTime (Run_Status (run s')) =
    Some (Z.max (now (tick s)) (ObjectMeta_CreationTimestamp (Run_ObjectMeta (run s)))) ∧
  (zero_time < now (tick s) → Run_HasStarted (run s') = true)%Z ∧
  Run_IsDone (run s') = Run_IsDone (run s) ∧
  (Succeeded (Run_Status (run s)) = None →
   forget_time <$> Succeeded (Run_Status (run s')) =
     Some (newCondition ConditionSucceeded ConditionUnknown "Started" "") ∧
   trace s' = trace s ++ KubeEvent "Normal" "Started" "" ::
     (if bool_decide (DefaultCloudEventsSink ≠ "") then [CloudEvent] else [])).
Proof.
  intros Hwf Hns. cbv zeta. pose proof (startRun_starts s Hwf Hns) as Hs. unfold wp in Hs.
  pose proof (starts_StartTime _ _ Hs) as Ht. split_and!; [done| |by apply starts_IsDone|].
  - intros Hnow. unfold Run_HasStarted. rewrite Ht. apply negb_true_iff, bool_decide_eq_false_2. unfold start_time, zero_time in *. lia.
  - intros Hnone. pose proof (starts_condition _ _ Hs) as Hc. rewrite Hnone in Hc. split; [done|].
    pose proof (startRun_initialized s Hwf Hns) as Hi. unfold wp in Hi. rewrite <-Hi in Hc |- *.
    pose proof (Emit_emits None (Succeeded (Run_Status (run (initialized s)))) (initialized s)) as (es & _ & Hr & _).
    rewrite Hr in Hc. exact (Emit_started _ (initialized s) _ _ Hc).
Qed.

(** C37: When the TaskGroup of a running Run cannot be read, whatever the
    reason, and even while its TaskRun runs, the reconciliation ends the Run
    and returns an error without cancelling anything; the retry that the error
    asks for does nothing. *)
Theorem unread_TaskGroup_ends_Run s err :
  wf_Run (run s) → FilterRunRef SchemeGroupVersion TaskGroupControllerName (run s) = true →
  Run_HasStarted (run s) = true → Run_IsDone (run s) = false →
  (DecodeExtraFields (Run_Status (run s)) (status s)).2 = None → fetched s = inl err →
  let '(e, s') := ReconcileKind s in
  is_Some e ∧ Run_IsDone (run s') = true ∧
  creations (trace s') = creations (trace s) ∧ cancellations (trace s') = cancellations (trace s) ∧
  ∀ retry, run retry = run s' → ReconcileKind retry = (None, retry).
Proof.
  intros Hwf Hmine Hst Hd Hex Hf.
  enough (wp ReconcileKind s (λ e s', is_Some e ∧ Run_IsDone (run s') = true ∧
    creations (trace s') = creations (trace s) ∧ cancellations (trace s') = cancellations (trace s) ∧
    Run_HasStarted (run s') = true)) as H.
  { unfold wp in H. destruct (ReconcileKind s) as [e s']. cbn in H. destruct H as (? & ? & ? & ? & ?).
    split_and!; try done. intros retry Hr. apply ReconcileKind_inert. right. by rewrite Hr. }
  apply ReconcileKind_phases; [apply Hwf|unfold responsible; congruence|]. intros _ s1 Hs1.
  unfold begins in Hs1. rewrite Hst in Hs1. subst s1. rewrite Hd.
  intros s2 e s3 e' s4 s5 s6 H2 (v & es & st & Hj & H3) H4 H5 H6 He.
  assert (fetched s2 = inl err) as Hf2.
  { destruct (decoded_Run _ _ H2) as [Hr Ht]; [done|].
    unfold fetched. by rewrite Hr, Ht. }
  destruct (decoded_same _ _ H2) as (Hm2 & Hsp2 & Ht2). destruct (encoded_same _ _ H5) as (_ & _ & Ht5).
  destruct Hj; try congruence.
  pose proof (realizes_IsDone _ _ _ _ _ _ H3) as Hd3. change (final (run s2) (CouldntGetTaskGroup err0)) with true in Hd3.
  cbn in Hd3. destruct H4 as (es4 & Hes4 & Hr4 & _ & Htr4). destruct H6 as (es6 & Hes6 & Hr6 & _ & Htr6).
  split_and!.
  - apply He. rewrite (realizes_error _ _ _ _ _ _ H3). by eexists.
  - rewrite Hr6. apply (encoded_IsDone _ _ H5). by rewrite Hr4.
  - rewrite Htr6, (encoded_trace _ _ H5), Htr4, (realizes_trace _ _ _ _ _ _ H3), (decoded_trace _ _ H2), !creations_app,
      (creations_minor es4), (creations_minor es6) by done. by rewrite !app_nil_r.
  - rewrite Htr6, (encoded_trace _ _ H5), Htr4, (realizes_trace _ _ _ _ _ _ H3), (decoded_trace _ _ H2), !cancellations_app,
      (cancellations_minor es4), (cancellations_minor es6) by done. by rewrite !app_nil_r.
  - unfold Run_HasStarted. rewrite Hr6, Ht5, Hr4, (realizes_StartTime _ _ _ _ _ _ H3), Ht2. done.
Qed.
End start.

(** ** Witnesses *)
Section witnesses.
#[local] Existing Instance canonical_order.
#[local] Existing Instance image_merge.

Lemma reconcile_refines_witness :
  let s := Sample.at_start Sample.running_run in
  ∃ v es st, judges (CL := Sample.with_cache []) s v es st ∧
    realizes (CL := Sample.with_cache []) s v es st (reconcile (CL := Sample.with_cache []) s).1 (reconcile (CL := Sample.with_cache []) s).2.
Proof. apply reconcile_refines. apply NoDup_singleton. Defined.

Lemma reconcile_cancels_witness :
  let tr := Sample.taskrun_of Sample.cancelled_run ConditionUnknown in
  cancellations (trace (reconcile (CL := Sample.with_cache [tr]) (Sample.at_start Sample.cancelled_run)).2) = [("ns", "run-abcde")].
Proof.
  intros tr. rewrite (reconcile_cancels (CL := Sample.with_cache [tr]) (Sample.at_start Sample.cancelled_run)) by apply NoDup_singleton.
  vm_compute. reflexivity.
Defined.

Lemma ReconcileKind_leaves_alone_witness :
  ReconcileKind (CL := Sample.with_cache []) (Sample.at_start Sample.done_run) = (None, Sample.at_start Sample.done_run).
Proof. apply ReconcileKind_leaves_alone. right. split; vm_compute; reflexivity. Defined.

Lemma reconcile_finishes_witness :
  let tr := Sample.taskrun_of Sample.running_run ConditionTrue in
  Condition_Status <$> Succeeded (Run_Status (run (reconcile (CL := Sample.with_cache [tr]) (Sample.at_start Sample.running_run)).2))
  = Some "True".
Proof.
  intros tr. pose proof (reconcile_finishes (CL := Sample.with_cache [tr]) (Sample.at_start Sample.running_run)
    (TaskGroup_ObjectMeta Sample.group) (TaskGroup_Spec Sample.group) tr) as H.
  destruct (reconcile _) as [e s']. destruct H as (_ & _ & _ & _ & H);
    [apply NoDup_singleton|reflexivity|vm_compute; reflexivity..|].
  cbn [snd]. apply fmap_Some in H as (c & Hc & Heq). rewrite Hc. cbn. f_equal.
  apply (f_equal Condition_Status) in Heq. symmetry. exact Heq.
Defined.

Lemma ReconcileKind_invariant_witness :
  let r := Sample.done_unstarted in
  let r' := run (ReconcileKind (CL := Sample.with_cache []) (Sample.at_start r)).2 in
  Run_IsDone r = true ∧ Run_HasStarted r = false ∧ Run_HasStarted r' = true ∧ wf_Run r' ∧ keeps r r'.
Proof.
  split; [reflexivity|]. split; [reflexivity|]. split; [vm_compute; reflexivity|]. apply ReconcileKind_invariant.
  split; [apply NoDup_singleton|]. intros _. by eexists.
Defined.

Lemma ReconcileKind_creates_once_witness :
  ∃ tr, creations (trace (ReconcileKind (CL := Sample.with_cache []) (Sample.at_start Sample.new_run)).2) = [("ns", tr)] ∧
    requested (CL := Sample.with_cache []) Sample.new_run tr.
Proof.
  destruct (ReconcileKind_creates_once (CL := Sample.with_cache []) (Sample.at_start Sample.new_run))
    as [H|(tr & n & H & Hr & _)]; [apply NoDup_nil_2|vm_compute in H; discriminate H|].
  exists tr. split; [exact H|exact Hr].
Defined.

Lemma newTaskRun_belongs_witness :
  FilterOwnerRunRef (λ _ _, inr Sample.new_run) SchemeGroupVersion TaskGroupControllerName
    (TaskRun_ObjectMeta (newTaskRun Sample.new_run "abcde" Sample.task)) = true.
Proof.
  rewrite (proj2 (proj2 (proj2 (newTaskRun_belongs Sample.new_run "abcde" Sample.task (λ _ _, inr Sample.new_run) eq_refl)))).
  vm_compute. reflexivity.
Defined.

Lemma ReconcileKind_finds_created_witness :
  let tr := Sample.on_server (Sample.taskrun_of Sample.running_run ConditionUnknown) in
  creations (trace (ReconcileKind (CL := Sample.with_cache [tr]) (Sample.at_start Sample.running_run)).2) = [].
Proof.
  intros tr. apply (ReconcileKind_finds_created (CL := Sample.with_cache [tr]) (Sample.at_start Sample.running_run)
    Sample.running_run); [apply NoDup_singleton|reflexivity..|].
  intros n. exists tr. split; [apply list_elem_of_here|]. split; [vm_compute; reflexivity..|]. apply (bool_decide_unpack _). vm_compute. exact I.
Defined.

Lemma RestrictLengthWithRandomSuffix_fits_witness :
  String.length (RestrictLengthWithRandomSuffix
    "a-very-long-name-of-a-run-that-does-not-fit-into-a-label-with-a-suffix" "abcde") = 63.
Proof.
  rewrite (proj1 (proj2 (RestrictLengthWithRandomSuffix_fits
    "a-very-long-name-of-a-run-that-does-not-fit-into-a-label-with-a-suffix" "abcde" eq_refl))).
  reflexivity.
Defined.

(** The labels of the copy are those of the Run, and the patch is empty. *)
Lemma unannotated_Run_always_patched_witness :
  let s := Sample.at_start Sample.running_run in
  let s1 := (reconcile (CL := Sample.with_cache []) s).2 in
  trace (updateLabelsAndAnnotations (CL := Sample.with_cache []) s1).2 = trace s1 ++
    [PatchRun "ns" "run" (ObjectMeta_Labels (Run_ObjectMeta Sample.listed_copy)) (Some ∅)].
Proof.
  intros s s1. subst s1.
  rewrite (unannotated_Run_always_patched (CL := Sample.with_cache []) s (TaskGroup_ObjectMeta Sample.group, TaskGroup_Spec Sample.group)
    Sample.listed_copy); [|apply NoDup_singleton|reflexivity..].
  reflexivity.
Defined.

Lemma startRun_started_witness :
  RunStatus_StartTime (Run_Status (run (startRun (CL := Sample.with_cache []) (Sample.at_start Sample.new_run)).2)) = Some 5%Z.
Proof.
  rewrite (proj1 (startRun_started (CL := Sample.with_cache []) (Sample.at_start Sample.new_run) (NoDup_nil_2) eq_refl)).
  reflexivity.
Defined.

Lemma unread_TaskGroup_ends_Run_witness :
  let tr := Sample.taskrun_of Sample.running_run ConditionUnknown in
  let CL := Sample.cluster (inl (errorString "not found")) (λ _, [tr]) Sample.running_run in
  Run_IsDone (run (ReconcileKind (CL := CL) (Sample.at_start Sample.running_run)).2) = true.
Proof.
  intros tr CL.
  pose proof (unread_TaskGroup_ends_Run (CL := CL) (Sample.at_start Sample.running_run) (errorString "not found")) as H.
  destruct (ReconcileKind _) as [e s']. apply H; [|vm_compute; reflexivity..].
  split; [apply NoDup_singleton|]. intros Hd. vm_compute in Hd. discriminate Hd.
Defined.
End witnesses.
