(* ===== verification/Wiring.v ===== *)
(** pkg/reconciler/taskgroup/controller.go: which notifications of the
    informers of Runs and TaskRuns put which keys on the work queue, with the
    event handlers of client-go and knative it installs. *)
From S2P Require Import Prelude GoStrings FieldErrors Types Substitution StepMerge Resolve.
From S2P Require Import Validation Conditions RunTypes Listers Cluster Reconciler ReconcilerExample.
From Stdlib Require Import Ascii.

(** ** Objects and notifications *)

(** What a handler may be given: a Run, a TaskRun, or the tombstone of an
    object whose deletion was missed, with its last known state or nil. *)
Inductive object : Type :=
  | NilObject
  | RunObject (r : Run)
  | TaskRunObject (tr : TaskRun)
  | DeletedFinalStateUnknown (key : string) (obj : object).

Inductive notification : Type :=
  | OnAdd (obj : object)
  | OnUpdate (oldObj newObj : object)
  | OnDelete (obj : object).

(** A key of the work queue: [types.NamespacedName]. *)
Definition NamespacedName : Type := string * string.

(** [obj.(metav1.Object)] *)
Definition as_Object (obj : object) : option ObjectMeta :=
  match obj with
  | RunObject r => Some (Run_ObjectMeta r)
  | TaskRunObject tr => Some (TaskRun_ObjectMeta tr)
  | NilObject | DeletedFinalStateUnknown _ _ => None
  end.

(** ** The filters on objects *)

(** The function that [FilterRunRef(apiVersion, kind)] returns. *)
Definition FilterRunRef_object (apiVersion kind : string) (obj : object) : bool :=
  match obj with
  | RunObject r => FilterRunRef apiVersion kind r
  | _ => false
  end.

(** The function that [FilterOwnerRunRef(runLister, apiVersion, kind)] returns. *)
Definition FilterOwnerRunRef_object (Runs_Get : string → string → fallible Run) (apiVersion kind : string)
    (obj : object) : bool :=
  match as_Object obj with
  | Some m => FilterOwnerRunRef Runs_Get apiVersion kind m
  | None => false
  end.

(** ** Handlers (client-go's controller.go, knative's controller.go) *)

(** [func DeletionHandlingAccessor(obj interface{}) (Accessor, error)] *)
Definition DeletionHandlingAccessor (obj : object) : option ObjectMeta :=
  match as_Object obj with
  | Some m => Some m
  | None => match obj with
            | DeletedFinalStateUnknown _ o => as_Object o
            | _ => None
            end
  end.

(** [func (c *Impl) Enqueue(obj interface{})]: the keys that are added *)
Definition Enqueue (obj : object) : list NamespacedName :=
  match DeletionHandlingAccessor obj with
  | None => []
  | Some m => [(ObjectMeta_Namespace m, ObjectMeta_Name m)]
  end.

(** [func (c *Impl) EnqueueControllerOf(obj interface{})] *)
Definition EnqueueControllerOf (obj : object) : list NamespacedName :=
  match DeletionHandlingAccessor obj with
  | None => []
  | Some m =>
    match GetControllerOf m with
    | Some owner => [(ObjectMeta_Namespace m, OwnerReference_Name owner)]
    | None => []
    end
  end.

(** [func HandleAll(h func(interface{})) cache.ResourceEventHandler] *)
Definition HandleAll (h : object → list NamespacedName) (n : notification) : list NamespacedName :=
  match n with
  | OnAdd obj => h obj
  | OnUpdate _ newObj => h newObj
  | OnDelete obj => h obj
  end.

(** [OnAdd], [OnUpdate] and [OnDelete] of [FilteringResourceEventHandler] *)
Definition FilteringResourceEventHandler (FilterFunc : object → bool)
    (Handler : notification → list NamespacedName) (n : notification) : list NamespacedName :=
  match n with
  | OnAdd obj => if negb (FilterFunc obj) then [] else Handler (OnAdd obj)
  | OnUpdate oldObj newObj =>
    match FilterFunc newObj, FilterFunc oldObj with
    | true, true => Handler (OnUpdate oldObj newObj)
    | true, false => Handler (OnAdd newObj)
    | false, true => Handler (OnDelete oldObj)
    | false, false => []
    end
  | OnDelete obj => if negb (FilterFunc obj) then [] else Handler (OnDelete obj)
  end.

(** ** The controller *)

(** The informer a notification comes from. *)
Inductive informer : Type := runInformer | taskRunInformer.

(** [func NewController()]: the event handlers it adds to the informers. *)
Definition NewController (runLister : string → string → fallible Run) (i : informer) :
    notification → list NamespacedName :=
  match i with
  | runInformer =>
    FilteringResourceEventHandler (FilterRunRef_object SchemeGroupVersion TaskGroupControllerName)
      (HandleAll Enqueue)
  | taskRunInformer =>
    FilteringResourceEventHandler (FilterOwnerRunRef_object runLister SchemeGroupVersion TaskGroupControllerName)
      (HandleAll EnqueueControllerOf)
  end.

(** [LeaderAwareFuncs.PromoteFunc] of the generated reconciler: the keys that a
    promotion to the leader of a bucket puts on the queue, given what the
    lister lists. *)
Definition PromoteFunc (promoteFilterFunc : option (Run → bool)) (Has : NamespacedName → bool) (all : list Run) :
    list NamespacedName :=
  filter (λ key, Has key = true)
    (map (λ elt, (ObjectMeta_Namespace (Run_ObjectMeta elt), ObjectMeta_Name (Run_ObjectMeta elt)))
       (match promoteFilterFunc with
        | Some f => filter (λ elt, f elt = true) all
        | None => all
        end)).

(** The [controller.Options] of [NewController] leave [PromoteFilterFunc] nil. *)
Definition NewController_PromoteFilterFunc : option (Run → bool) := None.

(** ** The work queue *)

(** [func safeKey(key types.NamespacedName) string], with
    [func (n NamespacedName) String() string] *)
Definition NamespacedName_String (n : NamespacedName) : string := n.1 +:+ "/" +:+ n.2.

Definition safeKey (key : NamespacedName) : string :=
  if bool_decide (key.1 = "") then key.2 else NamespacedName_String key.

(** [errors.Is(err, skipKeyError{})] and [errors.Is(err, permanentError{})]:
    along the chain of wrapped errors. *)
Fixpoint IsSkipKey (err : error) : bool :=
  match err with
  | errorString _ => false
  | skipKeyError _ => true
  | wrapError _ inner | permanentError inner => IsSkipKey inner
  | multiError errs => existsb IsSkipKey errs
  end.

Fixpoint IsPermanentError (err : error) : bool :=
  match err with
  | errorString _ | skipKeyError _ => false
  | permanentError _ => true
  | wrapError _ inner => IsPermanentError inner
  | multiError errs => existsb IsPermanentError errs
  end.

(** What is asked of the queue for a key. *)
Inductive queue_op : Type :=
  | Forget (key : NamespacedName)
  | AddRateLimited (key : NamespacedName)
  | Done (key : NamespacedName).

(** [func (c *Impl) handleErr(logger, err, key, startTime)]: no reconciler here
    returns the error that asks for a delay. *)
Definition handleErr (ShuttingDown : bool) (err : error) (key : NamespacedName) : list queue_op :=
  if IsSkipKey err then [Forget key]
  else if negb (IsPermanentError err) && negb ShuttingDown then [AddRateLimited key]
  else [Forget key].

(** [func (c *Impl) processNextWorkItem() bool], of a key it got: the effects of
    the reconciliation and what is asked of the queue. *)
Definition processNextWorkItem {E} (Reconcile : string → option error * E) (ShuttingDown : bool) (key : NamespacedName) :
    E * list queue_op :=
  let keyStr := safeKey key in
  match Reconcile keyStr with
  | (Some err, e) => (e, handleErr ShuttingDown err key ++ [Done key])
  | (None, e) => (e, [Forget key] ++ [Done key])
  end.

(** ** Lemmas *)

(** The object a notification is about, for a handler of all events. *)
Definition subject (n : notification) : object :=
  match n with OnAdd obj | OnUpdate _ obj | OnDelete obj => obj end.

Lemma handler_passing filter h n :
  filter (subject n) = true → FilteringResourceEventHandler filter (HandleAll h) n = h (subject n).
Proof. destruct n as [o|old new|o]; cbn; intros ->; cbn; [done| |done]. by destruct (filter old). Qed.

(** ** Theorems *)

(** A notification about a Run puts its key on the queue exactly when the
    Run, or the Run it was before an update, refers to a TaskGroup; the key is
    that of the Run as it was in the latter case only. *)
Theorem run_notification runLister n :
  NewController runLister runInformer n =
  match n with
  | OnAdd (RunObject r) | OnDelete (RunObject r) =>
    if FilterRunRef "custom.tekton.dev/v1alpha1" "TaskGroup" r then [(ObjectMeta_Namespace (Run_ObjectMeta r), ObjectMeta_Name (Run_ObjectMeta r))] else []
  | OnUpdate (RunObject old) (RunObject r) =>
    if FilterRunRef "custom.tekton.dev/v1alpha1" "TaskGroup" r then [(ObjectMeta_Namespace (Run_ObjectMeta r), ObjectMeta_Name (Run_ObjectMeta r))]
    else if FilterRunRef "custom.tekton.dev/v1alpha1" "TaskGroup" old
    then [(ObjectMeta_Namespace (Run_ObjectMeta old), ObjectMeta_Name (Run_ObjectMeta old))] else []
  | OnUpdate (RunObject old) _ =>
    if FilterRunRef "custom.tekton.dev/v1alpha1" "TaskGroup" old
    then [(ObjectMeta_Namespace (Run_ObjectMeta old), ObjectMeta_Name (Run_ObjectMeta old))] else []
  | OnUpdate _ (RunObject r) =>
    if FilterRunRef "custom.tekton.dev/v1alpha1" "TaskGroup" r then [(ObjectMeta_Namespace (Run_ObjectMeta r), ObjectMeta_Name (Run_ObjectMeta r))] else []
  | _ => []
  end.
Proof.
  change "custom.tekton.dev/v1alpha1" with SchemeGroupVersion. change "TaskGroup" with TaskGroupControllerName.
  destruct n as [o|old new|o]; [destruct o|destruct old, new|destruct o]; cbn -[FilterRunRef SchemeGroupVersion];
    try done; repeat destruct (FilterRunRef _ _ _); done.
Qed.

(** The notifications about a TaskRun of a Run: that it is there, that it has
    changed from what it was, that it is gone, and that its deletion was missed. *)
Inductive about_TaskRun (r : Run) : notification → Prop :=
  | about_add tr : made_for r (TaskRun_ObjectMeta tr) → about_TaskRun r (OnAdd (TaskRunObject tr))
  | about_update old tr :
    made_for r (TaskRun_ObjectMeta old) → made_for r (TaskRun_ObjectMeta tr) →
    about_TaskRun r (OnUpdate (TaskRunObject old) (TaskRunObject tr))
  | about_delete tr : made_for r (TaskRun_ObjectMeta tr) → about_TaskRun r (OnDelete (TaskRunObject tr))
  | about_tombstone key tr :
    made_for r (TaskRun_ObjectMeta tr) → about_TaskRun r (OnDelete (DeletedFinalStateUnknown key (TaskRunObject tr))).

Definition is_tombstone (n : notification) : bool :=
  match n with OnDelete (DeletedFinalStateUnknown _ _) => true | _ => false end.

(** C38: Which notifications about the TaskRun that the reconciler made for a Run
    wake the Run, as long as the lister knows it: all of them (that it was
    created, changed, or deleted) put the key of the Run on the queue if the
    Run is of a TaskGroup and does not have both a reference and an embedded
    spec, but for the tombstone of a deletion that the watch missed; in all
    other cases nothing is put there. The TaskRun is as the API server has it. *)
Theorem taskrun_notification runLister r n :
  runLister (ObjectMeta_Namespace (Run_ObjectMeta r)) (ObjectMeta_Name (Run_ObjectMeta r)) = inr r → about_TaskRun r n →
  NewController runLister taskRunInformer n =
    if negb (is_tombstone n) && FilterRunRef SchemeGroupVersion TaskGroupControllerName r &&
       negb (bool_decide (is_Some (RunSpec_Ref (Run_Spec r))) && bool_decide (is_Some (RunSpec_Spec (Run_Spec r))))
    then [(ObjectMeta_Namespace (Run_ObjectMeta r), ObjectMeta_Name (Run_ObjectMeta r))] else [].
Proof.
  intros Hget Hn.
  assert (∀ tr, made_for r (TaskRun_ObjectMeta tr) →
    FilterOwnerRunRef_object runLister SchemeGroupVersion TaskGroupControllerName (TaskRunObject tr) =
      FilterRunRef SchemeGroupVersion TaskGroupControllerName r &&
      negb (bool_decide (is_Some (RunSpec_Ref (Run_Spec r))) && bool_decide (is_Some (RunSpec_Spec (Run_Spec r)))) ∧
    EnqueueControllerOf (TaskRunObject tr) = [(ObjectMeta_Namespace (Run_ObjectMeta r), ObjectMeta_Name (Run_ObjectMeta r))]) as Hmade.
  { intros tr Hm. unfold EnqueueControllerOf. cbn [FilterOwnerRunRef_object as_Object DeletionHandlingAccessor].
    rewrite (made_controller _ _ Hm), (made_namespace _ _ Hm). split; [|done].
    apply FilterOwnerRunRef_controlled; [apply Hm|]. by rewrite (made_namespace _ _ Hm). }
  unfold NewController, FilteringResourceEventHandler. destruct Hn as [tr Hm|old tr Hold Hm|tr Hm|key tr Hm]; cbn [is_tombstone negb andb]; [| | |done];
    destruct (Hmade tr Hm) as [Hf He]; rewrite Hf; [|destruct (Hmade old Hold) as [Hf' _]; rewrite Hf'|]; cbn [HandleAll]; rewrite He; by destruct (_ && _).
Qed.

(** The keys of the work queue and of the caches *)
Lemma safeKey_cache m : safeKey (ObjectMeta_Namespace m, ObjectMeta_Name m) = MetaNamespaceKeyFunc m.
Proof.
  unfold MetaNamespaceKeyFunc, safeKey, NamespacedName_String. cbn [fst snd]. destruct (ObjectMeta_Namespace m) as [|c ns] eqn:He.
  - by rewrite bool_decide_true, bool_decide_false by (done || simpl; lia).
  - by rewrite bool_decide_false, bool_decide_true by (done || simpl; lia).
Qed.

Lemma safeKey_split ns name :
  "/"%char ∉ String.list_ascii_of_string ns → "/"%char ∉ String.list_ascii_of_string name →
  SplitMetaNamespaceKey (safeKey (ns, name)) = inr (ns, name).
Proof.
  intros Hns Hname. unfold safeKey, NamespacedName_String, SplitMetaNamespaceKey. cbn [fst snd]. destruct ns as [|c ns0].
  - rewrite bool_decide_true by done. by rewrite Split_free.
  - rewrite bool_decide_false by done. change ("/" +:+ name) with (String "/"%char name). by rewrite Split_app, Split_free.
Qed.

(** C23: The keys of the work queue are those of the caches, and they are read
    back: the key of an object without a slash in its namespace and name is
    split into them again, also without a namespace. *)
Theorem queue_key_roundtrip m :
  "/"%char ∉ String.list_ascii_of_string (ObjectMeta_Namespace m) → "/"%char ∉ String.list_ascii_of_string (ObjectMeta_Name m) →
  let key := safeKey (ObjectMeta_Namespace m, ObjectMeta_Name m) in
  key = MetaNamespaceKeyFunc m ∧ SplitMetaNamespaceKey key = inr (ObjectMeta_Namespace m, ObjectMeta_Name m).
Proof.
  intros Hns Hname. split; [apply safeKey_cache|by apply safeKey_split].
Qed.

(** When the deletion of a TaskRun is missed by the watch, the tombstone
    the informer delivers is dropped by the filter, and the Run is not put on
    the queue, although the handler behind the filter would read tombstones. *)
Theorem missed_deletion_dropped runLister key r suffix ts :
  let tombstone := DeletedFinalStateUnknown key (TaskRunObject (newTaskRun r suffix ts)) in
  NewController runLister taskRunInformer (OnDelete tombstone) = [] ∧
  HandleAll EnqueueControllerOf (OnDelete tombstone) = [(ObjectMeta_Namespace (Run_ObjectMeta r), ObjectMeta_Name (Run_ObjectMeta r))].
Proof. split; [done|]. cbn [HandleAll]. unfold EnqueueControllerOf. cbn [DeletionHandlingAccessor as_Object]. by rewrite newTaskRun_controller. Qed.

(** The TaskRun is reported as running and then as done; then it is deleted. *)
Lemma taskrun_notification_witness :
  let tr := Sample.on_server (newTaskRun Sample.new_run "abcde" Sample.task) in
  let done := Sample.on_server (Sample.taskrun_of Sample.new_run ConditionTrue) in
  NewController (λ _ _, inr Sample.new_run) taskRunInformer (OnUpdate (TaskRunObject tr) (TaskRunObject done)) = [("ns", "run")] ∧
  NewController (λ _ _, inr Sample.new_run) taskRunInformer (OnDelete (DeletedFinalStateUnknown "ns/run-abcde" (TaskRunObject done))) = [].
Proof.
  intros tr done. assert (made_for Sample.new_run (TaskRun_ObjectMeta tr) ∧ made_for Sample.new_run (TaskRun_ObjectMeta done)) as [Htr Hdone].
  { split; (split; [vm_compute; reflexivity..|]); apply (bool_decide_unpack _); vm_compute; exact I. }
  split; (rewrite (taskrun_notification (λ _ _, inr Sample.new_run) Sample.new_run); [vm_compute; reflexivity|reflexivity|by constructor]).
Defined.

Lemma queue_key_roundtrip_witness :
  SplitMetaNamespaceKey (safeKey ("ns", "run")) = inr ("ns", "run").
Proof. apply (queue_key_roundtrip (Run_ObjectMeta Sample.new_run)); apply (bool_decide_unpack _); vm_compute; exact I. Defined.
