(* ===== verification/RunReconciler.v ===== *)
(** The generated reconciler of Runs around [ReconcileKind]
    (pipeline's client/injection/reconciler/pipeline/v1alpha1/run/reconciler.go
    and state.go), with what it calls of knative.dev/pkg/reconciler
    (reconcile_common.go, retry.go) and client-go's util/retry: from a key of
    the work queue to the update of the status of the Run. *)
From S2P Require Import Prelude GoStrings FieldErrors Types Substitution StepMerge Resolve.
From S2P Require Import Validation Conditions RunTypes Listers Cluster Reconciler.

(** ** The defaults of a Run (pipeline/v1alpha1/run_defaults.go)

    The controller has no store of configurations, so that
    [config.FromContextOrDefaults] returns the defaults. *)
Definition DefaultServiceAccountValue : string := "default".
Definition DefaultPodTemplate : option json := None.

(** [func (rs *RunSpec) SetDefaults(ctx context.Context)] *)
Definition RunSpec_SetDefaults (rs : RunSpec) : RunSpec := {|
  RunSpec_Ref := RunSpec_Ref rs; RunSpec_Spec := RunSpec_Spec rs; RunSpec_Params := RunSpec_Params rs;
  RunSpec_Status := RunSpec_Status rs; RunSpec_Retries := RunSpec_Retries rs;
  RunSpec_ServiceAccountName :=
    if bool_decide (RunSpec_ServiceAccountName rs = "") && negb (bool_decide (DefaultServiceAccountValue = ""))
    then DefaultServiceAccountValue else RunSpec_ServiceAccountName rs;
  RunSpec_PodTemplate :=
    match RunSpec_PodTemplate rs with None => DefaultPodTemplate | Some t => Some t end;
  RunSpec_Timeout := RunSpec_Timeout rs; RunSpec_Workspaces := RunSpec_Workspaces rs |}.

(** [func (r *Run) SetDefaults(ctx context.Context)] *)
Definition Run_SetDefaults (r : Run) : Run := {|
  Run_ObjectMeta := Run_ObjectMeta r; Run_Spec := RunSpec_SetDefaults (Run_Spec r); Run_Status := Run_Status r |}.

(** ** Status *)

(** [equality.Semantic.DeepEqual] of two [RunStatus] *)
Definition RunStatus_DeepEqual (r1 r2 : RunStatus) : bool :=
  bool_decide (forget_time <$> RunStatus_Conditions r1 = forget_time <$> RunStatus_Conditions r2) &&
  bool_decide (RunStatus_ObservedGeneration r1 = RunStatus_ObservedGeneration r2) &&
  bool_decide (RunStatus_StartTime r1 = RunStatus_StartTime r2) &&
  bool_decide (RunStatus_CompletionTime r1 = RunStatus_CompletionTime r2) &&
  bool_decide (RunStatus_ExtraFields r1 = RunStatus_ExtraFields r2) &&
  bool_decide (RunStatus_Other r1 = RunStatus_Other r2).

Definition failedGenerationBump : string := "NewObservedGenFailure".

(** The condition manager's part of [PreProcessReconcile]. *)
Definition PreProcess_status (now1 now2 : Time) (generation : Z) (r : RunStatus) : RunStatus :=
  let r := set_Conditions (InitializeConditions now1 (RunStatus_Conditions r)) r in
  if bool_decide (RunStatus_ObservedGeneration r ≠ generation)
  then set_Conditions (MarkUnknown now2 ConditionSucceeded failedGenerationBump
         "unsuccessfully observed a new generation" (RunStatus_Conditions r)) r
  else r.

(** [groomConditionsTransitionTime(resource, oldResource)], of the conditions *)
Definition groomCondition (now : Time) (old : list Condition) (cond : Condition) : Condition :=
  match GetCondition old (Condition_Type cond) with
  | Some oldCond =>
    let cond := set_LastTransitionTime (Condition_LastTransitionTime oldCond) cond in
    if bool_decide (cond = oldCond) then cond else set_LastTransitionTime now cond
  | None => set_LastTransitionTime now cond
  end.

Definition groomConditionsTransitionTime (now : Time) (old conditions : list Condition) : list Condition :=
  map (groomCondition now old) conditions.

(** The part of [PostProcessReconcile] on the status. *)
Definition PostProcess_status (now : Time) (generation : Z) (old r : RunStatus) : RunStatus :=
  let r := set_ObservedGeneration generation r in
  set_Conditions (groomConditionsTransitionTime now (RunStatus_Conditions old) (RunStatus_Conditions r)) r.

(** ** The API server, for Runs, and the election of a leader *)
Class RunServer := {
  (** [Client.TektonV1alpha1().Runs(namespace).Get] and [.UpdateStatus] *)
  Runs_Get : nat → string → string → fallible Run;
  Runs_UpdateStatus : nat → string → Run → option error;
  (** [errors.IsConflict] and [errors.IsNotFound] *)
  IsConflict : error → bool;
  IsNotFound : error → bool;
  (** [r.IsLeaderFor(types.NamespacedName{namespace, name})] *)
  IsLeaderFor : string → string → bool
}.

Section run_reconciler.
Context {MO : MapOrder} {CM : ContainerMerge} {CL : Cluster} {RS : RunServer}.

(** ** Before and after [ReconcileKind] *)

(** [func PreProcessReconcile(ctx context.Context, resource duckv1.KRShaped)] *)
Definition PreProcessReconcile : M unit :=
  let! r := get_run in
  do! set_run (Run_SetDefaults r) in
  let! now1 := reading now in
  let! now2 := reading now in
  update_run_status (PreProcess_status now1 now2 (ObjectMeta_Generation (Run_ObjectMeta r))).

(** [func PostProcessReconcile(ctx context.Context, resource, oldResource duckv1.KRShaped)] *)
Definition PostProcessReconcile (oldResource : Run) : M unit :=
  let! r := get_run in
  let! now := reading now in
  update_run_status (PostProcess_status now (ObjectMeta_Generation (Run_ObjectMeta r)) (Run_Status oldResource)).

(** ** The update of the status *)

(** The function that [updateStatus] retries, given the number of attempts. *)
Definition updateStatus_attempt (existing desired : Run) (attempts : nat) : M (option error) :=
  let namespace := ObjectMeta_Namespace (Run_ObjectMeta desired) in
  let! existing :=
    if bool_decide (0 < attempts)
    then reading (λ n, Runs_Get n namespace (ObjectMeta_Name (Run_ObjectMeta desired)))
    else ret (inr existing) in
  match existing with
  | inl err => ret (Some err)
  | inr existing =>
    if RunStatus_DeepEqual (Run_Status existing) (Run_Status desired) then ret None
    else
      let existing := set_Run_Status (Run_Status desired) existing in
      let namespace := ObjectMeta_Namespace (Run_ObjectMeta existing) in
      do! emit (UpdateRunStatus namespace existing) in
      reading (λ n, Runs_UpdateStatus n namespace existing)
  end.

(** [retry.OnError(backoff, retriable, fn)], with the loop of
    [wait.ExponentialBackoff] on the steps that are left; when they run out,
    the last error is returned. *)
Fixpoint OnError (steps : nat) (retriable : error → bool) (fn : nat → M (option error))
    (attempts : nat) (lastErr : option error) : M (option error) :=
  match steps with
  | O => ret lastErr
  | S steps =>
    let! err := fn attempts in
    match err with
    | None => ret None
    | Some err => if retriable err then OnError steps retriable fn (S attempts) (Some err) else ret (Some err)
    end
  end.

(** [retry.DefaultRetry.Steps] *)
Definition DefaultRetry_Steps : nat := 5.

(** [func RetryUpdateConflicts(updater func(int) error) error] *)
Definition RetryUpdateConflicts (updater : nat → M (option error)) : M (option error) :=
  OnError DefaultRetry_Steps IsConflict updater 0 None.

(** [func (r *reconcilerImpl) updateStatus(ctx, existing, desired *v1alpha1.Run) error] *)
Definition updateStatus (existing desired : Run) : M (option error) :=
  RetryUpdateConflicts (updateStatus_attempt existing desired).

(** ** The reconciliation of a key *)

(** The method that [s.reconcileMethodFor(resource)] finds for the leader: the
    reconciler of TaskGroups is not a [Finalizer]. *)
Definition reconcileMethodFor (resource : Run) : bool :=
  IsZero (ObjectMeta_DeletionTimestamp (Run_ObjectMeta resource)).

(** The switch on the target method: before, in and after [ReconcileKind]. *)
Definition reconcileEventOf (original : Run) : M (option error) :=
  let! resource := get_run in
  if reconcileMethodFor resource
  then
    do! PreProcessReconcile in
    let! event := ReconcileKind in
    do! PostProcessReconcile original in
    ret event
  else ret None.

(** [Reconcile], from the copy of the Run on, for the leader. *)
Definition reconcileResource (original : Run) : M (option error) :=
  let! reconcileEvent := reconcileEventOf original in
  let! resource := get_run in
  let! err :=
    if RunStatus_DeepEqual (Run_Status original) (Run_Status resource) then ret None
    else updateStatus original resource in
  match err with
  | Some err =>
    do! emit (KubeEvent "Warning" "UpdateFailed" ("Failed to update status for " +:+
               Quote (ObjectMeta_Name (Run_ObjectMeta resource)) +:+ ": " +:+ error_text err)) in
    ret (Some err)
  | None =>
    match reconcileEvent with
    | Some event => do! emit (KubeEvent "Warning" "InternalError" (error_text event)) in ret (Some event)
    | None => ret None
    end
  end.

(** [controller.NewSkipKey(key)] *)
Definition NewSkipKey (key : string) : error := skipKeyError key.

(** The state with [resource := original.DeepCopy()]. *)
Definition resourceCopy (original : Run) (start : nat) : State :=
  {| run := original; status := zero_TaskGroupRunStatus; tick := start; trace := [] |}.

(** [func (r *reconcilerImpl) Reconcile(ctx context.Context, key string) error]:
    the error and the effects *)
Definition reconcilerImpl_Reconcile (key : string) (start : nat) : option error * list effect :=
  match SplitMetaNamespaceKey key with
  | inl _ => (None, [])
  | inr (namespace, name) =>
    if negb (IsLeaderFor namespace name) then (Some (NewSkipKey key), [])
    else
      match Runs_lister_Get start namespace name with
      | inl err => if IsNotFound err then (None, []) else (Some err, [])
      | inr original =>
        let '(err, s) := reconcileResource original (resourceCopy original (S start)) in
        (err, trace s)
      end
  end.
End run_reconciler.
