(* ===== verification/RunReconcilerSpec.v ===== *)
(** Lemmas on the generated reconciler of Runs: what [PreProcessReconcile] and
    [PostProcessReconcile] make of a status, and how often and with what
    [updateStatus] asks the API server. *)
From S2P Require Import Prelude GoStrings FieldErrors Types Substitution StepMerge Resolve.
From S2P Require Import Validation Conditions RunTypes Listers Cluster Reconciler Progress ReconcilerSpec ReconcileKind ReconcilerExample Wiring RunReconciler.

(** ** Equality of statuses *)
Lemma RunStatus_DeepEqual_refl r : RunStatus_DeepEqual r r = true.
Proof. unfold RunStatus_DeepEqual. by rewrite !bool_decide_true. Qed.

Lemma RunStatus_DeepEqual_spec r1 r2 :
  RunStatus_DeepEqual r1 r2 = true →
  forget_time <$> RunStatus_Conditions r1 = forget_time <$> RunStatus_Conditions r2 ∧
  RunStatus_ObservedGeneration r1 = RunStatus_ObservedGeneration r2 ∧
  RunStatus_StartTime r1 = RunStatus_StartTime r2 ∧ RunStatus_CompletionTime r1 = RunStatus_CompletionTime r2 ∧
  RunStatus_ExtraFields r1 = RunStatus_ExtraFields r2 ∧ RunStatus_Other r1 = RunStatus_Other r2.
Proof. unfold RunStatus_DeepEqual. rewrite !andb_true_iff, !bool_decide_eq_true. naive_solver. Qed.

Lemma GetCondition_forget cs t : forget_time <$> GetCondition cs t = GetCondition (forget_time <$> cs) t.
Proof. induction cs as [|c cs IH]; [done|]. cbn. case_bool_decide; [done|apply IH]. Qed.

(** ** The conditions before and after *)
Lemma GetCondition_groom now old cs t :
  GetCondition (groomConditionsTransitionTime now old cs) t = groomCondition now old <$> GetCondition cs t.
Proof.
  assert (∀ c, Condition_Type (groomCondition now old c) = Condition_Type c) as Hty.
  { intros c. unfold groomCondition. destruct (GetCondition old _); [|done]. by case_bool_decide. }
  induction cs as [|c cs IH]; [done|]. cbn. rewrite Hty. case_bool_decide; [done|apply IH].
Qed.

Lemma forget_groomCondition now old c : forget_time (groomCondition now old c) = forget_time c.
Proof. unfold groomCondition. destruct (GetCondition old _); [|done]. by case_bool_decide. Qed.

Lemma forget_groom now old cs : forget_time <$> groomConditionsTransitionTime now old cs = forget_time <$> cs.
Proof.
  unfold groomConditionsTransitionTime. induction cs as [|c cs IH]; [done|]. cbn. by rewrite forget_groomCondition, <-IH.
Qed.

(** The conditions of [old] itself stay as they are. *)
Lemma groom_same now old : wf_conditions old → groomConditionsTransitionTime now old old = old.
Proof.
  intros Hwf. unfold groomConditionsTransitionTime.
  assert (∀ c, c ∈ old → groomCondition now old c = c) as H.
  { intros c Hc. unfold groomCondition. rewrite GetCondition_elem_of by done. cbv zeta.
    assert (set_LastTransitionTime (Condition_LastTransitionTime c) c = c) as -> by by destruct c. by rewrite bool_decide_true. }
  assert (∀ cs, (∀ c, c ∈ cs → groomCondition now old c = c) → map (groomCondition now old) cs = cs) as Hmap; [|by apply Hmap].
  induction cs as [|c cs IH]; intros Hcs; [done|]. cbn. rewrite Hcs by apply list_elem_of_here. f_equal. apply IH.
  intros d Hd. apply Hcs. by apply list_elem_of_further.
Qed.

Lemma wf_groom now old cs : wf_conditions cs → wf_conditions (groomConditionsTransitionTime now old cs).
Proof.
  unfold wf_conditions. intros H. replace (Condition_Type <$> groomConditionsTransitionTime now old cs) with (Condition_Type <$> cs); [done|].
  unfold groomConditionsTransitionTime. clear H. induction cs as [|c cs IH]; [done|]. cbn. rewrite <-IH. f_equal.
  unfold groomCondition. destruct (GetCondition old _); [|done]. by case_bool_decide.
Qed.

(** The status of a Run after [PostProcessReconcile] is done as before it. *)
Lemma Succeeded_PostProcess now generation old r :
  forget_time <$> Succeeded (PostProcess_status now generation old r) = forget_time <$> Succeeded r.
Proof.
  unfold Succeeded, PostProcess_status. cbn [set_Conditions set_ObservedGeneration RunStatus_Conditions].
  by rewrite !GetCondition_forget, forget_groom.
Qed.

Lemma wf_PreProcess now1 now2 generation r :
  wf_conditions (RunStatus_Conditions r) → wf_conditions (RunStatus_Conditions (PreProcess_status now1 now2 generation r)).
Proof.
  intros Hwf. assert (wf_conditions (InitializeConditions now1 (RunStatus_Conditions r))) as Hi.
  { unfold InitializeConditions. case_match; [done|]. by apply wf_SetCondition. }
  unfold PreProcess_status. case_bool_decide; [|done]. by apply wf_SetCondition.
Qed.

(** What [PreProcessReconcile] keeps of a status: all but its conditions. *)
Lemma PreProcess_keeps now1 now2 generation r :
  let r' := PreProcess_status now1 now2 generation r in
  RunStatus_ObservedGeneration r' = RunStatus_ObservedGeneration r ∧
  RunStatus_StartTime r' = RunStatus_StartTime r ∧ RunStatus_CompletionTime r' = RunStatus_CompletionTime r ∧
  RunStatus_ExtraFields r' = RunStatus_ExtraFields r ∧ RunStatus_Other r' = RunStatus_Other r.
Proof. cbv zeta. unfold PreProcess_status. by case_bool_decide. Qed.

(** A generation that was observed leaves a condition as it is; a new one
    makes it unknown. *)
Lemma PreProcess_observed now1 now2 r c :
  Succeeded r = Some c → PreProcess_status now1 now2 (RunStatus_ObservedGeneration r) r = r.
Proof.
  unfold Succeeded. intros Hc. unfold PreProcess_status, InitializeConditions. rewrite Hc.
  destruct r. cbn. by rewrite bool_decide_false by naive_solver.
Qed.

Lemma PreProcess_new now1 now2 generation r :
  wf_conditions (RunStatus_Conditions r) → RunStatus_ObservedGeneration r ≠ generation →
  forget_time <$> Succeeded (PreProcess_status now1 now2 generation r) =
  Some (newCondition ConditionSucceeded ConditionUnknown failedGenerationBump "unsuccessfully observed a new generation").
Proof.
  intros Hwf Hne. assert (wf_conditions (InitializeConditions now1 (RunStatus_Conditions r))) as Hi.
  { unfold InitializeConditions. case_match; [done|]. by apply wf_SetCondition. }
  unfold PreProcess_status. rewrite bool_decide_true by done. by apply Succeeded_Mark.
Qed.

(** A Run is done after [PreProcessReconcile] if it was and its generation was
    observed. *)
Lemma PreProcess_IsDone now1 now2 generation r :
  wf_conditions (RunStatus_Conditions r) →
  negb (IsUnknown (Succeeded (PreProcess_status now1 now2 generation r))) =
  bool_decide (RunStatus_ObservedGeneration r = generation) && negb (IsUnknown (Succeeded r)).
Proof.
  intros Hwf. case_bool_decide as Hgen; cbn [andb].
  - subst generation. destruct (Succeeded r) as [c|] eqn:Hc; [by rewrite (PreProcess_observed _ _ _ c), Hc|].
    unfold PreProcess_status, InitializeConditions, Succeeded in *. rewrite Hc. cbn. rewrite bool_decide_false by naive_solver.
    cbn [RunStatus_Conditions set_Conditions]. rewrite GetCondition_SetCondition, bool_decide_true by done.
    unfold stored_condition. cbn [Condition_Type]. by rewrite Hc.
  - by rewrite <-IsUnknown_forget, PreProcess_new.
Qed.

Section run_reconciler.
Context {MO : MapOrder} {CM : ContainerMerge} {CL : Cluster} {RS : RunServer}.

(** ** Before and after [ReconcileKind] *)

Definition preprocessed (s : State) : State :=
  let r := Run_SetDefaults (run s) in
  {| run := set_Run_Status (PreProcess_status (now (tick s)) (now (S (tick s)))
       (ObjectMeta_Generation (Run_ObjectMeta (run s))) (Run_Status r)) r;
     status := status s; tick := S (S (tick s)); trace := trace s |}.

Definition postprocessed (original : Run) (s : State) : State :=
  {| run := set_Run_Status (PostProcess_status (now (tick s)) (ObjectMeta_Generation (Run_ObjectMeta (run s)))
       (Run_Status original) (Run_Status (run s))) (run s);
     status := status s; tick := S (tick s); trace := trace s |}.

Lemma reconcileEventOf_phases original s (Q : option error → State → Prop) :
  (reconcileMethodFor (run s) = false → Q None s) →
  (reconcileMethodFor (run s) = true → wp ReconcileKind (preprocessed s) (λ e s', Q e (postprocessed original s'))) →
  wp (reconcileEventOf original) s Q.
Proof.
  intros Hdeleted Hlive. unfold reconcileEventOf. wp_steps. destruct (reconcileMethodFor (run s)); [|by apply Hdeleted].
  unfold PreProcessReconcile. wp_steps. eapply wp_mono; [by apply Hlive|]. cbv beta. intros e s' HQ.
  unfold PostProcessReconcile. by wp_steps.
Qed.

Lemma wf_Run_preprocessed s : wf_Run (run s) → wf_Run (run (preprocessed s)).
Proof.
  intros [Hwf Hd]. constructor; [by apply wf_PreProcess|]. unfold Run_IsDone. cbn [run preprocessed Run_Status set_Run_Status].
  rewrite PreProcess_IsDone by done. intros [_ H]%andb_true_iff.
  destruct (PreProcess_keeps (now (tick s)) (now (S (tick s))) (ObjectMeta_Generation (Run_ObjectMeta (run s))) (Run_Status (run s)))
    as (_ & _ & Hc & _).
  cbn [RunStatus_CompletionTime Run_Status set_Run_Status run preprocessed Run_SetDefaults] in *. rewrite Hc. by apply Hd.
Qed.

Lemma postprocessed_IsDone original s : Run_IsDone (run (postprocessed original s)) = Run_IsDone (run s).
Proof. rewrite !Run_IsDone_forget. cbn [run postprocessed Run_Status set_Run_Status]. by rewrite Succeeded_PostProcess. Qed.

Lemma wf_Run_postprocessed original s : wf_Run (run s) → wf_Run (run (postprocessed original s)).
Proof. intros [Hwf Hd]. constructor; [by apply wf_groom|]. rewrite postprocessed_IsDone. exact Hd. Qed.

(** What the reconciler keeps of the Run: the invariant and the identity; and
    its generation is observed. *)
Lemma reconcileEventOf_keeps original s :
  wf_Run (run s) → wp (reconcileEventOf original) s (λ _ s',
    wf_Run (run s') ∧
    namespace (run s') = namespace (run s) ∧
    ObjectMeta_Name (Run_ObjectMeta (run s')) = ObjectMeta_Name (Run_ObjectMeta (run s)) ∧
    (reconcileMethodFor (run s) = true →
     RunStatus_ObservedGeneration (Run_Status (run s')) = ObjectMeta_Generation (Run_ObjectMeta (run s)))).
Proof.
  intros Hwf. apply reconcileEventOf_phases; intros Hm; [split_and!; try done; congruence|].
  eapply wp_mono; [apply ReconcileKind_keeps; by apply wf_Run_preprocessed|]. cbv beta.
  intros e s' [Hwf' (_ & Hname & Hns & _ & Hgen & _)].
  split_and!; [by apply wf_Run_postprocessed|exact Hns|exact Hname|]. intros _. exact Hgen.
Qed.

Lemma progress_reconcileEventOf original : Progress (reconcileEventOf original).
Proof. unfold reconcileEventOf, PreProcessReconcile, PostProcessReconcile. progress_steps. Qed.

(** ** The requests of [updateStatus] *)
Definition update_of (r : Run) : effect := UpdateRunStatus (ObjectMeta_Namespace (Run_ObjectMeta r)) r.

(** What the update asks for: the status of [desired] on the Run as the cache
    or the API server returned it. *)
Definition asked (existing desired r : Run) : Prop :=
  ∃ base, r = set_Run_Status (Run_Status desired) base ∧
    (base = existing ∨ ∃ n, Runs_Get n (namespace desired) (ObjectMeta_Name (Run_ObjectMeta desired)) = inr base).

(** How an update ends: the API server has the status, or one of its answers
    is the error. *)
Definition settled_by (existing desired : Run) (n : nat) (err : option error) : Prop :=
  match err with
  | None =>
    RunStatus_DeepEqual (Run_Status existing) (Run_Status desired) = true ∨
    (∃ r, Runs_Get n (namespace desired) (ObjectMeta_Name (Run_ObjectMeta desired)) = inr r ∧
      RunStatus_DeepEqual (Run_Status r) (Run_Status desired) = true) ∨
    ∃ r, asked existing desired r ∧ Runs_UpdateStatus n (namespace r) r = None
  | Some e =>
    Runs_Get n (namespace desired) (ObjectMeta_Name (Run_ObjectMeta desired)) = inl e ∨
    ∃ r, asked existing desired r ∧ Runs_UpdateStatus n (namespace r) r = Some e
  end.

(** [updates existing desired k s err s']: at most [k] requests of the update. *)
Definition updates (existing desired : Run) (k : nat) (s : State) (err : option error) (s' : State) : Prop :=
  ∃ sent n, extends s s' (update_of <$> sent) ∧ length sent ≤ k ∧ Forall (asked existing desired) sent ∧
    tick s ≤ n ≤ tick s' ∧ settled_by existing desired n err.

Lemma attempt_updates existing desired k s :
  wp (updateStatus_attempt existing desired k) s (updates existing desired 1 s).
Proof.
  assert (∀ base s1, (base = existing ∨ ∃ n, Runs_Get n (namespace desired) (ObjectMeta_Name (Run_ObjectMeta desired)) = inr base) →
    extends s s1 [] → tick s ≤ tick s1 →
    (RunStatus_DeepEqual (Run_Status base) (Run_Status desired) = true → ∃ n, tick s ≤ n ≤ tick s1 ∧
       settled_by existing desired n None) →
    wp (if RunStatus_DeepEqual (Run_Status base) (Run_Status desired) then ret None
        else
          let existing := set_Run_Status (Run_Status desired) base in
          let namespace := ObjectMeta_Namespace (Run_ObjectMeta existing) in
          do! emit (UpdateRunStatus namespace existing) in
          reading (λ n, Runs_UpdateStatus n namespace existing)) s1 (updates existing desired 1 s)) as Hrest.
  { intros base s1 Hbase Hs1 Ht Heq. destruct (RunStatus_DeepEqual _ _); wp_steps.
    - destruct (Heq eq_refl) as (n & ? & ?). exists [], n. split_and!; try done; simpl; lia.
    - exists [set_Run_Status (Run_Status desired) base], (tick s1).
      assert (asked existing desired (set_Run_Status (Run_Status desired) base)) as Hasked by by exists base.
      split_and!; cbn; try done; try lia.
      + by eapply (extends_trans _ _ _ []).
      + by constructor.
      + unfold settled_by. destruct (Runs_UpdateStatus _ _ _) eqn:Hu; [right|right; right]; by eexists. }
  unfold updateStatus_attempt. wp_steps. case_bool_decide; wp_steps.
  - destruct (Runs_Get (tick s) _ _) as [err|r] eqn:Hget; wp_steps.
    + exists [], (tick s). cbn. split_and!; try done; try lia; [by apply extends_advance|by left].
    + apply Hrest; [right; by eexists|apply extends_advance|cbn; lia|]. intros Heq. exists (tick s). cbn.
      split; [lia|]. right. left. by eexists.
  - apply Hrest; [by left|apply extends_refl|lia|]. intros Heq. exists (tick s). split; [lia|by left].
Qed.

Lemma updates_trans existing desired k1 k2 s err1 s1 err s' :
  updates existing desired k1 s err1 s1 → updates existing desired k2 s1 err s' →
  updates existing desired (k1 + k2) s err s'.
Proof.
  intros (sent1 & n1 & H1 & Hl1 & Hf1 & ? & _) (sent2 & n2 & H2 & Hl2 & Hf2 & ? & Hset).
  exists (sent1 ++ sent2), n2. rewrite fmap_app, length_app. split_and!; try lia; [by eapply extends_trans| |done].
  by apply Forall_app.
Qed.

Lemma updates_more existing desired k1 k2 s err s' :
  k1 ≤ k2 → updates existing desired k1 s err s' → updates existing desired k2 s err s'.
Proof. intros Hk (sent & n & ? & ? & H). exists sent, n. split; [done|]. split; [lia|done]. Qed.

Lemma OnError_S steps retriable fn k lastErr :
  OnError (S steps) retriable fn k lastErr =
    let! err := fn k in
    match err with
    | None => ret None
    | Some err => if retriable err then OnError steps retriable fn (S k) (Some err) else ret (Some err)
    end.
Proof. done. Qed.

(** Of [steps + 1] attempts the last one decides. *)
Lemma OnError_updates existing desired steps retriable k lastErr s :
  wp (OnError (S steps) retriable (updateStatus_attempt existing desired) k lastErr) s (updates existing desired (S steps) s).
Proof.
  revert k lastErr s. induction steps as [|steps IH]; intros k lastErr s; rewrite OnError_S; apply wp_bind;
    (eapply wp_mono; [apply attempt_updates|]); intros [e|] s1 H1; cbv beta iota;
    try (destruct (retriable e)); wp_steps; try (eapply updates_more; [|done]; lia).
  eapply wp_mono; [apply IH|]. intros err s' H2. eapply (updates_trans _ _ 1); [done|exact H2].
Qed.

Lemma updateStatus_updates existing desired s :
  wp (updateStatus existing desired) s (updates existing desired DefaultRetry_Steps s).
Proof. apply OnError_updates. Qed.
(** ** The reconciliation of a key *)

(** The event that reports how the reconciliation ended. *)
Definition is_KubeEvent (e : effect) : Prop := match e with KubeEvent _ _ _ => True | _ => False end.

Lemma reconcileResource_updates original s (Q : option error → State → Prop) :
  wp (reconcileEventOf original) s (λ event s1, ∀ err s2 s3 rest,
    updates original (run s1) DefaultRetry_Steps s1 err s2 → extends s2 s3 rest → Forall is_KubeEvent rest →
    Q (match err with Some e => Some e | None => event end) s3) →
  wp (reconcileResource original) s Q.
Proof.
  intros H. unfold reconcileResource. wp_steps. eapply wp_mono; [exact H|]. cbv beta. clear H. intros event s1 H. wp_steps.
  apply (wp_mono _ _ (updates original (run s1) DefaultRetry_Steps s1)).
  { destruct (RunStatus_DeepEqual _ _) eqn:Heq; wp_steps; [|apply updateStatus_updates].
    exists [], (tick s1). split_and!; cbn; [apply extends_refl|lia|done|lia..|by left]. }
  intros err s2 Hu. destruct err as [e|]; wp_steps; [|destruct event; wp_steps].
  - by eapply (H (Some e) s2); [|by split_and!|repeat constructor].
  - by eapply (H None s2); [|by split_and!|repeat constructor].
  - by eapply (H None s2); [|apply extends_refl|].
Qed.

(** The leader finds the Run of a key with the lister. *)
Record gets (key : string) (start : nat) (ns name : string) (original : Run) : Prop := {
  gets_key : SplitMetaNamespaceKey key = inr (ns, name);
  gets_leader : IsLeaderFor ns name = true;
  gets_lister : Runs_lister_Get start ns name = inr original;
  gets_namespace : namespace original = ns;
  gets_name : ObjectMeta_Name (Run_ObjectMeta original) = name
}.

Lemma gets_Reconcile key start ns name original :
  gets key start ns name original →
  reconcilerImpl_Reconcile key start =
    ((reconcileResource original (resourceCopy original (S start))).1,
     trace (reconcileResource original (resourceCopy original (S start))).2).
Proof.
  intros [Hk Hl Hget _ _]. unfold reconcilerImpl_Reconcile. rewrite Hk, Hl, Hget. cbn [negb].
  by destruct (reconcileResource _ _).
Qed.

(** The API server, as documented: a Run that it returns is the stored one, of
    this name, and it stores the status of an update that it accepts; [stored]
    is the Run it has stored after a request. *)
Record stores (stored : nat → string → string → Run) : Prop := {
  stores_Get n ns name r : Runs_Get n ns name = inr r →
    r = stored n ns name ∧ namespace r = ns ∧ ObjectMeta_Name (Run_ObjectMeta r) = name;
  stores_UpdateStatus n r : Runs_UpdateStatus n (namespace r) r = None →
    Run_Status (stored n (namespace r) (ObjectMeta_Name (Run_ObjectMeta r))) = Run_Status r
}.

Lemma asked_name stored existing desired r :
  stores stored → asked existing desired r → namespace existing = namespace desired →
  ObjectMeta_Name (Run_ObjectMeta existing) = ObjectMeta_Name (Run_ObjectMeta desired) →
  namespace r = namespace desired ∧ ObjectMeta_Name (Run_ObjectMeta r) = ObjectMeta_Name (Run_ObjectMeta desired) ∧
  Run_Status r = Run_Status desired.
Proof. intros Hs (base & -> & [->|(n & Hget)]) Hns Hn; [done|]. by apply (stores_Get _ Hs) in Hget as (_ & ? & ?). Qed.

(** The status of [desired] is the one that [existing] had, or it is stored. *)
Lemma settled_stored stored existing desired n :
  stores stored → settled_by existing desired n None → namespace existing = namespace desired →
  ObjectMeta_Name (Run_ObjectMeta existing) = ObjectMeta_Name (Run_ObjectMeta desired) →
  RunStatus_DeepEqual (Run_Status existing) (Run_Status desired) = true ∨
  RunStatus_DeepEqual (Run_Status (stored n (namespace desired) (ObjectMeta_Name (Run_ObjectMeta desired)))) (Run_Status desired) = true.
Proof.
  intros Hs [H|[(r & Hget & H)|(r & Ha & Hu)]] Hns Hn; [by left|right..].
  - by apply (stores_Get _ Hs) in Hget as (<- & _).
  - destruct (asked_name _ _ _ _ Hs Ha Hns Hn) as (Hns' & Hn' & Hst).
    apply (stores_UpdateStatus _ Hs) in Hu. rewrite <-Hns', <-Hn', Hu, Hst. apply RunStatus_DeepEqual_refl.
Qed.

(** ** Runs that are left alone *)

Definition observed (r : Run) : Prop :=
  RunStatus_ObservedGeneration (Run_Status r) = ObjectMeta_Generation (Run_ObjectMeta r).

(** There is nothing to do for a Run that is being deleted, or whose generation
    was observed and that is someone else's or done. *)
Definition quiet (r : Run) : Prop :=
  reconcileMethodFor r = false ∨
  observed r ∧ is_Some (Succeeded (Run_Status r)) ∧
    (responsible r = false ∨ Run_HasStarted r = true ∧ Run_IsDone r = true).

Lemma preprocessed_observed s :
  observed (run s) → is_Some (Succeeded (Run_Status (run s))) → run (preprocessed s) = Run_SetDefaults (run s).
Proof. intros Ho [c Hc]. unfold preprocessed. cbn. rewrite <-Ho, (PreProcess_observed _ _ _ c) by done. by destruct s as [[] ]. Qed.

Lemma PostProcess_same now generation r :
  wf_conditions (RunStatus_Conditions r) → RunStatus_ObservedGeneration r = generation →
  PostProcess_status now generation r r = r.
Proof.
  intros Hwf Ho. unfold PostProcess_status. cbn [set_ObservedGeneration set_Conditions RunStatus_Conditions].
  rewrite groom_same by done. destruct r. cbn in *. by rewrite Ho.
Qed.

Lemma quiet_reconcileEventOf original start :
  wf_conditions (RunStatus_Conditions (Run_Status original)) → quiet original →
  wp (reconcileEventOf original) (resourceCopy original start) (λ e s,
    e = None ∧ Run_Status (run s) = Run_Status original ∧ trace s = []).
Proof.
  intros Hwf Hq. apply reconcileEventOf_phases; cbn [run resourceCopy]; intros Hm; [done|].
  destruct Hq as [|(Ho & Hc & Hq)]; [congruence|].
  pose proof (preprocessed_observed (resourceCopy original start) Ho Hc) as Hpre.
  unfold wp. rewrite ReconcileKind_inert by by rewrite Hpre. cbn [fst snd]. unfold postprocessed. rewrite Hpre. cbn.
  split_and!; [done|by apply PostProcess_same|done].
Qed.

(** ** The TaskRuns that are created *)

Lemma reconcileResource_creations original s :
  creations (trace (reconcileResource original s).2) = creations (trace (reconcileEventOf original s).2).
Proof.
  apply (reconcileResource_updates original s (λ _ s', creations (trace s') = _)). unfold wp.
  intros err s2 s3 rest (sent & n & (_ & _ & Hs) & _) (_ & _ & ->) Hrest. rewrite Hs, !creations_app.
  rewrite (creations_minor (_ <$> sent)) by by apply Forall_fmap, Forall_true.
  rewrite (creations_minor rest) by (eapply Forall_impl; [exact Hrest|]; by intros []). by rewrite !app_nil_r.
Qed.

(** A reconciliation that creates a TaskRun: the lister shows none, the Run
    records none, and if nothing fails the Run records it then. *)
Definition creates_for (original : Run) (s : State) : Prop :=
  ∃ tr n, creations (trace s) = [(namespace original, tr)] ∧ requested (Run_SetDefaults original) tr ∧
    TaskRuns_List n (namespace original) (getTaskRunLabels original false) = inr [] ∧
    responsible original = true ∧ ¬ records_TaskRun original ∧ ¬ (observed original ∧ Run_IsDone original = true) ∧
    (keeps_TaskRun → nothing_fails → records_TaskRun (run s)).

Lemma reconcileEventOf_creations original start :
  wf_conditions (RunStatus_Conditions (Run_Status original)) →
  wp (reconcileEventOf original) (resourceCopy original start) (λ _ s,
    creations (trace s) = [] ∨ creates_for original s).
Proof.
  intros Hwf. set (s0 := resourceCopy original start).
  assert (∀ r r', RunStatus_ExtraFields (Run_Status r) = RunStatus_ExtraFields (Run_Status r') →
    records_TaskRun r → records_TaskRun r') as Hrec.
  { unfold records_TaskRun, DecodeExtraFields. by intros r r' ->. }
  destruct (PreProcess_keeps (now (tick s0)) (now (S (tick s0))) (ObjectMeta_Generation (Run_ObjectMeta original)) (Run_Status original))
    as (_ & _ & _ & Hex & _).
  apply reconcileEventOf_phases; intros _; [by left|].
  assert (wf_conditions (RunStatus_Conditions (Run_Status (run (preprocessed s0))))) as Hwf' by by apply wf_PreProcess.
  eapply wp_mono; [apply ReconcileKind_creations, Hwf'|]. cbv beta.
  intros _ s [[H _]|[(tr & n & Htr & Hreq & Hl & Hmine & Hd) (Hnr & _ & Hr)]]; [by left|right]. exists tr, n.
  split_and!; try done.
  - eapply requested_Status. exact Hreq.
  - intros H. apply Hnr; [done|]. eapply Hrec; [|exact H]. by symmetry.
  - intros [Ho Hdone]. unfold Run_IsDone in Hd. cbn [run preprocessed Run_Status set_Run_Status resourceCopy s0] in Hd.
    rewrite PreProcess_IsDone in Hd by done. cbn in Hd. rewrite bool_decide_true in Hd by done. cbn in Hd.
    unfold Run_IsDone in Hdone. congruence.
Qed.

(** The record of a TaskRun is kept, also when the Run is opened again. *)
Lemma reconcileEventOf_records original start :
  wf_conditions (RunStatus_Conditions (Run_Status original)) → keeps_TaskRun → nothing_fails → records_TaskRun original →
  wp (reconcileEventOf original) (resourceCopy original start) (λ _ s, records_TaskRun (run s)).
Proof.
  intros Hwf Hlaw Hok Hr. set (s0 := resourceCopy original start).
  assert (∀ r r', RunStatus_ExtraFields (Run_Status r) = RunStatus_ExtraFields (Run_Status r') →
    records_TaskRun r → records_TaskRun r') as Hrec.
  { unfold records_TaskRun, DecodeExtraFields. by intros r r' ->. }
  destruct (PreProcess_keeps (now (tick s0)) (now (S (tick s0))) (ObjectMeta_Generation (Run_ObjectMeta original)) (Run_Status original))
    as (_ & _ & _ & Hex & _).
  apply reconcileEventOf_phases; intros _; [done|].
  assert (wf_conditions (RunStatus_Conditions (Run_Status (run (preprocessed s0))))) as Hwf' by by apply wf_PreProcess.
  eapply wp_mono; [apply ReconcileKind_creations, Hwf'|]. cbv beta.
  assert (records_TaskRun (run (preprocessed s0))) as Hpre by (eapply Hrec; [|exact Hr]; by symmetry).
  intros _ s [(_ & _ & H)|(_ & Hnr & _)]; [by apply H|]. by edestruct Hnr.
Qed.

(** A reconciliation that knows of the TaskRun, or that there is nothing to do:
    the Run records it or is done and observed, or every listing has a TaskRun
    that was created for the Run. *)
Definition informed (original : Run) : Prop :=
  records_TaskRun original ∨ observed original ∧ Run_IsDone original = true ∨
  ∀ n cache, TaskRuns_cache n = inr cache → ∃ tr r, tr ∈ cache ∧ made_for r (TaskRun_ObjectMeta tr) ∧
    ObjectMeta_Name (Run_ObjectMeta r) = ObjectMeta_Name (Run_ObjectMeta original) ∧ namespace r = namespace original.

Lemma informed_creations original start :
  wf_conditions (RunStatus_Conditions (Run_Status original)) → informed original →
  creations (trace (reconcileEventOf original (resourceCopy original start)).2) = [].
Proof.
  intros Hwf Hi. destruct (reconcileEventOf_creations original start Hwf) as [|(tr & n & _ & _ & Hl & _ & Hnr & Hnd & _)]; [done|].
  destruct Hi as [|[|Hcache]]; [done..|]. destruct (TaskRuns_cache n) as [err|cache] eqn:Hc.
  - unfold TaskRuns_List in Hl. by rewrite Hc in Hl.
  - destruct (Hcache n cache Hc) as (tr' & r & Hin & Hm & Hname & Hns). exfalso.
    by eapply (TaskRuns_List_created n cache tr' r original).
Qed.

(** ** Runs that get their TaskRun *)

(** Whatever reading it makes, a reconciliation of the Run finds its TaskGroup,
    valid and resolvable, and the tasks its steps use, and no TaskRun. *)
Record ready (r : Run) (tg : TaskGroup) : Prop := {
  ready_name : refName r ≠ "";
  ready_group n : TaskGroups_Get n (namespace r) (refName r) = inr tg;
  ready_valid : TaskGroupSpec_Validate (TaskGroup_Spec tg) = None;
  ready_uses step u : step ∈ V1alpha1.TaskGroupSpec_Steps (TaskGroup_Spec tg) → V1alpha1.Step_Uses step = Some u →
    V1beta1.TaskRef_Name (V1alpha1.Uses_TaskRef u) ≠ "" ∧ ∀ n, ∃ t, task_of n r (V1alpha1.Uses_TaskRef u) = inr t;
  ready_resolved used : uses_fetched r 0 (V1alpha1.TaskGroupSpec_Steps (TaskGroup_Spec tg)) ∅ used →
    (resolveTaskSpec (TaskGroup_Spec tg) used).2 = None;
  ready_list n : TaskRuns_List n (namespace r) (getTaskRunLabels r false) = inr []
}.

(** Such a Run gets the TaskRun, from any state with the same metadata and spec. *)
Lemma ready_creates r tg x es : ready r tg →
  creates (propagateTaskGroupLabelsAndAnnotations r (TaskGroup_ObjectMeta tg)) (TaskGroup_Spec tg) x es →
  ∃ tr, creations es = [(namespace r, tr)].
Proof.
  intros Hr Hc. destruct Hc as [before step after u n used err Hsteps _ Hu Herr|used ts err Hu Hres|used ts n m _ _]; [exfalso..|].
  - destruct (ready_uses _ _ Hr step u) as [Hname Ht]; [rewrite Hsteps; apply elem_of_app; right; apply list_elem_of_here|done|].
    destruct Herr as (e & He & _). rewrite bool_decide_true in He by done. destruct He as (e' & He & _).
    destruct (Ht n) as [t Htask]. change (task_of n r (V1alpha1.Uses_TaskRef u) = inl e') in He. congruence.
  - apply uses_fetched_propagated in Hu. pose proof (ready_resolved _ _ Hr used Hu) as H. rewrite Hres in H. done.
  - by eexists.
Qed.

Lemma ready_judges s tg v es st :
  ready (run s) tg → TaskGroupRunStatus_TaskRun (status s) = None → judges s v es st →
  ∃ tr, creations es = [(namespace (run s), tr)].
Proof.
  intros Hr Hnone Hj.
  assert (fetched s = inr (TaskGroup_ObjectMeta tg, TaskGroup_Spec tg)) as Hf.
  { unfold fetched. rewrite bool_decide_true by apply Hr. by rewrite (ready_group _ _ Hr). }
  pose proof (ready_valid _ _ Hr) as Hv. assert (found s = inr []) as Hl by apply (ready_list _ _ Hr).
  destruct Hj as [| | | | | | |meta spec tr es H _ _ _ Hc|meta spec err es H _ _ _ Hc]; try congruence;
    rewrite Hf in H; simplify_eq; by eapply ready_creates.
Qed.

Lemma ready_same r r' tg : Run_ObjectMeta r' = Run_ObjectMeta r → Run_Spec r' = Run_Spec r → ready r tg → ready r' tg.
Proof. intros Hm Hsp Hr. rewrite (same_meta_run r r' Hm Hsp). destruct Hr. constructor; try done.
  intros used Hu. apply ready_resolved0. by eapply uses_fetched_Status.
Qed.

Lemma ready_ReconcileKind s tg :
  ready (run s) tg → status s = zero_TaskGroupRunStatus → wf_conditions (RunStatus_Conditions (Run_Status (run s))) →
  responsible (run s) = true → Run_IsDone (run s) = false →
  TaskGroupRunStatus_TaskRun (DecodeExtraFields (Run_Status (run s)) zero_TaskGroupRunStatus).1 = None →
  wp ReconcileKind s (λ _ s', ∃ tr, creations (trace s') = creations (trace s) ++ [(namespace (run s), tr)]).
Proof.
  intros Hr Hz Hwf Hmine Hd Hnone. apply ReconcileKind_phases; [done|congruence|]. intros _ s1 Hs1.
  apply begins_keeps in Hs1 as (Hm1 & Hsp1 & Hd1 & Hex1 & Hst1 & Htr1). rewrite Hd1, Hd.
  intros s2 e s3 e' s4 s5 s6 H2 (v & es & st & Hj & H3) H4 H5 H6 _.
  pose proof (decoded_same _ _ H2) as (Hm2 & Hsp2 & _).
  assert (ready (run s2) tg) as Hr2 by (eapply ready_same; [| |exact Hr]; congruence).
  assert (namespace (run s2) = namespace (run s)) as Hns by (unfold namespace; congruence).
  destruct (ready_judges s2 tg v es st) as [tr Htr]; [done| |done|].
  - rewrite (decoded_status _ _ H2), Hst1, Hz. unfold DecodeExtraFields in *. by rewrite Hex1.
  - exists tr. rewrite (creations_emits _ _ H6), (encoded_trace _ _ H5), (creations_emits _ _ H4), (realizes_trace _ _ _ _ _ _ H3),
      creations_app, (decoded_trace _ _ H2), Htr1, Htr. by rewrite Hns.
Qed.

(** ** What is persisted *)

(** The status that the reconciliation of a Run leads to is the one the Run
    had, or the API server has it. *)
Definition persisted (stored : nat → string → string → Run) (start : nat) (ns name : string) (before after : RunStatus) : Prop :=
  RunStatus_DeepEqual before after = true ∨
  ∃ n, start < n ∧ RunStatus_DeepEqual (Run_Status (stored n ns name)) after = true.

(** An answer of the API server about this status is the error [e]. *)
Definition refused (ns name : string) (after : RunStatus) (e : error) : Prop :=
  ∃ n, Runs_Get n ns name = inl e ∨ ∃ r, Run_Status r = after ∧ Runs_UpdateStatus n ns r = Some e.
End run_reconciler.

(** ** Sequences of reconciliations *)

Lemma list_bind_nil {A B} (f : A → list B) (l : list A) : (∀ x, x ∈ l → f x = []) → l ≫= f = [].
Proof.
  induction l as [|x l IH]; intros H; [done|]. cbn. rewrite (H x) by apply list_elem_of_here.
  apply IH. intros y Hy. apply H. by apply list_elem_of_further.
Qed.

(** A reconciliation of a Run, in a cluster and with an API server of its own:
    caches may be stale and updates may have failed before. *)
Record attempt := {
  attempt_Cluster : Cluster;
  attempt_RunServer : RunServer;
  attempt_key : string;
  attempt_start : nat;
  attempt_original : Run
}.

Section attempts.
Context {MO : MapOrder} {CM : ContainerMerge}.
Implicit Types (a : attempt).

Definition attempt_creations a : list (string * TaskRun) :=
  creations (reconcilerImpl_Reconcile (CL := attempt_Cluster a) (RS := attempt_RunServer a) (attempt_key a) (attempt_start a)).2.

Definition attempt_gets a : Prop :=
  wf_conditions (RunStatus_Conditions (Run_Status (attempt_original a))) ∧
  ∃ ns name, gets (CL := attempt_Cluster a) (RS := attempt_RunServer a) (attempt_key a) (attempt_start a) ns name (attempt_original a).

Definition attempt_informed a : Prop := informed (CL := attempt_Cluster a) (attempt_original a).

Lemma attempt_creates_one a : attempt_gets a → length (attempt_creations a) ≤ 1.
Proof.
  intros (Hwf & ns & name & Hg). unfold attempt_creations. rewrite (gets_Reconcile _ _ _ _ _ Hg). cbn [snd].
  rewrite reconcileResource_creations.
  destruct (reconcileEventOf_creations (CL := attempt_Cluster a) _ (S (attempt_start a)) Hwf) as [->|(tr & n & -> & _)]; simpl; lia.
Qed.

Lemma attempt_creates_none a : attempt_gets a → attempt_informed a → attempt_creations a = [].
Proof.
  intros (Hwf & ns & name & Hg) Hi. unfold attempt_creations. rewrite (gets_Reconcile _ _ _ _ _ Hg). cbn [snd].
  rewrite reconcileResource_creations. by apply informed_creations.
Qed.
End attempts.

(** ** A small API server for the example of ReconcilerExample *)
Module ServerSample.

Global Instance RunStatus_eq_dec : EqDecision RunStatus.
Proof. solve_decision. Defined.

Definition conflict : error := errorString "the object has been modified".

(** The server stores [before] until request [k] and the status of [after] from
    then on: it refuses other updates as conflicts. *)
Definition stored (k : nat) (before after : Run) (n : nat) (ns name : string) : Run :=
  if bool_decide (n < k) then before else after.

Definition named (r : Run) (ns name : string) : bool :=
  bool_decide (namespace r = ns ∧ ObjectMeta_Name (Run_ObjectMeta r) = name).

Definition server (k : nat) (before after : Run) : RunServer := {|
  Runs_Get n ns name :=
    if named (stored k before after n ns name) ns name then inr (stored k before after n ns name)
    else inl (NewNotFound "runs.tekton.dev" name);
  Runs_UpdateStatus n ns r :=
    if bool_decide (k ≤ n) && named r ns (ObjectMeta_Name (Run_ObjectMeta r)) && bool_decide (Run_Status r = Run_Status after)
    then None else Some conflict;
  IsConflict e := bool_decide (error_text e = error_text conflict);
  IsNotFound _ := false;
  IsLeaderFor _ _ := true |}.

Lemma server_stores k before after : stores (RS := server k before after) (stored k before after).
Proof.
  split.
  - intros n ns name r. cbn. destruct (named _ _ _) eqn:Hn; [|done]. intros [= <-].
    apply bool_decide_eq_true in Hn. by destruct Hn.
  - intros n r. cbn. destruct (_ && _ && _) eqn:H; [|done]. intros _.
    apply andb_true_iff in H as [[Hk _]%andb_true_iff Hst]. apply bool_decide_eq_true in Hk, Hst.
    unfold stored. rewrite bool_decide_false by lia. by rewrite Hst.
Qed.

(** The new Run of the example in a cluster whose cache of TaskRuns is empty. *)
Definition reached : State :=
  (reconcileEventOf (MO := canonical_order) (CM := image_merge) (CL := Sample.stale) Sample.new_run
     (resourceCopy Sample.new_run 1)).2.

Definition accepting : RunServer := server 2 Sample.new_run (run reached).

Lemma gets_new (RS := accepting) : gets (CL := Sample.stale) "ns/run" 0 "ns" "run" Sample.new_run.
Proof. split; reflexivity. Qed.

Lemma wf_new : wf_Run Sample.new_run.
Proof. split; [apply NoDup_nil_2|]. intros H. vm_compute in H. discriminate H. Qed.

Lemma keeps_stale : keeps_TaskRun (CL := Sample.stale).
Proof. intros [spec [st|]] raw H Hst; cbn in H; injection H as <-; [split; [done|by eexists]|by destruct Hst]. Qed.

Lemma nothing_fails_stale : nothing_fails (CL := Sample.stale).
Proof. split; [intros n ns tr; by exists tr|]. intros st. cbn. by eexists. Qed.

(** A Run of another controller that is done and whose status has no observed
    generation. *)
Definition foreign_run : Run := {|
  Run_ObjectMeta := {| ObjectMeta_Name := "run"; ObjectMeta_Namespace := "ns"; ObjectMeta_UID := "f";
    ObjectMeta_ResourceVersion := ""; ObjectMeta_Generation := 1;
    ObjectMeta_CreationTimestamp := 5%Z; ObjectMeta_DeletionTimestamp := None; ObjectMeta_Labels := None; ObjectMeta_Annotations := None;
    ObjectMeta_OwnerReferences := []; ObjectMeta_Other := JObj [] |};
  Run_Spec := Run_Spec (Sample.run_of "Wait" "" Sample.new_status);
  Run_Status := Run_Status Sample.done_run |}.

Definition foreign_cluster : Cluster := Sample.cluster (inr Sample.group) (λ _, []) foreign_run.

Definition foreign_reached : State :=
  (reconcileEventOf (MO := canonical_order) (CM := image_merge) (CL := foreign_cluster) foreign_run (resourceCopy foreign_run 1)).2.

Lemma ready_new :
  ready (MO := canonical_order) (CM := image_merge) (CL := Sample.stale) (Run_SetDefaults Sample.new_run) Sample.group.
Proof.
  split; try done.
  - intros step u Hin Hu. change (step ∈ [Sample.own_step; Sample.uses_step]) in Hin.
    inversion Hin as [|? ? ? Hin2]; subst; [done|]. inversion Hin2 as [|? ? ? Hin3]; subst; [|by apply not_elem_of_nil in Hin3].
    injection Hu as <-. split; [done|]. intros n. by eexists.
  - intros used Hu. assert (used = {[ 1 := TaskSpec_SetDefaults Sample.task ]}) as ->.
    { inversion Hu as [|? ? ? ? ? _ Hu1|]; subst; [|done].
      inversion Hu1 as [| |? ? ? u0 n0 t0 ? ? He Hn Ht Hu2]; subst; [done|].
      inversion Hu2; subst. injection He as <-. vm_compute in Ht. injection Ht as <-. done. }
    vm_compute. reflexivity.
Qed.

(** A first reconciliation of the new Run and a second one of what it stored,
    which does not see the TaskRun. *)
Definition first : attempt := {|
  attempt_Cluster := Sample.stale; attempt_RunServer := accepting; attempt_key := "ns/run"; attempt_start := 0;
  attempt_original := Sample.new_run |}.

Definition second : attempt := {|
  attempt_Cluster := Sample.cluster (inr Sample.group) (λ _, []) (run reached); attempt_RunServer := accepting;
  attempt_key := "ns/run"; attempt_start := 30; attempt_original := run reached |}.

(** Another reconciliation of the Run as it was, which does not see the status
    but the TaskRun of the first one. *)
Definition late : attempt := {|
  attempt_Cluster := Sample.cluster (inr Sample.group)
    (λ _, (λ c, Sample.on_server c.2) <$> attempt_creations (MO := canonical_order) (CM := image_merge) first) Sample.new_run;
  attempt_RunServer := accepting; attempt_key := "ns/run"; attempt_start := 20; attempt_original := Sample.new_run |}.

Lemma late_sees n : ∃ tr,
  TaskRuns_cache (Cluster := attempt_Cluster late) n = inr [tr] ∧ made_for Sample.new_run (TaskRun_ObjectMeta tr).
Proof.
  assert ((λ m, (ObjectMeta_Namespace m, GetControllerOf m, entries (ObjectMeta_Labels m))) ∘ TaskRun_ObjectMeta ∘ snd <$>
    attempt_creations (MO := canonical_order) (CM := image_merge) first =
    [("ns", Some (NewControllerRef Sample.new_run),
      <["team" := "blue"]> (<["custom.tekton.dev/taskGroup" := "group"]> (getTaskRunLabels Sample.new_run true)))]) as Hm
    by (vm_compute; reflexivity).
  unfold late. cbn [attempt_Cluster TaskRuns_cache Sample.cluster].
  destruct (attempt_creations first) as [|[ns tr] [|? ?]]; [done| |done].
  injection Hm as Hns Hc Hl. exists (Sample.on_server tr). split; [done|]. split; [done..|].
  cbn. rewrite Hl. by do 3 (apply insert_subseteq_r; [done|]).
Qed.

End ServerSample.
