(* ===== verification/RunReconcilerTheorems.v ===== *)
(** The properties of the generated reconciler of Runs together with
    [ReconcileKind]: what is persisted, what is left alone, and how many
    TaskRuns are created when caches are stale and updates fail. *)
From S2P Require Import Prelude GoStrings FieldErrors Types Substitution StepMerge Resolve.
From S2P Require Import Validation Conditions RunTypes Listers Cluster Reconciler Progress ReconcilerSpec ReconcileKind ReconcilerExample.
From S2P Require Import Wiring RunReconciler RunReconcilerSpec.
From Stdlib Require Import Ascii.

Section run_reconciler.
Context {MO : MapOrder} {CM : ContainerMerge} {CL : Cluster} {RS : RunServer}.

(** ** What is persisted *)

Lemma Reconcile_updates stored key start ns name original :
  stores stored → gets key start ns name original → wf_Run original →
  let '(event, s) := reconcileEventOf original (resourceCopy original (S start)) in
  let after := Run_Status (run s) in
  wp (reconcileResource original) (resourceCopy original (S start)) (λ err s', ∃ sent rest,
    trace s' = trace s ++ (update_of <$> sent) ++ rest ∧
    length sent ≤ 5 ∧ Forall is_KubeEvent rest ∧
    Forall (λ r, namespace r = ns ∧ ObjectMeta_Name (Run_ObjectMeta r) = name ∧ Run_Status r = after) sent ∧
    (err = event ∧ persisted stored start ns name (Run_Status original) after ∨
     ∃ e, err = Some e ∧ refused ns name after e)).
Proof.
  intros Hs Hg Hwf. pose proof (gets_namespace _ _ _ _ _ Hg) as Hns. pose proof (gets_name _ _ _ _ _ Hg) as Hn.
  pose proof (wp_run (reconcileEventOf original) (resourceCopy original (S start))) as Hrun.
  pose proof (reconcileEventOf_keeps original (resourceCopy original (S start)) Hwf) as (_ & Hns1 & Hn1 & _).
  pose proof (progress_reconcileEventOf original (resourceCopy original (S start))) as [Htick _].
  unfold wp in Hrun. destruct (reconcileEventOf original _) as [event s] eqn:He. cbn [fst snd run resourceCopy tick] in *. clear Hrun.
  apply reconcileResource_updates. unfold wp. rewrite He. cbn [fst snd].
  intros err s2 s3 rest (sent & n & Hext & Hlen & Hasked & Ht & Hset) Hext3 Hrest.
  assert (namespace original = namespace (run s)) as Hns' by done.
  assert (ObjectMeta_Name (Run_ObjectMeta original) = ObjectMeta_Name (Run_ObjectMeta (run s))) as Hn' by done.
  exists sent, rest. split_and!; try done.
  - destruct Hext as (_ & _ & Htr), Hext3 as (_ & _ & ->). by rewrite Htr, <-app_assoc.
  - eapply Forall_impl; [exact Hasked|]. intros r Ha. destruct (asked_name _ _ _ _ Hs Ha Hns' Hn') as (? & ? & ?).
    split_and!; congruence.
  - destruct err as [e|]; [right|left].
    + exists e. split; [done|]. exists n. rewrite <-Hns, <-Hn, Hns', Hn'. destruct Hset as [?|(r & Ha & Hu)]; [by left|right].
      destruct (asked_name _ _ _ _ Hs Ha Hns' Hn') as (Hr & _ & ?). exists r. by rewrite <-Hr.
    + split; [done|]. destruct (settled_stored _ _ _ _ Hs Hset Hns' Hn') as [|H]; [by left|right].
      exists n. rewrite <-Hns, <-Hn, Hns', Hn'. split; [lia|done].
Qed.

(** C3: The reconciliation of a key reads the Run from the cache, processes it
    and then asks the API server for the status it has reached, in at most
    five requests, which all carry this status and the name of the Run: when
    it returns the outcome of [ReconcileKind], the status is the one that the
    cache had or the API server has stored it; otherwise the error is an
    answer of the API server, and nothing is lost silently. *)
Theorem Reconcile_persists stored key start ns name original :
  stores stored → gets key start ns name original → wf_Run original →
  let '(err, es) := reconcilerImpl_Reconcile key start in
  let '(event, s) := reconcileEventOf original (resourceCopy original (S start)) in
  let after := Run_Status (run s) in
  ∃ sent rest, es = trace s ++ (update_of <$> sent) ++ rest ∧
    length sent ≤ 5 ∧ Forall is_KubeEvent rest ∧
    Forall (λ r, namespace r = ns ∧ ObjectMeta_Name (Run_ObjectMeta r) = name ∧ Run_Status r = after) sent ∧
    (err = event ∧ persisted stored start ns name (Run_Status original) after ∨
     ∃ e, err = Some e ∧ refused ns name after e).
Proof.
  intros Hs Hg Hwf. rewrite (gets_Reconcile _ _ _ _ _ Hg). pose proof (Reconcile_updates _ _ _ _ _ _ Hs Hg Hwf) as H.
  by destruct (reconcileEventOf _ _).
Qed.
(** ** What is left alone, and what is not *)

(** C39: The reconciler has no effect and returns no error for a Run that is
    being deleted, and for a Run whose generation it has observed and that
    has a condition and is another controller's, or has started and is done. *)
Theorem Reconcile_quiescent key start ns name original :
  gets key start ns name original → wf_conditions (RunStatus_Conditions (Run_Status original)) → quiet original →
  reconcilerImpl_Reconcile key start = (None, []).
Proof.
  intros Hg Hwf Hq. rewrite (gets_Reconcile _ _ _ _ _ Hg).
  pose proof (quiet_reconcileEventOf original (S start) Hwf Hq) as (He & Hst & Htr). unfold reconcileResource, bind, get_run.
  destruct (reconcileEventOf original _) as [e s]. cbn in *. subst e. rewrite Hst, RunStatus_DeepEqual_refl. cbn. by rewrite Htr.
Qed.

(** Before [ReconcileKind] a Run that is done is opened again exactly when
    its generation was not observed: after an edit of its spec, also one that
    only cancels it, its condition is unknown and it is reconciled anew,
    although its completion time is kept. *)
Theorem PreProcessReconcile_reopens s :
  wf_conditions (RunStatus_Conditions (Run_Status (run s))) →
  let s' := (PreProcessReconcile s).2 in
  Run_IsDone (run s') =
    bool_decide (RunStatus_ObservedGeneration (Run_Status (run s)) = ObjectMeta_Generation (Run_ObjectMeta (run s))) && Run_IsDone (run s) ∧
  RunStatus_CompletionTime (Run_Status (run s')) = RunStatus_CompletionTime (Run_Status (run s)) ∧
  RunStatus_StartTime (Run_Status (run s')) = RunStatus_StartTime (Run_Status (run s)) ∧
  RunStatus_ExtraFields (Run_Status (run s')) = RunStatus_ExtraFields (Run_Status (run s)).
Proof.
  intros Hwf. change ((PreProcessReconcile s).2) with (preprocessed s). cbv zeta.
  destruct (PreProcess_keeps (now (tick s)) (now (S (tick s))) (ObjectMeta_Generation (Run_ObjectMeta (run s))) (Run_Status (run s)))
    as (_ & Hst & Hct & Hex & _).
  split; [|by split_and!]. unfold Run_IsDone. cbn [run preprocessed Run_Status set_Run_Status Run_SetDefaults].
  by rewrite PreProcess_IsDone.
Qed.

(** When the controller becomes the leader it reconciles the Runs of other
    controllers too, since it has no filter for the promotion: if one of them
    has a generation that its controller did not record, as a controller of
    another make does not, then the reconciliation, if it succeeds, leaves the
    Run in the API server as not done, even if it was done. *)
Theorem promotion_reopens_foreign_Run stored Has all start ns name original :
  stores stored → gets (safeKey (ns, name)) start ns name original → wf_Run original →
  original ∈ all → Has (ns, name) = true →
  responsible original = false → reconcileMethodFor original = true → ¬ observed original →
  (ns, name) ∈ PromoteFunc NewController_PromoteFilterFunc Has all ∧
  ((reconcilerImpl_Reconcile (safeKey (ns, name)) start).1 = None →
   ∃ n, start < n ∧ Run_IsDone (stored n ns name) = false).
Proof.
  intros Hs Hg Hwf Hin Hhas Hforeign Hlive Hno. pose proof (gets_namespace _ _ _ _ _ Hg) as Hns.
  pose proof (gets_name _ _ _ _ _ Hg) as Hn. split.
  - apply list_elem_of_filter. split; [done|]. apply list_elem_of_fmap. exists original. split; [|done]. unfold namespace in Hns. congruence.
  - rewrite (gets_Reconcile _ _ _ _ _ Hg). pose proof (Reconcile_updates _ _ _ _ _ _ Hs Hg Hwf) as H.
    set (s0 := resourceCopy original (S start)) in *.
    assert (reconcileEventOf original s0 = (None, postprocessed original (preprocessed s0))) as He.
    { rewrite (surjective_pairing (reconcileEventOf _ _)).
      apply (reconcileEventOf_phases original s0 (λ e s, (e, s) = _)); cbn [run s0 resourceCopy]; [by rewrite Hlive|].
      intros _. unfold wp. by rewrite ReconcileKind_inert by by left. }
    rewrite He in H. destruct H as (sent & rest & _ & _ & _ & _ & H). cbn [fst]. intros Hnone.
    destruct H as [[_ [Heq|(n & Hlt & Heq)]]|(e & Herr & _)]; [exfalso; apply Hno| |congruence].
    + apply RunStatus_DeepEqual_spec in Heq as (_ & Ho & _). exact Ho.
    + exists n. split; [done|]. apply RunStatus_DeepEqual_spec in Heq as (Hc & _).
      rewrite Run_IsDone_forget. unfold Succeeded. rewrite GetCondition_forget, Hc, <-GetCondition_forget.
      change (negb (IsUnknown (forget_time <$> Succeeded (Run_Status (run (postprocessed original (preprocessed s0)))))) = false).
      rewrite <-Run_IsDone_forget, postprocessed_IsDone. unfold Run_IsDone. cbn [run preprocessed Run_Status set_Run_Status Run_SetDefaults].
      rewrite PreProcess_IsDone by apply Hwf. by rewrite bool_decide_false.
Qed.
(** ** The TaskRuns of a Run *)

(** A Run of a TaskGroup that is not done with its generation and has no
    TaskRun gets one: the reconciliation asks the API server for exactly one
    TaskRun, provided that the TaskGroup is found, valid and resolvable and
    the tasks that its steps use are found. *)
Theorem fresh_Run_gets_TaskRun key start ns name original tg :
  gets key start ns name original → wf_conditions (RunStatus_Conditions (Run_Status original)) →
  ready (Run_SetDefaults original) tg → responsible original = true → reconcileMethodFor original = true →
  ¬ (observed original ∧ Run_IsDone original = true) →
  TaskGroupRunStatus_TaskRun (DecodeExtraFields (Run_Status original) zero_TaskGroupRunStatus).1 = None →
  ∃ tr, creations (reconcilerImpl_Reconcile key start).2 = [(ns, tr)].
Proof.
  intros Hg Hwf Hr Hmine Hlive Hnd Hnone. rewrite (gets_Reconcile _ _ _ _ _ Hg). cbn [snd]. rewrite reconcileResource_creations.
  rewrite <-(gets_namespace _ _ _ _ _ Hg). set (s0 := resourceCopy original (S start)).
  destruct (PreProcess_keeps (now (tick s0)) (now (S (tick s0))) (ObjectMeta_Generation (Run_ObjectMeta original)) (Run_Status original))
    as (_ & _ & _ & Hex & _).
  apply (reconcileEventOf_phases original s0 (λ _ s, ∃ tr, creations (trace s) = [(namespace original, tr)]));
    cbn [run s0 resourceCopy]; [congruence|intros _].
  eapply wp_mono; [apply (ready_ReconcileKind (preprocessed s0) tg)|]; try done.
  - by eapply ready_same; [| |exact Hr].
  - by apply wf_PreProcess.
  - unfold Run_IsDone. cbn [run preprocessed Run_Status set_Run_Status Run_SetDefaults resourceCopy s0]. rewrite PreProcess_IsDone by done.
    apply not_true_iff_false. intros [H1%bool_decide_eq_true H2]%andb_true_iff. by apply Hnd.
  - change (RunStatus_ExtraFields (Run_Status (run (preprocessed s0))) = RunStatus_ExtraFields (Run_Status original)) in Hex.
    unfold DecodeExtraFields in *. by rewrite Hex.
Qed.

(** A reconciliation that creates a TaskRun leaves the record of it in the
    API server, unless it returns an error of the API server: provided that the
    codec keeps the record, and neither the creation nor the encoding fails. *)
Theorem creation_recorded stored key start ns name original :
  stores stored → gets key start ns name original → wf_Run original → keeps_TaskRun → nothing_fails →
  creations (reconcilerImpl_Reconcile key start).2 ≠ [] →
  (∃ n, start < n ∧ records_TaskRun (stored n ns name)) ∨
  (∃ after e, (reconcilerImpl_Reconcile key start).1 = Some e ∧ refused ns name after e).
Proof.
  intros Hs Hg Hwf Hkeeps Hok. rewrite (gets_Reconcile _ _ _ _ _ Hg). cbn [fst snd]. rewrite reconcileResource_creations.
  intros Hne. pose proof (Reconcile_updates _ _ _ _ _ _ Hs Hg Hwf) as H.
  pose proof (reconcileEventOf_creations original (S start) (wf_Run_conditions _ Hwf)) as Hc. unfold wp in Hc.
  destruct (reconcileEventOf original _) as [event s]. cbn [fst snd] in *.
  destruct Hc as [|(tr & n & _ & _ & _ & _ & Hno & _ & Hrec)]; [done|]. specialize (Hrec Hkeeps Hok).
  assert (∀ r, RunStatus_DeepEqual (Run_Status r) (Run_Status (run s)) = true → records_TaskRun r) as Heq.
  { intros r (_ & _ & _ & _ & Hex & _)%RunStatus_DeepEqual_spec. unfold records_TaskRun, DecodeExtraFields in *. by rewrite Hex. }
  destruct H as (sent & rest & _ & _ & _ & _ & [[_ [H|(m & Hm & H)]]|(e & He & Href)]).
  - by apply Heq in H.
  - left. exists m. split; [done|]. by apply Heq.
  - right. by exists (Run_Status (run s)), e.
Qed.
End run_reconciler.

Section attempts.
Context {MO : MapOrder} {CM : ContainerMerge}.
Implicit Types (a : attempt).

(** C6: Any sequence of reconciliations of a Run, with stale caches and refused
    updates, creates at most one TaskRun, if after the first creation each
    reconciliation is informed of it: it reads a Run that records its TaskRun,
    or is done and observed, or its cache has a TaskRun that was made for the
    Run, with what the API server has set of it since. *)
Theorem one_TaskRun_if_informed attempts :
  Forall attempt_gets attempts →
  (∀ before a after, attempts = before ++ a :: after →
     (∃ b, b ∈ before ∧ attempt_creations b ≠ []) → attempt_informed a) →
  length (attempts ≫= attempt_creations) ≤ 1.
Proof.
  induction 1 as [|a attempts Ha Hrest IH]; intros Hinf; [simpl; lia|].
  change (length (attempt_creations a ++ (attempts ≫= attempt_creations)) ≤ 1). rewrite length_app. destruct (attempt_creations a) as [|c cs] eqn:Hc.
  - apply IH. intros before b after -> (b' & Hb' & Hne). apply (Hinf (a :: before) b after); [done|].
    exists b'. split; [by apply list_elem_of_further|done].
  - assert (attempts ≫= attempt_creations = []) as Hnone.
    { apply list_bind_nil. intros b Hb. apply list_elem_of_split in Hb as Hsplit.
      destruct Hsplit as (before & after & Heq). apply attempt_creates_none; [by eapply Forall_forall in Hrest|].
      apply (Hinf (a :: before) b after); [by rewrite Heq|]. exists a. split; [apply list_elem_of_here|by rewrite Hc]. }
    rewrite Hnone. pose proof (attempt_creates_one a Ha) as H1. rewrite Hc in H1. simpl in *. lia.
Qed.
End attempts.

(** Without the information the bound does not hold: a reconciliation of the
    same cached Run, whose status update the API server refused or the cache
    has not seen, creates another TaskRun. *)
Example two_TaskRuns_if_not_informed :
  length ([ServerSample.first; ServerSample.first] ≫= attempt_creations (MO := canonical_order) (CM := image_merge)) = 2.
Proof. vm_compute. reflexivity. Qed.

(** ** Witnesses *)
Section witnesses.
#[local] Existing Instance canonical_order.
#[local] Existing Instance image_merge.

Lemma Reconcile_persists_witness :
  let RS := ServerSample.accepting in
  (reconcilerImpl_Reconcile (CL := Sample.stale) "ns/run" 0).1 = None ∧
  ∃ sent rest, (reconcilerImpl_Reconcile (CL := Sample.stale) "ns/run" 0).2 =
    trace ServerSample.reached ++ (update_of <$> sent) ++ rest ∧ length sent ≤ 5.
Proof.
  intros RS. split; [vm_compute; reflexivity|].
  pose proof (Reconcile_persists (CL := Sample.stale) (RS := RS) _ "ns/run" 0 "ns" "run" Sample.new_run
    (ServerSample.server_stores _ _ _) ServerSample.gets_new ServerSample.wf_new) as H.
  unfold ServerSample.reached. destruct (reconcilerImpl_Reconcile _ _) as [err es]. destruct (reconcileEventOf _ _) as [event s].
  destruct H as (sent & rest & Hes & Hlen & _). exists sent, rest. split; [exact Hes|exact Hlen].
Defined.

(** A Run that is done, in a cluster that has lost its TaskRun. *)
Lemma Reconcile_quiescent_witness :
  reconcilerImpl_Reconcile (CL := Sample.cluster (inr Sample.group) (λ _, []) Sample.done_run) (RS := ServerSample.accepting)
    "ns/run" 0 = (None, []).
Proof.
  apply (Reconcile_quiescent _ _ "ns" "run" Sample.done_run); [split; reflexivity|apply NoDup_singleton|].
  right. split; [reflexivity|]. split; [by eexists|]. right. split; reflexivity.
Defined.

Lemma PreProcessReconcile_reopens_witness :
  Run_IsDone (run (PreProcessReconcile (CL := ServerSample.foreign_cluster) (Sample.at_start ServerSample.foreign_run)).2) = false ∧
  Run_IsDone ServerSample.foreign_run = true.
Proof.
  split; [|reflexivity].
  rewrite (proj1 (PreProcessReconcile_reopens (CL := ServerSample.foreign_cluster) (Sample.at_start ServerSample.foreign_run)
    (NoDup_singleton _))). reflexivity.
Defined.

Lemma promotion_reopens_foreign_Run_witness :
  let RS := ServerSample.server 2 ServerSample.foreign_run (run ServerSample.foreign_reached) in
  (reconcilerImpl_Reconcile (CL := ServerSample.foreign_cluster) (safeKey ("ns", "run")) 0).1 = None ∧
  Run_IsDone ServerSample.foreign_run = true ∧
  ∃ n, 0 < n ∧ Run_IsDone (ServerSample.stored 2 ServerSample.foreign_run (run ServerSample.foreign_reached) n "ns" "run") = false.
Proof.
  intros RS. split; [vm_compute; reflexivity|]. split; [reflexivity|].
  apply (promotion_reopens_foreign_Run (CL := ServerSample.foreign_cluster) (RS := RS) _ (λ _, true) [ServerSample.foreign_run] 0 "ns" "run"
    ServerSample.foreign_run (ServerSample.server_stores _ _ _)); try reflexivity.
  - split; reflexivity.
  - split; [apply NoDup_singleton|]. intros _. by eexists.
  - apply list_elem_of_here.
  - intros H. vm_compute in H. discriminate H.
Defined.

Lemma creation_recorded_witness :
  let RS := ServerSample.accepting in
  creations (reconcilerImpl_Reconcile (CL := Sample.stale) "ns/run" 0).2 ≠ [] ∧
  (∃ n, 0 < n ∧ records_TaskRun (CL := Sample.stale) (ServerSample.stored 2 Sample.new_run (run ServerSample.reached) n "ns" "run")).
Proof.
  intros RS. assert (creations (reconcilerImpl_Reconcile (CL := Sample.stale) "ns/run" 0).2 ≠ []) as Hne.
  { intros H. vm_compute in H. discriminate H. }
  split; [exact Hne|].
  destruct (creation_recorded (CL := Sample.stale) (RS := RS) _ "ns/run" 0 "ns" "run" Sample.new_run
    (ServerSample.server_stores _ _ _) ServerSample.gets_new ServerSample.wf_new ServerSample.keeps_stale
    ServerSample.nothing_fails_stale Hne) as [H|(after & e & H & _)]; [exact H|]. vm_compute in H. discriminate H.
Defined.

Lemma fresh_Run_gets_TaskRun_witness :
  ∃ tr, creations (reconcilerImpl_Reconcile (CL := Sample.stale) (RS := ServerSample.accepting) "ns/run" 0).2 = [("ns", tr)].
Proof.
  apply (fresh_Run_gets_TaskRun (CL := Sample.stale) (RS := ServerSample.accepting) "ns/run" 0 "ns" "run" Sample.new_run Sample.group
    ServerSample.gets_new (NoDup_nil_2) ServerSample.ready_new); [reflexivity..| |reflexivity].
  intros [_ H]. vm_compute in H. discriminate H.
Defined.

Lemma one_TaskRun_if_informed_witness :
  length (attempt_creations ServerSample.first) = 1 ∧ ¬ records_TaskRun (CL := Sample.stale) (attempt_original ServerSample.late) ∧
  length ([ServerSample.first; ServerSample.late; ServerSample.second] ≫= attempt_creations) ≤ 1.
Proof.
  split; [vm_compute; reflexivity|]. split; [intros H; vm_compute in H; by destruct H|]. apply one_TaskRun_if_informed.
  - apply Forall_cons; split; [|apply Forall_cons; split; [|apply Forall_singleton]].
    + split; [apply NoDup_nil_2|]. exists "ns", "run". apply ServerSample.gets_new.
    + split; [apply NoDup_nil_2|]. exists "ns", "run". split; vm_compute; reflexivity.
    + split; [|exists "ns", "run"; split; vm_compute; reflexivity]. apply (bool_decide_unpack _). vm_compute. exact I.
  - intros before a after Heq (b & Hb & _).
    destruct before as [|x [|y [|z before]]]; [by apply not_elem_of_nil in Hb|..|by destruct before]; injection Heq as; subst.
    + right. right. intros n cache Hc. destruct (ServerSample.late_sees n) as (tr & Htr & Hm).
      rewrite Hc in Htr. injection Htr as ->. exists tr, Sample.new_run. split; [left|]. exact (conj Hm (conj eq_refl eq_refl)).
    + left. vm_compute. by eexists.
Defined.
End witnesses.
