(* ===== verification/Lifecycle.v ===== *)
(** The life of a Run on the API server: reconciliations by the generated
    reconciler, each of the Run as the server has it, and between them edits of
    its metadata and spec, which may open it again, while the outside world
    changes at will. *)
From S2P Require Import Prelude GoStrings FieldErrors Types Substitution StepMerge Resolve.
From S2P Require Import Validation Conditions RunTypes Listers Cluster Reconciler ReconcilerSpec ReconcileKind ReconcilerExample.
From S2P Require Import Wiring RunReconciler RunReconcilerSpec.

Section lifecycle.
Context {MO : MapOrder} {CM : ContainerMerge}.

(** The decoder of the extra fields, which is the same in all reconciliations. *)
Context (decode : string → TaskGroupRunStatus → TaskGroupRunStatus * option error).

Definition attempt_effects (a : attempt) : list effect :=
  (reconcilerImpl_Reconcile (CL := attempt_Cluster a) (RS := attempt_RunServer a) (attempt_key a) (attempt_start a)).2.

(** The status that a reconciliation comes to. *)
Definition attempt_status (a : attempt) : RunStatus :=
  Run_Status (run (reconcileEventOf (CL := attempt_Cluster a) (attempt_original a) (resourceCopy (attempt_original a) (S (attempt_start a)))).2).

(** A reconciliation in which requests for TaskRuns and encodings do not fail;
    the cache of TaskRuns may be stale. *)
Record undisturbed (a : attempt) : Prop := {
  undisturbed_gets : attempt_gets a;
  undisturbed_decode raw into : decode_status (Cluster := attempt_Cluster a) raw into = decode raw into;
  undisturbed_codec : keeps_TaskRun (CL := attempt_Cluster a);
  undisturbed_requests : nothing_fails (CL := attempt_Cluster a)
}.

(** One step of the Run that the server has, with its effects on the cluster: a
    reconciliation that reads this Run and whose status the server then has,
    beside any edit; or an edit. The status of a Run is a subresource that
    only the controller writes. *)
Inductive step (r : Run) : list effect → Run → Prop :=
  | reconciled a r' :
    undisturbed a → attempt_original a = r → RunStatus_DeepEqual (Run_Status r') (attempt_status a) = true →
    step r (attempt_effects a) r'
  | edited r' : Run_Status r' = Run_Status r → step r [] r'.

Inductive life : Run → list effect → Run → Prop :=
  | life_nil r : life r [] r
  | life_step r es r' es' r'' : step r es r' → life r' es' r'' → life r (es ++ es') r''.

(** The Run records a TaskRun. *)
Definition settled (r : Run) : Prop :=
  RunStatus_ExtraFields (Run_Status r) ≠ "" ∧
  is_Some (TaskGroupRunStatus_TaskRun (decode (RunStatus_ExtraFields (Run_Status r)) zero_TaskGroupRunStatus).1).

Lemma settled_records a r : undisturbed a → settled r ↔ records_TaskRun (CL := attempt_Cluster a) r.
Proof.
  intros Ha. unfold settled, records_TaskRun, DecodeExtraFields. destruct (RunStatus_ExtraFields (Run_Status r)) as [|c raw].
  - rewrite bool_decide_true by done. cbn. split; [by intros [? _]|by intros []].
  - rewrite bool_decide_false by done. rewrite (undisturbed_decode _ Ha). naive_solver.
Qed.

Lemma settled_same r r' : RunStatus_DeepEqual (Run_Status r') (Run_Status r) = true → settled r → settled r'.
Proof. intros (_ & _ & _ & _ & Hex & _)%RunStatus_DeepEqual_spec. unfold settled. by rewrite Hex. Qed.

Lemma attempt_effects_creations a : creations (attempt_effects a) = attempt_creations a.
Proof. done. Qed.

(** A Run with a TaskRun keeps the record, and gets no other. *)
Lemma step_settled r es r' : step r es r' → settled r → creations es = [] ∧ settled r'.
Proof.
  intros [a r0 Ha <- Hst|r0 Hst] Hs; [|split; [done|]; unfold settled in *; by rewrite Hst].
  pose proof (undisturbed_gets _ Ha) as [Hwf _]. apply (settled_records a) in Hs; [|done]. split.
  - rewrite attempt_effects_creations. apply attempt_creates_none; [apply Ha|by left].
  - eapply settled_same; [exact Hst|]. apply (settled_records a); [done|].
    apply (reconcileEventOf_records (CL := attempt_Cluster a)); [done|apply Ha..|done].
Qed.

Lemma step_creates r es r' : step r es r' → creations es = [] ∨ length (creations es) = 1 ∧ settled r'.
Proof.
  intros [a r0 Ha <- Hst|r0 Hst]; [|by left]. rewrite attempt_effects_creations.
  destruct (undisturbed_gets _ Ha) as (Hwf & ns & name & Hg). unfold attempt_creations. rewrite (gets_Reconcile _ _ _ _ _ Hg).
  cbn [snd]. rewrite reconcileResource_creations.
  destruct (reconcileEventOf_creations (CL := attempt_Cluster a) _ (S (attempt_start a)) Hwf)
    as [?|(tr & n & -> & _ & _ & _ & _ & _ & Hrec)]; [by left|right].
  split; [done|]. eapply settled_same; [exact Hst|]. apply (settled_records a); [done|]. apply Hrec; apply Ha.
Qed.

Lemma life_settled r es r' : life r es r' → settled r → creations es = [].
Proof.
  induction 1 as [|r es r' es' r'' H1 _ IH]; intros Hs; [done|].
  destruct (step_settled _ _ _ H1 Hs) as [Hes Hs']. by rewrite creations_app, Hes, IH.
Qed.

(** C5: In a life in which each reconciliation reads the Run as the API server
    has it and its status is stored there, and requests for TaskRuns and the
    encoding of the status do not fail, a Run gets at most one TaskRun:
    however often it is edited and opened again by a new generation, in
    whatever clusters it is reconciled, and even if the cache of TaskRuns
    never shows the TaskRun. (For stale Runs and refused updates see
    [one_TaskRun_if_informed].) *)
Theorem one_TaskRun_per_Run r es r' : life r es r' → length (creations es) ≤ 1.
Proof.
  induction 1 as [|r es r' es' r'' H1 H2 IH]; [simpl; lia|]. rewrite creations_app, length_app.
  destruct (step_creates _ _ _ H1) as [->|[-> Hs]]; [done|]. by rewrite (life_settled _ _ _ H2 Hs).
Qed.
End lifecycle.

(** ** Witness *)
Module LifecycleSample.
#[export] Existing Instance canonical_order.
#[export] Existing Instance image_merge.

(** An edit of a Run, and the Run after the first reconciliation with it. *)
Definition edit (r : Run) : Run :=
  let m := Run_ObjectMeta r in {|
  Run_ObjectMeta := {| ObjectMeta_Name := ObjectMeta_Name m; ObjectMeta_Namespace := ObjectMeta_Namespace m;
    ObjectMeta_UID := ObjectMeta_UID m; ObjectMeta_ResourceVersion := "4"; ObjectMeta_Generation := 2;
    ObjectMeta_CreationTimestamp := ObjectMeta_CreationTimestamp m; ObjectMeta_DeletionTimestamp := None;
    ObjectMeta_Labels := ObjectMeta_Labels m; ObjectMeta_Annotations := ObjectMeta_Annotations m;
    ObjectMeta_OwnerReferences := []; ObjectMeta_Other := JObj [] |};
  Run_Spec := Run_Spec r; Run_Status := Run_Status r |}.

Definition reopened : Run := edit (run ServerSample.reached).

(** The reconciliation of it, in a cluster that does not show its TaskRun. *)
Definition again : attempt := {|
  attempt_Cluster := Sample.cluster (inr Sample.group) (λ _, []) reopened; attempt_RunServer := ServerSample.accepting;
  attempt_key := "ns/run"; attempt_start := 30; attempt_original := reopened |}.

Definition sample_decode : string → TaskGroupRunStatus → TaskGroupRunStatus * option error := decode_status (Cluster := Sample.stale).

Lemma first_undisturbed : undisturbed sample_decode ServerSample.first.
Proof.
  split; [|done|exact ServerSample.keeps_stale|exact ServerSample.nothing_fails_stale].
  split; [apply NoDup_nil_2|]. exists "ns", "run". apply ServerSample.gets_new.
Qed.

Lemma again_undisturbed : undisturbed sample_decode again.
Proof.
  split; [|done|exact ServerSample.keeps_stale|exact ServerSample.nothing_fails_stale].
  split; [|exists "ns", "run"; split; vm_compute; reflexivity]. apply (bool_decide_unpack _). vm_compute. exact I.
Qed.

(** What a reconciliation of the example comes to. *)
Definition comes_to (a : attempt) : Run :=
  run (reconcileEventOf (CL := attempt_Cluster a) (attempt_original a) (resourceCopy (attempt_original a) (S (attempt_start a)))).2.

Lemma comes_to_step a : undisturbed sample_decode a → step sample_decode (attempt_original a) (attempt_effects a) (comes_to a).
Proof. intros Ha. apply reconciled; [done..|]. apply RunStatus_DeepEqual_refl. Qed.

Lemma first_step : step sample_decode Sample.new_run (attempt_effects ServerSample.first) (run ServerSample.reached).
Proof. exact (comes_to_step ServerSample.first first_undisturbed). Qed.

Lemma edit_step r : step sample_decode r [] (edit r).
Proof. by apply edited. Qed.

Lemma again_step : step sample_decode reopened (attempt_effects again) (comes_to again).
Proof. exact (comes_to_step again again_undisturbed). Qed.
End LifecycleSample.

Section witnesses.
Import LifecycleSample.

Lemma one_TaskRun_per_Run_witness :
  length (creations (attempt_effects ServerSample.first ++ [] ++ attempt_effects again ++ [])) ≤ 1 ∧
  length (creations (attempt_effects ServerSample.first)) = 1.
Proof.
  split; [|vm_compute; reflexivity].
  apply (one_TaskRun_per_Run sample_decode Sample.new_run _ (comes_to again)).
  exact (life_step _ _ _ _ _ _ first_step
    (life_step _ _ _ _ _ _ (edit_step _) (life_step _ _ _ _ _ _ again_step (life_nil _ _)))).
Defined.
End witnesses.
