(* ===== verification/InformerFactory.v ===== *)
(** pkg/client/informers/externalversions: the shared informer factory
    (factory.go, generic.go) and the informer of TaskGroups
    (taskgroup/v1alpha1/taskgroup.go). A Go type is its name; an informer is
    the record of what it was built from, with the number of its allocation as
    its identity. *)
From S2P Require Import Prelude GoStrings Types Conditions RunTypes Listers.

(** ** Informers *)

(** [metav1.ListOptions]: the fields that the clients look into, and the rest. *)
Record ListOptions := {
  ListOptions_LabelSelector : string;
  ListOptions_Watch : bool;
  ListOptions_TimeoutSeconds : option Z;
  ListOptions_Other : json
}.

(** [type TweakListOptionsFunc], which changes the options it is given *)
Definition TweakListOptionsFunc : Type := ListOptions → ListOptions.

(** A [cache.SharedIndexInformer] made by [cache.NewSharedIndexInformer]: the
    namespace and options of its list and watch requests, given those of the
    reflector, its resync period and whether it indexes by namespace. *)
Record Informer := {
  Informer_id : nat;
  Informer_namespace : string;
  Informer_options : ListOptions → ListOptions;
  Informer_resync : Z;
  Informer_by_namespace : bool
}.

(** [func NewFilteredTaskGroupInformer(client, namespace, resyncPeriod, indexers, tweakListOptions)] *)
Definition NewFilteredTaskGroupInformer (namespace : string) (resyncPeriod : Z) (by_namespace : bool)
    (tweakListOptions : option TweakListOptionsFunc) (id : nat) : Informer := {|
  Informer_id := id;
  Informer_namespace := namespace;
  Informer_options := λ options, match tweakListOptions with Some tweak => tweak options | None => options end;
  Informer_resync := resyncPeriod;
  Informer_by_namespace := by_namespace |}.

(** [func NewTaskGroupInformer(client, namespace, resyncPeriod, indexers)] *)
Definition NewTaskGroupInformer (namespace : string) (resyncPeriod : Z) (by_namespace : bool) (id : nat) : Informer :=
  NewFilteredTaskGroupInformer namespace resyncPeriod by_namespace None id.

(** [type NewInformerFunc func(versioned.Interface, time.Duration) cache.SharedIndexInformer],
    given the identity of what it allocates *)
Definition NewInformerFunc : Type := Z → nat → Informer.

(** ** The factory *)
Record sharedInformerFactory := {
  factory_namespace : string;
  factory_tweakListOptions : option TweakListOptionsFunc;
  factory_defaultResync : Z;
  factory_customResync : gmap string Z;
  factory_informers : gmap string Informer;
  factory_startedInformers : gmap string bool;
  (** the number of informers that were allocated *)
  factory_allocated : nat
}.

Definition SharedInformerOption : Type := sharedInformerFactory → sharedInformerFactory.

(** [func WithCustomResyncConfig(resyncConfig map[v1.Object]time.Duration)]:
    the entries in the order in which they are visited *)
Definition WithCustomResyncConfig (resyncConfig : list (string * Z)) : SharedInformerOption := λ f, {|
  factory_namespace := factory_namespace f; factory_tweakListOptions := factory_tweakListOptions f;
  factory_defaultResync := factory_defaultResync f;
  factory_customResync := foldl (λ m kv, <[kv.1 := kv.2]> m) (factory_customResync f) resyncConfig;
  factory_informers := factory_informers f; factory_startedInformers := factory_startedInformers f;
  factory_allocated := factory_allocated f |}.

(** [func WithTweakListOptions(tweakListOptions)] *)
Definition WithTweakListOptions (tweak : option TweakListOptionsFunc) : SharedInformerOption := λ f, {|
  factory_namespace := factory_namespace f; factory_tweakListOptions := tweak;
  factory_defaultResync := factory_defaultResync f; factory_customResync := factory_customResync f;
  factory_informers := factory_informers f; factory_startedInformers := factory_startedInformers f;
  factory_allocated := factory_allocated f |}.

(** [func WithNamespace(namespace string)] *)
Definition WithNamespace (namespace : string) : SharedInformerOption := λ f, {|
  factory_namespace := namespace; factory_tweakListOptions := factory_tweakListOptions f;
  factory_defaultResync := factory_defaultResync f; factory_customResync := factory_customResync f;
  factory_informers := factory_informers f; factory_startedInformers := factory_startedInformers f;
  factory_allocated := factory_allocated f |}.

(** [func NewSharedInformerFactoryWithOptions(client, defaultResync, options ...)] *)
Definition NewSharedInformerFactoryWithOptions (defaultResync : Z) (options : list SharedInformerOption) :
    sharedInformerFactory :=
  foldl (λ f opt, opt f)
    {| factory_namespace := ""; factory_tweakListOptions := None; factory_defaultResync := defaultResync;
       factory_customResync := ∅; factory_informers := ∅; factory_startedInformers := ∅; factory_allocated := 0 |}
    options.

(** [func NewSharedInformerFactory(client, defaultResync)] *)
Definition NewSharedInformerFactory (defaultResync : Z) : sharedInformerFactory :=
  NewSharedInformerFactoryWithOptions defaultResync [].

(** [func NewFilteredSharedInformerFactory(client, defaultResync, namespace, tweakListOptions)] *)
Definition NewFilteredSharedInformerFactory (defaultResync : Z) (namespace : string)
    (tweak : option TweakListOptionsFunc) : sharedInformerFactory :=
  NewSharedInformerFactoryWithOptions defaultResync [WithNamespace namespace; WithTweakListOptions tweak].

Definition started (f : sharedInformerFactory) (t : string) : bool := default false (factory_startedInformers f !! t).

Definition set_started (t : string) (f : sharedInformerFactory) : sharedInformerFactory := {|
  factory_namespace := factory_namespace f; factory_tweakListOptions := factory_tweakListOptions f;
  factory_defaultResync := factory_defaultResync f; factory_customResync := factory_customResync f;
  factory_informers := factory_informers f;
  factory_startedInformers := <[t := true]> (factory_startedInformers f);
  factory_allocated := factory_allocated f |}.

(** The loop of [Start], over the informers in some order: the factory and the
    informers that are run, in order. *)
Fixpoint Start_loop (l : list (string * Informer)) (f : sharedInformerFactory) (ran : list Informer) :
    sharedInformerFactory * list Informer :=
  match l with
  | [] => (f, ran)
  | (informerType, informer) :: l =>
    if negb (started f informerType) then Start_loop l (set_started informerType f) (ran ++ [informer])
    else Start_loop l f ran
  end.

(** [func (f *sharedInformerFactory) InformerFor(obj, newFunc) cache.SharedIndexInformer],
    given the type of [obj] *)
Definition InformerFor (informerType : string) (newFunc : NewInformerFunc) (f : sharedInformerFactory) :
    Informer * sharedInformerFactory :=
  match factory_informers f !! informerType with
  | Some informer => (informer, f)
  | None =>
    let resyncPeriod := default (factory_defaultResync f) (factory_customResync f !! informerType) in
    let informer := newFunc resyncPeriod (factory_allocated f) in
    (informer, {|
      factory_namespace := factory_namespace f; factory_tweakListOptions := factory_tweakListOptions f;
      factory_defaultResync := factory_defaultResync f; factory_customResync := factory_customResync f;
      factory_informers := <[informerType := informer]> (factory_informers f);
      factory_startedInformers := factory_startedInformers f;
      factory_allocated := S (factory_allocated f) |})
  end.

(** The order in which the range over the informers visits them, anew each time. *)
Class InformerOrder := {
  informer_range : nat → gmap string Informer → list (string * Informer);
  informer_range_perm n m : informer_range n m ≡ₚ map_to_list m
}.

Section factory.
Context {IO : InformerOrder}.

(** [func (f *sharedInformerFactory) Start(stopCh <-chan struct{})] *)
Definition Start (n : nat) (f : sharedInformerFactory) : sharedInformerFactory * list Informer :=
  Start_loop (informer_range n (factory_informers f)) f [].

(** [func (f *sharedInformerFactory) WaitForCacheSync(stopCh) map[reflect.Type]bool],
    given whether each informer syncs before the stop *)
Definition WaitForCacheSync (n : nat) (synced : Informer → bool) (f : sharedInformerFactory) : gmap string bool :=
  let informers := foldl (λ m kv, if started f kv.1 then <[kv.1 := kv.2]> m else m) ∅
                     (informer_range n (factory_informers f)) in
  foldl (λ res kv, <[kv.1 := synced kv.2]> res) ∅ (informer_range (S n) informers).
End factory.

(** ** The informer of TaskGroups *)
Definition TaskGroup_type : string := "*v1alpha1.TaskGroup".

(** [func (f *taskGroupInformer) defaultInformer(client, resyncPeriod)] *)
Definition defaultInformer (namespace : string) (tweak : option TweakListOptionsFunc) : NewInformerFunc :=
  λ resyncPeriod id, NewFilteredTaskGroupInformer namespace resyncPeriod true tweak id.

(** [f.Custom().V1alpha1().TaskGroups().Informer()]: the namespace and the
    options of the factory are handed on *)
Definition TaskGroups_Informer (f : sharedInformerFactory) : Informer * sharedInformerFactory :=
  InformerFor TaskGroup_type (defaultInformer (factory_namespace f) (factory_tweakListOptions f)) f.

(** [cache.GenericLister] (client-go's tools/cache/listers.go), over the
    TaskGroups of an indexer *)
Record genericLister := { genericLister_indexer : Indexer TaskGroup; genericLister_resource : string * string }.

Definition NewGenericLister (indexer : Indexer TaskGroup) (resource : string * string) : genericLister :=
  {| genericLister_indexer := indexer; genericLister_resource := resource |}.

Definition genericLister_List (s : genericLister) (selector : gmap string string) : list TaskGroup :=
  ListAll TaskGroup_ObjectMeta (genericLister_indexer s) selector.

(** [s.ByNamespace(namespace).Get(name)] *)
Definition genericLister_Get (s : genericLister) (namespace name : string) : fallible TaskGroup :=
  match GetByKey TaskGroup_ObjectMeta (genericLister_indexer s) (namespace +:+ "/" +:+ name) with
  | None => let '(group, resource) := genericLister_resource s in inl (NewNotFound (resource +:+ "." +:+ group) name)
  | Some obj => inr obj
  end.

(** [type genericInformer struct], the implementation of [GenericInformer]; a
    resource is a group and a name *)
Record genericInformer := { genericInformer_informer : Informer; genericInformer_resource : string * string }.

(** [func (f *genericInformer) Informer() cache.SharedIndexInformer] *)
Definition genericInformer_Informer (f : genericInformer) : Informer := genericInformer_informer f.

(** [func (f *genericInformer) Lister() cache.GenericLister], given the indexers
    of the informers *)
Definition genericInformer_Lister (GetIndexer : Informer → Indexer TaskGroup) (f : genericInformer) : genericLister :=
  NewGenericLister (GetIndexer (genericInformer_Informer f)) (genericInformer_resource f).

(** [func (f *sharedInformerFactory) ForResource(resource schema.GroupVersionResource)]:
    group, version and resource *)
Definition ForResource (resource : string * string * string) (f : sharedInformerFactory) :
    fallible genericInformer * sharedInformerFactory :=
  if bool_decide (resource = ("custom.tekton.dev", "v1alpha1", "taskgroups"))
  then
    let '(informer, f) := TaskGroups_Informer f in
    (inr {| genericInformer_informer := informer; genericInformer_resource := (resource.1.1, resource.2) |}, f)
  else let '(group, version, name) := resource in
       (inl (errorString ("no informer found for " +:+ group +:+ "/" +:+ version +:+ ", Resource=" +:+ name)), f).

(** ** Steps *)

Lemma filter_none {A} (l : list A) : filter (λ _, False) l = [].
Proof. by induction l. Qed.

Lemma filter_ext_in {A} (P Q : A → Prop) `{∀ x, Decision (P x)} `{∀ x, Decision (Q x)} (l : list A) :
  (∀ x, x ∈ l → P x ↔ Q x) → filter P l = filter Q l.
Proof.
  induction l as [|x l IH]; intros Heq; [done|]. rewrite !filter_cons.
  rewrite IH by (intros y Hy; apply Heq; by right). apply decide_ext. apply Heq. left.
Qed.

(** An allocation gives the informer its identity. *)
Definition allocates (newFunc : NewInformerFunc) : Prop := ∀ resync id, Informer_id (newFunc resync id) = id.

Section steps.
Context {IO : InformerOrder}.

(** The calls of [InformerFor] and [Start], with the informers that are run. *)
Inductive factory_step (f : sharedInformerFactory) : list Informer → sharedInformerFactory → Prop :=
  | step_request t newFunc : allocates newFunc → factory_step f [] (InformerFor t newFunc f).2
  | step_start n : factory_step f (Start n f).2 (Start n f).1.

Inductive factory_steps (f : sharedInformerFactory) : list Informer → sharedInformerFactory → Prop :=
  | steps_nil : factory_steps f [] f
  | steps_snoc ran f' ran' f'' : factory_steps f ran f' → factory_step f' ran' f'' → factory_steps f (ran ++ ran') f''.

(** The informers that were started, with their types. *)
Definition started_informers (f : sharedInformerFactory) : list (string * Informer) :=
  filter (λ kv, started f kv.1 = true) (map_to_list (factory_informers f)).

Record wf_factory (f : sharedInformerFactory) : Prop := {
  wf_allocated t i : factory_informers f !! t = Some i → Informer_id i < factory_allocated f;
  wf_distinct t t' i i' : factory_informers f !! t = Some i → factory_informers f !! t' = Some i' →
    Informer_id i = Informer_id i' → t = t';
  wf_started t : started f t = true → is_Some (factory_informers f !! t)
}.

(** A factory no informer was requested from. *)
Definition fresh_factory (f : sharedInformerFactory) : Prop :=
  factory_informers f = ∅ ∧ factory_startedInformers f = ∅.

Lemma fresh_wf f : fresh_factory f → wf_factory f ∧ started_informers f = [].
Proof.
  intros [Hi Hs]. assert (∀ t, started f t = false) as Hst by (intros t; unfold started; by rewrite Hs, lookup_empty).
  split; [constructor|].
  - intros t i. by rewrite Hi, lookup_empty.
  - intros t t' i i'. by rewrite Hi, lookup_empty.
  - intros t. by rewrite Hst.
  - unfold started_informers. by rewrite Hi, map_to_list_empty.
Qed.

Lemma started_set_started t t' f : started (set_started t f) t' = bool_decide (t' = t) || started f t'.
Proof.
  unfold started. cbn. case_bool_decide as Ht; [subst t'; by rewrite lookup_insert_eq|by rewrite lookup_insert_ne].
Qed.

Lemma Start_loop_spec l f ran :
  NoDup l.*1 →
  (Start_loop l f ran).2 = ran ++ (filter (λ kv, started f kv.1 = false) l).*2 ∧
  (∀ t, started (Start_loop l f ran).1 t = bool_decide (t ∈ l.*1) || started f t) ∧
  factory_informers (Start_loop l f ran).1 = factory_informers f ∧
  factory_allocated (Start_loop l f ran).1 = factory_allocated f.
Proof.
  revert f ran. induction l as [|[t i] l IH]; intros f ran Hnd; simpl; [by rewrite app_nil_r|].
  apply NoDup_cons in Hnd as [Ht Hnd]. rewrite filter_cons.
  destruct (started f t) eqn:Hst; cbn [negb].
  - rewrite decide_False by (cbn; congruence). destruct (IH f ran Hnd) as (H1 & H2 & H3 & H4). split_and!; try done.
    intros t'. rewrite H2. destruct (decide (t' = t)) as [->|Hne]; [by rewrite Hst, !orb_true_r|].
    f_equal. apply bool_decide_ext. rewrite elem_of_cons. naive_solver.
  - rewrite decide_True by done. destruct (IH (set_started t f) (ran ++ [i]) Hnd) as (H1 & H2 & H3 & H4). split_and!; try done.
    + rewrite H1, <-app_assoc. simpl. do 3 f_equal. apply filter_ext_in. intros [t' i'] Hin. simpl.
      rewrite started_set_started, bool_decide_false; [done|]. intros ->. apply Ht. by apply (list_elem_of_fmap_2 fst _ (t, i')).
    + intros t'. rewrite H2, started_set_started.
      destruct (decide (t' = t)) as [->|Hne].
      * rewrite (bool_decide_true (t = t)), (bool_decide_true (t ∈ t :: _)) by (done || left). by rewrite orb_true_r.
      * rewrite (bool_decide_false (t' = t)) by done. simpl. f_equal. apply bool_decide_ext. rewrite elem_of_cons. naive_solver.
Qed.

Lemma Start_spec n f :
  (Start n f).2 = (filter (λ kv, started f kv.1 = false) (informer_range n (factory_informers f))).*2 ∧
  (∀ t, started (Start n f).1 t = bool_decide (is_Some (factory_informers f !! t)) || started f t) ∧
  factory_informers (Start n f).1 = factory_informers f ∧
  factory_allocated (Start n f).1 = factory_allocated f.
Proof.
  assert (NoDup (informer_range n (factory_informers f)).*1) as Hnd.
  { rewrite informer_range_perm. apply NoDup_fst_map_to_list. }
  destruct (Start_loop_spec _ f [] Hnd) as (H1 & H2 & H3 & H4). split_and!; try done.
  intros t. unfold Start. rewrite H2. f_equal. apply bool_decide_ext.
  rewrite informer_range_perm, list_elem_of_fmap. split.
  - intros ([t' i] & -> & Hin). exists i. by apply elem_of_map_to_list.
  - intros [i Hi]. exists (t, i). split; [done|]. by apply elem_of_map_to_list.
Qed.

Lemma InformerFor_spec t newFunc f :
  factory_informers (InformerFor t newFunc f).2 = <[t := (InformerFor t newFunc f).1]> (factory_informers f) ∧
  factory_startedInformers (InformerFor t newFunc f).2 = factory_startedInformers f.
Proof.
  unfold InformerFor. destruct (factory_informers f !! t) as [i|] eqn:Hi; [|done].
  split; [|done]. symmetry. by apply insert_id.
Qed.

Lemma wf_InformerFor t newFunc f : allocates newFunc → wf_factory f → wf_factory (InformerFor t newFunc f).2.
Proof.
  intros Hnew [Ha Hd Hs]. unfold InformerFor. destruct (factory_informers f !! t) as [i|] eqn:Hi; [by constructor|].
  constructor; cbn.
  - intros t' i' [[<- <-]|[Hne Ht']]%lookup_insert_Some; [rewrite Hnew; lia|]. apply Ha in Ht'. lia.
  - intros t1 t2 i1 i2 [[<- <-]|[Hne1 H1]]%lookup_insert_Some [[<- <-]|[Hne2 H2]]%lookup_insert_Some; rewrite ?Hnew.
    + done.
    + intros Heq. apply Ha in H2. lia.
    + intros Heq. apply Ha in H1. lia.
    + by apply Hd.
  - intros t' Ht'. apply Hs in Ht' as [i' Hi']. destruct (decide (t' = t)) as [->|Hne].
    + rewrite lookup_insert_eq. by eexists.
    + rewrite lookup_insert_ne by done. by eexists.
Qed.

Lemma wf_Start n f : wf_factory f → wf_factory (Start n f).1.
Proof.
  intros [Ha Hd Hs]. destruct (Start_spec n f) as (_ & H2 & H3 & H4). constructor; rewrite ?H3, ?H4; try done.
  intros t. rewrite H2. case_bool_decide as Hi; [done|]. simpl. apply Hs.
Qed.

Lemma started_informers_request t newFunc f :
  wf_factory f → started_informers (InformerFor t newFunc f).2 ≡ₚ started_informers f.
Proof.
  intros Hwf. unfold started_informers, InformerFor. destruct (factory_informers f !! t) as [i|] eqn:Hi; [done|].
  cbn. rewrite map_to_list_insert by done. rewrite filter_cons_False; [done|]. cbn. intros Hst.
  apply (wf_started _ Hwf) in Hst as [i Hi']. congruence.
Qed.

Lemma started_informers_Start n f :
  wf_factory f → (started_informers (Start n f).1).*2 ≡ₚ (started_informers f).*2 ++ (Start n f).2.
Proof.
  intros Hwf. destruct (Start_spec n f) as (-> & H2 & H3 & _). unfold started_informers. rewrite H3, <-fmap_app. f_equiv.
  rewrite (informer_range_perm n). set (l := map_to_list (factory_informers f)).
  rewrite (filter_ext_in _ (λ _, True)).
  - rewrite (list_filter_iff (λ kv, started f kv.1 = false) (λ kv, ¬ started f kv.1 = true)) by (intros kv; by rewrite not_true_iff_false).
    rewrite filter_app_complement. by rewrite filter_id.
  - intros [t i] Hin. rewrite H2. cbn. apply elem_of_map_to_list in Hin. rewrite bool_decide_true by (by eexists). done.
Qed.

Lemma factory_step_wf f ran f' : factory_step f ran f' → wf_factory f → wf_factory f'.
Proof. destruct 1; intros; [by apply wf_InformerFor|by apply wf_Start]. Qed.

Lemma factory_step_started f ran f' :
  factory_step f ran f' → wf_factory f → (started_informers f').*2 ≡ₚ (started_informers f).*2 ++ ran.
Proof.
  destruct 1; intros Hwf; [|by apply started_informers_Start].
  rewrite app_nil_r. f_equiv. by apply started_informers_request.
Qed.

Lemma factory_steps_started f ran f' :
  factory_steps f ran f' → wf_factory f → wf_factory f' ∧ (started_informers f').*2 ≡ₚ (started_informers f).*2 ++ ran.
Proof.
  intros H Hwf. induction H as [|ran f' ran' f'' _ [Hwf' IH] Hstep]; [by rewrite app_nil_r|].
  split; [by eapply factory_step_wf|]. by rewrite (factory_step_started _ _ _ Hstep Hwf'), IH, app_assoc.
Qed.

Lemma factory_steps_keep f ran f' t i :
  factory_steps f ran f' → factory_informers f !! t = Some i → factory_informers f' !! t = Some i.
Proof.
  intros H Hi. induction H as [|ran f' ran' f'' _ IH Hstep]; [done|]. destruct Hstep as [t' newFunc|n].
  - unfold InformerFor. destruct (factory_informers f' !! t') as [i'|] eqn:Hi'; [done|]. cbn.
    rewrite lookup_insert_ne by congruence. done.
  - destruct (Start_spec n f') as (_ & _ & -> & _). done.
Qed.

Lemma NoDup_started f : wf_factory f → NoDup (Informer_id <$> (started_informers f).*2).
Proof.
  intros [_ Hd _]. unfold started_informers. rewrite <-list_fmap_compose.
  apply NoDup_fmap_2_strong.
  - intros [t i] [t' i'] [_ H1]%list_elem_of_filter [_ H2]%list_elem_of_filter Heq. cbn in Heq.
    apply elem_of_map_to_list in H1, H2. assert (t = t') as <- by by eapply Hd. congruence.
  - apply NoDup_filter, NoDup_map_to_list.
Qed.
End steps.

(** Filling a map in a range over another one. *)
Lemma lookup_foldl_insert {A B} (g : A → B) (l : list (string * A)) (acc : gmap string B) t :
  NoDup l.*1 →
  foldl (λ res kv, <[kv.1 := g kv.2]> res) acc l !! t =
  match (list_to_map l : gmap string A) !! t with Some i => Some (g i) | None => acc !! t end.
Proof.
  revert acc. induction l as [|[t' i] l IH]; intros acc Hnd; simpl; [by rewrite lookup_empty|].
  apply NoDup_cons in Hnd as [Ht Hnd]. rewrite IH by done. destruct (decide (t = t')) as [->|Hne].
  - rewrite lookup_insert_eq. rewrite not_elem_of_list_to_map_1 by done. by rewrite lookup_insert_eq.
  - by rewrite !lookup_insert_ne by done.
Qed.

Lemma foldl_insert_range `{InformerOrder} {B} (g : Informer → B) n (m : gmap string Informer) :
  foldl (λ res kv, <[kv.1 := g kv.2]> res) ∅ (informer_range n m) = g <$> m.
Proof.
  apply map_eq. intros t. rewrite lookup_foldl_insert, lookup_fmap, lookup_empty.
  - rewrite <-(list_to_map_flip m (informer_range n m)) by (by rewrite informer_range_perm). by destruct (m !! t).
  - rewrite informer_range_perm. apply NoDup_fst_map_to_list.
Qed.

Lemma foldl_all_started (f : sharedInformerFactory) l acc :
  (∀ kv, kv ∈ l → started f kv.1 = true) →
  foldl (λ m kv, if started f kv.1 then <[kv.1 := kv.2]> m else m) acc l =
  foldl (λ (m : gmap string Informer) kv, <[kv.1 := id kv.2]> m) acc l.
Proof.
  revert acc. induction l as [|kv l IH]; intros acc Hl; [done|]. simpl. rewrite (Hl kv) by left.
  apply IH. intros kv' Hin. apply Hl. by right.
Qed.

(** ** Theorems *)
Section theorems.
Context {IO : InformerOrder}.

(** C21: However often and in whatever order informers are requested and the
    factory is started, each informer is run at most once, and what was run is
    what is marked as started, whatever the order in which the ranges over the
    map visit the informers. *)
Theorem informers_run_once f ran f' :
  fresh_factory f → factory_steps f ran f' →
  NoDup (Informer_id <$> ran) ∧
  ∀ i, i ∈ ran ↔ ∃ t, factory_informers f' !! t = Some i ∧ started f' t = true.
Proof.
  intros Hf Hsteps. destruct (fresh_wf f Hf) as [Hwf Hnone].
  destruct (factory_steps_started _ _ _ Hsteps Hwf) as [Hwf' Hran]. rewrite Hnone in Hran. cbn in Hran.
  split; [rewrite <-Hran; by apply NoDup_started|]. intros i. rewrite <-Hran, list_elem_of_fmap. split.
  - intros ([t i'] & -> & [Hst Hin]%list_elem_of_filter). exists t. by rewrite <-elem_of_map_to_list.
  - intros (t & Hi & Hst). exists (t, i). split; [done|]. apply list_elem_of_filter. by rewrite elem_of_map_to_list.
Qed.

(** All requests for a type share one informer: once it was requested,
    every later request returns it, whatever was requested or started in
    between and however it would be made. *)
Theorem InformerFor_shared f t newFunc ran f' newFunc' :
  factory_steps (InformerFor t newFunc f).2 ran f' →
  InformerFor t newFunc' f' = ((InformerFor t newFunc f).1, f').
Proof.
  intros Hsteps. destruct (InformerFor_spec t newFunc f) as [Hi _].
  assert (factory_informers f' !! t = Some (InformerFor t newFunc f).1) as Hf'.
  { eapply factory_steps_keep; [done|]. by rewrite Hi, lookup_insert_eq. }
  unfold InformerFor at 1. by rewrite Hf'.
Qed.

(** [Start] leaves nothing to start: a second [Start] runs nothing, and
    [WaitForCacheSync] then waits for all informers that were requested and
    reports for each whether it synced. *)
Theorem Start_complete n n' m synced f :
  (Start n' (Start n f).1).2 = [] ∧
  WaitForCacheSync m synced (Start n f).1 = synced <$> factory_informers f.
Proof.
  destruct (Start_spec n f) as (_ & Hst & Hi & _). split.
  - destruct (Start_spec n' (Start n f).1) as (-> & _). rewrite Hi.
    assert (filter (λ kv, started (Start n f).1 kv.1 = false) (informer_range n' (factory_informers f)) = []) as ->; [|done].
    rewrite (filter_ext_in _ (λ _, False)); [by apply filter_none|].
    intros [t i] Hin. rewrite informer_range_perm, elem_of_map_to_list in Hin. cbn. rewrite Hst, bool_decide_true by (by eexists). done.
  - unfold WaitForCacheSync. rewrite Hi, foldl_all_started, !foldl_insert_range, map_fmap_id.
    + done.
    + intros [t i] Hin. rewrite informer_range_perm, elem_of_map_to_list in Hin. rewrite Hst, bool_decide_true by (by eexists). done.
Qed.

(** The informer of TaskGroups that a factory gives out has the namespace
    and the options of the factory, its resync period is the custom one for
    TaskGroups, if there is one, or else the default one, it indexes by
    namespace, and [ForResource] gives out the same, with a lister that lists
    and gets what that of TaskGroups does. Of several options of one kind the
    last one counts. *)
Theorem TaskGroups_Informer_configured defaultResync ns tweak custom ns' tweak' :
  NoDup custom.*1 →
  let f := NewSharedInformerFactoryWithOptions defaultResync
    [WithNamespace ns'; WithTweakListOptions tweak'; WithCustomResyncConfig custom;
     WithNamespace ns; WithTweakListOptions tweak] in
  let '(i, f') := TaskGroups_Informer f in
  Informer_namespace i = ns ∧
  (∀ options, Informer_options i options = match tweak with Some t => t options | None => options end) ∧
  Informer_resync i = default defaultResync ((list_to_map custom : gmap string Z) !! "*v1alpha1.TaskGroup") ∧
  Informer_by_namespace i = true ∧
  (∃ g, ForResource ("custom.tekton.dev", "v1alpha1", "taskgroups") f = (inr g, f') ∧ genericInformer_Informer g = i ∧
     ∀ GetIndexer, let generic := genericInformer_Lister GetIndexer g in let lister := NewTaskGroupLister (GetIndexer i) in
       (∀ selector, genericLister_List generic selector = taskGroupLister_List lister selector) ∧
       ∀ namespace name tg, genericLister_Get generic namespace name = inr tg ↔
         taskGroupNamespaceLister_Get (taskGroupLister_TaskGroups lister namespace) name = inr tg) ∧
  (TaskGroups_Informer (NewFilteredSharedInformerFactory defaultResync ns tweak)).1 =
    NewFilteredTaskGroupInformer ns defaultResync true tweak 0.
Proof.
  intros Hnd. cbv zeta. unfold ForResource. rewrite bool_decide_true by done.
  unfold TaskGroups_Informer, InformerFor. cbn [NewSharedInformerFactoryWithOptions foldl WithNamespace
    WithTweakListOptions WithCustomResyncConfig factory_informers factory_customResync factory_namespace
    factory_tweakListOptions factory_defaultResync]. rewrite lookup_empty.
  split_and!; try done.
  2: { eexists. split_and!; [reflexivity..|]. intros GetIndexer. split; [done|].
    intros namespace name tg. unfold genericLister_Get, taskGroupNamespaceLister_Get. cbn. by destruct (GetByKey _ _ _). }
  cbn [Informer_resync defaultInformer NewFilteredTaskGroupInformer].
  pose proof (lookup_foldl_insert id custom ∅ TaskGroup_type Hnd) as H. unfold id in H. rewrite H, lookup_empty.
  unfold TaskGroup_type. by destruct (list_to_map custom !! _).
Qed.
End theorems.

(** ** Witnesses *)
Definition map_order : InformerOrder := {| informer_range := λ _ m, map_to_list m; informer_range_perm := λ _ m, reflexivity _ |}.

Lemma informers_run_once_witness :
  let f := (TaskGroups_Informer (NewSharedInformerFactory 30)).2 in
  NoDup (Informer_id <$> (([] ++ []) ++ (Start (IO := map_order) 0 f).2) ++ (Start (IO := map_order) 1 (Start (IO := map_order) 0 f).1).2).
Proof.
  intros f. apply (informers_run_once (IO := map_order) (NewSharedInformerFactory 30) _
    (Start (IO := map_order) 1 (Start (IO := map_order) 0 f).1).1); [split; reflexivity|].
  eapply steps_snoc; [eapply steps_snoc; [eapply steps_snoc; [apply steps_nil|]|]|].
  - apply (step_request (NewSharedInformerFactory 30) TaskGroup_type (defaultInformer "" None)). intros resync id. reflexivity.
  - apply (step_start f 0).
  - apply (step_start _ 1).
Defined.

Lemma InformerFor_shared_witness :
  let f := NewSharedInformerFactory 30 in
  let new ns := defaultInformer ns None in
  (InformerFor TaskGroup_type (new "b") (Start (IO := map_order) 0 (InformerFor TaskGroup_type (new "a") f).2).1).1 =
  (InformerFor TaskGroup_type (new "a") f).1.
Proof.
  intros f new. rewrite (InformerFor_shared (IO := map_order) f TaskGroup_type (new "a") (Start (IO := map_order) 0 (InformerFor TaskGroup_type (new "a") f).2).2
    (Start (IO := map_order) 0 (InformerFor TaskGroup_type (new "a") f).2).1 (new "b")); [reflexivity|].
  apply (steps_snoc _ []  (InformerFor TaskGroup_type (new "a") f).2); [apply steps_nil|exact (step_start (IO := map_order) (InformerFor TaskGroup_type (new "a") f).2 0)].
Defined.

Lemma TaskGroups_Informer_configured_witness :
  Informer_resync (TaskGroups_Informer (NewSharedInformerFactoryWithOptions 30
    [WithNamespace "a"; WithTweakListOptions None; WithCustomResyncConfig [("*v1alpha1.TaskGroup", 60%Z)];
     WithNamespace "b"; WithTweakListOptions None])).1 = 60%Z.
Proof.
  pose proof (TaskGroups_Informer_configured 30 "b" None [("*v1alpha1.TaskGroup", 60%Z)] "a" None) as H. cbv zeta in H.
  destruct (TaskGroups_Informer _) as [i f']. destruct H as (_ & _ & H & _); [apply NoDup_singleton|]. cbn [fst]. rewrite H. reflexivity.
Defined.
