(* ===== verification/DeepCopy.v ===== *)
(** pkg/apis/taskgroup/v1alpha1/zz_generated.deepcopy.go: the deep copies of
    the API objects, on a heap with aliasing.

    A Go value is a tree of structs whose pointers and slices refer to cells of
    the heap: the cell of a pointer has one element, that of a slice its
    elements. A copier reads a value and returns its copy and the new heap. *)
From S2P Require Import Prelude GoStrings.

(** ** The heap *)
Abbreviation loc := nat (only parsing).

Inductive val : Type :=
  | Atom (a : json)
  | Struct (fields : list val)
  | Ref (l : option loc).

Abbreviation heap := (gmap loc (list val)).

Definition copier : Type := val → heap → val * heap.

(** [*out = *in], of a field without pointers. *)
Definition keep : copier := λ v h, (v, h).

(** Copies one value after the other. *)
Fixpoint copy_all (fs : list copier) (vs : list val) (h : heap) : list val * heap :=
  match fs, vs with
  | f :: fs, v :: vs =>
    let '(v', h) := f v h in
    let '(vs', h) := copy_all fs vs h in
    (v' :: vs', h)
  | _, vs => (vs, h)
  end.

(** The fields of a struct. *)
Definition copy_fields (fs : list copier) : copier := λ v h,
  match v with
  | Struct vs => let '(vs', h) := copy_all fs vs h in (Struct vs', h)
  | _ => (v, h)
  end.

(** [if in.X != nil { *out = make([]T, len( *in)); for i := range *in { copy the element } }],
    and the same for a pointer, with [new(T)]. *)
Definition copy_cell (f : copier) : copier := λ v h,
  match v with
  | Ref (Some l) =>
    match h !! l with
    | Some vs =>
      let '(vs', h) := copy_all (replicate (length vs) f) vs h in
      let l' := fresh (dom h) in
      (Ref (Some l'), <[l' := vs']> h)
    | None => (v, h)
    end
  | _ => (v, h)
  end.

(** ** Types *)
Inductive ty : Type :=
  | TAtom
  | TStruct (fields : list ty)
  | TRef (elem : ty).

(** What a value means: its contents without the locations. *)
Inductive tree : Type :=
  | Leaf (a : json)
  | Node (fields : list tree)
  | Nil
  | Cell (elems : list tree).

(** [reads h t v x L]: in the heap [h] the value [v] of type [t] has the
    contents [x], and [L] are the cells it reaches. *)
Inductive reads (h : heap) : ty → val → tree → gset loc → Prop :=
  | reads_atom a : reads h TAtom (Atom a) (Leaf a) ∅
  | reads_struct ts vs xs L : reads_all h ts vs xs L → reads h (TStruct ts) (Struct vs) (Node xs) L
  | reads_nil t : reads h (TRef t) (Ref None) Nil ∅
  | reads_ref t l vs xs L :
      h !! l = Some vs → reads_all h (replicate (length vs) t) vs xs L →
      reads h (TRef t) (Ref (Some l)) (Cell xs) ({[l]} ∪ L)
with reads_all (h : heap) : list ty → list val → list tree → gset loc → Prop :=
  | reads_all_nil : reads_all h [] [] [] ∅
  | reads_all_cons t ts v vs x xs L1 L2 :
      reads h t v x L1 → reads_all h ts vs xs L2 → reads_all h (t :: ts) (v :: vs) (x :: xs) (L1 ∪ L2).

Scheme reads_mut := Minimality for reads Sort Prop
  with reads_all_mut := Minimality for reads_all Sort Prop.
Combined Scheme reads_ind' from reads_mut, reads_all_mut.

(** A copier of a type: the copy has the same contents, in cells that were not
    there before, and what was there stays. *)
Definition deep_copies (t : ty) (f : copier) : Prop := ∀ h v x L,
  reads h t v x L →
  h ⊆ (f v h).2 ∧ ∃ L', reads (f v h).2 t (f v h).1 x L' ∧ L' ## dom h.

(** ** The copies *)

(** The types of Tekton and Kubernetes that are used, with their copiers. *)
Record foreign := { foreign_type : ty; foreign_DeepCopyInto : copier }.

Class ForeignTypes := {
  ParamSpec : foreign;
  v1beta1_Step : foreign;
  Volume : foreign;
  Container : foreign;
  Sidecar : foreign;
  TaskRef : foreign;
  ObjectMeta : foreign;
  ListMeta : foreign;
  TaskRunStatus : foreign
}.

(** Their copies are deep. *)
Class ForeignLaws `(ForeignTypes) := {
  foreign_deep f :
    f ∈ [ParamSpec; v1beta1_Step; Volume; Container; Sidecar; TaskRef; ObjectMeta; ListMeta; TaskRunStatus] →
    deep_copies (foreign_type f) (foreign_DeepCopyInto f)
}.

Section copies.
Context `{ForeignTypes}.

(** [DeepCopyInto] of each type; the fields are in the order of the struct. *)
Definition ParamBinding_DeepCopyInto : copier := keep.
Definition WorkspaceBinding_DeepCopyInto : copier := keep.

(** TaskRef, ParamBindings, WorkspaceBindings *)
Definition Uses_DeepCopyInto : copier :=
  copy_fields [(foreign_DeepCopyInto TaskRef); copy_cell keep; copy_cell keep].

(** the embedded Step, Uses *)
Definition Step_DeepCopyInto : copier :=
  copy_fields [(foreign_DeepCopyInto v1beta1_Step); copy_cell Uses_DeepCopyInto].

(** Params, Description, Steps, Volumes, StepTemplate, Sidecars, Workspaces, Results *)
Definition TaskGroupSpec_DeepCopyInto : copier :=
  copy_fields [copy_cell (foreign_DeepCopyInto ParamSpec); keep; copy_cell Step_DeepCopyInto; copy_cell (foreign_DeepCopyInto Volume);
               copy_cell (foreign_DeepCopyInto Container); copy_cell (foreign_DeepCopyInto Sidecar); copy_cell keep; copy_cell keep].

(** TypeMeta, ObjectMeta, Spec *)
Definition TaskGroup_DeepCopyInto : copier :=
  copy_fields [keep; (foreign_DeepCopyInto ObjectMeta); TaskGroupSpec_DeepCopyInto].

(** TypeMeta, ListMeta, Items *)
Definition TaskGroupList_DeepCopyInto : copier :=
  copy_fields [keep; (foreign_DeepCopyInto ListMeta); copy_cell TaskGroup_DeepCopyInto].

(** TaskGroupSpec, TaskRun *)
Definition TaskGroupRunStatus_DeepCopyInto : copier :=
  copy_fields [copy_cell TaskGroupSpec_DeepCopyInto; copy_cell (foreign_DeepCopyInto TaskRunStatus)].

(** [DeepCopy] of each type: nil for nil, or else a new object that
    [DeepCopyInto] fills; [DeepCopyObject] is [DeepCopy] as an interface. *)
Definition ParamBinding_DeepCopy : copier := copy_cell ParamBinding_DeepCopyInto.
Definition WorkspaceBinding_DeepCopy : copier := copy_cell WorkspaceBinding_DeepCopyInto.
Definition Uses_DeepCopy : copier := copy_cell Uses_DeepCopyInto.
Definition Step_DeepCopy : copier := copy_cell Step_DeepCopyInto.
Definition TaskGroupSpec_DeepCopy : copier := copy_cell TaskGroupSpec_DeepCopyInto.
Definition TaskGroup_DeepCopy : copier := copy_cell TaskGroup_DeepCopyInto.
Definition TaskGroup_DeepCopyObject : copier := TaskGroup_DeepCopy.
Definition TaskGroupList_DeepCopy : copier := copy_cell TaskGroupList_DeepCopyInto.
Definition TaskGroupList_DeepCopyObject : copier := TaskGroupList_DeepCopy.
Definition TaskGroupRunStatus_DeepCopy : copier := copy_cell TaskGroupRunStatus_DeepCopyInto.

(** The types, of taskgroup_types.go: a workspace declaration, a result and a
    binding have no pointers. *)
Definition TBinding : ty := TStruct [TAtom; TAtom].
Definition TWorkspaceDeclaration : ty := TStruct [TAtom; TAtom; TAtom; TAtom; TAtom].
Definition TTaskResult : ty := TStruct [TAtom; TAtom].
Definition TTypeMeta : ty := TStruct [TAtom; TAtom].
Definition TUses : ty := TStruct [foreign_type TaskRef; TRef TBinding; TRef TBinding].
Definition TStep : ty := TStruct [foreign_type v1beta1_Step; TRef TUses].
Definition TTaskGroupSpec : ty :=
  TStruct [TRef (foreign_type ParamSpec); TAtom; TRef TStep; TRef (foreign_type Volume);
           TRef (foreign_type Container); TRef (foreign_type Sidecar);
           TRef TWorkspaceDeclaration; TRef TTaskResult].
Definition TTaskGroup : ty := TStruct [TTypeMeta; foreign_type ObjectMeta; TTaskGroupSpec].
Definition TTaskGroupList : ty := TStruct [TTypeMeta; foreign_type ListMeta; TRef TTaskGroup].
Definition TTaskGroupRunStatus : ty := TStruct [TRef TTaskGroupSpec; TRef (foreign_type TaskRunStatus)].
End copies.

(** ** Lemmas *)
Lemma reads_mono h h' : h ⊆ h' →
  (∀ t v x L, reads h t v x L → reads h' t v x L) ∧
  (∀ ts vs xs L, reads_all h ts vs xs L → reads_all h' ts vs xs L).
Proof.
  intros Hh. apply reads_ind'; try by econstructor. intros t l vs xs L Hl _ IH. econstructor; [|done].
  by eapply lookup_weaken.
Qed.

Lemma reads_dom h :
  (∀ t v x L, reads h t v x L → L ⊆ dom h) ∧
  (∀ ts vs xs L, reads_all h ts vs xs L → L ⊆ dom h).
Proof.
  apply reads_ind'; try set_solver. intros t l vs xs L Hl _ IH. apply elem_of_dom_2 in Hl. set_solver.
Qed.

(** A write to a cell that is not reached. *)
Lemma reads_insert h l ws :
  (∀ t v x L, reads h t v x L → l ∉ L → reads (<[l := ws]> h) t v x L) ∧
  (∀ ts vs xs L, reads_all h ts vs xs L → l ∉ L → reads_all (<[l := ws]> h) ts vs xs L).
Proof.
  apply reads_ind'; [by econstructor|by intros; econstructor; eauto|by econstructor| |by econstructor|].
  - intros t l' vs xs L Hl _ IH Hn. econstructor; [|apply IH; set_solver]. rewrite lookup_insert_ne; [done|set_solver].
  - intros t ts v vs x xs L1 L2 _ IH1 _ IH2 Hn. econstructor; [apply IH1|apply IH2]; set_solver.
Qed.

(** Several values, each with a copier of its type. *)
Lemma copy_all_deep ts fs : Forall2 deep_copies ts fs → ∀ h vs xs L,
  reads_all h ts vs xs L →
  h ⊆ (copy_all fs vs h).2 ∧ ∃ L', reads_all (copy_all fs vs h).2 ts (copy_all fs vs h).1 xs L' ∧ L' ## dom h.
Proof.
  induction 1 as [|t f ts fs Hf _ IH]; intros h vs xs L Hr; inversion Hr as [|? ? v vs0 x xs0 L1 L2 Hv Hvs]; subst; simpl.
  - split; [done|]. exists ∅. split; [constructor|set_solver].
  - destruct (Hf _ _ _ _ Hv) as (Hsub & L1' & Hr1 & Hd1). destruct (f v h) as [v' h1]. cbn in *.
    destruct (IH h1 vs0 xs0 L2) as (Hsub2 & L2' & Hr2 & Hd2); [by apply (proj2 (reads_mono h h1 Hsub))|].
    destruct (copy_all fs vs0 h1) as [vs' h2]. cbn in *. split; [by etrans|].
    exists (L1' ∪ L2'). split.
    + constructor; [|done]. by apply (proj1 (reads_mono h1 h2 Hsub2)).
    + apply subseteq_dom in Hsub. set_solver.
Qed.

Lemma deep_keep ts : Forall (eq TAtom) ts → deep_copies (TStruct ts) keep.
Proof.
  intros Hts h v x L Hr. split; [done|]. exists L. split; [done|]. inversion Hr as [|? vs xs ? Hall| |]; subst. clear Hr. revert vs xs L Hall.
  induction Hts as [|t ts <- _ IH]; intros vs xs L Hr; inversion Hr as [|? ? ? ? ? ? ? ? Hv Hvs]; subst; [set_solver|].
  inversion Hv; subst. specialize (IH _ _ _ Hvs). set_solver.
Qed.

Lemma deep_keep_atom : deep_copies TAtom keep.
Proof. intros h v x L Hr. split; [done|]. exists L. split; [done|]. inversion Hr; subst. set_solver. Qed.

Lemma deep_fields ts fs : Forall2 deep_copies ts fs → deep_copies (TStruct ts) (copy_fields fs).
Proof.
  intros Hf h v x L Hr. inversion Hr as [|? vs xs ? Hall| |]; subst. unfold copy_fields. destruct (copy_all_deep _ _ Hf _ _ _ _ Hall) as (Hs & L' & Hr' & Hd).
  destruct (copy_all fs vs h) as [vs' h']. cbn in *. split; [done|]. exists L'. split; [by constructor|done].
Qed.

Lemma deep_cell t f : deep_copies t f → deep_copies (TRef t) (copy_cell f).
Proof.
  intros Hf h v x L Hr. inversion Hr as [| | |? l vs xs L0 Hl Hvs]; subst; unfold copy_cell.
  - split; [done|]. exists ∅. split; [constructor|set_solver].
  - rewrite Hl. assert (Forall2 deep_copies (replicate (length vs) t) (replicate (length vs) f)) as Hall.
    { apply Forall2_replicate. apply Hf. }
    destruct (copy_all_deep _ _ Hall _ _ _ _ Hvs) as (Hs & L' & Hr' & Hd).
    assert (length (copy_all (replicate (length vs) f) vs h).1 = length vs) as Hlen.
    { clear. generalize dependent h. induction vs as [|v vs IH]; intros h; [done|]. simpl. destruct (f v h) as [v' h'].
      specialize (IH h'). destruct (copy_all _ vs h') as [vs' h'']. simpl in *. by rewrite IH. }
    destruct (copy_all _ vs h) as [vs' h']. cbn in *. set (l' := fresh (dom h')).
    assert (l' ∉ dom h') as Hfresh by apply is_fresh.
    assert (h' ⊆ <[l' := vs']> h') as Hsub by (apply insert_subseteq, not_elem_of_dom; done).
    split; [by etrans|]. exists ({[l']} ∪ L'). split.
    + econstructor; [apply lookup_insert_eq|]. rewrite Hlen. by apply (proj2 (reads_mono _ _ Hsub)).
    + apply subseteq_dom in Hs. set_solver.
Qed.

(** A struct, field by field. *)
Ltac deep_struct :=
  apply deep_fields; repeat (apply Forall2_cons; split); try apply Forall2_nil_2;
  try (apply foreign_deep; set_solver); try (apply deep_cell, foreign_deep; set_solver);
  try apply deep_keep_atom; try (apply deep_cell, deep_keep; by repeat constructor);
  try (apply deep_keep; by repeat constructor).

Section deep.
Context `{FL : ForeignLaws}.

Lemma deep_Uses : deep_copies TUses Uses_DeepCopyInto.
Proof. deep_struct. Qed.

Lemma deep_Step : deep_copies TStep Step_DeepCopyInto.
Proof. deep_struct. apply deep_cell, deep_Uses. Qed.

Lemma deep_TaskGroupSpec : deep_copies TTaskGroupSpec TaskGroupSpec_DeepCopyInto.
Proof. deep_struct. apply deep_cell, deep_Step. Qed.

Lemma deep_TaskGroup : deep_copies TTaskGroup TaskGroup_DeepCopyInto.
Proof. deep_struct. apply deep_TaskGroupSpec. Qed.

Lemma deep_TaskGroupList : deep_copies TTaskGroupList TaskGroupList_DeepCopyInto.
Proof. deep_struct. apply deep_cell, deep_TaskGroup. Qed.

Lemma deep_TaskGroupRunStatus : deep_copies TTaskGroupRunStatus TaskGroupRunStatus_DeepCopyInto.
Proof. deep_struct. apply deep_cell, deep_TaskGroupSpec. Qed.
End deep.

(** ** Theorem *)
Section theorem.
Context `{FL : ForeignLaws}.

(** The exported copies, with the types they copy. *)
Definition copies : list (ty * copier) :=
  [(TRef TBinding, ParamBinding_DeepCopy); (TRef TBinding, WorkspaceBinding_DeepCopy); (TRef TUses, Uses_DeepCopy);
   (TRef TStep, Step_DeepCopy); (TRef TTaskGroupSpec, TaskGroupSpec_DeepCopy); (TRef TTaskGroup, TaskGroup_DeepCopy);
   (TRef TTaskGroup, TaskGroup_DeepCopyObject); (TRef TTaskGroupList, TaskGroupList_DeepCopy);
   (TRef TTaskGroupList, TaskGroupList_DeepCopyObject); (TRef TTaskGroupRunStatus, TaskGroupRunStatus_DeepCopy)].

Lemma copies_deep t f : (t, f) ∈ copies → deep_copies t f.
Proof.
  unfold copies. rewrite !elem_of_cons, elem_of_nil. intros Hin. destruct_or?; try done; simplify_eq;
    apply deep_cell; first [apply deep_Uses|apply deep_Step|apply deep_TaskGroupSpec|apply deep_TaskGroup|
      apply deep_TaskGroupList|apply deep_TaskGroupRunStatus|apply deep_keep; by repeat constructor].
Qed.

(** C20: Each generated copy is equal to the original and independent of it:
    it has the same contents and shares no cell with it, so that no write to
    one of them changes the other; and copying leaves the original alone. *)
Theorem DeepCopy_independent t f h v x L :
  (t, f) ∈ copies → reads h t v x L →
  let '(v', h') := f v h in
  reads h' t v x L ∧ ∃ L', reads h' t v' x L' ∧ L ## L' ∧
    (∀ l ws, l ∈ L' → reads (<[l := ws]> h') t v x L) ∧
    (∀ l ws, l ∈ L → reads (<[l := ws]> h') t v' x L').
Proof.
  intros Hin Hr. destruct (copies_deep _ _ Hin _ _ _ _ Hr) as (Hsub & L' & Hr' & Hd).
  destruct (f v h) as [v' h']. cbn in *. pose proof (proj1 (reads_mono _ _ Hsub) _ _ _ _ Hr) as Hr2.
  pose proof (proj1 (reads_dom h) _ _ _ _ Hr) as HL. split; [done|]. exists L'. split_and!; [done|set_solver|..];
    intros l ws Hl; apply (proj1 (reads_insert h' l ws)); [done|set_solver|done|set_solver].
Qed.
End theorem.

(** ** Witness *)

(** A foreign type with a slice. *)
Definition sample_foreign : foreign :=
  {| foreign_type := TStruct [TRef TAtom]; foreign_DeepCopyInto := copy_fields [copy_cell keep] |}.

Definition sample_types : ForeignTypes := {|
  ParamSpec := sample_foreign; v1beta1_Step := sample_foreign; Volume := sample_foreign; Container := sample_foreign;
  Sidecar := sample_foreign; TaskRef := sample_foreign; ObjectMeta := sample_foreign; ListMeta := sample_foreign;
  TaskRunStatus := sample_foreign |}.

Lemma sample_laws : ForeignLaws sample_types.
Proof.
  constructor. intros f Hf. assert (f = sample_foreign) as -> by (cbn in Hf; rewrite !elem_of_cons, elem_of_nil in Hf; naive_solver).
  apply deep_fields. constructor; [|constructor]. apply deep_cell, deep_keep_atom.
Qed.

(** A pointer to a use with a slice in its task reference and a binding. *)
Definition sample_heap : heap :=
  {[ 0 := [Struct [Struct [Ref (Some 1)]; Ref (Some 2); Ref None]];
     1 := [Atom (JStr "ref")];
     2 := [Struct [Atom (JStr "foo"); Atom (JStr "msg")]] ]}.

Lemma DeepCopy_independent_witness :
  let '(v', h') := Uses_DeepCopy (H := sample_types) (Ref (Some 0)) sample_heap in
  ∃ x L, reads h' (TRef (TUses (H := sample_types))) v' x L ∧ L ## {[0; 1; 2]}.
Proof.
  pose proof sample_laws as FL.
  pose proof (DeepCopy_independent (H := sample_types) (FL := FL) (TRef (TUses (H := sample_types))) (Uses_DeepCopy (H := sample_types)) sample_heap (Ref (Some 0))
    (Cell [Node [Node [Cell [Leaf (JStr "ref")]]; Cell [Node [Leaf (JStr "foo"); Leaf (JStr "msg")]]; Nil]])
    ({[0]} ∪ (((({[1]} ∪ (∅ ∪ ∅)) ∪ ∅) ∪ (({[2]} ∪ ((∅ ∪ (∅ ∪ ∅)) ∪ ∅)) ∪ (∅ ∪ ∅))) ∪ ∅))) as Hind.
  destruct (Uses_DeepCopy (H := sample_types) (Ref (Some 0)) sample_heap) as [v' h']. destruct Hind as (_ & L' & Hr & Hd & _).
  - do 2 right. left.
  - repeat (econstructor; try reflexivity).
  - eexists _, L'. split; [exact Hr|set_solver].
Defined.
