(* ===== verification/Rest.v ===== *)
(** client-go's rest/request.go: the requests a client builds, and what is sent
    to the API server. A path is the list of its segments. The error [r.err],
    which makes the rest of the operations do nothing, is that of [fallible].
    Headers, throttling and retries are left out: [send] is the request with
    its retries, and what [Into] and [Error] make of a response that is not
    the object asked for is an error of [send] or of the decoder. *)
From S2P Require Import Prelude GoStrings.
From Stdlib Require Import Ascii.

(** ** Paths *)

(** [path.Clean] of a rooted path, one segment after the other. *)
Definition clean_step (p : list string) (segment : string) : list string :=
  if bool_decide (segment = "") || bool_decide (segment = ".") then p
  else if bool_decide (segment = "..") then take (length p - 1) p
  else p ++ [segment].

(** [path.Join(p, segments...)], where [p] is clean *)
Definition path_Join (p : list string) (segments : list string) : list string :=
  foldl clean_step p (segments ≫= λ s, Split s "/"%char).

(** [func IsValidPathSegmentName(name string) []string] *)
Definition NameMayNotBe : list string := ["."; ".."].
Definition NameMayNotContain : list string := ["/"; "%"].

Definition IsValidPathSegmentName (name : string) : list string :=
  match filter (λ illegalName, name = illegalName) NameMayNotBe with
  | illegalName :: _ => ["may not be '" +:+ illegalName +:+ "'"]
  | [] =>
    foldRange (λ _ illegalContent errors,
      if Contains name illegalContent then errors ++ ["may not contain '" +:+ illegalContent +:+ "'"] else errors)
      0 NameMayNotContain []
  end.

(** ** Requests *)
Inductive verb : Type := GET | POST | PUT | DELETE | PATCH (patchType : string).

(** The body: an object, or the options of a deletion, which are encoded with
    the API version of the client. *)
Inductive content : Type :=
  | ObjectBody (j : json)
  | DeleteOptionsBody (apiVersion : string) (opts : json).

Record Request := {
  Request_verb : verb;
  Request_pathPrefix : list string;
  Request_namespaceSet : bool;
  Request_namespace : string;
  Request_resource : string;
  Request_resourceName : string;
  Request_subresource : list string;
  (** the parameters that were added, each in JSON *)
  Request_params : list json;
  Request_timeout : Z;
  Request_body : option content
}.

(** The request as HTTP: the URL of [func (r *Request) URL() *url.URL] and the
    body. *)
Record HTTPRequest := {
  HTTPRequest_verb : verb;
  HTTPRequest_path : list string;
  HTTPRequest_params : list json;
  HTTPRequest_timeout : option Z;
  HTTPRequest_body : option content
}.

(** [type RESTClient struct]: the path of [base] and the timeout of [Client],
    in nanoseconds *)
Record RESTClient := {
  RESTClient_base_Path : string;
  RESTClient_versionedAPIPath : string;
  RESTClient_Timeout : Z
}.

(** [func NewRequest(c *RESTClient) *Request], with [Verb] *)
Definition NewRequest (c : RESTClient) (v : verb) : Request := {|
  Request_verb := v;
  Request_pathPrefix := path_Join [] [RESTClient_base_Path c; RESTClient_versionedAPIPath c];
  Request_namespaceSet := false; Request_namespace := ""; Request_resource := ""; Request_resourceName := "";
  Request_subresource := []; Request_params := []; Request_timeout := RESTClient_Timeout c; Request_body := None |}.

(** [fmt.Errorf(what + " %q: %v", name, msgs)] *)
Definition invalid (what name : string) (msgs : list string) : error :=
  errorString ("invalid " +:+ what +:+ " " +:+ Quote name +:+ ": [" +:+ Join msgs " " +:+ "]").

(** [already set to %q, cannot change to %q] *)
Definition already_set (what old new : string) : error :=
  errorString (what +:+ " already set to " +:+ Quote old +:+ ", cannot change to " +:+ Quote new).

(** [func (r *Request) Namespace(namespace string) *Request] *)
Definition Namespace (namespace : string) (r : Request) : fallible Request :=
  if Request_namespaceSet r then inl (already_set "namespace" (Request_namespace r) namespace)
  else match IsValidPathSegmentName namespace with
  | (_ :: _) as msgs => inl (invalid "namespace" namespace msgs)
  | [] => inr {|
    Request_verb := Request_verb r; Request_pathPrefix := Request_pathPrefix r;
    Request_namespaceSet := true; Request_namespace := namespace;
    Request_resource := Request_resource r; Request_resourceName := Request_resourceName r;
    Request_subresource := Request_subresource r; Request_params := Request_params r;
    Request_timeout := Request_timeout r; Request_body := Request_body r |}
  end.

(** [func (r *Request) Resource(resource string) *Request] *)
Definition Resource (resource : string) (r : Request) : fallible Request :=
  if negb (bool_decide (Request_resource r = "")) then inl (already_set "resource" (Request_resource r) resource)
  else match IsValidPathSegmentName resource with
  | (_ :: _) as msgs => inl (invalid "resource" resource msgs)
  | [] => inr {|
    Request_verb := Request_verb r; Request_pathPrefix := Request_pathPrefix r;
    Request_namespaceSet := Request_namespaceSet r; Request_namespace := Request_namespace r;
    Request_resource := resource; Request_resourceName := Request_resourceName r;
    Request_subresource := Request_subresource r; Request_params := Request_params r;
    Request_timeout := Request_timeout r; Request_body := Request_body r |}
  end.

(** [func (r *Request) Name(resourceName string) *Request] *)
Definition Name (resourceName : string) (r : Request) : fallible Request :=
  if bool_decide (resourceName = "") then inl (errorString "resource name may not be empty")
  else if negb (bool_decide (Request_resourceName r = ""))
  then inl (already_set "resource name" (Request_resourceName r) resourceName)
  else match IsValidPathSegmentName resourceName with
  | (_ :: _) as msgs => inl (invalid "resource name" resourceName msgs)
  | [] => inr {|
    Request_verb := Request_verb r; Request_pathPrefix := Request_pathPrefix r;
    Request_namespaceSet := Request_namespaceSet r; Request_namespace := Request_namespace r;
    Request_resource := Request_resource r; Request_resourceName := resourceName;
    Request_subresource := Request_subresource r; Request_params := Request_params r;
    Request_timeout := Request_timeout r; Request_body := Request_body r |}
  end.

(** [func (r *Request) SubResource(subresources ...string) *Request], of a
    request without one *)
Fixpoint check_subresources (subresources : list string) : option error :=
  match subresources with
  | [] => None
  | s :: subresources =>
    match IsValidPathSegmentName s with
    | (_ :: _) as msgs => Some (invalid "subresource" s msgs)
    | [] => check_subresources subresources
    end
  end.

Definition SubResource (subresources : list string) (r : Request) : fallible Request :=
  match check_subresources subresources with
  | Some err => inl err
  | None => inr {|
    Request_verb := Request_verb r; Request_pathPrefix := Request_pathPrefix r;
    Request_namespaceSet := Request_namespaceSet r; Request_namespace := Request_namespace r;
    Request_resource := Request_resource r; Request_resourceName := Request_resourceName r;
    Request_subresource := subresources; Request_params := Request_params r;
    Request_timeout := Request_timeout r; Request_body := Request_body r |}
  end.

(** [func (r *Request) AbsPath(segments ...string) *Request], of more than one
    segment *)
Definition AbsPath (c : RESTClient) (segments : list string) (r : Request) : fallible Request := inr {|
  Request_verb := Request_verb r; Request_pathPrefix := path_Join [] (RESTClient_base_Path c :: segments);
  Request_namespaceSet := Request_namespaceSet r; Request_namespace := Request_namespace r;
  Request_resource := Request_resource r; Request_resourceName := Request_resourceName r;
  Request_subresource := Request_subresource r; Request_params := Request_params r;
  Request_timeout := Request_timeout r; Request_body := Request_body r |}.

(** [func (r *Request) VersionedParams(obj runtime.Object, codec runtime.ParameterCodec) *Request],
    of options that are encoded already *)
Definition VersionedParams (obj : json) (r : Request) : fallible Request := inr {|
  Request_verb := Request_verb r; Request_pathPrefix := Request_pathPrefix r;
  Request_namespaceSet := Request_namespaceSet r; Request_namespace := Request_namespace r;
  Request_resource := Request_resource r; Request_resourceName := Request_resourceName r;
  Request_subresource := Request_subresource r; Request_params := Request_params r ++ [obj];
  Request_timeout := Request_timeout r; Request_body := Request_body r |}.

(** [func (r *Request) Timeout(d time.Duration) *Request] *)
Definition Timeout (d : Z) (r : Request) : fallible Request := inr {|
  Request_verb := Request_verb r; Request_pathPrefix := Request_pathPrefix r;
  Request_namespaceSet := Request_namespaceSet r; Request_namespace := Request_namespace r;
  Request_resource := Request_resource r; Request_resourceName := Request_resourceName r;
  Request_subresource := Request_subresource r; Request_params := Request_params r;
  Request_timeout := d; Request_body := Request_body r |}.

(** [func (r *Request) Body(obj interface{}) *Request], of an object that is
    encoded by [data], which may fail *)
Definition Body (data : fallible content) (r : Request) : fallible Request :=
  let? data := data in inr {|
  Request_verb := Request_verb r; Request_pathPrefix := Request_pathPrefix r;
  Request_namespaceSet := Request_namespaceSet r; Request_namespace := Request_namespace r;
  Request_resource := Request_resource r; Request_resourceName := Request_resourceName r;
  Request_subresource := Request_subresource r; Request_params := Request_params r;
  Request_timeout := Request_timeout r; Request_body := Some data |}.

(** [strings.ToLower], of ASCII *)
Definition to_lower (c : ascii) : ascii :=
  let n := nat_of_ascii c in
  if bool_decide (65 ≤ n) && bool_decide (n ≤ 90) then ascii_of_nat (n + 32) else c.

Definition ToLower (s : string) : string :=
  String.string_of_list_ascii (map to_lower (String.list_ascii_of_string s)).

(** [func (r *Request) URL() *url.URL]: its path *)
Definition URL_path (r : Request) : list string :=
  let p := Request_pathPrefix r in
  let p := if Request_namespaceSet r && negb (bool_decide (Request_namespace r = ""))
           then path_Join p ["namespaces"; Request_namespace r] else p in
  let p := if negb (bool_decide (Request_resource r = "")) then path_Join p [ToLower (Request_resource r)] else p in
  if negb (bool_decide (Request_resourceName r = "")) || negb (bool_decide (Request_subresource r = []))
  then path_Join p (Request_resourceName r :: Request_subresource r) else p.

(** [func (r *Request) newHTTPRequest(ctx context.Context)] *)
Definition newHTTPRequest (r : Request) : HTTPRequest := {|
  HTTPRequest_verb := Request_verb r; HTTPRequest_path := URL_path r; HTTPRequest_params := Request_params r;
  HTTPRequest_timeout := if bool_decide (Request_timeout r = 0%Z) then None else Some (Request_timeout r);
  HTTPRequest_body := Request_body r |}.

(** [func (r *Request) requestPreflightCheck() error] *)
Definition requestPreflightCheck (r : Request) : option error :=
  if negb (Request_namespaceSet r) then None
  else if negb (bool_decide (Request_namespace r = "")) then None
  else match Request_verb r with
  | POST => Some (errorString "an empty namespace may not be set during creation")
  | GET | PUT | DELETE =>
    if negb (bool_decide (Request_resourceName r = ""))
    then Some (errorString "an empty namespace may not be set when a resource name is provided") else None
  | PATCH _ => None
  end.

(** A call: the request that was sent, if any, and the result. *)
Definition call (A : Type) : Type := option HTTPRequest * fallible A.

(** The API server, with the transport. *)
Class Server := {
  send : HTTPRequest → fallible json;
  send_watch : HTTPRequest → fallible json
}.

Section server.
Context `{Server}.

(** [func (r *Request) Do(ctx context.Context) Result] *)
Definition Do (r : fallible Request) : call json :=
  match r with
  | inl err => (None, inl err)
  | inr r =>
    match requestPreflightCheck r with
    | Some err => (None, inl err)
    | None => (Some (newHTTPRequest r), send (newHTTPRequest r))
    end
  end.

(** [func (r *Request) Watch(ctx context.Context) (watch.Interface, error)] *)
Definition Watch (r : fallible Request) : call json :=
  match r with
  | inl err => (None, inl err)
  | inr r => (Some (newHTTPRequest r), send_watch (newHTTPRequest r))
  end.

(** [func (r Result) Into(obj runtime.Object) error] and its object *)
Definition Into {A} (decode : json → fallible A) (c : call json) : call A :=
  (c.1, let? j := c.2 in decode j).

(** [func (r Result) Error() error] *)
Definition Result_Error (c : call json) : call unit := (c.1, let? _ := c.2 in inr tt).
End server.

(** ** Lemmas *)

(** A segment of a path that is neither empty nor rejected. *)
Definition good_segment (s : string) : Prop := s ≠ "" ∧ IsValidPathSegmentName s = [].

#[export] Instance good_segment_decision s : Decision (good_segment s).
Proof. unfold good_segment. apply _. Defined.

Lemma Split_single s c : Contains s (String c "") = false → Split s c = [s].
Proof.
  induction s as [|d s IH]; [done|]. cbn -[HasPrefix]. intros [Hp Hc]%orb_false_iff. cbn in Hp.
  rewrite andb_true_r, Ascii.eqb_sym in Hp. by rewrite Hp, IH.
Qed.

Lemma good_segment_slash s : good_segment s → Contains s "/" = false.
Proof.
  intros [_ Hv]. unfold IsValidPathSegmentName in Hv. destruct (filter _ NameMayNotBe); [|done].
  cbn -[Contains] in Hv. destruct (Contains s "/"); [|done]. by destruct (Contains s "%").
Qed.

Lemma good_segment_Split s : good_segment s → Split s "/"%char = [s].
Proof. intros Hs. by apply Split_single, good_segment_slash. Qed.

Lemma good_segment_no_slash s : good_segment s → s ≠ "" ∧ "/"%char ∉ String.list_ascii_of_string s.
Proof.
  intros Hs. split; [apply Hs|]. apply good_segment_slash in Hs. induction s as [|c s IH]; [apply not_elem_of_nil|].
  cbn -[HasPrefix] in Hs. apply orb_false_iff in Hs as [Hp Hc]. cbn in Hp. rewrite andb_true_r in Hp.
  cbn [String.list_ascii_of_string]. intros [<-|Hin]%elem_of_cons; [discriminate Hp|by apply IH].
Qed.

Lemma good_segment_clean p s : good_segment s → clean_step p s = p ++ [s].
Proof.
  intros [He Hv]. unfold clean_step. rewrite bool_decide_false by done.
  assert (s ≠ "." ∧ s ≠ "..") as [H1 H2].
  { split; intros ->; vm_compute in Hv; discriminate. }
  by rewrite !bool_decide_false.
Qed.

Lemma path_Join_good p segments : Forall good_segment segments → path_Join p segments = p ++ segments.
Proof.
  intros Hs. revert p. induction Hs as [|s segments Hs _ IH]; intros p; [by rewrite app_nil_r|].
  unfold path_Join in *. cbn. rewrite good_segment_Split by done. cbn. rewrite IH, good_segment_clean by done.
  by rewrite <-app_assoc.
Qed.

Lemma path_Join_app p s1 s2 : path_Join p (s1 ++ s2) = path_Join (path_Join p s1) s2.
Proof. unfold path_Join. by rewrite bind_app, foldl_app. Qed.

Lemma check_subresources_None subs : Forall good_segment subs → check_subresources subs = None.
Proof. induction 1 as [|s subs [_ Hs] _ IH]; [done|]. cbn. by rewrite Hs. Qed.
