(* ===== verification/Clients.v ===== *)
(** The clients of TaskGroups: the typed REST client
    (pkg/client/clientset/versioned/typed/taskgroup/v1alpha1/taskgroup.go) and
    the one that wraps a dynamic client (pkg/client/injection/client/client.go
    on client-go's dynamic/simple.go). A call is the request it sends, if any,
    and its result. *)
From S2P Require Import Prelude GoStrings Types Conditions RunTypes InformerFactory Rest.
From Stdlib Require Import Ascii.

(** [time.Duration(n) * time.Second], an int64 *)
Definition second : Z := 1000000000.
Definition wrap64 (n : Z) : Z := ((n + 2 ^ 63) mod 2 ^ 64 - 2 ^ 63)%Z.

(** The timeout of a list: zero if there are no [TimeoutSeconds]. *)
Definition list_timeout (opts : ListOptions) : Z :=
  match ListOptions_TimeoutSeconds opts with Some n => wrap64 (n * second) | None => 0%Z end.

(** [opts.Watch = true] *)
Definition watching (opts : ListOptions) : ListOptions := {|
  ListOptions_LabelSelector := ListOptions_LabelSelector opts; ListOptions_Watch := true;
  ListOptions_TimeoutSeconds := ListOptions_TimeoutSeconds opts; ListOptions_Other := ListOptions_Other opts |}.

(** The options of the calls other than lists, in JSON. *)
Definition Options : Type := json.

(** The codecs of the types; a TaskGroup is encoded with its kind. *)
Class Codecs := {
  encode_TaskGroup : TaskGroup → fallible json;
  decode_TaskGroup : json → fallible TaskGroup;
  decode_TaskGroupList : json → fallible (list TaskGroup);
  encode_ListOptions : ListOptions → json;
  (** [UnstructuredJSONScheme], of objects and of lists of objects *)
  decode_Unstructured : json → fallible json;
  decode_UnstructuredList : json → fallible json;
  (** [meta.Accessor(obj)] and [GetName()] *)
  GetName : json → string
}.

Section clients.
Context `{Server} `{Codecs}.

(** ** The typed client *)

(** [type taskGroups struct] *)
Record taskGroups := { taskGroups_client : RESTClient; taskGroups_ns : string }.

(** [c.client.Verb().Namespace(c.ns).Resource("taskgroups")] *)
Definition in_namespace (v : verb) (c : taskGroups) : fallible Request :=
  let? r := Namespace (taskGroups_ns c) (NewRequest (taskGroups_client c) v) in Resource "taskgroups" r.

(** [func (c *taskGroups) Get(ctx, name, options)] *)
Definition taskGroups_Get (c : taskGroups) (name : string) (options : Options) : call TaskGroup :=
  Into decode_TaskGroup (Do (
    let? r := in_namespace GET c in
    let? r := Name name r in
    VersionedParams options r)).

(** [func (c *taskGroups) List(ctx, opts)] *)
Definition taskGroups_List (c : taskGroups) (opts : ListOptions) : call (list TaskGroup) :=
  Into decode_TaskGroupList (Do (
    let? r := in_namespace GET c in
    let? r := VersionedParams (encode_ListOptions opts) r in
    Timeout (list_timeout opts) r)).

(** [func (c *taskGroups) Watch(ctx, opts)] *)
Definition taskGroups_Watch (c : taskGroups) (opts : ListOptions) : call json :=
  Watch (
    let? r := in_namespace GET c in
    let? r := VersionedParams (encode_ListOptions (watching opts)) r in
    Timeout (list_timeout opts) r).

(** The body of a TaskGroup. *)
Definition TaskGroup_body (tg : TaskGroup) : fallible content :=
  let? j := encode_TaskGroup tg in inr (ObjectBody j).

(** [func (c *taskGroups) Create(ctx, taskGroup, opts)] *)
Definition taskGroups_Create (c : taskGroups) (taskGroup : TaskGroup) (opts : Options) : call TaskGroup :=
  Into decode_TaskGroup (Do (
    let? r := in_namespace POST c in
    let? r := VersionedParams opts r in
    Body (TaskGroup_body taskGroup) r)).

(** [func (c *taskGroups) Update(ctx, taskGroup, opts)] *)
Definition taskGroups_Update (c : taskGroups) (taskGroup : TaskGroup) (opts : Options) : call TaskGroup :=
  Into decode_TaskGroup (Do (
    let? r := in_namespace PUT c in
    let? r := Name (ObjectMeta_Name (TaskGroup_ObjectMeta taskGroup)) r in
    let? r := VersionedParams opts r in
    Body (TaskGroup_body taskGroup) r)).

(** [func (c *taskGroups) Delete(ctx, name, opts)] *)
Definition taskGroups_Delete (c : taskGroups) (name : string) (opts : Options) : call unit :=
  Result_Error (Do (
    let? r := in_namespace DELETE c in
    let? r := Name name r in
    Body (inr (DeleteOptionsBody "custom.tekton.dev/v1alpha1" opts)) r)).

(** [func (c *taskGroups) DeleteCollection(ctx, opts, listOpts)] *)
Definition taskGroups_DeleteCollection (c : taskGroups) (opts : Options) (listOpts : ListOptions) : call unit :=
  Result_Error (Do (
    let? r := in_namespace DELETE c in
    let? r := VersionedParams (encode_ListOptions listOpts) r in
    let? r := Timeout (list_timeout listOpts) r in
    Body (inr (DeleteOptionsBody "custom.tekton.dev/v1alpha1" opts)) r)).

(** [func (c *taskGroups) Patch(ctx, name, pt, data, opts, subresources...)] *)
Definition taskGroups_Patch (c : taskGroups) (name pt : string) (data : json) (opts : Options) (subresources : list string) :
    call TaskGroup :=
  Into decode_TaskGroup (Do (
    let? r := in_namespace (PATCH pt) c in
    let? r := Name name r in
    let? r := SubResource subresources r in
    let? r := VersionedParams opts r in
    Body (inr (ObjectBody data)) r)).

(** ** The dynamic client (client-go's dynamic/simple.go) *)

(** [schema.GroupVersionResource] *)
Record GroupVersionResource := { gvr_Group : string; gvr_Version : string; gvr_Resource : string }.

(** [type dynamicResourceClient struct], with the REST client of its
    [dynamicClient] *)
Record dynamicResourceClient := {
  resource_client : RESTClient;
  resource_namespace : string;
  resource_resource : GroupVersionResource
}.

(** [func (c *dynamicClient) Resource(resource schema.GroupVersionResource) NamespaceableResourceInterface] *)
Definition dynamicClient_Resource (c : RESTClient) (resource : GroupVersionResource) : dynamicResourceClient :=
  {| resource_client := c; resource_namespace := ""; resource_resource := resource |}.

(** [func (c *dynamicResourceClient) Namespace(ns string) ResourceInterface] *)
Definition dynamicResourceClient_Namespace (c : dynamicResourceClient) (ns : string) : dynamicResourceClient :=
  {| resource_client := resource_client c; resource_namespace := ns; resource_resource := resource_resource c |}.

(** [func (c *dynamicResourceClient) makeURLSegments(name string) []string] *)
Definition makeURLSegments (c : dynamicResourceClient) (name : string) : list string :=
  let resource := resource_resource c in
  let url := if bool_decide (String.length (gvr_Group resource) = 0) then ["api"] else ["apis"; gvr_Group resource] in
  let url := url ++ [gvr_Version resource] in
  let url := if bool_decide (0 < String.length (resource_namespace c))
             then url ++ ["namespaces"; resource_namespace c] else url in
  let url := url ++ [gvr_Resource resource] in
  if bool_decide (0 < String.length name) then url ++ [name] else url.

(** [fmt.Errorf("name is required")], before a request *)
Definition no_name {A} : call A := (None, inl (errorString "name is required")).

(** [func (c *dynamicResourceClient) Create(ctx, obj, opts)] *)
Definition dynamic_Create (c : dynamicResourceClient) (obj : json) (opts : Options) : call json :=
  Into decode_Unstructured (Do (
    let? r := AbsPath (resource_client c) (makeURLSegments c "") (NewRequest (resource_client c) POST) in
    let? r := Body (inr (ObjectBody obj)) r in
    VersionedParams opts r)).

(** [func (c *dynamicResourceClient) Update(ctx, obj, opts)] *)
Definition dynamic_Update (c : dynamicResourceClient) (obj : json) (opts : Options) : call json :=
  let name := GetName obj in
  if bool_decide (String.length name = 0) then no_name
  else Into decode_Unstructured (Do (
    let? r := AbsPath (resource_client c) (makeURLSegments c name) (NewRequest (resource_client c) PUT) in
    let? r := Body (inr (ObjectBody obj)) r in
    VersionedParams opts r)).

(** [func (c *dynamicResourceClient) UpdateStatus(ctx, obj, opts)] *)
Definition dynamic_UpdateStatus (c : dynamicResourceClient) (obj : json) (opts : Options) : call json :=
  let name := GetName obj in
  if bool_decide (String.length name = 0) then no_name
  else Into decode_Unstructured (Do (
    let? r := AbsPath (resource_client c) (makeURLSegments c name ++ ["status"]) (NewRequest (resource_client c) PUT) in
    let? r := Body (inr (ObjectBody obj)) r in
    VersionedParams opts r)).

(** [func (c *dynamicResourceClient) Delete(ctx, name, opts)] *)
Definition dynamic_Delete (c : dynamicResourceClient) (name : string) (opts : Options) : call unit :=
  if bool_decide (String.length name = 0) then no_name
  else Result_Error (Do (
    let? r := AbsPath (resource_client c) (makeURLSegments c name) (NewRequest (resource_client c) DELETE) in
    Body (inr (DeleteOptionsBody "v1" opts)) r)).

(** [func (c *dynamicResourceClient) DeleteCollection(ctx, opts, listOptions)] *)
Definition dynamic_DeleteCollection (c : dynamicResourceClient) (opts : Options) (listOptions : ListOptions) : call unit :=
  Result_Error (Do (
    let? r := AbsPath (resource_client c) (makeURLSegments c "") (NewRequest (resource_client c) DELETE) in
    let? r := Body (inr (DeleteOptionsBody "v1" opts)) r in
    VersionedParams (encode_ListOptions listOptions) r)).

(** [func (c *dynamicResourceClient) Get(ctx, name, opts)] *)
Definition dynamic_Get (c : dynamicResourceClient) (name : string) (opts : Options) : call json :=
  if bool_decide (String.length name = 0) then no_name
  else Into decode_Unstructured (Do (
    let? r := AbsPath (resource_client c) (makeURLSegments c name) (NewRequest (resource_client c) GET) in
    VersionedParams opts r)).

(** [func (c *dynamicResourceClient) List(ctx, opts)] *)
Definition dynamic_List (c : dynamicResourceClient) (opts : ListOptions) : call json :=
  Into decode_UnstructuredList (Do (
    let? r := AbsPath (resource_client c) (makeURLSegments c "") (NewRequest (resource_client c) GET) in
    VersionedParams (encode_ListOptions opts) r)).

(** [func (c *dynamicResourceClient) Patch(ctx, name, pt, data, opts, subresources...)] *)
Definition dynamic_Patch (c : dynamicResourceClient) (name pt : string) (data : json) (opts : Options)
    (subresources : list string) : call json :=
  if bool_decide (String.length name = 0) then no_name
  else Into decode_Unstructured (Do (
    let? r := AbsPath (resource_client c) (makeURLSegments c name ++ subresources) (NewRequest (resource_client c) (PATCH pt)) in
    let? r := Body (inr (ObjectBody data)) r in
    VersionedParams opts r)).

(** ** The wrapped client (pkg/client/injection/client/client.go) *)

(** [type wrapClient struct], [type wrapCustomV1alpha1 struct] and
    [type wrapCustomV1alpha1TaskGroupImpl struct]; the dynamic client is given
    by its REST client *)
Record wrapClient := { wrapClient_dyn : RESTClient }.
Record wrapCustomV1alpha1 := { wrapCustomV1alpha1_dyn : RESTClient }.
Record wrapCustomV1alpha1TaskGroupImpl := { wrap_dyn : dynamicResourceClient; wrap_namespace : string }.

(** [func (w *wrapClient) CustomV1alpha1() typedcustomv1alpha1.CustomV1alpha1Interface] *)
Definition wrapClient_CustomV1alpha1 (w : wrapClient) : wrapCustomV1alpha1 :=
  {| wrapCustomV1alpha1_dyn := wrapClient_dyn w |}.

(** [func (w *wrapCustomV1alpha1) TaskGroups(namespace string) typedcustomv1alpha1.TaskGroupInterface] *)
Definition wrapCustomV1alpha1_TaskGroups (w : wrapCustomV1alpha1) (namespace : string) : wrapCustomV1alpha1TaskGroupImpl := {|
  wrap_dyn := dynamicClient_Resource (wrapCustomV1alpha1_dyn w)
    {| gvr_Group := "custom.tekton.dev"; gvr_Version := "v1alpha1"; gvr_Resource := "taskgroups" |};
  wrap_namespace := namespace |}.

(** [w.dyn.Namespace(w.namespace)] *)
Definition wrap_resource (w : wrapCustomV1alpha1TaskGroupImpl) : dynamicResourceClient :=
  dynamicResourceClient_Namespace (wrap_dyn w) (wrap_namespace w).

(** [func convert(from interface{}, to runtime.Object) error], with the
    marshaller of [from] and the unmarshaller of [to] *)
Definition convert {A B} (marshal : A → fallible json) (unmarshal : json → fallible B) (from : A) : fallible B :=
  match marshal from with
  | inl err => inl (wrapError "Marshal() = " err)
  | inr bs => match unmarshal bs with inl err => inl (wrapError "Unmarshal() = " err) | inr to => inr to end
  end.

(** The rest of a call: [out := &T{}; convert(uo, out)]; what was read from
    JSON can be written. *)
Definition then_convert {A} (decode : json → fallible A) (c : call json) : call A :=
  (c.1, let? uo := c.2 in convert inr decode uo).

(** The start of a call with an object: [in.SetGroupVersionKind], which the
    encoding has, and [convert(in, uo)] *)
Definition with_object (tg : TaskGroup) (k : json → call TaskGroup) : call TaskGroup :=
  match convert encode_TaskGroup decode_Unstructured tg with
  | inl err => (None, inl err)
  | inr uo => k uo
  end.

(** [func (w *wrapCustomV1alpha1TaskGroupImpl) Create(ctx, in, opts)] *)
Definition wrap_Create (w : wrapCustomV1alpha1TaskGroupImpl) (tg : TaskGroup) (opts : Options) : call TaskGroup :=
  with_object tg (λ uo, then_convert decode_TaskGroup (dynamic_Create (wrap_resource w) uo opts)).

Definition wrap_Delete (w : wrapCustomV1alpha1TaskGroupImpl) (name : string) (opts : Options) : call unit :=
  dynamic_Delete (wrap_resource w) name opts.

Definition wrap_DeleteCollection (w : wrapCustomV1alpha1TaskGroupImpl) (opts : Options) (listOpts : ListOptions) : call unit :=
  dynamic_DeleteCollection (wrap_resource w) opts listOpts.

Definition wrap_Get (w : wrapCustomV1alpha1TaskGroupImpl) (name : string) (opts : Options) : call TaskGroup :=
  then_convert decode_TaskGroup (dynamic_Get (wrap_resource w) name opts).

Definition wrap_List (w : wrapCustomV1alpha1TaskGroupImpl) (opts : ListOptions) : call (list TaskGroup) :=
  then_convert decode_TaskGroupList (dynamic_List (wrap_resource w) opts).

(** [func (w *wrapCustomV1alpha1TaskGroupImpl) Patch(ctx, name, pt, data, opts, subresources...)] *)
Definition wrap_Patch (w : wrapCustomV1alpha1TaskGroupImpl) (name pt : string) (data : json) (opts : Options)
    (subresources : list string) : call TaskGroup :=
  then_convert decode_TaskGroup (dynamic_Patch (wrap_resource w) name pt data opts []).

Definition wrap_Update (w : wrapCustomV1alpha1TaskGroupImpl) (tg : TaskGroup) (opts : Options) : call TaskGroup :=
  with_object tg (λ uo, then_convert decode_TaskGroup (dynamic_Update (wrap_resource w) uo opts)).

Definition wrap_UpdateStatus (w : wrapCustomV1alpha1TaskGroupImpl) (tg : TaskGroup) (opts : Options) : call TaskGroup :=
  with_object tg (λ uo, then_convert decode_TaskGroup (dynamic_UpdateStatus (wrap_resource w) uo opts)).

Definition wrap_Watch (w : wrapCustomV1alpha1TaskGroupImpl) (opts : ListOptions) : call json := (None, inl (errorString "NYI: Watch")).
End clients.

(** ** Agreement *)

(** A request up to the API version its options of a deletion are encoded
    with. *)
Definition any_version (r : HTTPRequest) : HTTPRequest := {|
  HTTPRequest_verb := HTTPRequest_verb r; HTTPRequest_path := HTTPRequest_path r;
  HTTPRequest_params := HTTPRequest_params r; HTTPRequest_timeout := HTTPRequest_timeout r;
  HTTPRequest_body := match HTTPRequest_body r with
                      | Some (DeleteOptionsBody _ opts) => Some (DeleteOptionsBody "" opts)
                      | body => body
                      end |}.

(** Two calls that send the same request and return the same value, or an
    error both. *)
Definition agrees {A} (c1 c2 : call A) : Prop :=
  any_version <$> c1.1 = any_version <$> c2.1 ∧
  match c1.2, c2.2 with
  | inr a1, inr a2 => a1 = a2
  | inl _, inl _ => True
  | _, _ => False
  end.

(** What the server and the codecs promise. *)
Class WireLaws (S : Server) (C : Codecs) := {
  (** The API version of the options of a deletion does not matter. *)
  send_any_version r : send (any_version r) = send r;
  (** What the server returns has its kind, so that the scheme of unstructured
      objects can decode it. *)
  server_object r j : send r = inr j → decode_Unstructured j = inr j;
  server_list r j : send r = inr j → decode_UnstructuredList j = inr j;
  (** An encoded TaskGroup has its kind and its name. *)
  encoded_object tg j : encode_TaskGroup tg = inr j → decode_Unstructured j = inr j;
  encoded_name tg j : encode_TaskGroup tg = inr j → GetName j = ObjectMeta_Name (TaskGroup_ObjectMeta tg)
}.

Lemma length_pos s : bool_decide (0 < String.length s) = negb (bool_decide (s = "")).
Proof. destruct s; repeat case_bool_decide; simpl in *; (done || lia). Qed.

Lemma length_zero s : bool_decide (String.length s = 0) = bool_decide (s = "").
Proof. destruct s; repeat case_bool_decide; simpl in *; (done || lia). Qed.

Section agreement.
Context {S : Server} {C : Codecs} {L : WireLaws S C}.

(** The REST clients of the typed client ([setConfigDefaults] and
    [rest.RESTClientFor]) and of the dynamic client ([dynamic.NewForConfig]) for
    one server and one timeout. *)
Context (base_Path : string) (client_Timeout : Z).

Definition typed_client : RESTClient := {|
  RESTClient_base_Path := base_Path; RESTClient_versionedAPIPath := "/apis/custom.tekton.dev/v1alpha1";
  RESTClient_Timeout := client_Timeout |}.

Definition dynamic_client : RESTClient := {|
  RESTClient_base_Path := base_Path; RESTClient_versionedAPIPath := "/if-you-see-this-search-for-the-break";
  RESTClient_Timeout := client_Timeout |}.

(** What the two offer for a namespace. *)
Definition typed_TaskGroups (ns : string) : taskGroups := {| taskGroups_client := typed_client; taskGroups_ns := ns |}.

Definition wrapped_TaskGroups (ns : string) : wrapCustomV1alpha1TaskGroupImpl :=
  wrapCustomV1alpha1_TaskGroups (wrapClient_CustomV1alpha1 {| wrapClient_dyn := dynamic_client |}) ns.

(** The path of the resource in a namespace. *)
Definition resource_path (ns : string) : list string :=
  path_Join [] [base_Path] ++ ["apis"; "custom.tekton.dev"; "v1alpha1"; "namespaces"; ns; "taskgroups"].

Context (ns : string) (good_ns : good_segment ns).

Lemma makeURLSegments_spec n :
  makeURLSegments (wrap_resource (wrapped_TaskGroups ns)) n =
  ["apis"; "custom.tekton.dev"; "v1alpha1"; "namespaces"; ns; "taskgroups"] ++ (if bool_decide (n = "") then [] else [n]).
Proof using good_ns.
  destruct good_ns as [Hns _]. unfold makeURLSegments. rewrite !length_pos, (bool_decide_false (ns = "")) by done.
  by destruct (bool_decide (n = "")).
Qed.

Lemma dynamic_path n subs : n = "" ∨ good_segment n → Forall good_segment subs →
  path_Join [] (base_Path :: makeURLSegments (wrap_resource (wrapped_TaskGroups ns)) n ++ subs) =
  resource_path ns ++ (if bool_decide (n = "") then [] else [n]) ++ subs.
Proof using good_ns.
  intros Hn Hs. change (base_Path :: ?l) with ([base_Path] ++ l). rewrite path_Join_app, path_Join_good.
  - rewrite makeURLSegments_spec. unfold resource_path. by rewrite <-!app_assoc.
  - rewrite makeURLSegments_spec. repeat apply Forall_app_2; [|case_bool_decide; [constructor|]|done].
    + repeat constructor; try done; try apply good_ns.
    + repeat constructor; destruct Hn as [|[]]; done.
Qed.

Lemma typed_prefix : path_Join [] [base_Path; "/apis/custom.tekton.dev/v1alpha1"] =
  path_Join [] [base_Path] ++ ["apis"; "custom.tekton.dev"; "v1alpha1"].
Proof.
  change [base_Path; "/apis/custom.tekton.dev/v1alpha1"] with ([base_Path] ++ ["/apis/custom.tekton.dev/v1alpha1"]).
  rewrite path_Join_app. generalize (path_Join [] [base_Path]). intros p. unfold path_Join.
  change (["/apis/custom.tekton.dev/v1alpha1"] ≫= λ s, Split s "/"%char) with [""; "apis"; "custom.tekton.dev"; "v1alpha1"].
  cbn. change (clean_step p "") with p. rewrite !good_segment_clean by done. by rewrite <-!app_assoc.
Qed.

(** The request after [Namespace] and [Resource]. *)
Definition typed_request (v : verb) : Request := {|
  Request_verb := v; Request_pathPrefix := path_Join [] [base_Path; "/apis/custom.tekton.dev/v1alpha1"];
  Request_namespaceSet := true; Request_namespace := ns; Request_resource := "taskgroups"; Request_resourceName := "";
  Request_subresource := []; Request_params := []; Request_timeout := client_Timeout; Request_body := None |}.

Lemma in_namespace_good v : in_namespace v (typed_TaskGroups ns) = inr (typed_request v).
Proof using good_ns.
  destruct good_ns as [Hns Hv]. unfold in_namespace, Namespace. cbn -[path_Join IsValidPathSegmentName]. by rewrite Hv.
Qed.

Lemma Name_good n v : good_segment n →
  Name n (typed_request v) = inr {|
    Request_verb := v; Request_pathPrefix := path_Join [] [base_Path; "/apis/custom.tekton.dev/v1alpha1"];
    Request_namespaceSet := true; Request_namespace := ns; Request_resource := "taskgroups"; Request_resourceName := n;
    Request_subresource := []; Request_params := []; Request_timeout := client_Timeout; Request_body := None |}.
Proof. intros [Hn Hv]. unfold Name. rewrite bool_decide_false by done. cbn -[path_Join IsValidPathSegmentName]. by rewrite Hv. Qed.

Lemma typed_path r : Request_pathPrefix r = path_Join [] [base_Path; "/apis/custom.tekton.dev/v1alpha1"] →
  Request_namespaceSet r = true → Request_namespace r = ns → Request_resource r = "taskgroups" →
  Request_resourceName r = "" ∧ Request_subresource r = [] ∨ good_segment (Request_resourceName r) →
  Forall good_segment (Request_subresource r) →
  URL_path r = resource_path ns ++ (if bool_decide (Request_resourceName r = "") then [] else [Request_resourceName r]) ++
    Request_subresource r.
Proof using good_ns.
  intros Hp Hs Hns Hr Hn Hsubs. destruct good_ns as [Hne _]. unfold URL_path. rewrite Hp, Hs, Hns, Hr, typed_prefix.
  rewrite (bool_decide_false (ns = "")), (bool_decide_false ("taskgroups" = "")) by done. cbn [negb andb]. change (ToLower "taskgroups") with "taskgroups".
  assert (path_Join (path_Join (path_Join [] [base_Path] ++ ["apis"; "custom.tekton.dev"; "v1alpha1"]) ["namespaces"; ns])
            ["taskgroups"] = resource_path ns) as ->.
  { rewrite <-path_Join_app, path_Join_good; [|by repeat constructor; try apply good_ns].
    unfold resource_path. by rewrite <-app_assoc. }
  destruct Hn as [[-> ->]|Hn]; [by rewrite app_nil_r|]. rewrite bool_decide_false by apply Hn.
  cbn [negb orb]. rewrite path_Join_good; [done|by constructor].
Qed.

Lemma Do_good r : Request_namespaceSet r = false ∨ Request_namespace r ≠ "" →
  Do (inr r) = (Some (newHTTPRequest r), send (newHTTPRequest r)).
Proof.
  intros Hr. unfold Do, requestPreflightCheck. destruct Hr as [->|Hr]; [done|]. rewrite (bool_decide_false _ Hr).
  by destruct (Request_namespaceSet r).
Qed.

(** The request of a dynamic client and that of the typed client to the same
    path. *)
Definition same_request (n : string) (subs : list string) (r1 r2 : Request) : Prop :=
  Request_pathPrefix r1 = path_Join [] (base_Path :: makeURLSegments (wrap_resource (wrapped_TaskGroups ns)) n ++ subs) ∧
  Request_namespaceSet r1 = false ∧ Request_resource r1 = "" ∧ Request_resourceName r1 = "" ∧ Request_subresource r1 = [] ∧
  Request_pathPrefix r2 = path_Join [] [base_Path; "/apis/custom.tekton.dev/v1alpha1"] ∧
  Request_namespaceSet r2 = true ∧ Request_namespace r2 = ns ∧ Request_resource r2 = "taskgroups" ∧
  Request_resourceName r2 = n ∧ Request_subresource r2 = subs ∧
  Request_verb r1 = Request_verb r2 ∧ Request_params r1 = Request_params r2 ∧ Request_timeout r1 = Request_timeout r2 ∧
  HTTPRequest_body (any_version (newHTTPRequest r1)) = HTTPRequest_body (any_version (newHTTPRequest r2)).

Lemma same_request_sent n subs r1 r2 :
  n = "" ∧ subs = [] ∨ good_segment n → Forall good_segment subs → same_request n subs r1 r2 →
  any_version (newHTTPRequest r1) = any_version (newHTTPRequest r2) ∧
  Do (inr r1) = (Some (newHTTPRequest r1), send (newHTTPRequest r1)) ∧
  Do (inr r2) = (Some (newHTTPRequest r2), send (newHTTPRequest r2)) ∧
  send (newHTTPRequest r1) = send (newHTTPRequest r2).
Proof using good_ns L.
  intros Hn Hsubs (Hp1 & Hs1 & Hr1 & Hn1 & Hsub1 & Hp2 & Hs2 & Hns2 & Hr2 & Hn2 & Hsub2 & Hv & Hps & Ht & Hb).
  assert (any_version (newHTTPRequest r1) = any_version (newHTTPRequest r2)) as Heq.
  { assert (URL_path r1 = URL_path r2) as Hu.
    { rewrite (typed_path r2) by (rewrite ?Hn2, ?Hsub2; done). rewrite Hn2, Hsub2, <-dynamic_path, <-Hp1 by naive_solver.
      unfold URL_path. rewrite Hs1, Hr1, Hn1, Hsub1. done. }
    unfold any_version in *. cbn -[URL_path] in *. rewrite Hv, Hps, Ht, Hu. by f_equal. }
  split_and!; [done|apply Do_good; by left|apply Do_good; right; rewrite Hns2; apply good_ns|].
  rewrite <-(send_any_version (newHTTPRequest r1)), Heq. apply send_any_version.
Qed.

(** A call that returns an object, and one that does not. *)
Lemma agrees_object {A} n subs (decode : json → fallible A) dec_u r1 r2 :
  (∀ r j, send r = inr j → dec_u j = inr j) →
  n = "" ∧ subs = [] ∨ good_segment n → Forall good_segment subs → same_request n subs r1 r2 →
  agrees (then_convert decode (Into dec_u (Do (inr r1)))) (Into decode (Do (inr r2))).
Proof using good_ns L.
  intros Hu Hn Hsubs Hs. destruct (same_request_sent _ _ _ _ Hn Hsubs Hs) as (Hv & -> & -> & Hsend).
  unfold agrees, then_convert, Into. cbn -[newHTTPRequest any_version]. split; [by rewrite Hv|]. rewrite <-Hsend.
  destruct (send (newHTTPRequest r1)) as [err|j] eqn:Hj; cbn; [done|]. rewrite (Hu _ _ Hj). cbn. unfold convert.
  by destruct (decode j).
Qed.

Lemma agrees_error n subs r1 r2 :
  n = "" ∧ subs = [] ∨ good_segment n → Forall good_segment subs → same_request n subs r1 r2 →
  agrees (Result_Error (Do (inr r1))) (Result_Error (Do (inr r2))).
Proof using good_ns L.
  intros Hn Hsubs Hs. destruct (same_request_sent _ _ _ _ Hn Hsubs Hs) as (Hv & -> & -> & Hsend).
  unfold agrees, Result_Error. cbn -[newHTTPRequest any_version]. split; [by rewrite Hv|]. rewrite <-Hsend.
  by destruct (send (newHTTPRequest r1)).
Qed.

(** The start of [Create] and [Update]. *)
Lemma with_object_spec tg k :
  (∃ err err', encode_TaskGroup tg = inl err ∧ with_object tg k = (None, inl err')) ∨
  ∃ j, encode_TaskGroup tg = inr j ∧ with_object tg k = k j ∧ GetName j = ObjectMeta_Name (TaskGroup_ObjectMeta tg).
Proof using L.
  unfold with_object, convert. destruct (encode_TaskGroup tg) as [err|j] eqn:Hj; [eauto|]. right. exists j.
  rewrite (encoded_object _ _ Hj). split_and!; [done|done|]. by apply encoded_name.
Qed.

(** The request of a call of the typed client, and the comparison of the two. *)
Ltac typed_call :=
  rewrite in_namespace_good; cbn -[Name Do path_Join Into Result_Error Body];
  rewrite ?Name_good by done; cbn -[Name Do path_Join Into Result_Error Body].
Ltac same_call n subs :=
  first [eapply (agrees_object n subs); [apply server_object| | |]|
         eapply (agrees_object n subs); [apply server_list| | |]|
         eapply (agrees_error n subs)];
  [tauto|done|unfold same_request; rewrite ?app_nil_r; done].

(** C19: The wrapped dynamic client does what the typed client does, apart from
    watching: in a valid namespace, on a valid name, Get, Create, Update,
    Delete, List, DeleteCollection and Patch of the TaskGroup send the same
    request and return the same TaskGroups, or fail both, where the timeout of
    the list options is the client's own; and a patch of subresources is sent
    as a patch of the TaskGroup itself. Watch always fails, without a request,
    where the typed client sends one. *)
Theorem wrapClient_agrees name tg opts list_opts pt data subs :
  good_segment name → ObjectMeta_Name (TaskGroup_ObjectMeta tg) = name → list_timeout list_opts = client_Timeout →
  let w := wrapped_TaskGroups ns in let c := typed_TaskGroups ns in
  agrees (wrap_Get w name opts) (taskGroups_Get c name opts) ∧
  agrees (wrap_Create w tg opts) (taskGroups_Create c tg opts) ∧
  agrees (wrap_Update w tg opts) (taskGroups_Update c tg opts) ∧
  agrees (wrap_Delete w name opts) (taskGroups_Delete c name opts) ∧
  agrees (wrap_List w list_opts) (taskGroups_List c list_opts) ∧
  agrees (wrap_DeleteCollection w opts list_opts) (taskGroups_DeleteCollection c opts list_opts) ∧
  agrees (wrap_Patch w name pt data opts subs) (taskGroups_Patch c name pt data opts []) ∧
  wrap_Watch w list_opts = (None, inl (errorString "NYI: Watch")) ∧ is_Some (taskGroups_Watch c list_opts).1.
Proof using good_ns L.
  intros Hname Htg Hto. assert (bool_decide (String.length name = 0) = false) as Hlen.
  { rewrite length_zero. apply bool_decide_false, Hname. }
  split_and!.
  - unfold wrap_Get, dynamic_Get, taskGroups_Get. rewrite Hlen. typed_call. same_call name (@nil string).
  - unfold wrap_Create, taskGroups_Create, TaskGroup_body. typed_call.
    destruct (with_object_spec tg (λ uo, then_convert decode_TaskGroup (dynamic_Create (wrap_resource (wrapped_TaskGroups ns)) uo opts)))
      as [(err & err' & -> & ->)|(j & -> & -> & _)]; [done|]. same_call "" (@nil string).
  - unfold wrap_Update, taskGroups_Update, TaskGroup_body. rewrite Htg. typed_call.
    destruct (with_object_spec tg (λ uo, then_convert decode_TaskGroup (dynamic_Update (wrap_resource (wrapped_TaskGroups ns)) uo opts)))
      as [(err & err' & -> & ->)|(j & -> & -> & Hj)]; [done|].
    unfold dynamic_Update. rewrite Hj, Htg, Hlen. same_call name (@nil string).
  - unfold wrap_Delete, dynamic_Delete, taskGroups_Delete. rewrite Hlen. typed_call. same_call name (@nil string).
  - unfold wrap_List, taskGroups_List. rewrite Hto. typed_call. same_call "" (@nil string).
  - unfold wrap_DeleteCollection, taskGroups_DeleteCollection. rewrite Hto. typed_call. same_call "" (@nil string).
  - unfold wrap_Patch, dynamic_Patch, taskGroups_Patch. rewrite Hlen. typed_call. same_call name (@nil string).
  - done.
  - unfold taskGroups_Watch. typed_call. by eexists.
Qed.
End agreement.

(** ** Examples *)
Definition sample_group : TaskGroup := {|
  TaskGroup_ObjectMeta := {| ObjectMeta_Name := "group"; ObjectMeta_Namespace := "ns"; ObjectMeta_UID := "";
    ObjectMeta_ResourceVersion := ""; ObjectMeta_Generation := 0;
    ObjectMeta_CreationTimestamp := zero_time; ObjectMeta_DeletionTimestamp := None; ObjectMeta_Labels := None; ObjectMeta_Annotations := None;
    ObjectMeta_OwnerReferences := []; ObjectMeta_Other := JObj [] |};
  TaskGroup_Spec := V1alpha1.zero_TaskGroupSpec |}.

(** A server that has one TaskGroup, and fails to delete it; an encoded
    TaskGroup is its name. *)
Definition sample_server : Server := {|
  send r := match HTTPRequest_verb r with
            | DELETE => inl (errorString "forbidden")
            | _ => inr (JStr "group")
            end;
  send_watch _ := inl (errorString "closed") |}.

Definition sample_codecs : Codecs := {|
  encode_TaskGroup tg := inr (JStr (ObjectMeta_Name (TaskGroup_ObjectMeta tg)));
  decode_TaskGroup _ := inr sample_group; decode_TaskGroupList _ := inr [sample_group];
  encode_ListOptions opts := JStr (ListOptions_LabelSelector opts);
  decode_Unstructured := inr; decode_UnstructuredList := inr;
  GetName j := match j with JStr s => s | _ => "" end |}.

Lemma sample_wire : WireLaws sample_server sample_codecs.
Proof. split; cbn; [by intros []|done|done|done|naive_solver]. Qed.

(** The names of the wrapped client are not checked: a name with [..] reads
    from another namespace, where the typed client sends nothing. *)
Example wrapped_names_unchecked :
  HTTPRequest_path <$> (wrap_Get (H := sample_server) (H0 := sample_codecs) (wrapped_TaskGroups "/" 0 "a") "../../b/taskgroups/x" JNull).1 =
    Some ["apis"; "custom.tekton.dev"; "v1alpha1"; "namespaces"; "b"; "taskgroups"; "x"] ∧
  (taskGroups_Get (H := sample_server) (H0 := sample_codecs) (typed_TaskGroups "/" 0 "a") "../../b/taskgroups/x" JNull).1 = None.
Proof. split; reflexivity. Qed.

(** The status of a TaskGroup is updated by a PUT of its subresource. *)
Example wrapped_status_path :
  HTTPRequest_path <$> (wrap_UpdateStatus (H := sample_server) (H0 := sample_codecs) (wrapped_TaskGroups "/" 0 "ns") sample_group JNull).1 =
    Some ["apis"; "custom.tekton.dev"; "v1alpha1"; "namespaces"; "ns"; "taskgroups"; "group"; "status"].
Proof. reflexivity. Qed.

Lemma wrapClient_agrees_witness :
  let opts := {| ListOptions_LabelSelector := "a=b"; ListOptions_Watch := false;
                 ListOptions_TimeoutSeconds := Some 5%Z; ListOptions_Other := JNull |} in
  let w := wrapped_TaskGroups "/" 5000000000 "ns" in let c := typed_TaskGroups "/" 5000000000 "ns" in
  agrees (wrap_Get (H := sample_server) (H0 := sample_codecs) w "group" JNull)
    (taskGroups_Get (H := sample_server) (H0 := sample_codecs) c "group" JNull) ∧
  agrees (wrap_List (H := sample_server) (H0 := sample_codecs) w opts)
    (taskGroups_List (H := sample_server) (H0 := sample_codecs) c opts).
Proof.
  intros opts w c. pose proof sample_wire as L.
  assert (good_segment "ns") as Hns by by vm_compute.
  pose proof (wrapClient_agrees (S := sample_server) (C := sample_codecs) "/" 5000000000 "ns" Hns "group" sample_group JNull opts
    "application/json" JNull []) as Hw.
  destruct Hw as (Hg & _ & _ & _ & Hl & _); [by vm_compute|reflexivity|reflexivity|]. by split.
Defined.
