(* ===== verification/FakeClient.v ===== *)
(** The fake clientset of TaskGroups for tests
    (pkg/client/clientset/versioned/fake/clientset_generated.go and
    typed/taskgroup/v1alpha1/fake/), with what it runs of client-go's testing
    package (fake.go, fixture.go, actions.go): calls become actions, actions go
    through a chain of reactors, and the standard reactor keeps the objects in
    a tracker that notifies watchers.

    The TaskGroups of a call and those in the tracker are copies of each other
    in the code, so that they are values here. Field selectors are only parsed
    by the fake. Reactors keep no state of their own but the tracker. That a
    watcher with 100 events that are not consumed panics is left out. *)
From S2P Require Import Prelude GoStrings Types Conditions RunTypes Listers InformerFactory Rest Wiring.
From Stdlib Require Import Ascii.

(** ** Results, objects and actions *)

(** [runtime.Object], of the types of the clientset *)
Inductive runtime_Object : Type :=
  | TaskGroupObject (tg : TaskGroup)
  | TaskGroupListObject (items : list TaskGroup).

(** [labels.Selector] *)
Definition Selector : Type := gomap → bool.

(** The parsers of selectors, and the patches. *)
Class Library := {
  (** [labels.Parse(opts.LabelSelector)] and [fields.ParseSelector(opts.FieldSelector)] *)
  labels_Parse : string → fallible Selector;
  fields_ParseSelector : ListOptions → option error;
  marshal_TaskGroup : TaskGroup → fallible json;
  unmarshal_TaskGroup : json → fallible TaskGroup;
  (** [jsonpatch.DecodePatch(patch)] and [Apply(old)], [jsonpatch.MergePatch(old, patch)],
      [strategicpatch.StrategicMergePatch(old, patch, obj)] *)
  JSONPatch : json → json → fallible json;
  MergePatch : json → json → fallible json;
  StrategicMergePatch : json → json → fallible json
}.

Definition taskgroupsResource : string * string * string := ("custom.tekton.dev", "v1alpha1", "taskgroups").
Definition taskgroupsKind : string * string * string := ("custom.tekton.dev", "v1alpha1", "TaskGroup").

(** The actions on TaskGroups, each with its namespace. *)
Inductive Action : Type :=
  | GetActionImpl (ns name : string)
  | ListActionImpl (ns : string) (labelSelector : Selector)
  | CreateActionImpl (ns : string) (obj : TaskGroup)
  | UpdateActionImpl (ns : string) (obj : TaskGroup)
  | DeleteActionImpl (ns name : string)
  | DeleteCollectionActionImpl (ns : string) (labelSelector : Selector)
  | PatchActionImpl (ns name subresource patchType : string) (patch : json)
  | WatchActionImpl (ns : string) (labelSelector : Selector).

Definition GetVerb (a : Action) : string :=
  match a with
  | GetActionImpl _ _ => "get" | ListActionImpl _ _ => "list" | CreateActionImpl _ _ => "create"
  | UpdateActionImpl _ _ => "update" | DeleteActionImpl _ _ => "delete"
  | DeleteCollectionActionImpl _ _ => "delete-collection" | PatchActionImpl _ _ _ _ _ => "patch"
  | WatchActionImpl _ _ => "watch"
  end.

Definition GetNamespace (a : Action) : string :=
  match a with
  | GetActionImpl ns _ | ListActionImpl ns _ | CreateActionImpl ns _ | UpdateActionImpl ns _ | DeleteActionImpl ns _
  | DeleteCollectionActionImpl ns _ | PatchActionImpl ns _ _ _ _ | WatchActionImpl ns _ => ns
  end.

Definition GetSubresource (a : Action) : string :=
  match a with PatchActionImpl _ _ subresource _ _ => subresource | _ => "" end.

(** [action.GetResource().Resource] *)
Definition GetResource (a : Action) : string := taskgroupsResource.2.

(** ** The tracker (fixture.go) *)
Inductive watch_Event : Type :=
  | Added (tg : TaskGroup)
  | Modified (tg : TaskGroup)
  | Deleted (tg : TaskGroup).

(** Objects by resource, namespace and name; watchers by namespace, each with
    its number; and the events that were sent to watchers. *)
Record tracker := {
  objects : gmap string (gmap (string * string) TaskGroup);
  watchers : gmap string (list nat);
  watchers_made : nat;
  events : list (nat * watch_Event)
}.

(** [func NewObjectTracker(scheme ObjectScheme, decoder runtime.Decoder) ObjectTracker] *)
Definition NewObjectTracker : tracker := {| objects := ∅; watchers := ∅; watchers_made := 0; events := [] |}.

(** [t.objects[gvr]] *)
Definition table (gvr : string) (t : tracker) : gmap (string * string) TaskGroup := default ∅ (objects t !! gvr).

Definition set_table (gvr : string) (objs : gmap (string * string) TaskGroup) (sent : list (nat * watch_Event)) (t : tracker) :
    tracker :=
  {| objects := <[gvr := objs]> (objects t); watchers := watchers t; watchers_made := watchers_made t;
     events := events t ++ sent |}.

(** [func (t *tracker) getWatches(gvr, ns) []*watch.RaceFreeFakeWatcher] *)
Definition getWatches (ns : string) (t : tracker) : list nat :=
  default [] (watchers t !! ns) ++ (if bool_decide (ns ≠ "") then default [] (watchers t !! "") else []).

(** [newMeta.SetNamespace(ns)] *)
Definition SetNamespace (ns : string) (tg : TaskGroup) : TaskGroup :=
  let m := TaskGroup_ObjectMeta tg in {|
  TaskGroup_ObjectMeta := {|
    ObjectMeta_Name := ObjectMeta_Name m; ObjectMeta_Namespace := ns; ObjectMeta_UID := ObjectMeta_UID m;
    ObjectMeta_ResourceVersion := ObjectMeta_ResourceVersion m; ObjectMeta_Generation := ObjectMeta_Generation m;
    ObjectMeta_CreationTimestamp := ObjectMeta_CreationTimestamp m;
    ObjectMeta_DeletionTimestamp := ObjectMeta_DeletionTimestamp m; ObjectMeta_Labels := ObjectMeta_Labels m;
    ObjectMeta_Annotations := ObjectMeta_Annotations m; ObjectMeta_OwnerReferences := ObjectMeta_OwnerReferences m;
    ObjectMeta_Other := ObjectMeta_Other m |};
  TaskGroup_Spec := TaskGroup_Spec tg |}.

Definition name_of (tg : TaskGroup) : string := ObjectMeta_Name (TaskGroup_ObjectMeta tg).
Definition namespace_of (tg : TaskGroup) : string := ObjectMeta_Namespace (TaskGroup_ObjectMeta tg).

(** Errors of apimachinery *)
Definition errNotFound (gvr name : string) : error := NewNotFound (gvr +:+ ".custom.tekton.dev") name.
Definition NewAlreadyExists (gvr name : string) : error :=
  errorString (gvr +:+ ".custom.tekton.dev " +:+ Quote name +:+ " already exists").

(** [func (t *tracker) add(gvr, obj, ns string, replaceExisting bool) error] *)
Definition tracker_add (gvr : string) (obj : TaskGroup) (ns : string) (replaceExisting : bool) (t : tracker) :
    option error * tracker :=
  let obj := if bool_decide (String.length (namespace_of obj) = 0) then SetNamespace ns obj else obj in
  if bool_decide (ns ≠ namespace_of obj)
  then (Some (errorString ("request namespace does not match object namespace, request: " +:+ Quote ns +:+
                           " object: " +:+ Quote (namespace_of obj))), t)
  else
    let namespacedName := (namespace_of obj, name_of obj) in
    match table gvr t !! namespacedName with
    | Some _ =>
      if replaceExisting
      then (None, set_table gvr (<[namespacedName := obj]> (table gvr t)) (map (λ w, (w, Modified obj)) (getWatches ns t)) t)
      else (Some (NewAlreadyExists gvr (name_of obj)), t)
    | None =>
      if replaceExisting
      then (Some (errNotFound gvr (name_of obj)), t)
      else (None, set_table gvr (<[namespacedName := obj]> (table gvr t)) (map (λ w, (w, Added obj)) (getWatches ns t)) t)
    end.

(** [func (t *tracker) Create(gvr, obj, ns) error] and [Update] *)
Definition tracker_Create (gvr : string) (obj : TaskGroup) (ns : string) (t : tracker) : option error * tracker :=
  tracker_add gvr obj ns false t.
Definition tracker_Update (gvr : string) (obj : TaskGroup) (ns : string) (t : tracker) : option error * tracker :=
  tracker_add gvr obj ns true t.

(** [func (t *tracker) Get(gvr, ns, name string) (runtime.Object, error)] *)
Definition tracker_Get (gvr ns name : string) (t : tracker) : fallible TaskGroup :=
  match table gvr t !! (ns, name) with
  | None => inl (errNotFound gvr name)
  | Some obj => inr obj
  end.

(** [func (t *tracker) Delete(gvr, ns, name string) error] *)
Definition tracker_Delete (gvr ns name : string) (t : tracker) : option error * tracker :=
  match table gvr t !! (ns, name) with
  | None => (Some (errNotFound gvr name), t)
  | Some obj =>
    (None, set_table gvr (delete (ns, name) (table gvr t)) (map (λ w, (w, Deleted obj)) (getWatches ns t)) t)
  end.

(** The order of [filterByNamespace]. *)
Definition object_le (o1 o2 : TaskGroup) : Prop :=
  if bool_decide (namespace_of o1 ≠ namespace_of o2) then String.le (namespace_of o1) (namespace_of o2)
  else String.le (name_of o1) (name_of o2).

#[export] Instance object_le_dec : RelDecision object_le.
Proof. intros o1 o2. unfold object_le. case_bool_decide; apply _. Defined.

(** [func filterByNamespace(objs, ns string) ([]runtime.Object, error)]: the keys
    of the objects are distinct, so that the order of the range over the map is
    lost in the sort. *)
Definition filterByNamespace (objs : gmap (string * string) TaskGroup) (ns : string) : list TaskGroup :=
  merge_sort object_le (filter (λ obj, ns = "" ∨ namespace_of obj = ns) (snd <$> map_to_list objs)).

(** [func (t *tracker) List(gvr, gvk, ns string) (runtime.Object, error)]: the
    scheme has the kind of the list. *)
Definition tracker_List (gvr ns : string) (t : tracker) : runtime_Object :=
  TaskGroupListObject (filterByNamespace (table gvr t) ns).

(** [func (t *tracker) Watch(gvr, ns string) (watch.Interface, error)]: the number
    of the new watcher *)
Definition tracker_Watch (ns : string) (t : tracker) : nat * tracker :=
  (watchers_made t, {|
    objects := objects t;
    watchers := <[ns := default [] (watchers t !! ns) ++ [watchers_made t]]> (watchers t);
    watchers_made := S (watchers_made t); events := events t |}).

(** [meta.UnsafeGuessKindToResource(gvk)]: the plural *)
Definition UnsafeGuessKindToResource (kind : string) : string :=
  if bool_decide (String.length kind = 0) then ""
  else
    let singularName := ToLower kind in
    if HasSuffix singularName "endpoints" then singularName
    else if HasSuffix singularName "s" then singularName +:+ "es"
    else if HasSuffix singularName "y" then TrimSuffix singularName "y" +:+ "ies"
    else singularName +:+ "s".

(** [func (t *tracker) Add(obj runtime.Object) error] of a TaskGroup, whose kind
    is known to the scheme, and of a list *)
Definition tracker_Add_object (obj : TaskGroup) (t : tracker) : option error * tracker :=
  tracker_add (UnsafeGuessKindToResource taskgroupsKind.2) obj (namespace_of obj) false t.

Fixpoint addList (list : list TaskGroup) (t : tracker) : option error * tracker :=
  match list with
  | [] => (None, t)
  | obj :: list =>
    match tracker_Add_object obj t with
    | (Some err, t) => (Some err, t)
    | (None, t) => addList list t
    end
  end.

Definition tracker_Add (obj : runtime_Object) (t : tracker) : option error * tracker :=
  match obj with
  | TaskGroupListObject items => addList items t
  | TaskGroupObject tg => tracker_Add_object tg t
  end.

(** ** Reactors *)

(** [type ReactionFunc func(action Action) (handled bool, ret runtime.Object, err error)] *)
Definition ReactionFunc : Type := Action → tracker → (bool * option runtime_Object * option error) * tracker.

(** [type SimpleReactor struct] *)
Record SimpleReactor := { Verb : string; Resource : string; Reaction : ReactionFunc }.

(** [func resourceCovers(resource string, action Action) bool] *)
Definition resourceCovers (resource : string) (action : Action) : bool :=
  bool_decide (resource = "*") || bool_decide (resource = GetResource action) ||
  match Split resource "/"%char with
  | prefix :: (_ :: _) as rest =>
    bool_decide (prefix = GetResource action) && bool_decide (Join (tail rest) "/" = GetSubresource action)
  | _ => false
  end.

(** [func (r *SimpleReactor) Handles(action Action) bool] *)
Definition Handles (r : SimpleReactor) (action : Action) : bool :=
  (bool_decide (Verb r = "*") || bool_decide (Verb r = GetVerb action)) && resourceCovers (Resource r) action.

(** [type Fake struct], with the tracker of the reactors; the chain for watches
    holds reactors of every action that return a watcher. *)
Record Fake := {
  actions : list Action;
  ReactionChain : list SimpleReactor;
  fake_tracker : tracker
}.

Definition with_tracker (t : tracker) (c : Fake) : Fake :=
  {| actions := actions c; ReactionChain := ReactionChain c; fake_tracker := t |}.

(** The loop of [Invokes] over the reactors. *)
Fixpoint react (chain : list SimpleReactor) (action : Action) (defaultReturnObj : runtime_Object) (t : tracker) :
    (option runtime_Object * option error) * tracker :=
  match chain with
  | [] => ((Some defaultReturnObj, None), t)
  | reactor :: chain =>
    if negb (Handles reactor action) then react chain action defaultReturnObj t
    else
      let '((handled, ret, err), t) := Reaction reactor action t in
      if negb handled then react chain action defaultReturnObj t else ((ret, err), t)
  end.

(** [func (c *Fake) Invokes(action Action, defaultReturnObj runtime.Object) (runtime.Object, error)] *)
Definition Invokes (action : Action) (defaultReturnObj : runtime_Object) (c : Fake) :
    (option runtime_Object * option error) * Fake :=
  let '(r, t) := react (ReactionChain c) action defaultReturnObj (fake_tracker c) in
  (r, {| actions := actions c ++ [action]; ReactionChain := ReactionChain c; fake_tracker := t |}).

(** [func (c *Fake) AddReactor(verb, resource string, reaction ReactionFunc)] and [PrependReactor] *)
Definition AddReactor (verb resource : string) (reaction : ReactionFunc) (c : Fake) : Fake :=
  {| actions := actions c;
     ReactionChain := ReactionChain c ++ [{| Verb := verb; Resource := resource; Reaction := reaction |}];
     fake_tracker := fake_tracker c |}.
Definition PrependReactor (verb resource : string) (reaction : ReactionFunc) (c : Fake) : Fake :=
  {| actions := actions c;
     ReactionChain := [{| Verb := verb; Resource := resource; Reaction := reaction |}] ++ ReactionChain c;
     fake_tracker := fake_tracker c |}.

Section fake.
Context {L : Library}.

(** The patch of an object that [ObjectReaction] got, by the type of the patch. *)
Definition apply_patch (patchType : string) (patch : json) (obj : TaskGroup) : fallible TaskGroup :=
  let? old := marshal_TaskGroup obj in
  let? modified :=
    if bool_decide (patchType = "application/json-patch+json") then JSONPatch old patch
    else if bool_decide (patchType = "application/merge-patch+json") then MergePatch old patch
    else if bool_decide (patchType = "application/strategic-merge-patch+json") then StrategicMergePatch old patch
    else inl (errorString "PatchType is not supported") in
  unmarshal_TaskGroup modified.

(** [func ObjectReaction(tracker ObjectTracker) ReactionFunc] *)
Definition ObjectReaction : ReactionFunc := λ action t,
  let ns := GetNamespace action in
  let gvr := GetResource action in
  let found (name : string) (t : tracker) : (bool * option runtime_Object * option error) * tracker :=
    match tracker_Get gvr ns name t with
    | inl err => ((true, None, Some err), t)
    | inr obj => ((true, Some (TaskGroupObject obj), None), t)
    end in
  match action with
  | ListActionImpl _ _ => ((true, Some (tracker_List gvr ns t), None), t)
  | GetActionImpl _ name => found name t
  | CreateActionImpl _ obj =>
    match tracker_Create gvr obj ns t with
    | (Some err, t) => ((true, None, Some err), t)
    | (None, t) => found (name_of obj) t
    end
  | UpdateActionImpl _ obj =>
    match tracker_Update gvr obj ns t with
    | (Some err, t) => ((true, None, Some err), t)
    | (None, t) => found (name_of obj) t
    end
  | DeleteActionImpl _ name =>
    let '(err, t) := tracker_Delete gvr ns name t in ((true, None, err), t)
  | PatchActionImpl _ name _ patchType patch =>
    match tracker_Get gvr ns name t with
    | inl err => ((true, None, Some err), t)
    | inr obj =>
      match apply_patch patchType patch obj with
      | inl err => ((true, None, Some err), t)
      | inr obj =>
        match tracker_Update gvr obj ns t with
        | (Some err, t) => ((true, None, Some err), t)
        | (None, t) => ((true, Some (TaskGroupObject obj), None), t)
        end
      end
    end
  | _ => ((false, None, Some (errorString ("no reaction implemented for " +:+ GetVerb action))), t)
  end.

(** ** The fake client of TaskGroups (fake_taskgroup.go) *)

(** [testing.ExtractFromListOptions(opts)]: the selector of labels, or a panic *)
Definition ExtractFromListOptions (opts : ListOptions) : outcome Selector :=
  match labels_Parse (ListOptions_LabelSelector opts) with
  | inl _ => Panics
  | inr labelSelector =>
    match fields_ParseSelector opts with
    | Some _ => Panics
    | None => Returns labelSelector
    end
  end.

(** [if obj == nil { return nil, err }; return obj.( *v1alpha1.TaskGroup), err] *)
Definition as_TaskGroup (r : option runtime_Object * option error) : outcome (option TaskGroup * option error) :=
  match r with
  | (None, err) => Returns (None, err)
  | (Some (TaskGroupObject tg), err) => Returns (Some tg, err)
  | (Some (TaskGroupListObject _), _) => Panics
  end.

(** A [TaskGroup] without contents *)
Definition zero_TaskGroup : TaskGroup :=
  {| TaskGroup_ObjectMeta := zero_ObjectMeta; TaskGroup_Spec := V1alpha1.zero_TaskGroupSpec |}.

(** [func (c *FakeTaskGroups) Get(ctx, name, options)] *)
Definition FakeTaskGroups_Get (ns name : string) (c : Fake) : outcome (option TaskGroup * option error) * Fake :=
  let '(r, c) := Invokes (GetActionImpl ns name) (TaskGroupObject zero_TaskGroup) c in (as_TaskGroup r, c).

(** [func (c *FakeTaskGroups) List(ctx, opts)]: the items of the list *)
Definition FakeTaskGroups_List (ns : string) (opts : ListOptions) (c : Fake) :
    outcome (option (list TaskGroup) * option error) * Fake :=
  match ExtractFromListOptions opts with
  | Panics => (Panics, c)
  | Returns label =>
    let '((obj, err), c) := Invokes (ListActionImpl ns label) (TaskGroupListObject []) c in
    match obj with
    | None => (Returns (None, err), c)
    | Some (TaskGroupListObject items) =>
      (Returns (Some (filter (λ item, label (ObjectMeta_Labels (TaskGroup_ObjectMeta item)) = true) items), err), c)
    | Some (TaskGroupObject _) => (Panics, c)
    end
  end.

(** [func (c *FakeTaskGroups) Create(ctx, taskGroup, opts)] *)
Definition FakeTaskGroups_Create (ns : string) (taskGroup : TaskGroup) (c : Fake) :
    outcome (option TaskGroup * option error) * Fake :=
  let '(r, c) := Invokes (CreateActionImpl ns taskGroup) (TaskGroupObject zero_TaskGroup) c in (as_TaskGroup r, c).

(** [func (c *FakeTaskGroups) Update(ctx, taskGroup, opts)] *)
Definition FakeTaskGroups_Update (ns : string) (taskGroup : TaskGroup) (c : Fake) :
    outcome (option TaskGroup * option error) * Fake :=
  let '(r, c) := Invokes (UpdateActionImpl ns taskGroup) (TaskGroupObject zero_TaskGroup) c in (as_TaskGroup r, c).

(** [func (c *FakeTaskGroups) Delete(ctx, name, opts)] *)
Definition FakeTaskGroups_Delete (ns name : string) (c : Fake) : outcome (option error) * Fake :=
  let '((_, err), c) := Invokes (DeleteActionImpl ns name) (TaskGroupObject zero_TaskGroup) c in (Returns err, c).

(** [func (c *FakeTaskGroups) DeleteCollection(ctx, opts, listOpts)] *)
Definition FakeTaskGroups_DeleteCollection (ns : string) (listOpts : ListOptions) (c : Fake) : outcome (option error) * Fake :=
  match ExtractFromListOptions listOpts with
  | Panics => (Panics, c)
  | Returns label =>
    let '((_, err), c) := Invokes (DeleteCollectionActionImpl ns label) (TaskGroupListObject []) c in (Returns err, c)
  end.

(** [func (c *FakeTaskGroups) Patch(ctx, name, pt, data, opts, subresources...)]:
    the names of subresources hold neither slashes nor dots, so that [path.Join]
    leaves out only empty ones *)
Definition FakeTaskGroups_Patch (ns name pt : string) (data : json) (subresources : list string) (c : Fake) :
    outcome (option TaskGroup * option error) * Fake :=
  let subresource := Join (filter (λ s, s ≠ "") subresources) "/" in
  let '(r, c) := Invokes (PatchActionImpl ns name subresource pt data) (TaskGroupObject zero_TaskGroup) c in (as_TaskGroup r, c).

(** [func (c *FakeTaskGroups) Watch(ctx, opts)], with the watch reactor of
    [NewSimpleClientset]: the number of the watcher *)
Definition FakeTaskGroups_Watch (ns : string) (opts : ListOptions) (c : Fake) : outcome (fallible nat) * Fake :=
  match ExtractFromListOptions opts with
  | Panics => (Panics, c)
  | Returns label =>
    let '(w, t) := tracker_Watch ns (fake_tracker c) in
    (Returns (inr w),
     {| actions := actions c ++ [WatchActionImpl ns label]; ReactionChain := ReactionChain c; fake_tracker := t |})
  end.

(** ** The clientset (clientset_generated.go) *)

(** The loop of [NewSimpleClientset] over the objects. *)
Fixpoint add_objects (objs : list runtime_Object) (t : tracker) : outcome tracker :=
  match objs with
  | [] => Returns t
  | obj :: objs =>
    match tracker_Add obj t with
    | (Some _, _) => Panics
    | (None, t) => add_objects objs t
    end
  end.

(** [func NewSimpleClientset(objects ...runtime.Object) *Clientset] *)
Definition NewSimpleClientset (objs : list runtime_Object) : outcome Fake :=
  match add_objects objs NewObjectTracker with
  | Panics => Panics
  | Returns o => Returns (AddReactor "*" "*" ObjectReaction {| actions := []; ReactionChain := []; fake_tracker := o |})
  end.
End fake.
