(* ===== verification/FakeClientTheorems.v ===== *)
(** The properties of the fake clientset: with its standard reactor it is a
    store of TaskGroups that notifies watchers. *)
From S2P Require Import Prelude GoStrings Types Conditions RunTypes Listers InformerFactory Rest Wiring ReconcilerExample FakeClient.
From Stdlib Require Import Ascii.

(** ** The specification: a store of TaskGroups *)
Abbreviation Store := (gmap (string * string) TaskGroup).

(** A TaskGroup in the namespace of a request: an object without a namespace is
    put into it, one of another namespace is refused. *)
Definition placed (ns : string) (tg : TaskGroup) : option TaskGroup :=
  if bool_decide (namespace_of tg = "") then Some (SetNamespace ns tg)
  else if bool_decide (namespace_of tg = ns) then Some tg else None.

(** An object or an error, and the store that results. *)
Definition store_create (ns : string) (tg : TaskGroup) (st : Store) : option TaskGroup * Store :=
  match placed ns tg, st !! (ns, name_of tg) with
  | Some tg, None => (Some tg, <[(ns, name_of tg) := tg]> st)
  | _, _ => (None, st)
  end.

Definition store_update (ns : string) (tg : TaskGroup) (st : Store) : option TaskGroup * Store :=
  match placed ns tg, st !! (ns, name_of tg) with
  | Some tg, Some _ => (Some tg, <[(ns, name_of tg) := tg]> st)
  | _, _ => (None, st)
  end.

(** Each object is at the key of its namespace and name. *)
Definition wf_store (st : Store) : Prop :=
  ∀ ns name tg, st !! (ns, name) = Some tg → namespace_of tg = ns ∧ name_of tg = name.

(** The objects of a namespace, or all. *)
Definition view (ns : string) (st : Store) : Store := filter (λ kv, ns = "" ∨ kv.1.1 = ns) st.

(** What a watcher makes of an event. *)
Definition replay (st : Store) (e : watch_Event) : Store :=
  match e with
  | Added tg | Modified tg => <[(namespace_of tg, name_of tg) := tg]> st
  | Deleted tg => delete (namespace_of tg, name_of tg) st
  end.

(** The events that were sent to a watcher. *)
Definition events_of (w : nat) (es : list (nat * watch_Event)) : list watch_Event :=
  omap (λ e, if bool_decide (e.1 = w) then Some e.2 else None) es.

Section theorems.
Context {L : Library}.

(** The calls on TaskGroups, in the namespace of each. *)
Inductive fake_call : Type :=
  | call_Get (ns name : string)
  | call_List (ns : string) (opts : ListOptions)
  | call_Create (ns : string) (tg : TaskGroup)
  | call_Update (ns : string) (tg : TaskGroup)
  | call_Delete (ns name : string)
  | call_DeleteCollection (ns : string) (opts : ListOptions)
  | call_Patch (ns name pt : string) (data : json) (subresources : list string)
  | call_Watch (ns : string) (opts : ListOptions).

Definition perform (c : Fake) (call : fake_call) : Fake :=
  match call with
  | call_Get ns name => (FakeTaskGroups_Get ns name c).2
  | call_List ns opts => (FakeTaskGroups_List ns opts c).2
  | call_Create ns tg => (FakeTaskGroups_Create ns tg c).2
  | call_Update ns tg => (FakeTaskGroups_Update ns tg c).2
  | call_Delete ns name => (FakeTaskGroups_Delete ns name c).2
  | call_DeleteCollection ns opts => (FakeTaskGroups_DeleteCollection ns opts c).2
  | call_Patch ns name pt data subs => (FakeTaskGroups_Patch ns name pt data subs c).2
  | call_Watch ns opts => (FakeTaskGroups_Watch ns opts c).2
  end.

(** A fake as [NewSimpleClientset] leaves it, with the standard reactor only. *)
Definition standard (c : Fake) : Prop :=
  ReactionChain c = [{| Verb := "*"; Resource := "*"; Reaction := ObjectReaction |}].

Definition store (c : Fake) : Store := table "taskgroups" (fake_tracker c).

(** ** Steps of the tracker *)

(** An object is stored and the watchers get an event about it. *)
Definition put (e : watch_Event) (tg : TaskGroup) (t : tracker) : tracker :=
  set_table "taskgroups" (<[(namespace_of tg, name_of tg) := tg]> (table "taskgroups" t))
    (map (λ w, (w, e)) (getWatches (namespace_of tg) t)) t.

Inductive tracker_step (t : tracker) : tracker → Prop :=
  | step_same : tracker_step t t
  | step_watch ns : tracker_step t (tracker_Watch ns t).2
  | step_put e tg : e = Added tg ∨ e = Modified tg → tracker_step t (put e tg t)
  | step_delete ns name tg :
      table "taskgroups" t !! (ns, name) = Some tg →
      tracker_step t (set_table "taskgroups" (delete (ns, name) (table "taskgroups" t))
        (map (λ w, (w, Deleted tg)) (getWatches ns t)) t).

Lemma placed_Some ns tg tg' : placed ns tg = Some tg' → namespace_of tg' = ns ∧ name_of tg' = name_of tg.
Proof. unfold placed. repeat case_bool_decide; intros [= <-]; done. Qed.

Definition bad_request (ns : string) (obj : TaskGroup) : error :=
  errorString ("request namespace does not match object namespace, request: " +:+ Quote ns +:+
               " object: " +:+ Quote (namespace_of obj)).

Lemma tracker_add_spec obj ns b t :
  tracker_add "taskgroups" obj ns b t =
  match placed ns obj with
  | None => (Some (bad_request ns obj), t)
  | Some tg =>
    match table "taskgroups" t !! (ns, name_of obj) with
    | Some _ => if b then (None, put (Modified tg) tg t) else (Some (NewAlreadyExists "taskgroups" (name_of obj)), t)
    | None => if b then (Some (errNotFound "taskgroups" (name_of obj)), t) else (None, put (Added tg) tg t)
    end
  end.
Proof.
  unfold tracker_add, placed, put. assert (bool_decide (String.length (namespace_of obj) = 0) = bool_decide (namespace_of obj = "")) as ->.
  { apply bool_decide_ext. destruct (namespace_of obj); cbn; naive_solver. }
  destruct (decide (namespace_of obj = "")) as [Hempty|Hempty];
    [rewrite !(bool_decide_true (namespace_of obj = "")) by done|rewrite !(bool_decide_false (namespace_of obj = "")) by done].
  - change (namespace_of (SetNamespace ns obj)) with ns. change (name_of (SetNamespace ns obj)) with (name_of obj).
    by rewrite (bool_decide_false (ns ≠ ns)) by auto.
  - case_bool_decide as Hne; [by rewrite bool_decide_false by congruence|].
    rewrite bool_decide_true by done. by rewrite <-!Hne.
Qed.

Lemma Invokes_standard action d c :
  standard c →
  let '((handled, ret, err), t) := ObjectReaction action (fake_tracker c) in
  Invokes action d c = ((if handled then (ret, err) else (Some d, None)),
    {| actions := actions c ++ [action]; ReactionChain := ReactionChain c; fake_tracker := t |}).
Proof.
  intros Hc. unfold Invokes. rewrite Hc. cbn [react Reaction]. change (Handles _ action) with true. cbn [negb].
  destruct (ObjectReaction action (fake_tracker c)) as [[[[] ret] err] t]; done.
Qed.

Lemma tracker_add_step obj ns b t : tracker_step t (tracker_add "taskgroups" obj ns b t).2.
Proof.
  rewrite tracker_add_spec. destruct (placed ns obj) as [tg|]; [|constructor].
  destruct (_ !! _), b; constructor; auto.
Qed.

Lemma tracker_Delete_step ns name t : tracker_step t (tracker_Delete "taskgroups" ns name t).2.
Proof. unfold tracker_Delete. destruct (_ !! _) eqn:Hl; [by apply (step_delete t ns name)|constructor]. Qed.

Lemma ObjectReaction_step action t : tracker_step t (ObjectReaction action t).2.
Proof.
  unfold ObjectReaction, tracker_Create, tracker_Update. change (GetResource action) with "taskgroups".
  destruct action as [ns name|ns sel|ns obj|ns obj|ns name|ns sel|ns name sub pt patch|ns sel]; cbn [GetNamespace]; try constructor.
  - destruct (tracker_Get _ _ _ _); constructor.
  - pose proof (tracker_add_step obj ns false t) as H. destruct (tracker_add _ _ _ _ _) as [[err|] t']; [done|].
    by destruct (tracker_Get _ _ _ _).
  - pose proof (tracker_add_step obj ns true t) as H. destruct (tracker_add _ _ _ _ _) as [[err|] t']; [done|].
    by destruct (tracker_Get _ _ _ _).
  - pose proof (tracker_Delete_step ns name t) as H. by destruct (tracker_Delete _ _ _ _).
  - destruct (tracker_Get _ _ _ _) as [|obj]; [constructor|]. destruct (apply_patch _ _ _) as [|obj']; [constructor|].
    pose proof (tracker_add_step obj' ns true t) as H. by destruct (tracker_add _ _ _ _ _) as [[err|] t'].
Qed.

Lemma Invokes_step action d c : standard c →
  standard (Invokes action d c).2 ∧ tracker_step (fake_tracker c) (fake_tracker (Invokes action d c).2).
Proof.
  intros Hc. pose proof (Invokes_standard action d c Hc) as H. pose proof (ObjectReaction_step action (fake_tracker c)) as Hs.
  destruct (ObjectReaction action (fake_tracker c)) as [[[h ret] err] t]. by rewrite H.
Qed.

Lemma perform_step c call : standard c →
  standard (perform c call) ∧ tracker_step (fake_tracker c) (fake_tracker (perform c call)).
Proof.
  intros Hc. assert (standard c ∧ tracker_step (fake_tracker c) (fake_tracker c)) as Hsame by (split; [done|constructor]).
  destruct call; cbn [perform]; unfold FakeTaskGroups_Get, FakeTaskGroups_List, FakeTaskGroups_Create, FakeTaskGroups_Update,
    FakeTaskGroups_Delete, FakeTaskGroups_DeleteCollection, FakeTaskGroups_Patch, FakeTaskGroups_Watch;
    try (destruct (ExtractFromListOptions opts) as [label|]; [|done]);
    try (match goal with |- context [Invokes ?a ?d c] => pose proof (Invokes_step a d c Hc) as H;
           destruct (Invokes a d c) as [[[[]|] err] c'] end; exact H).
  split; [done|]. constructor.
Qed.
(** ** The store *)

Lemma table_set objs sent t : table "taskgroups" (set_table "taskgroups" objs sent t) = objs.
Proof. unfold table. cbn. by rewrite lookup_insert_eq. Qed.

Lemma tracker_step_wf t t' : tracker_step t t' → wf_store (table "taskgroups" t) → wf_store (table "taskgroups" t').
Proof.
  intros [ | |e tg _|ns name tg _] Hwf; try done; unfold put; rewrite table_set; intros ns' name' tg'.
  - intros [[[= <- <-] <-]|[_ H]]%lookup_insert_Some; [done|by apply Hwf].
  - intros [_ H]%lookup_delete_Some. by apply Hwf.
Qed.

Lemma steps_ind (P : tracker → Prop) calls c :
  standard c → P (fake_tracker c) → (∀ t t', P t → tracker_step t t' → P t') →
  standard (foldl perform c calls) ∧ P (fake_tracker (foldl perform c calls)).
Proof.
  intros Hc HP Hstep. revert c Hc HP. induction calls as [|call calls IH]; intros c Hc HP; [done|]. cbn [foldl].
  destruct (perform_step c call Hc) as [Hc' Ht]. apply IH; [done|]. by eapply Hstep.
Qed.

(** ** The start *)
Lemma add_object_spec tg t :
  tracker_Add_object tg t =
  match table "taskgroups" t !! (namespace_of tg, name_of tg) with
  | Some _ => (Some (NewAlreadyExists "taskgroups" (name_of tg)), t)
  | None => (None, put (Added tg) tg t)
  end.
Proof.
  unfold tracker_Add_object. change (UnsafeGuessKindToResource taskgroupsKind.2) with "taskgroups". rewrite tracker_add_spec.
  assert (placed (namespace_of tg) tg = Some tg) as ->.
  { unfold placed. destruct (decide (namespace_of tg = "")) as [H|H]; [rewrite bool_decide_true by done|by rewrite bool_decide_false, bool_decide_true].
    rewrite H. by destruct tg as [[]]; cbn in H; subst. }
  by destruct (_ !! _).
Qed.

(** The objects that are given to [NewSimpleClientset]. *)
Definition given (objs : list runtime_Object) : list TaskGroup :=
  objs ≫= λ o, match o with TaskGroupObject tg => [tg] | TaskGroupListObject items => items end.

Definition key_of (tg : TaskGroup) : string * string := (namespace_of tg, name_of tg).

Lemma table_put e tg t : table "taskgroups" (put e tg t) = <[key_of tg := tg]> (table "taskgroups" t).
Proof. apply table_set. Qed.

(** They are added one after the other, until one is there already. *)
Fixpoint load (tgs : list TaskGroup) (t : tracker) : option tracker :=
  match tgs with
  | [] => Some t
  | tg :: tgs => match table "taskgroups" t !! key_of tg with Some _ => None | None => load tgs (put (Added tg) tg t) end
  end.

Lemma load_app tgs1 tgs2 t : load (tgs1 ++ tgs2) t = load tgs1 t ≫= load tgs2.
Proof. revert t. induction tgs1 as [|tg tgs1 IH]; intros t; [done|]. cbn. by destruct (_ !! _). Qed.

Lemma addList_load items t : load items t = match addList items t with (None, t') => Some t' | (Some _, _) => None end.
Proof.
  revert t. induction items as [|tg items IH]; intros t; [done|]. cbn. rewrite add_object_spec. unfold key_of.
  by destruct (_ !! _).
Qed.

Lemma add_objects_load objs t :
  load (given objs) t = match add_objects objs t with Returns t' => Some t' | Panics => None end.
Proof.
  revert t. induction objs as [|o objs IH]; intros t; [done|].
  change (given (o :: objs)) with ((match o with TaskGroupObject tg => [tg] | TaskGroupListObject items => items end) ++ given objs).
  rewrite load_app. cbn [add_objects]. destruct o as [tg|items]; cbn [tracker_Add].
  - change [tg] with ([tg]). cbn [load]. rewrite add_object_spec. unfold key_of. destruct (_ !! _); [done|]. cbn. apply IH.
  - rewrite addList_load. destruct (addList items t) as [[err|] t']; [done|]. cbn. apply IH.
Qed.

Lemma load_spec tgs t :
  match load tgs t with
  | Some t' => NoDup (key_of <$> tgs) ∧ (∀ tg, tg ∈ tgs → table "taskgroups" t !! key_of tg = None) ∧
      ∀ k tg, table "taskgroups" t' !! k = Some tg ↔ table "taskgroups" t !! k = Some tg ∨ tg ∈ tgs ∧ key_of tg = k
  | None => ¬ (NoDup (key_of <$> tgs) ∧ ∀ tg, tg ∈ tgs → table "taskgroups" t !! key_of tg = None)
  end.
Proof.
  revert t. induction tgs as [|tg tgs IH]; intros t; cbn [load].
  { split_and!; [constructor|by intros tg ?%not_elem_of_nil|]. intros k tg. split; [by left|]. intros [|[?%not_elem_of_nil _]]; done. }
  destruct (table "taskgroups" t !! key_of tg) as [tg0|] eqn:Hk.
  { intros [_ H]. specialize (H tg (list_elem_of_here _ _)). congruence. }
  specialize (IH (put (Added tg) tg t)).
  assert ((∀ tg', tg' ∈ tgs → table "taskgroups" (put (Added tg) tg t) !! key_of tg' = None) ↔
    (key_of tg ∉ (key_of <$> tgs)) ∧ (∀ tg', tg' ∈ tgs → table "taskgroups" t !! key_of tg' = None)) as Hfresh.
  { setoid_rewrite table_put. split.
    - intros H. split.
      + intros (tg' & Heq & Hin)%list_elem_of_fmap. apply H in Hin. rewrite <-Heq in Hin.
        by rewrite lookup_insert_eq in Hin.
      + intros tg' Hin. apply H in Hin. by apply lookup_insert_None in Hin as [? _].
    - intros [Hnot H] tg' Hin. apply lookup_insert_None. split; [by apply H|]. intros Heq. apply Hnot, list_elem_of_fmap.
      by exists tg'. }
  destruct (load tgs (put (Added tg) tg t)) as [t'|].
  - destruct IH as (Hnd & Hn%Hfresh & Hl). destruct Hn as [Hnot Hn]. split_and!.
    + by constructor.
    + intros tg' [->|Hin]%elem_of_cons; [done|by apply Hn].
    + intros k tg'. rewrite Hl, elem_of_cons, table_put. destruct (decide (k = key_of tg)) as [->|Hne].
      * rewrite lookup_insert_eq, Hk. split.
        { intros [[= <-]|[Hin Heq]]; [by right; split; [left|]|]. right. split; [by right|done]. }
        { intros [|[[->|Hin] Heq]]; [done|by left|by right]. }
      * rewrite lookup_insert_ne by (by intros H; apply Hne). naive_solver.
  - intros [Hnd Hn]. cbn in Hnd. apply NoDup_cons in Hnd as [Hnot Hnd]. apply IH. split; [done|]. apply Hfresh. split; [done|].
    intros tg' Hin. apply Hn. by right.
Qed.

(** ** Watchers *)

(** The watcher [w] is registered for the namespace [ns]. *)
Definition watching_ns (w : nat) (ns : string) (t : tracker) : Prop :=
  w < watchers_made t ∧
  ∀ ns', filter (λ w', w' = w) (getWatches ns' t) = if bool_decide (ns = "" ∨ ns' = ns) then [w] else [].

(** Watchers have numbers that were given out. *)
Definition wf_watchers (t : tracker) : Prop := ∀ ns w, w ∈ default [] (watchers t !! ns) → w < watchers_made t.

Lemma watchers_Watch ns ns' t :
  default [] (watchers (tracker_Watch ns t).2 !! ns') =
  default [] (watchers t !! ns') ++ (if bool_decide (ns' = ns) then [watchers_made t] else []).
Proof.
  cbn. destruct (decide (ns' = ns)) as [->|Hne].
  - by rewrite lookup_insert_eq, bool_decide_true.
  - by rewrite lookup_insert_ne, bool_decide_false, app_nil_r.
Qed.

Lemma tracker_step_wf_watchers t t' : tracker_step t t' → wf_watchers t → wf_watchers t'.
Proof.
  intros [ |ns|e tg _|ns name tg _] Hwf; try done. intros ns' w. rewrite watchers_Watch. cbn [watchers_made tracker_Watch snd].
  rewrite elem_of_app. intros [Hw|Hw]; [apply Hwf in Hw; lia|].
  case_bool_decide; [apply list_elem_of_singleton in Hw; lia|by apply not_elem_of_nil in Hw].
Qed.

Lemma filter_other (w : nat) (l : list nat) : w ∉ l → filter (λ w', w' = w) l = [].
Proof.
  induction l as [|w' l IH]; [done|]. intros [Hne Hl]%not_elem_of_cons. rewrite filter_cons_False by congruence. by apply IH.
Qed.

Lemma tracker_Watch_watching ns t : wf_watchers t → watching_ns (tracker_Watch ns t).1 ns (tracker_Watch ns t).2.
Proof.
  intros Hwf. split; [cbn; lia|]. intros ns'. change (tracker_Watch ns t).1 with (watchers_made t).
  assert (∀ ns', filter (λ w', w' = watchers_made t) (default [] (watchers (tracker_Watch ns t).2 !! ns')) =
    if bool_decide (ns' = ns) then [watchers_made t] else []) as Hl.
  { intros ns0. rewrite watchers_Watch, filter_app, filter_other by (intros H%Hwf; lia). case_bool_decide; [|done].
    by rewrite filter_cons_True. }
  unfold getWatches. rewrite filter_app, Hl. destruct (decide (ns' = "")) as [->|Hne].
  - rewrite (bool_decide_false ("" ≠ "")) by auto. cbn. rewrite app_nil_r. repeat case_bool_decide; naive_solver.
  - rewrite (bool_decide_true (ns' ≠ "")), Hl by done. repeat case_bool_decide; naive_solver.
Qed.

Lemma tracker_step_watching w ns t t' : tracker_step t t' → watching_ns w ns t → watching_ns w ns t'.
Proof.
  intros [ |ns2|e tg _|ns2 name tg _] [Hlt Hf]; try done. split; [cbn; lia|]. intros ns'. rewrite <-Hf. unfold getWatches.
  rewrite !filter_app, !watchers_Watch, !filter_app. f_equal.
  - rewrite (filter_other w (if bool_decide (ns' = ns2) then _ else _)); [by rewrite app_nil_r|].
    case_bool_decide; [|apply not_elem_of_nil]. intros Hw%list_elem_of_singleton. lia.
  - case_bool_decide; [|done]. rewrite filter_app, (filter_other w (if bool_decide ("" = ns2) then _ else _));
      [by rewrite app_nil_r|]. case_bool_decide; [|apply not_elem_of_nil]. intros Hw%list_elem_of_singleton. lia.
Qed.

Lemma events_of_app w es1 es2 : events_of w (es1 ++ es2) = events_of w es1 ++ events_of w es2.
Proof. apply omap_app. Qed.

Lemma events_of_sent w ns ns' e t :
  watching_ns w ns t → events_of w (map (λ w', (w', e)) (getWatches ns' t)) = if bool_decide (ns = "" ∨ ns' = ns) then [e] else [].
Proof.
  intros [_ Hf]. specialize (Hf ns'). assert (∀ l, events_of w (map (λ w', (w', e)) l) = map (λ _, e) (filter (λ w', w' = w) l)) as ->.
  { unfold events_of. induction l as [|w' l IH]; [done|]. cbn -[filter]. rewrite IH, filter_cons. cbn [fst].
    destruct (decide (w' = w)) as [Heq|Hne]; [by rewrite bool_decide_true|by rewrite bool_decide_false]. }
  rewrite Hf. by case_bool_decide.
Qed.

Lemma view_insert (ns : string) (tg : TaskGroup) (st : Store) :
  view ns (<[key_of tg := tg]> st) = if bool_decide (ns = "" ∨ namespace_of tg = ns) then <[key_of tg := tg]> (view ns st) else view ns st.
Proof.
  unfold view. case_bool_decide as H.
  - by rewrite map_filter_insert_True.
  - rewrite map_filter_insert_False by done. apply map_eq. intros k. rewrite !map_lookup_filter, lookup_delete.
    case_decide as Hk; [subst k|done]. destruct (st !! key_of tg); [|done]. cbn. by rewrite option_guard_False.
Qed.

Lemma view_delete (ns ns' name : string) (st : Store) :
  view ns (delete (ns', name) st) = if bool_decide (ns = "" ∨ ns' = ns) then delete (ns', name) (view ns st) else view ns st.
Proof.
  unfold view. rewrite map_filter_delete. case_bool_decide as H; [done|]. apply delete_id. rewrite map_lookup_filter.
  destruct (st !! _); [|done]. cbn. by rewrite option_guard_False.
Qed.

(** What a watcher knows: the objects of its namespace, from those at the start
    and the events that it got since. *)
Definition knows (w : nat) (ns : string) (t1 t : tracker) : Prop :=
  watching_ns w ns t ∧ wf_store (table "taskgroups" t) ∧
  ∃ es, events t = events t1 ++ es ∧
    foldl replay (view ns (table "taskgroups" t1)) (events_of w es) = view ns (table "taskgroups" t).

Lemma knows_step w ns t1 t t' : knows w ns t1 t → tracker_step t t' → knows w ns t1 t'.
Proof.
  intros (Hw & Hwf & es & Hes & Hview) Hstep.
  split; [by eapply tracker_step_watching|]. split; [by eapply tracker_step_wf|].
  destruct Hstep as [ |ns2|e tg He|ns2 name tg Hl].
  - by exists es.
  - by exists es.
  - exists (es ++ map (λ w', (w', e)) (getWatches (namespace_of tg) t)). split; [cbn; by rewrite Hes, app_assoc|].
    rewrite events_of_app, foldl_app, Hview, table_put, view_insert. erewrite events_of_sent by done.
    case_bool_decide; [|done]. cbn. destruct He as [-> | ->]; done.
  - exists (es ++ map (λ w', (w', Deleted tg)) (getWatches ns2 t)). split; [cbn; by rewrite Hes, app_assoc|].
    rewrite events_of_app, foldl_app, Hview, table_set, view_delete. erewrite events_of_sent by done.
    case_bool_decide; [|done]. cbn. by destruct (Hwf _ _ _ Hl) as [-> ->].
Qed.

(** ** What holds of every clientset *)

(** A clientset after some calls. *)
Definition reached (c : Fake) : Prop :=
  ∃ objs c0 calls, NewSimpleClientset objs = Returns c0 ∧ c = foldl perform c0 calls.

Definition healthy (t : tracker) : Prop := wf_store (table "taskgroups" t) ∧ wf_watchers t.

Lemma healthy_step t t' : healthy t → tracker_step t t' → healthy t'.
Proof. intros [? ?] ?. split; [by eapply tracker_step_wf|by eapply tracker_step_wf_watchers]. Qed.

Lemma healthy_new : healthy NewObjectTracker.
Proof. split; [intros ns name tg H; discriminate H|]. intros ns w H. by apply not_elem_of_nil in H. Qed.

Lemma load_healthy tgs t t' : load tgs t = Some t' → healthy t → healthy t'.
Proof.
  revert t. induction tgs as [|tg tgs IH]; intros t; cbn; [by intros [= ->]|]. destruct (_ !! _); [done|].
  intros Hl Ht. eapply IH; [done|]. eapply healthy_step; [done|]. apply step_put. by left.
Qed.

Lemma NewSimpleClientset_load objs c :
  NewSimpleClientset objs = Returns c → standard c ∧ load (given objs) NewObjectTracker = Some (fake_tracker c).
Proof.
  unfold NewSimpleClientset. rewrite add_objects_load. destruct (add_objects objs NewObjectTracker); [|done].
  by intros [= <-].
Qed.

Lemma reached_healthy c : reached c → standard c ∧ healthy (fake_tracker c).
Proof.
  intros (objs & c0 & calls & Hnew & ->). apply NewSimpleClientset_load in Hnew as [Hc Hl].
  apply steps_ind; [done| |apply healthy_step]. by eapply load_healthy, healthy_new.
Qed.

(** In a fake clientset every object is stored under its own namespace and
    name, from its creation with preset objects and through every sequence of
    calls, whatever namespaces the calls and the objects have. *)
Theorem fake_objects_keyed c ns name tg :
  reached c → store c !! (ns, name) = Some tg → namespace_of tg = ns ∧ name_of tg = name.
Proof. intros Hc%reached_healthy. apply Hc. Qed.

(** A new fake clientset holds exactly the preset objects, those in lists
    included, and [Get] gives each back; it panics exactly when two of them
    have the same namespace and name. *)
Theorem NewSimpleClientset_holds objs :
  match NewSimpleClientset objs with
  | Panics => ¬ NoDup (key_of <$> given objs)
  | Returns c => NoDup (key_of <$> given objs) ∧
      (∀ ns name tg, store c !! (ns, name) = Some tg ↔ tg ∈ given objs ∧ key_of tg = (ns, name)) ∧
      (∀ tg, tg ∈ given objs → (FakeTaskGroups_Get (namespace_of tg) (name_of tg) c).1 = Returns (Some tg, None))
  end.
Proof.
  pose proof (load_spec (given objs) NewObjectTracker) as Hl. destruct (NewSimpleClientset objs) as [c|] eqn:Hnew.
  - apply NewSimpleClientset_load in Hnew as [Hc Hload]. rewrite Hload in Hl. destruct Hl as (Hnd & _ & Hl).
    assert (∀ k tg, store c !! k = Some tg ↔ tg ∈ given objs ∧ key_of tg = k) as Hst.
    { intros k tg. unfold store. rewrite Hl. split; [intros [H|]; [discriminate H|done]|by right]. }
    split_and!; [done|intros; apply Hst|]. intros tg Hin. unfold FakeTaskGroups_Get.
    pose proof (Invokes_standard (GetActionImpl (namespace_of tg) (name_of tg)) (TaskGroupObject zero_TaskGroup) c Hc) as H.
    cbn in H. unfold tracker_Get in H. change (table "taskgroups" (fake_tracker c)) with (store c) in H.
    rewrite (proj2 (Hst (namespace_of tg, name_of tg) tg) (conj Hin eq_refl)) in H. by rewrite H.
  - unfold NewSimpleClientset in Hnew. rewrite add_objects_load in Hl. destruct (add_objects objs NewObjectTracker); [done|].
    intros Hnd. apply Hl. by split.
Qed.

(** What a watcher of a fake clientset is sent is enough to follow it: from
    the objects of its namespace when it was made and the events since, it has
    the objects of its namespace after any calls. *)
Theorem fake_watch_replays c ns opts label calls :
  reached c → ExtractFromListOptions opts = Returns label →
  let '(r, c1) := FakeTaskGroups_Watch ns opts c in
  ∃ w es, r = Returns (inr w) ∧
    events (fake_tracker (foldl perform c1 calls)) = events (fake_tracker c1) ++ es ∧
    foldl replay (view ns (store c1)) (events_of w es) = view ns (store (foldl perform c1 calls)).
Proof.
  intros [Hc [Hwf Hww]]%reached_healthy Hopts. unfold FakeTaskGroups_Watch. rewrite Hopts.
  destruct (tracker_Watch ns (fake_tracker c)) as [w t] eqn:Hwatch.
  pose proof (tracker_Watch_watching ns _ Hww) as Hw. rewrite Hwatch in Hw.
  pose proof (tracker_step_wf _ _ (step_watch (fake_tracker c) ns) Hwf) as Hwf'. rewrite Hwatch in Hwf'.
  set (c1 := {| actions := _; ReactionChain := _; fake_tracker := t |}).
  destruct (steps_ind (knows w ns t) calls c1) as [_ (_ & _ & es & Hes & Hv)]; [done| |apply knows_step|by exists w, es].
  split_and!; [done..|]. exists []. by rewrite app_nil_r.
Qed.

(** [DeleteCollection] of the fake returns no error and deletes nothing: no
    reactor of the tracker handles it, and the default answer is success. *)
Theorem fake_DeleteCollection_ignored c ns opts label :
  standard c → ExtractFromListOptions opts = Returns label →
  let '(r, c') := FakeTaskGroups_DeleteCollection ns opts c in
  r = Returns None ∧ fake_tracker c' = fake_tracker c.
Proof.
  intros Hc Hopts. unfold FakeTaskGroups_DeleteCollection. rewrite Hopts.
  pose proof (Invokes_standard (DeleteCollectionActionImpl ns label) (TaskGroupListObject []) c Hc) as H. cbn in H. by rewrite H.
Qed.

(** ** Lists *)
#[local] Instance object_le_total : Total object_le.
Proof.
  intros o1 o2. unfold object_le. repeat case_bool_decide; try congruence; [apply (total String.le)|apply (total String.le)].
Qed.

#[local] Instance object_le_trans : Transitive object_le.
Proof.
  intros o1 o2 o3. unfold object_le. intros H12 H23. repeat case_bool_decide; try congruence; try (by etrans).
  exfalso. apply H0, (anti_symm String.le); [done|]. by rewrite H1.
Qed.

Lemma StronglySorted_filter {A} (R : A → A → Prop) (P : A → Prop) `{∀ x, Decision (P x)} (l : list A) :
  StronglySorted R l → StronglySorted R (filter P l).
Proof.
  induction 1 as [|x l _ IH Hx]; [constructor|]. rewrite filter_cons. case_decide; [|done]. constructor; [done|].
  rewrite Forall_forall in Hx |- *. intros y [_ Hy]%list_elem_of_filter. by apply Hx.
Qed.

(** [Create] and [Update] through the reactor. *)
Lemma Invokes_add action b ns tg c :
  standard c → b = false ∧ action = CreateActionImpl ns tg ∨ b = true ∧ action = UpdateActionImpl ns tg →
  let op := if b then store_update ns tg (store c) else store_create ns tg (store c) in
  let '(r, c') := Invokes action (TaskGroupObject zero_TaskGroup) c in
  store c' = op.2 ∧ actions c' = actions c ++ [action] ∧
  match op.1 with Some tg => r = (Some (TaskGroupObject tg), None) | None => ∃ err, r = (None, Some err) end.
Proof.
  intros Hc Hb. pose proof (Invokes_standard action (TaskGroupObject zero_TaskGroup) c Hc) as H.
  assert (ObjectReaction action (fake_tracker c) =
    match tracker_add "taskgroups" tg ns b (fake_tracker c) with
    | (Some err, t) => ((true, None, Some err), t)
    | (None, t) => match tracker_Get "taskgroups" ns (name_of tg) t with
                   | inl err => ((true, None, Some err), t)
                   | inr obj => ((true, Some (TaskGroupObject obj), None), t)
                   end
    end) as Heq by by destruct Hb as [[-> ->]|[-> ->]].
  rewrite Heq, tracker_add_spec in H. clear Heq Hb. unfold store, store_update, store_create.
  destruct (placed ns tg) as [tg'|] eqn:Hp; [|rewrite H; destruct b; split_and!; (done || by eexists)].
  apply placed_Some in Hp as [Hns Hn].
  assert (∀ e, table "taskgroups" (put e tg' (fake_tracker c)) = <[(ns, name_of tg) := tg']> (table "taskgroups" (fake_tracker c))) as Hput.
  { intros e. rewrite table_put. unfold key_of. by rewrite Hns, Hn. }
  destruct (table "taskgroups" (fake_tracker c) !! (ns, name_of tg)), b;
    try (rewrite H; split_and!; (done || by eexists));
    unfold tracker_Get in H; rewrite Hput, lookup_insert_eq in H; rewrite H; split_and!; try done; cbn [fst snd fake_tracker]; rewrite Hn; apply Hput.
Qed.

(** [Get] and [List] of a clientset with the standard reactor only. *)
Lemma FakeTaskGroups_Get_store c ns name :
  standard c →
  let '(r, c') := FakeTaskGroups_Get ns name c in
  standard c' ∧ store c' = store c ∧ actions c' = actions c ++ [GetActionImpl ns name] ∧
  r = Returns match store c !! (ns, name) with
              | Some tg => (Some tg, None)
              | None => (None, Some (errNotFound "taskgroups" name))
              end.
Proof.
  intros Hc. pose proof (Invokes_standard (GetActionImpl ns name) (TaskGroupObject zero_TaskGroup) c Hc) as H. cbn in H.
  unfold tracker_Get in H. change (GetResource (GetActionImpl ns name)) with "taskgroups" in H. unfold FakeTaskGroups_Get, store.
  destruct (table "taskgroups" (fake_tracker c) !! (ns, name)); rewrite H; by split_and!.
Qed.

Lemma FakeTaskGroups_List_store c ns opts label :
  standard c → ExtractFromListOptions opts = Returns label →
  let '(r, c') := FakeTaskGroups_List ns opts c in
  standard c' ∧ store c' = store c ∧ actions c' = actions c ++ [ListActionImpl ns label] ∧
  ∃ items, r = Returns (Some items, None) ∧ StronglySorted object_le items ∧
    ∀ tg, tg ∈ items ↔ (∃ k, store c !! k = Some tg) ∧ (ns = "" ∨ namespace_of tg = ns) ∧
      label (ObjectMeta_Labels (TaskGroup_ObjectMeta tg)) = true.
Proof.
  intros Hc Hopts. pose proof (Invokes_standard (ListActionImpl ns label) (TaskGroupListObject []) c Hc) as H. cbn in H.
  change (GetResource (ListActionImpl ns label)) with "taskgroups" in H. unfold FakeTaskGroups_List. rewrite Hopts, H.
  split_and!; [done..|]. eexists. split; [done|]. unfold filterByNamespace. split.
  - apply StronglySorted_filter, StronglySorted_merge_sort; apply _.
  - intros tg0. rewrite list_elem_of_filter, merge_sort_Permutation, list_elem_of_filter, list_elem_of_fmap. split.
    + intros (? & ? & ([k tg1] & -> & Hin%elem_of_map_to_list)). split_and!; [by exists k|done..].
    + intros ([k Hk] & ? & ?). split_and!; [done..|]. exists (k, tg0). split; [done|]. by apply elem_of_map_to_list.
Qed.

(** C15: [Get], [Create], [Update], [Delete] and [List] of a fake clientset
    with the standard reactor are those of a store of TaskGroups: [Create]
    stores a new object in the namespace of the request and [Update] an
    existing one, and each returns it; [Get] returns what is stored; [Delete]
    deletes it; in all other cases there is an error and no object, and the
    store stays. So [Delete] of an absent object is a not-found error, though
    the comment on [ObjectTracker] says there is none. [List] returns the
    objects of the namespace, or of all, that the selector matches, in the
    order of namespaces and names. [DeleteCollection] succeeds and deletes
    nothing. Each of these calls is recorded. ([Patch] and [Watch] are not
    stated here.) *)
Theorem fake_implements_store c ns name tg opts label :
  standard c → ExtractFromListOptions opts = Returns label →
  (let '(r, c') := FakeTaskGroups_Get ns name c in
   store c' = store c ∧ actions c' = actions c ++ [GetActionImpl ns name] ∧
   match store c !! (ns, name) with
   | Some tg => r = Returns (Some tg, None)
   | None => r = Returns (None, Some (errNotFound "taskgroups" name))
   end) ∧
  (let '(r, c') := FakeTaskGroups_Create ns tg c in
   store c' = (store_create ns tg (store c)).2 ∧ actions c' = actions c ++ [CreateActionImpl ns tg] ∧
   match (store_create ns tg (store c)).1 with
   | Some tg => r = Returns (Some tg, None)
   | None => ∃ err, r = Returns (None, Some err)
   end) ∧
  (let '(r, c') := FakeTaskGroups_Update ns tg c in
   store c' = (store_update ns tg (store c)).2 ∧ actions c' = actions c ++ [UpdateActionImpl ns tg] ∧
   match (store_update ns tg (store c)).1 with
   | Some tg => r = Returns (Some tg, None)
   | None => ∃ err, r = Returns (None, Some err)
   end) ∧
  (let '(r, c') := FakeTaskGroups_Delete ns name c in
   store c' = delete (ns, name) (store c) ∧ actions c' = actions c ++ [DeleteActionImpl ns name] ∧
   r = Returns (if bool_decide (is_Some (store c !! (ns, name))) then None else Some (errNotFound "taskgroups" name))) ∧
  (let '(r, c') := FakeTaskGroups_List ns opts c in
   store c' = store c ∧ actions c' = actions c ++ [ListActionImpl ns label] ∧
   ∃ items, r = Returns (Some items, None) ∧ StronglySorted object_le items ∧
     ∀ tg, tg ∈ items ↔ (∃ k, store c !! k = Some tg) ∧ (ns = "" ∨ namespace_of tg = ns) ∧
       label (ObjectMeta_Labels (TaskGroup_ObjectMeta tg)) = true) ∧
  (let '(r, c') := FakeTaskGroups_DeleteCollection ns opts c in
   store c' = store c ∧ actions c' = actions c ++ [DeleteCollectionActionImpl ns label] ∧ r = Returns None).
Proof.
  intros Hc Hopts. split_and!.
  - pose proof (FakeTaskGroups_Get_store c ns name Hc) as H. destruct (FakeTaskGroups_Get ns name c) as [r c'].
    destruct H as (_ & Hst & Ha & ->). split_and!; [done..|]. by destruct (store c !! _).
  - pose proof (Invokes_add _ false ns tg c Hc (or_introl (conj eq_refl eq_refl))) as H. unfold FakeTaskGroups_Create.
    destruct (Invokes _ _ c) as [r c']. destruct H as (Hst & Ha & H). split_and!; [done..|].
    destruct (store_create ns tg (store c)).1; [by rewrite H|]. destruct H as [err ->]. by eexists.
  - pose proof (Invokes_add _ true ns tg c Hc (or_intror (conj eq_refl eq_refl))) as H. unfold FakeTaskGroups_Update.
    destruct (Invokes _ _ c) as [r c']. destruct H as (Hst & Ha & H). split_and!; [done..|].
    destruct (store_update ns tg (store c)).1; [by rewrite H|]. destruct H as [err ->]. by eexists.
  - pose proof (Invokes_standard (DeleteActionImpl ns name) (TaskGroupObject zero_TaskGroup) c Hc) as H. cbn in H.
    change (GetResource (DeleteActionImpl ns name)) with "taskgroups" in H. unfold tracker_Delete in H. unfold FakeTaskGroups_Delete, store.
    destruct (table "taskgroups" (fake_tracker c) !! (ns, name)) eqn:Hl; rewrite H; cbn.
    + by rewrite table_set.
    + by rewrite delete_id.
  - pose proof (FakeTaskGroups_List_store c ns opts label Hc Hopts) as H. destruct (FakeTaskGroups_List ns opts c) as [r c'].
    by destruct H as (_ & Hst & Ha & H).
  - unfold FakeTaskGroups_DeleteCollection. rewrite Hopts.
    pose proof (Invokes_standard (DeleteCollectionActionImpl ns label) (TaskGroupListObject []) c Hc) as H. cbn in H. by rewrite H.
Qed.
End theorems.

(** ** Witnesses *)
Module FakeSample.

(** Selectors of everything only, and patches that change nothing. *)
Definition library : Library := {|
  labels_Parse s := if bool_decide (s = "") then inr (λ _, true) else inl (errorString "unable to parse requirement");
  fields_ParseSelector _ := None;
  marshal_TaskGroup _ := inr JNull;
  unmarshal_TaskGroup _ := inr Sample.group;
  JSONPatch old _ := inr old; MergePatch old _ := inr old; StrategicMergePatch old _ := inr old |}.

Definition no_options : ListOptions := {|
  ListOptions_LabelSelector := ""; ListOptions_Watch := false; ListOptions_TimeoutSeconds := None; ListOptions_Other := JObj [] |}.

(** A clientset with the group of the example. *)
Definition preset : Fake :=
  match NewSimpleClientset (L := library) [TaskGroupObject Sample.group] with
  | Returns c => c
  | Panics => {| actions := []; ReactionChain := []; fake_tracker := NewObjectTracker |}
  end.

Lemma preset_reached : reached (L := library) preset.
Proof. by exists [TaskGroupObject Sample.group], preset, []. Qed.

End FakeSample.

Section witnesses.
#[local] Existing Instance FakeSample.library.

Lemma fake_objects_keyed_witness :
  let c := perform FakeSample.preset (call_Create "other" (SetNamespace "" Sample.group)) in
  store c !! ("other", "group") = Some (SetNamespace "other" Sample.group) ∧
  namespace_of (SetNamespace "other" Sample.group) = "other" ∧ name_of (SetNamespace "other" Sample.group) = "group".
Proof.
  intros c. assert (store c !! ("other", "group") = Some (SetNamespace "other" Sample.group)) as Hl by (vm_compute; reflexivity).
  split; [exact Hl|]. apply (fake_objects_keyed c); [|exact Hl].
  exists [TaskGroupObject Sample.group], FakeSample.preset, [call_Create "other" (SetNamespace "" Sample.group)]. split; reflexivity.
Defined.

Lemma fake_watch_replays_witness :
  let '(r, c1) := FakeTaskGroups_Watch "ns" FakeSample.no_options FakeSample.preset in
  ∃ w es, r = Returns (inr w) ∧
    events (fake_tracker (foldl perform c1 [call_Delete "ns" "group"])) = events (fake_tracker c1) ++ es ∧
    foldl replay (view "ns" (store c1)) (events_of w es) = view "ns" (store (foldl perform c1 [call_Delete "ns" "group"])).
Proof. apply (fake_watch_replays _ _ _ (λ _, true)); [apply FakeSample.preset_reached|reflexivity]. Defined.

Lemma fake_DeleteCollection_ignored_witness :
  (FakeTaskGroups_DeleteCollection "ns" FakeSample.no_options FakeSample.preset).1 = Returns None ∧
  store (FakeTaskGroups_DeleteCollection "ns" FakeSample.no_options FakeSample.preset).2 !! ("ns", "group") = Some Sample.group.
Proof.
  pose proof (fake_DeleteCollection_ignored FakeSample.preset "ns" FakeSample.no_options (λ _, true) eq_refl eq_refl) as H.
  destruct (FakeTaskGroups_DeleteCollection _ _ _) as [r c']. destruct H as [Hr Ht]. split; [exact Hr|].
  unfold store. cbn [snd]. rewrite Ht. vm_compute. reflexivity.
Defined.

Lemma fake_implements_store_witness :
  (FakeTaskGroups_Create "ns" Sample.group FakeSample.preset).1 =
    Returns (None, Some (NewAlreadyExists "taskgroups" "group")) ∧
  store (FakeTaskGroups_Create "ns" Sample.group FakeSample.preset).2 = store FakeSample.preset ∧
  store (FakeTaskGroups_DeleteCollection "ns" FakeSample.no_options FakeSample.preset).2 = store FakeSample.preset.
Proof.
  split; [vm_compute; reflexivity|].
  pose proof (fake_implements_store FakeSample.preset "ns" "group" Sample.group FakeSample.no_options (λ _, true) eq_refl eq_refl)
    as (_ & H & _ & _ & _ & Hd).
  destruct (FakeTaskGroups_Create _ _ _) as [r c'], (FakeTaskGroups_DeleteCollection _ _ _) as [r2 c2].
  destruct H as (Hst & _). destruct Hd as (Hd & _). cbn [snd]. rewrite Hst, Hd. split; reflexivity.
Defined.
End witnesses.
