(* ===== verification/Scheme.v ===== *)
(** The registration of the types of TaskGroups: pkg/apis/taskgroup/v1alpha1/register.go
    and the schemes of the clientset and of its fake
    (pkg/client/clientset/versioned/scheme/register.go and fake/register.go),
    with the tables of apimachinery's runtime/scheme.go that they fill, and its
    meta/v1/register.go. A Go type is the path of its package and its name. The
    conversion functions that are registered along are left out: they do not
    touch the tables. *)
From S2P Require Import Prelude GoStrings Reconciler FakeClient.

(** ** Kinds and types *)
Abbreviation GroupVersion := (string * string)%type.
Abbreviation GroupVersionKind := (GroupVersion * string)%type.
Abbreviation GoType := (string * string)%type.

(** [type Scheme struct]: the tables of types *)
Record Scheme := {
  gvkToType : gmap GroupVersionKind GoType;
  typeToGVK : gmap GoType (list GroupVersionKind);
  unversionedTypes : gmap GoType GroupVersionKind;
  unversionedKinds : gmap string GoType;
  observedVersions : list GroupVersion
}.

(** [func NewScheme() *Scheme] *)
Definition NewScheme : Scheme :=
  {| gvkToType := ∅; typeToGVK := ∅; unversionedTypes := ∅; unversionedKinds := ∅; observedVersions := [] |}.

#[export] Instance outcome_ret : MRet outcome := λ A a, Returns a.
#[export] Instance outcome_bind : MBind outcome := λ A B k m, match m with Returns a => k a | Panics => Panics end.

Definition APIVersionInternal : string := "__internal".

(** [func (s *Scheme) addObservedVersion(version schema.GroupVersion)] *)
Definition addObservedVersion (version : GroupVersion) (s : Scheme) : Scheme :=
  if bool_decide (version.2 = "") || bool_decide (version.2 = APIVersionInternal) then s
  else if bool_decide (version ∈ observedVersions s) then s
  else {| gvkToType := gvkToType s; typeToGVK := typeToGVK s; unversionedTypes := unversionedTypes s;
          unversionedKinds := unversionedKinds s; observedVersions := observedVersions s ++ [version] |}.

(** The two tables with a kind and its type. *)
Definition add_type (gvk : GroupVersionKind) (t : GoType) (s : Scheme) : Scheme :=
  let gvks := default [] (typeToGVK s !! t) in {|
  gvkToType := <[gvk := t]> (gvkToType s);
  typeToGVK := if bool_decide (gvk ∈ gvks) then typeToGVK s else <[t := gvks ++ [gvk]]> (typeToGVK s);
  unversionedTypes := unversionedTypes s; unversionedKinds := unversionedKinds s; observedVersions := observedVersions s |}.

(** [func (s *Scheme) AddKnownTypeWithName(gvk schema.GroupVersionKind, obj Object)],
    given the type of the struct that [obj] points to *)
Definition AddKnownTypeWithName (gvk : GroupVersionKind) (t : GoType) (s : Scheme) : outcome Scheme :=
  let s := addObservedVersion gvk.1 s in
  if bool_decide (gvk.1.2 = "") then Panics
  else
    match gvkToType s !! gvk with
    | Some oldT => if bool_decide (oldT ≠ t) then Panics else Returns (add_type gvk t s)
    | None => Returns (add_type gvk t s)
    end.

(** [func (s *Scheme) AddKnownTypes(gv schema.GroupVersion, types ...Object)] *)
Fixpoint AddKnownTypes_loop (gv : GroupVersion) (types : list GoType) (s : Scheme) : outcome Scheme :=
  match types with
  | [] => Returns s
  | t :: types => s ← AddKnownTypeWithName (gv, t.2) t s; AddKnownTypes_loop gv types s
  end.

Definition AddKnownTypes (gv : GroupVersion) (types : list GoType) (s : Scheme) : outcome Scheme :=
  AddKnownTypes_loop gv types (addObservedVersion gv s).

(** The loop of [AddUnversionedTypes]. *)
Fixpoint AddUnversionedTypes_loop (version : GroupVersion) (types : list GoType) (s : Scheme) : outcome Scheme :=
  match types with
  | [] => Returns s
  | t :: types =>
    let s := {| gvkToType := gvkToType s; typeToGVK := typeToGVK s;
                unversionedTypes := <[t := (version, t.2)]> (unversionedTypes s);
                unversionedKinds := unversionedKinds s; observedVersions := observedVersions s |} in
    let add := {| gvkToType := gvkToType s; typeToGVK := typeToGVK s; unversionedTypes := unversionedTypes s;
                  unversionedKinds := <[t.2 := t]> (unversionedKinds s); observedVersions := observedVersions s |} in
    match unversionedKinds s !! t.2 with
    | Some old => if bool_decide (t ≠ old) then Panics else AddUnversionedTypes_loop version types add
    | None => AddUnversionedTypes_loop version types add
    end
  end.

(** [func (s *Scheme) AddUnversionedTypes(version schema.GroupVersion, types ...Object)] *)
Definition AddUnversionedTypes (version : GroupVersion) (types : list GoType) (s : Scheme) : outcome Scheme :=
  s ← AddKnownTypes version types (addObservedVersion version s);
  AddUnversionedTypes_loop version types s.

(** [func (s *Scheme) ObjectKinds(obj Object) ([]schema.GroupVersionKind, bool, error)],
    of an object of a type *)
Definition ObjectKinds (t : GoType) (s : Scheme) : fallible (list GroupVersionKind * bool) :=
  match typeToGVK s !! t with
  | None => inl (errorString ("no kind is registered for the type " +:+ t.1 +:+ "." +:+ t.2))
  | Some gvks => inr (gvks, bool_decide (is_Some (unversionedTypes s !! t)))
  end.

(** [func (s *Scheme) New(kind schema.GroupVersionKind) (Object, error)]: the
    type of the new object *)
Definition Scheme_New (kind : GroupVersionKind) (s : Scheme) : fallible GoType :=
  match gvkToType s !! kind with
  | Some t => inr t
  | None =>
    match unversionedKinds s !! kind.2 with
    | Some t => inr t
    | None => inl (errorString ("no kind " +:+ Quote kind.2 +:+ " is registered for version " +:+ Quote kind.1.2))
    end
  end.

(** ** The meta types (meta/v1/register.go) *)
Definition metav1 (name : string) : GoType := ("k8s.io/apimachinery/pkg/apis/meta/v1", name).

Definition optionsTypes : list GoType :=
  [metav1 "ListOptions"; metav1 "GetOptions"; metav1 "DeleteOptions"; metav1 "CreateOptions"; metav1 "UpdateOptions"; metav1 "PatchOptions"].

Definition Unversioned : GroupVersion := ("", "v1").

Definition unversioned_types : list GoType :=
  [metav1 "Status"; metav1 "APIVersions"; metav1 "APIGroupList"; metav1 "APIGroup"; metav1 "APIResourceList"].

(** [func AddToGroupVersion(scheme *runtime.Scheme, groupVersion schema.GroupVersion)] *)
Definition AddToGroupVersion (groupVersion : GroupVersion) (scheme : Scheme) : outcome Scheme :=
  scheme ← AddKnownTypeWithName (groupVersion, "WatchEvent") (metav1 "WatchEvent") scheme;
  scheme ← AddKnownTypeWithName ((groupVersion.1, APIVersionInternal), "WatchEvent") (metav1 "InternalEvent") scheme;
  scheme ← AddKnownTypes groupVersion optionsTypes scheme;
  AddUnversionedTypes Unversioned unversioned_types scheme.

(** ** The types of TaskGroups (v1alpha1/register.go) *)
Definition taskgroup_type (name : string) : GoType :=
  ("github.com/openshift-pipelines/tekton-task-group/pkg/apis/taskgroup/v1alpha1", name).

(** [SchemeGroupVersion], the group and the version *)
Definition v1alpha1_GroupVersion : GroupVersion := (GroupName, "v1alpha1").

(** [func Kind(kind string) schema.GroupKind] *)
Definition Kind (kind : string) : string * string := (GroupName, kind).

(** [func Resource(resource string) schema.GroupResource] *)
Definition Resource (resource : string) : string * string := (GroupName, resource).

(** [func addKnownTypes(scheme *runtime.Scheme) error] *)
Definition addKnownTypes (scheme : Scheme) : outcome (option error * Scheme) :=
  scheme ← AddKnownTypes v1alpha1_GroupVersion [taskgroup_type "TaskGroup"; taskgroup_type "TaskGroupList"] scheme;
  scheme ← AddToGroupVersion v1alpha1_GroupVersion scheme;
  mret (None, scheme).

(** [func (sb *SchemeBuilder) AddToScheme(s *Scheme) error] *)
Fixpoint SchemeBuilder_AddToScheme (sb : list (Scheme → outcome (option error * Scheme))) (s : Scheme) :
    outcome (option error * Scheme) :=
  match sb with
  | [] => Returns (None, s)
  | f :: sb => r ← f s; match r with (Some err, s) => mret (Some err, s) | (None, s) => SchemeBuilder_AddToScheme sb s end
  end.

(** [AddToScheme] of v1alpha1 *)
Definition AddToScheme : Scheme → outcome (option error * Scheme) := SchemeBuilder_AddToScheme [addKnownTypes].

(** [utilruntime.Must(err)] *)
Definition Must (r : option error * Scheme) : outcome Scheme := match r with (Some _, _) => Panics | (None, s) => Returns s end.

(** [localSchemeBuilder], [AddToScheme], and [Scheme] after [func init()], of the
    clientset *)
Definition localSchemeBuilder : list (Scheme → outcome (option error * Scheme)) := [AddToScheme].
Definition clientset_AddToScheme : Scheme → outcome (option error * Scheme) := SchemeBuilder_AddToScheme localSchemeBuilder.
Definition clientset_init (scheme : Scheme) : outcome Scheme :=
  s ← AddToGroupVersion ("", "v1") scheme; r ← clientset_AddToScheme s; Must r.
Definition clientset_Scheme : outcome Scheme := clientset_init NewScheme.

(** The same of the fake clientset. *)
Definition fake_localSchemeBuilder : list (Scheme → outcome (option error * Scheme)) := [AddToScheme].
Definition fake_AddToScheme : Scheme → outcome (option error * Scheme) := SchemeBuilder_AddToScheme fake_localSchemeBuilder.
Definition fake_init (scheme : Scheme) : outcome Scheme :=
  s ← AddToGroupVersion ("", "v1") scheme; r ← fake_AddToScheme s; Must r.
Definition fake_scheme : outcome Scheme := fake_init NewScheme.

(** ** Lemmas *)

(** The two tables of types are inverse to each other. *)
Definition wf_Scheme (s : Scheme) : Prop :=
  (∀ gvk t, gvkToType s !! gvk = Some t ↔ gvk ∈ default [] (typeToGVK s !! t)) ∧
  (∀ t, NoDup (default [] (typeToGVK s !! t))).

(** A call that returns reaches a state, and one that panics has a reason. *)
Definition reaches (r : outcome Scheme) (Q : Scheme → Prop) (bad : Prop) : Prop :=
  match r with Returns s => Q s | Panics => bad end.

Lemma reaches_bind (r : outcome Scheme) (k : Scheme → outcome Scheme) Q bad :
  reaches r (λ s, reaches (k s) Q bad) bad → reaches (r ≫= k) Q bad.
Proof. by destruct r. Qed.

Lemma reaches_weaken r (Q Q' : Scheme → Prop) (bad bad' : Prop) :
  reaches r Q bad → (∀ s, Q s → Q' s) → (bad → bad') → reaches r Q' bad'.
Proof. destruct r; simpl; auto. Qed.

(** What a registration of types does: the tables get these types, unless a
    kind has another type. *)
Record adds (l : list (GroupVersionKind * GoType)) (s s' : Scheme) : Prop := {
  adds_types gvk : gvkToType s' !! gvk = match (list_to_map l : gmap GroupVersionKind GoType) !! gvk with
                                         | Some t => Some t
                                         | None => gvkToType s !! gvk
                                         end;
  adds_wf : wf_Scheme s → wf_Scheme s';
  adds_fits gvk t t' : (gvk, t) ∈ l → gvkToType s !! gvk = Some t' → t' = t
}.

(** Two kinds of the registration, or one of it and one of the scheme, differ
    in their type. *)
Definition clash (l : list (GroupVersionKind * GoType)) (s : Scheme) : Prop :=
  ∃ gvk t t', (gvk, t) ∈ l ∧ gvkToType s !! gvk = Some t' ∧ t' ≠ t.

Lemma add_type_wf gvk t s :
  (∀ t', gvkToType s !! gvk = Some t' → t' = t) → wf_Scheme s → wf_Scheme (add_type gvk t s).
Proof.
  intros Hfit [Hinv Hnd]. unfold add_type, wf_Scheme. cbn. case_bool_decide as Hin.
  - split; [|done]. intros gvk' t'. rewrite <-Hinv. rewrite lookup_insert. case_decide as Heq; [subst gvk'|done].
    apply Hinv in Hin. rewrite Hin. done.
  - split.
    + intros gvk' t'. rewrite lookup_insert. destruct (decide (t = t')) as [<-|Hne].
      * rewrite lookup_insert_eq. cbn. rewrite elem_of_app, list_elem_of_singleton, <-Hinv.
        case_decide as Heq; [subst gvk'; naive_solver|]. naive_solver.
      * rewrite lookup_insert_ne by done. rewrite <-Hinv. case_decide as Heq; [subst gvk'|done].
        split; [congruence|]. intros Ht'. by apply Hfit in Ht'.
    + intros t'. destruct (decide (t = t')) as [<-|Hne]; [|by rewrite lookup_insert_ne].
      rewrite lookup_insert_eq. cbn. apply NoDup_app. split_and!; [done| |apply NoDup_singleton].
      intros x Hx ->%list_elem_of_singleton. done.
Qed.

Lemma adds_nil s s' : gvkToType s' = gvkToType s → typeToGVK s' = typeToGVK s → adds [] s s'.
Proof.
  intros H1 H2. split; [|unfold wf_Scheme; by rewrite H1, H2|by intros ??? ?%elem_of_nil].
  intros gvk. by rewrite list_to_map_nil, lookup_empty, H1.
Qed.

Lemma addObservedVersion_tables v s :
  gvkToType (addObservedVersion v s) = gvkToType s ∧ typeToGVK (addObservedVersion v s) = typeToGVK s ∧
  unversionedKinds (addObservedVersion v s) = unversionedKinds s.
Proof. unfold addObservedVersion. by repeat case_bool_decide. Qed.

Lemma adds_app l1 l2 s s1 s2 : NoDup (l1 ++ l2).*1 → adds l1 s s1 → adds l2 s1 s2 → adds (l1 ++ l2) s s2.
Proof.
  rewrite fmap_app. intros (Hnd1 & Hdisj & Hnd2)%NoDup_app [Ht1 Hw1 Hf1] [Ht2 Hw2 Hf2]. split; [|auto|].
  - intros gvk. rewrite Ht2, Ht1, list_to_map_app, lookup_union.
    destruct ((list_to_map l1 : gmap GroupVersionKind GoType) !! gvk) as [t|] eqn:H1;
      destruct ((list_to_map l2 : gmap GroupVersionKind GoType) !! gvk) as [t2|] eqn:H2; try done.
    exfalso. apply elem_of_list_to_map_2, (list_elem_of_fmap_2 fst) in H1. apply elem_of_list_to_map_2, (list_elem_of_fmap_2 fst) in H2.
    by apply (Hdisj gvk).
  - intros gvk t t' [Hin|Hin]%elem_of_app Hl; [by eapply Hf1|]. eapply Hf2; [done|]. rewrite Ht1.
    rewrite (not_elem_of_list_to_map_1 l1 gvk); [done|]. intros H. apply (Hdisj gvk H).
    by apply (list_elem_of_fmap_2 fst) in Hin.
Qed.

Lemma clash_app_r l1 l2 s s1 : NoDup (l1 ++ l2).*1 → adds l1 s s1 → clash l2 s1 → clash (l1 ++ l2) s.
Proof.
  rewrite fmap_app. intros (_ & Hdisj & _)%NoDup_app [Ht1 _ _] (gvk & t & t' & Hin & Hl & Hne). exists gvk, t, t'.
  split_and!; [apply elem_of_app; by right| |done]. rewrite Ht1 in Hl.
  rewrite (not_elem_of_list_to_map_1 l1 gvk) in Hl; [done|]. intros H. apply (Hdisj gvk H).
  by apply (list_elem_of_fmap_2 fst) in Hin.
Qed.

(** A step of a registration: the state it reaches also keeps the unversioned
    kinds. *)
Definition registers (l : list (GroupVersionKind * GoType)) (s : Scheme) (r : outcome Scheme) : Prop :=
  reaches r (λ s', adds l s s' ∧ unversionedKinds s' = unversionedKinds s) (clash l s).

Lemma registers_bind l1 l2 s r k :
  NoDup (l1 ++ l2).*1 → registers l1 s r → (∀ s', registers l2 s' (k s')) → registers (l1 ++ l2) s (r ≫= k).
Proof.
  intros Hnd H1 H2. apply reaches_bind. eapply reaches_weaken; [exact H1| |].
  - intros s1 [Ha1 Hu1]. eapply reaches_weaken; [apply H2| |].
    + intros s2 [Ha2 Hu2]. split; [by eapply adds_app|congruence].
    + by apply clash_app_r.
  - intros (gvk & t & t' & Hin & H). exists gvk, t, t'. split; [apply elem_of_app; by left|done].
Qed.

Lemma registers_named gvk t s : gvk.1.2 ≠ "" → registers [(gvk, t)] s (AddKnownTypeWithName gvk t s).
Proof.
  intros Hv. unfold AddKnownTypeWithName. rewrite bool_decide_false by done.
  destruct (addObservedVersion_tables gvk.1 s) as (H1 & H2 & H3). rewrite H1.
  set (s1 := addObservedVersion gvk.1 s) in *.
  assert ((∀ t', gvkToType s !! gvk = Some t' → t' = t) → registers [(gvk, t)] s (Returns (add_type gvk t s1))) as Hadd.
  { intros Hfit. split; [|done]. split.
    - intros gvk'. cbn. rewrite H1, !lookup_insert, lookup_empty. by case_decide.
    - intros Hwf. apply add_type_wf; [by rewrite H1|]. unfold wf_Scheme. by rewrite H1, H2.
    - intros gvk' t1 t2 [= -> ->]%list_elem_of_singleton. apply Hfit. }
  destruct (gvkToType s !! gvk) as [oldT|] eqn:Hold; [case_bool_decide as Hne|].
  - exists gvk, t, oldT. split_and!; [by apply list_elem_of_singleton|done..].
  - apply Hadd. intros t' [= <-]. done.
  - by apply Hadd.
Qed.

Definition named (gv : GroupVersion) (types : list GoType) : list (GroupVersionKind * GoType) := (λ t, ((gv, t.2), t)) <$> types.

Lemma registers_known gv types s :
  gv.2 ≠ "" → NoDup (named gv types).*1 → registers (named gv types) s (AddKnownTypes gv types s).
Proof.
  intros Hv Hnd. unfold AddKnownTypes.
  assert (∀ s, registers (named gv types) s (AddKnownTypes_loop gv types s)) as Hloop.
  { clear s. induction types as [|t types IH]; intros s; simpl; [by split; [apply adds_nil|]|].
    change (named gv (t :: types)) with ([((gv, t.2), t)] ++ named gv types) in *.
    apply (registers_bind [((gv, t.2), t)] (named gv types)); [done|by apply registers_named|]. intros s'. apply IH.
    rewrite fmap_app in Hnd. by apply NoDup_app in Hnd as (_ & _ & ?). }
  destruct (addObservedVersion_tables gv s) as (H1 & H2 & H3).
  eapply reaches_weaken; [apply Hloop| |].
  - intros s' [[Ht Hw Hf] Hu]. split; [split|congruence].
    + intros gvk. by rewrite Ht, H1.
    + intros Hwf. apply Hw. unfold wf_Scheme. by rewrite H1, H2.
    + intros gvk t t'. rewrite <-H1. apply Hf.
  - unfold clash. by rewrite H1.
Qed.

(** The unversioned kinds of a registration, and a clash with those there are. *)
Definition unversioned (types : list GoType) : list (string * GoType) := (λ t, (t.2, t)) <$> types.

Definition kind_clash (types : list GoType) (s : Scheme) : Prop :=
  ∃ t t', t ∈ types ∧ unversionedKinds s !! t.2 = Some t' ∧ t' ≠ t.

Lemma AddUnversionedTypes_loop_spec v types s :
  NoDup (unversioned types).*1 →
  reaches (AddUnversionedTypes_loop v types s) (λ s',
    gvkToType s' = gvkToType s ∧ typeToGVK s' = typeToGVK s ∧ (∀ t t', t ∈ types → unversionedKinds s !! t.2 = Some t' → t' = t) ∧
    ∀ k, unversionedKinds s' !! k = match (list_to_map (unversioned types) : gmap string GoType) !! k with
                                    | Some t => Some t | None => unversionedKinds s !! k end)
    (kind_clash types s).
Proof.
  revert s. induction types as [|t types IH]; intros s Hnd.
  { split_and!; [done..|by intros t t' ?%elem_of_nil|]. intros k. cbn. by rewrite lookup_empty. }
  apply NoDup_cons in Hnd as [Ht Hnd]. cbn [AddUnversionedTypes_loop]. set (add := Build_Scheme _ _ _ (<[t.2 := t]> _) _).
  assert (∀ t', t' ∈ types → t.2 ≠ t'.2) as Hne.
  { intros t' Hin Heq. apply Ht. cbn. rewrite Heq. apply (list_elem_of_fmap_2 fst _ (t'.2, t')).
    by apply (list_elem_of_fmap_2 (λ t, (t.2, t))). }
  assert ((∀ old, unversionedKinds s !! t.2 = Some old → old = t) →
    reaches (AddUnversionedTypes_loop v types add) (λ s',
      gvkToType s' = gvkToType s ∧ typeToGVK s' = typeToGVK s ∧
      (∀ t0 t', t0 ∈ t :: types → unversionedKinds s !! t0.2 = Some t' → t' = t0) ∧
      ∀ k, unversionedKinds s' !! k = match (list_to_map (unversioned (t :: types)) : gmap string GoType) !! k with
                                      | Some t => Some t | None => unversionedKinds s !! k end) (kind_clash (t :: types) s)) as Hrest.
  { intros Hfit. eapply reaches_weaken; [by apply IH| |].
    - intros s' (H1 & H2 & H3 & H4). split_and!; [done..| |].
      + intros t0 t' [->|Hin]%elem_of_cons Hl; [by apply Hfit|]. apply (H3 _ _ Hin). unfold add. cbn.
        by rewrite lookup_insert_ne by auto.
      + intros k. rewrite H4. unfold add. cbn. rewrite !lookup_insert. case_decide as Hk; [subst k|done].
        by rewrite (not_elem_of_list_to_map_1 (unversioned types) t.2).
    - intros (t0 & t' & Hin & Hl & Hd). exists t0, t'. split_and!; [by right| |done]. unfold add in Hl. cbn in Hl.
      by rewrite lookup_insert_ne in Hl by auto. }
  cbn [unversionedKinds]. destruct (unversionedKinds s !! t.2) as [old|] eqn:Hold; [case_bool_decide as Hd|].
  - exists t, old. split_and!; [left|done|done].
  - apply Hrest. intros old' [= <-]. by symmetry.
  - by apply Hrest.
Qed.

(** The types that [AddToScheme] registers. *)
Definition taskgroup_kinds : list (GroupVersionKind * GoType) :=
  named v1alpha1_GroupVersion [taskgroup_type "TaskGroup"; taskgroup_type "TaskGroupList"].

Definition meta_kinds (gv : GroupVersion) : list (GroupVersionKind * GoType) :=
  [((gv, "WatchEvent"), metav1 "WatchEvent")] ++ [(((gv.1, APIVersionInternal), "WatchEvent"), metav1 "InternalEvent")] ++
  named gv optionsTypes ++ named Unversioned unversioned_types.

Definition our_kinds : list (GroupVersionKind * GoType) := taskgroup_kinds ++ meta_kinds v1alpha1_GroupVersion.

(** What becomes of a scheme that the types are registered in. *)
Record registered (s s' : Scheme) : Prop := {
  registered_adds : adds our_kinds s s';
  registered_fits t t' : t ∈ unversioned_types → unversionedKinds s !! t.2 = Some t' → t' = t;
  registered_unversioned k : unversionedKinds s' !! k =
    match (list_to_map (unversioned unversioned_types) : gmap string GoType) !! k with
    | Some t => Some t | None => unversionedKinds s !! k
    end
}.

(** All of the registration but the unversioned kinds. *)
Definition add_kinds (s : Scheme) : outcome Scheme :=
  s ← AddKnownTypes v1alpha1_GroupVersion [taskgroup_type "TaskGroup"; taskgroup_type "TaskGroupList"] s;
  s ← AddKnownTypeWithName (v1alpha1_GroupVersion, "WatchEvent") (metav1 "WatchEvent") s;
  s ← AddKnownTypeWithName ((GroupName, APIVersionInternal), "WatchEvent") (metav1 "InternalEvent") s;
  s ← AddKnownTypes v1alpha1_GroupVersion optionsTypes s;
  AddKnownTypes Unversioned unversioned_types (addObservedVersion Unversioned s).

Lemma add_kinds_registers s : registers our_kinds s (add_kinds s).
Proof.
  assert (NoDup our_kinds.*1) as Hnd by (apply (bool_decide_unpack _); vm_compute; exact I).
  assert (∀ s, registers (named Unversioned unversioned_types) s
    (AddKnownTypes Unversioned unversioned_types (addObservedVersion Unversioned s))) as Hlast.
  { clear s. intros s. destruct (addObservedVersion_tables Unversioned s) as (H1 & H2 & H3).
    eapply reaches_weaken; [apply registers_known; [done|apply (bool_decide_unpack _); vm_compute; exact I]| |].
    - intros s' [[Ht Hw Hf] Hu]. split; [split|congruence].
      + intros gvk. by rewrite Ht, H1.
      + intros Hwf. apply Hw. unfold wf_Scheme. by rewrite H1, H2.
      + intros gvk t t'. rewrite <-H1. apply Hf.
    - unfold clash. by rewrite H1. }
  unfold add_kinds, our_kinds, taskgroup_kinds, meta_kinds in *. revert s.
  repeat (intros ?; apply registers_bind;
    [exact Hnd|first [apply registers_known; [done|apply (bool_decide_unpack _); vm_compute; exact I]|apply registers_named; vm_compute; discriminate]|];
    revert Hnd; rewrite fmap_app; intros (_ & _ & Hnd)%NoDup_app).
  exact Hlast.
Qed.

(** The unversioned kinds come last. *)
Lemma addKnownTypes_eq s :
  addKnownTypes s = (s ← add_kinds s; s ← AddUnversionedTypes_loop Unversioned unversioned_types s; mret (None, s)).
Proof.
  unfold addKnownTypes, add_kinds, AddToGroupVersion, AddUnversionedTypes. change (v1alpha1_GroupVersion.1) with GroupName.
  unfold mbind, outcome_bind. repeat (match goal with |- context [match ?r with Returns _ => _ | Panics => _ end] =>
    match r with context [match _ with Returns _ => _ | Panics => _ end] => fail 1 | _ => destruct r; [|done] end end). done.
Qed.

Lemma SchemeBuilder_one f s : SchemeBuilder_AddToScheme [f] s = f s.
Proof. simpl. by destruct (f s) as [[[|] ?]|]. Qed.

(** What the error of [addKnownTypes] is. *)
Definition no_error (r : outcome Scheme) : outcome (option error * Scheme) :=
  match r with Returns s => Returns (None, s) | Panics => Panics end.

Lemma no_error_bind (r : outcome Scheme) (k : Scheme → outcome Scheme) :
  (s ← r; s ← k s; mret (None, s)) = no_error (r ≫= k).
Proof. by destruct r as [s|]. Qed.

Lemma AddToScheme_eq s :
  AddToScheme s = no_error (add_kinds s ≫= AddUnversionedTypes_loop Unversioned unversioned_types).
Proof. exact (eq_trans (SchemeBuilder_one addKnownTypes s) (eq_trans (addKnownTypes_eq s) (no_error_bind _ _))). Qed.

Lemma unversioned_NoDup : NoDup (unversioned unversioned_types).*1.
Proof. apply (bool_decide_unpack _). vm_compute. exact I. Qed.

(** The reason for a panic: a kind that has another type already. *)
Definition other_type (s : Scheme) : Prop := clash our_kinds s ∨ kind_clash unversioned_types s.

(** C40: [AddToScheme] makes the types of TaskGroups and the types of the API
    machinery for their group known to a scheme, under these kinds exactly,
    and leaves all other kinds as they are; the two tables of the scheme stay
    inverse to each other. It never returns an error, and it panics only if
    one of the kinds is known with another type already; so it can be called
    again, and on schemes that have other groups. *)
Theorem AddToScheme_registers s :
  match AddToScheme s with
  | Returns (err, s') => err = None ∧ registered s s'
  | Panics => other_type s
  end.
Proof.
  rewrite AddToScheme_eq. pose proof (add_kinds_registers s) as Hk. revert Hk. generalize (add_kinds s) as r. intros r Hk.
  destruct r as [s1|]; [|by left]. destruct Hk as [Hadds Hu].
  pose proof (AddUnversionedTypes_loop_spec Unversioned unversioned_types s1 unversioned_NoDup) as Hl. cbn [mbind outcome_bind].
  destruct (AddUnversionedTypes_loop Unversioned unversioned_types s1) as [s2|].
  - destruct Hl as (H1 & H2 & H3 & H4). split; [done|]. rewrite Hu in H3. split; [|exact H3|intros k; by rewrite H4, Hu].
    destruct Hadds as [Ht Hw Hf]. split; [by rewrite H1| |exact Hf]. intros Hwf%Hw. unfold wf_Scheme. by rewrite H1, H2.
  - right. unfold kind_clash. rewrite <-Hu. exact Hl.
Qed.

(** The schemes of the clientset and of its fake: each of the types has the one
    kind that the tracker of the fake stores its objects under. *)
Example init_Scheme_kinds :
  fake_scheme = clientset_Scheme ∧
  match clientset_Scheme with
  | Returns s =>
    ObjectKinds (taskgroup_type "TaskGroup") s = inr ([(v1alpha1_GroupVersion, "TaskGroup")], false) ∧
    ObjectKinds (taskgroup_type "TaskGroupList") s = inr ([(v1alpha1_GroupVersion, "TaskGroupList")], false) ∧
    Scheme_New (v1alpha1_GroupVersion, "TaskGroup") s = inr (taskgroup_type "TaskGroup") ∧
    observedVersions s = [("", "v1"); v1alpha1_GroupVersion]
  | Panics => False
  end.
Proof. split; [exact eq_refl|]. vm_compute. split_and!; reflexivity. Qed.
