(* ===== verification/Clientset.v ===== *)
(** The constructors of the clientset
    (pkg/client/clientset/versioned/clientset.go and
    typed/taskgroup/v1alpha1/taskgroup_client.go), with the constructors of REST
    clients they call (client-go's rest/config.go, rest/client.go and
    discovery/discovery_client.go): the rate limiters, the defaults and the
    errors. *)
From S2P Require Import Prelude GoStrings RunTypes Rest FakeClient.
From Stdlib Require Import QArith.
#[local] Open Scope Q_scope.

(** ** Configurations and clients *)

(** A [flowcontrol.RateLimiter]; [limiter_id] is its identity. *)
Record RateLimiter := { limiter_id : nat; limiter_qps : Q; limiter_burst : Z }.

(** [rest.Config]: the fields the constructors look into, and the rest. *)
Record Config := {
  Config_Host : string;
  Config_APIPath : string;
  Config_GroupVersion : option (string * string);
  (** whether there is a [NegotiatedSerializer] *)
  Config_NegotiatedSerializer : bool;
  Config_UserAgent : string;
  Config_QPS : Q;
  Config_Burst : Z;
  Config_RateLimiter : option RateLimiter;
  Config_Timeout : Z;
  Config_Other : json
}.

(** What is made of the address and of the TLS and proxy settings, and the
    user agent. *)
Class RestLibrary := {
  (** [defaultServerUrlFor(config)]: the path of the base URL and the versioned path *)
  defaultServerUrlFor : string → string → option (string * string) → json → fallible (string * string);
  (** [TransportFor(config)]: is it [http.DefaultTransport]? *)
  TransportFor : string → string → json → fallible bool;
  DefaultKubernetesUserAgent : string
}.

(** [*rest.RESTClient]: what its requests are made of, the group and version it
    was configured with, and its rate limiter *)
Record built := {
  built_client : RESTClient;
  built_GroupVersion : option (string * string);
  built_RateLimiter : option RateLimiter
}.

(** [*versioned.Clientset] *)
Record Clientset := {
  Clientset_customV1alpha1 : built;
  Clientset_DiscoveryClient : built
}.

Definition DefaultQPS : Q := 5.
Definition DefaultBurst : Z := 10.

(** [x > 0] and [x == 0] *)
Definition positive (q : Q) : bool := negb (Qle_bool q 0).

Definition set_RateLimiter (l : option RateLimiter) (c : Config) : Config := {|
  Config_Host := Config_Host c; Config_APIPath := Config_APIPath c; Config_GroupVersion := Config_GroupVersion c;
  Config_NegotiatedSerializer := Config_NegotiatedSerializer c; Config_UserAgent := Config_UserAgent c;
  Config_QPS := Config_QPS c; Config_Burst := Config_Burst c; Config_RateLimiter := l;
  Config_Timeout := Config_Timeout c; Config_Other := Config_Other c |}.

(** The customization of a configuration that leaves the rates open, for a
    number of controllers (knative's injection/sharedmain/main.go and
    injection/injection.go). *)
Definition default_rates (controllers : nat) (cfg : Config) : Config := {|
  Config_Host := Config_Host cfg; Config_APIPath := Config_APIPath cfg; Config_GroupVersion := Config_GroupVersion cfg;
  Config_NegotiatedSerializer := Config_NegotiatedSerializer cfg; Config_UserAgent := Config_UserAgent cfg;
  Config_QPS := if Qeq_bool (Config_QPS cfg) 0
                then inject_Z (Z.of_nat controllers) * DefaultQPS else Config_QPS cfg;
  Config_Burst := if bool_decide (Config_Burst cfg = 0%Z) then (Z.of_nat controllers * DefaultBurst)%Z else Config_Burst cfg;
  Config_RateLimiter := Config_RateLimiter cfg; Config_Timeout := Config_Timeout cfg; Config_Other := Config_Other cfg |}.

Section constructors.
Context {R : RestLibrary}.

(** ** REST clients

    A constructor is given the number of rate limiters there are, and returns
    the number there are then. *)

(** The rate limiter of [RESTClientFor] and [UnversionedRESTClientFor]. *)
Definition limiter_for (config : Config) (n : nat) : option RateLimiter * nat :=
  match Config_RateLimiter config with
  | Some rateLimiter => (Some rateLimiter, n)
  | None =>
    let qps := if Qeq_bool (Config_QPS config) 0 then DefaultQPS else Config_QPS config in
    let burst := if bool_decide (Config_Burst config = 0%Z) then DefaultBurst else Config_Burst config in
    if positive qps
    then (Some {| limiter_id := n; limiter_qps := qps; limiter_burst := burst |}, S n)
    else (None, n)
  end.

(** The part that both share, with [NewRESTClient]: the base path ends with a
    slash. *)
Definition NewRESTClientFor (config : Config) (n : nat) : fallible built * nat :=
  if negb (Config_NegotiatedSerializer config)
  then (inl (errorString "NegotiatedSerializer is required when initializing a RESTClient"), n)
  else
    match defaultServerUrlFor (Config_Host config) (Config_APIPath config) (Config_GroupVersion config) (Config_Other config) with
    | inl err => (inl err, n)
    | inr (baseURL, versionedAPIPath) =>
      match TransportFor (Config_Host config) (Config_UserAgent config) (Config_Other config) with
      | inl err => (inl err, n)
      | inr is_default =>
        let timeout := if negb is_default && bool_decide (0 < Config_Timeout config)%Z then Config_Timeout config else 0%Z in
        let '(rateLimiter, n) := limiter_for config n in
        (inr {|
          built_client := {|
            RESTClient_base_Path := if negb (HasSuffix baseURL "/") then baseURL +:+ "/" else baseURL;
            RESTClient_versionedAPIPath := versionedAPIPath; RESTClient_Timeout := timeout |};
          built_GroupVersion := Config_GroupVersion config;
          built_RateLimiter := rateLimiter |}, n)
      end
    end.

(** [func RESTClientFor(config *Config) ( *RESTClient, error)] *)
Definition RESTClientFor (config : Config) (n : nat) : fallible built * nat :=
  match Config_GroupVersion config with
  | None => (inl (errorString "GroupVersion is required when initializing a RESTClient"), n)
  | Some _ => NewRESTClientFor config n
  end.

(** ** The client of the group (taskgroup_client.go) *)

(** [func setConfigDefaults(config *rest.Config) error] *)
Definition setConfigDefaults (config : Config) : Config := {|
  Config_Host := Config_Host config; Config_APIPath := "/apis";
  Config_GroupVersion := Some ("custom.tekton.dev", "v1alpha1"); Config_NegotiatedSerializer := true;
  Config_UserAgent :=
    if bool_decide (Config_UserAgent config = "") then DefaultKubernetesUserAgent else Config_UserAgent config;
  Config_QPS := Config_QPS config; Config_Burst := Config_Burst config; Config_RateLimiter := Config_RateLimiter config;
  Config_Timeout := Config_Timeout config; Config_Other := Config_Other config |}.

(** [func NewForConfig(c *rest.Config) ( *CustomV1alpha1Client, error)] *)
Definition CustomV1alpha1_NewForConfig (c : Config) (n : nat) : fallible built * nat :=
  RESTClientFor (setConfigDefaults c) n.

(** A constructor whose error is a panic. *)
Definition or_die {A} (r : fallible A * nat) : outcome A * nat :=
  match r with (inl _, n) => (Panics, n) | (inr a, n) => (Returns a, n) end.

(** [func NewForConfigOrDie(c *rest.Config) *CustomV1alpha1Client] *)
Definition CustomV1alpha1_NewForConfigOrDie (c : Config) (n : nat) : outcome built * nat :=
  or_die (CustomV1alpha1_NewForConfig c n).

(** ** The discovery client *)
Definition discovery_defaultTimeout : Z := 32000000000.

(** [func setDiscoveryDefaults(config *restclient.Config) error] *)
Definition setDiscoveryDefaults (config : Config) : Config := {|
  Config_Host := Config_Host config; Config_APIPath := ""; Config_GroupVersion := None; Config_NegotiatedSerializer := true;
  Config_UserAgent :=
    if bool_decide (Config_UserAgent config = "") then DefaultKubernetesUserAgent else Config_UserAgent config;
  Config_QPS := Config_QPS config;
  Config_Burst :=
    if bool_decide (Config_Burst config = 0%Z) && negb (Qle_bool 100 (Config_QPS config)) then 100%Z else Config_Burst config;
  Config_RateLimiter := Config_RateLimiter config;
  Config_Timeout := if bool_decide (Config_Timeout config = 0%Z) then discovery_defaultTimeout else Config_Timeout config;
  Config_Other := Config_Other config |}.

(** [func NewDiscoveryClientForConfig(c *restclient.Config) ( *DiscoveryClient, error)] *)
Definition NewDiscoveryClientForConfig (c : Config) (n : nat) : fallible built * nat :=
  NewRESTClientFor (setDiscoveryDefaults c) n.

(** ** The clientset (clientset.go) *)

(** [func NewForConfig(c *rest.Config) ( *Clientset, error)] *)
Definition NewForConfig (c : Config) (n : nat) : fallible Clientset * nat :=
  let shallow :=
    if bool_decide (Config_RateLimiter c = None) && positive (Config_QPS c)
    then
      if bool_decide (Config_Burst c <= 0)%Z
      then (inl (errorString "burst is required to be greater than 0 when RateLimiter is not set and QPS is set to greater than 0"), n)
      else (inr (set_RateLimiter
                   (Some {| limiter_id := n; limiter_qps := Config_QPS c; limiter_burst := Config_Burst c |}) c), S n)
    else (inr c, n) in
  match shallow with
  | (inl err, n) => (inl err, n)
  | (inr configShallowCopy, n) =>
    match CustomV1alpha1_NewForConfig configShallowCopy n with
    | (inl err, n) => (inl err, n)
    | (inr customV1alpha1, n) =>
      match NewDiscoveryClientForConfig configShallowCopy n with
      | (inl err, n) => (inl err, n)
      | (inr discovery, n) =>
        (inr {| Clientset_customV1alpha1 := customV1alpha1; Clientset_DiscoveryClient := discovery |}, n)
      end
    end
  end.

(** [func NewForConfigOrDie(c *rest.Config) *Clientset] *)
Definition NewForConfigOrDie (c : Config) (n : nat) : outcome Clientset * nat :=
  match CustomV1alpha1_NewForConfigOrDie c n with
  | (Panics, n) => (Panics, n)
  | (Returns customV1alpha1, n) =>
    match or_die (NewDiscoveryClientForConfig c n) with
    | (Panics, n) => (Panics, n)
    | (Returns discovery, n) =>
      (Returns {| Clientset_customV1alpha1 := customV1alpha1; Clientset_DiscoveryClient := discovery |}, n)
    end
  end.

(** [func New(c rest.Interface) *Clientset] *)
Definition New (c : built) : Clientset :=
  {| Clientset_customV1alpha1 := c; Clientset_DiscoveryClient := c |}.

(** [func (c *Clientset) CustomV1alpha1() customv1alpha1.CustomV1alpha1Interface]:
    a nil pointer has no field to read. *)
Definition Clientset_CustomV1alpha1 (c : option Clientset) : outcome built :=
  match c with Some c => Returns (Clientset_customV1alpha1 c) | None => Panics end.

(** [func (c *Clientset) Discovery() discovery.DiscoveryInterface] *)
Definition Clientset_Discovery (c : option Clientset) : option built := Clientset_DiscoveryClient <$> c.

(** [func (c *CustomV1alpha1Client) RESTClient() rest.Interface] *)
Definition CustomV1alpha1Client_RESTClient (c : option built) : option RESTClient := built_client <$> c.

(** ** Lemmas *)

(** A client without its rate limiter. *)
Definition endpoint (b : built) : RESTClient * option (string * string) := (built_client b, built_GroupVersion b).

(** The rate limiter does not matter for the rest of a client. *)
Lemma NewRESTClientFor_limiter config l n m :
  match (NewRESTClientFor config n).1, (NewRESTClientFor (set_RateLimiter l config) m).1 with
  | inl err, inl err' => err = err'
  | inr b, inr b' => endpoint b = endpoint b'
  | _, _ => False
  end.
Proof.
  unfold NewRESTClientFor. cbn. destruct (Config_NegotiatedSerializer config); [|done]. cbn.
  destruct (defaultServerUrlFor _ _ _ _) as [|[baseURL path]]; [done|]. destruct (TransportFor _ _ _); [done|].
  destruct (limiter_for config n), (limiter_for (set_RateLimiter l config) m). done.
Qed.

(** A client has the limiter of its configuration. *)
Lemma NewRESTClientFor_built config n b n' :
  NewRESTClientFor config n = (inr b, n') → (built_RateLimiter b, n') = limiter_for config n.
Proof.
  unfold NewRESTClientFor. destruct (negb _); [done|]. destruct (defaultServerUrlFor _ _ _ _) as [|[baseURL path]]; [done|].
  destruct (TransportFor _ _ _); [done|]. destruct (limiter_for config n). by intros [= <- <-].
Qed.

(** Why it is, when the configuration has one and when it has none but a rate. *)
Lemma limiter_for_given config n l : Config_RateLimiter config = Some l → limiter_for config n = (Some l, n).
Proof. unfold limiter_for. by intros ->. Qed.

Lemma limiter_for_new config n :
  Config_RateLimiter config = None → positive (Config_QPS config) = true →
  ∃ burst, limiter_for config n = (Some {| limiter_id := n; limiter_qps := Config_QPS config; limiter_burst := burst |}, S n).
Proof.
  unfold limiter_for. intros -> Hqps. cbv zeta.
  destruct (Qeq_bool (Config_QPS config) 0) eqn:Hzero; [|rewrite Hqps; by eexists].
  apply Qeq_bool_eq in Hzero. unfold positive in Hqps. apply negb_true_iff in Hqps.
  rewrite (proj2 (Qle_bool_iff _ _)) in Hqps; [done|]. rewrite Hzero. apply Qle_refl.
Qed.

(** The two clients that the constructors of a clientset make in turn. *)
Definition two_clients (c : Config) (n : nat) : fallible Clientset * nat :=
  match NewRESTClientFor (setConfigDefaults c) n with
  | (inl err, n) => (inl err, n)
  | (inr b, n) =>
    match NewRESTClientFor (setDiscoveryDefaults c) n with
    | (inl err, n) => (inl err, n)
    | (inr d, n) => (inr {| Clientset_customV1alpha1 := b; Clientset_DiscoveryClient := d |}, n)
    end
  end.

Lemma NewForConfigOrDie_two_clients c n : NewForConfigOrDie c n = or_die (two_clients c n).
Proof.
  unfold NewForConfigOrDie, two_clients, CustomV1alpha1_NewForConfigOrDie, CustomV1alpha1_NewForConfig, NewDiscoveryClientForConfig.
  cbn [RESTClientFor setConfigDefaults Config_GroupVersion].
  change (RESTClientFor (setConfigDefaults c) n) with (NewRESTClientFor (setConfigDefaults c) n).
  destruct (NewRESTClientFor (setConfigDefaults c) n) as [[|] n1]; [done|]. cbn [or_die].
  by destruct (NewRESTClientFor (setDiscoveryDefaults c) n1) as [[|] n2].
Qed.

Lemma two_clients_limiter c l n m :
  match (two_clients c n).1, (two_clients (set_RateLimiter l c) m).1 with
  | inl err, inl err' => err = err'
  | inr cs, inr cs' =>
    endpoint (Clientset_customV1alpha1 cs) = endpoint (Clientset_customV1alpha1 cs') ∧
    endpoint (Clientset_DiscoveryClient cs) = endpoint (Clientset_DiscoveryClient cs')
  | _, _ => False
  end.
Proof.
  unfold two_clients.
  change (setConfigDefaults (set_RateLimiter l c)) with (set_RateLimiter l (setConfigDefaults c)).
  change (setDiscoveryDefaults (set_RateLimiter l c)) with (set_RateLimiter l (setDiscoveryDefaults c)).
  pose proof (NewRESTClientFor_limiter (setConfigDefaults c) l n m) as H.
  destruct (NewRESTClientFor (setConfigDefaults c) n) as [[e1|b1] n1],
    (NewRESTClientFor (set_RateLimiter l (setConfigDefaults c)) m) as [[e2|b2] n2]; cbn [fst] in *; try done.
  pose proof (NewRESTClientFor_limiter (setDiscoveryDefaults c) l n1 n2) as H'.
  destruct (NewRESTClientFor (setDiscoveryDefaults c) n1) as [[e3|b3] n3],
    (NewRESTClientFor (set_RateLimiter l (setDiscoveryDefaults c)) n2) as [[e4|b4] n4]; cbn [fst] in *; done.
Qed.

(** The limiters of the two clients. *)
Lemma two_clients_limiters c n cs n' :
  two_clients c n = (inr cs, n') →
  ∃ n1, limiter_for (setConfigDefaults c) n = (built_RateLimiter (Clientset_customV1alpha1 cs), n1) ∧
    limiter_for (setDiscoveryDefaults c) n1 = (built_RateLimiter (Clientset_DiscoveryClient cs), n').
Proof.
  unfold two_clients.
  destruct (NewRESTClientFor (setConfigDefaults c) n) as [[|b] n1] eqn:Hb; [done|].
  destruct (NewRESTClientFor (setDiscoveryDefaults c) n1) as [[|d] n2] eqn:Hd; [done|].
  intros [= <- <-]. exists n1. by rewrite <- (NewRESTClientFor_built _ _ _ _ Hb), <- (NewRESTClientFor_built _ _ _ _ Hd).
Qed.

(** A burst that [NewForConfig] rejects. *)
Definition bad_burst (c : Config) : Prop :=
  Config_RateLimiter c = None ∧ positive (Config_QPS c) = true ∧ (Config_Burst c <= 0)%Z.

(** The configuration [NewForConfig] makes the clients from. *)
Inductive shallow_copy (c : Config) (n : nat) : Config → nat → Prop :=
  | copy_as_it_is : ¬ (Config_RateLimiter c = None ∧ positive (Config_QPS c) = true) → shallow_copy c n c n
  | copy_with_limiter :
    Config_RateLimiter c = None → positive (Config_QPS c) = true → (0 < Config_Burst c)%Z →
    shallow_copy c n
      (set_RateLimiter (Some {| limiter_id := n; limiter_qps := Config_QPS c; limiter_burst := Config_Burst c |}) c) (S n).

Lemma NewForConfig_cases c n :
  (bad_burst c ∧ ∃ err, NewForConfig c n = (inl err, n)) ∨
  ∃ c' n', shallow_copy c n c' n' ∧ NewForConfig c n = two_clients c' n'.
Proof.
  unfold NewForConfig.
  assert (∀ c n, match CustomV1alpha1_NewForConfig c n with
    | (inl err, n) => (inl err, n)
    | (inr b, n) =>
      match NewDiscoveryClientForConfig c n with
      | (inl err, n) => (inl err, n)
      | (inr d, n) => (inr {| Clientset_customV1alpha1 := b; Clientset_DiscoveryClient := d |}, n)
      end
    end = two_clients c n) as Htwo by done.
  destruct (bool_decide (Config_RateLimiter c = None) && positive (Config_QPS c)) eqn:Hlimit.
  - apply andb_true_iff in Hlimit as [Hnone%bool_decide_eq_true Hqps].
    case_bool_decide as Hburst; [left|right]; [split; [done|by eexists]|].
    rewrite Htwo. do 2 eexists. split; [|done]. constructor; [done..|lia].
  - right. rewrite Htwo. exists c, n. split; [|done]. constructor. intros [Hnone Hqps].
    rewrite Hnone, Hqps in Hlimit. done.
Qed.
End constructors.

(** [NewForConfig] returns the clientset of [NewForConfigOrDie], with the same
    endpoints, and fails where that panics, with one exception: a rate without
    a positive burst is an error of [NewForConfig] only. The clients of
    [NewForConfig] share one rate limiter, of the configuration or new; those
    of [NewForConfigOrDie] have a limiter each, so that together they may send
    twice as much, unless the configuration has one. *)
Theorem NewForConfig_agrees `{RestLibrary} c n :
  match (NewForConfig c n).1, (NewForConfigOrDie c n).1 with
  | inr cs, Returns cs' =>
    ¬ bad_burst c ∧
    endpoint (Clientset_customV1alpha1 cs) = endpoint (Clientset_customV1alpha1 cs') ∧
    endpoint (Clientset_DiscoveryClient cs) = endpoint (Clientset_DiscoveryClient cs') ∧
    (is_Some (Config_RateLimiter c) ∨ positive (Config_QPS c) = true →
     built_RateLimiter (Clientset_customV1alpha1 cs) = built_RateLimiter (Clientset_DiscoveryClient cs)) ∧
    (Config_RateLimiter c = None → positive (Config_QPS c) = true →
     ∃ l l', built_RateLimiter (Clientset_customV1alpha1 cs') = Some l ∧
       built_RateLimiter (Clientset_DiscoveryClient cs') = Some l' ∧ limiter_id l ≠ limiter_id l' ∧
       limiter_qps l = Config_QPS c ∧ limiter_qps l' = Config_QPS c)
  | inl _, Panics => True
  | inl _, Returns _ => bad_burst c
  | inr _, Panics => False
  end.
Proof.
  rewrite NewForConfigOrDie_two_clients.
  destruct (NewForConfig_cases c n) as [[Hbad [err ->]]|(c' & n' & Hcopy & ->)].
  { cbn [fst]. by destruct (two_clients c n) as [[|] ?]. }
  assert (¬ bad_burst c) as Hgood by (intros (? & ? & ?); destruct Hcopy; [tauto|lia]).
  assert (∃ l, c' = set_RateLimiter l c) as [l Hl].
  { destruct Hcopy; [exists (Config_RateLimiter c); by destruct c|by eexists]. }
  pose proof (two_clients_limiter c l n n') as Hsame. rewrite <- Hl in Hsame.
  destruct (two_clients c n) as [[|cs'] m'] eqn:Hdie, (two_clients c' n') as [[|cs] m] eqn:Hnew; cbn [fst or_die] in *; try done.
  destruct Hsame as [Hcustom Hdiscovery]. split_and!; [done..| |].
  - intros Hshare. assert (∃ l', Config_RateLimiter c' = Some l') as [l' Hgiven].
    { destruct Hcopy as [Hnot|]; [|by eexists]. destruct Hshare as [[l' ?]|?]; [by exists l'|].
      destruct (Config_RateLimiter c) eqn:?; [by eexists|]. by destruct Hnot. }
    destruct (two_clients_limiters _ _ _ _ Hnew) as (n1 & H1 & H2).
    rewrite (limiter_for_given (setConfigDefaults c') _ l' Hgiven) in H1.
    rewrite (limiter_for_given (setDiscoveryDefaults c') _ l' Hgiven) in H2. congruence.
  - intros Hnone Hqps. destruct (two_clients_limiters _ _ _ _ Hdie) as (n1 & H1 & H2).
    destruct (limiter_for_new (setConfigDefaults c) n) as [b1 Hb1]; [done..|].
    destruct (limiter_for_new (setDiscoveryDefaults c) n1) as [b2 Hb2]; [done..|].
    rewrite Hb1 in H1. rewrite Hb2 in H2. injection H1 as <- <-. injection H2 as <- _.
    do 2 eexists. split_and!; [done..| |done|done]. cbn. lia.
Qed.

(** A library that takes every address as it is, and configurations without a
    rate, with a rate and a burst, and with a rate only. *)
Module ClientsetSample.
#[export] Instance library : RestLibrary := {|
  defaultServerUrlFor host path gv _ := inr (path, match gv with Some (g, v) => path +:+ "/" +:+ g +:+ "/" +:+ v | None => path end);
  TransportFor _ _ _ := inr false;
  DefaultKubernetesUserAgent := "controller"
|}.

Definition config (qps : Q) (burst : Z) : Config := {|
  Config_Host := "https://10.0.0.1"; Config_APIPath := ""; Config_GroupVersion := None; Config_NegotiatedSerializer := false;
  Config_UserAgent := ""; Config_QPS := qps; Config_Burst := burst; Config_RateLimiter := None; Config_Timeout := 0;
  Config_Other := JNull |}.

Definition no_rates : Config := config 0 0.

Definition limiters (r : fallible Clientset * nat) : option (option RateLimiter * option RateLimiter) :=
  match r.1 with
  | inr cs => Some (built_RateLimiter (Clientset_customV1alpha1 cs), built_RateLimiter (Clientset_DiscoveryClient cs))
  | inl _ => None
  end.

Example default_rates : limiters (NewForConfig no_rates 0) =
  Some (Some {| limiter_id := 0; limiter_qps := 5; limiter_burst := 10 |},
        Some {| limiter_id := 1; limiter_qps := 5; limiter_burst := 100 |}).
Proof. vm_compute. reflexivity. Qed.

Example shared_rate : limiters (NewForConfig (config 20 30) 0) =
  Some (Some {| limiter_id := 0; limiter_qps := 20; limiter_burst := 30 |},
        Some {| limiter_id := 0; limiter_qps := 20; limiter_burst := 30 |}).
Proof. vm_compute. reflexivity. Qed.

Example rate_only : limiters (NewForConfig (config 20 0) 0) = None ∧
  match (NewForConfigOrDie (config 20 0) 0).1 with Returns _ => True | Panics => False end.
Proof. split; [vm_compute; reflexivity | vm_compute; exact I]. Qed.

Example custom_path : match (NewForConfig (config 20 30) 0).1 with
  | inr cs => RESTClient_versionedAPIPath <$> CustomV1alpha1Client_RESTClient (Some (Clientset_customV1alpha1 cs))
  | inl _ => None
  end = Some "/apis/custom.tekton.dev/v1alpha1".
Proof. vm_compute. reflexivity. Qed.
End ClientsetSample.
