(* ===== verification/Injection.v ===== *)
(** pkg/client/injection: how a process gets its client, its informer factories
    and its informers of TaskGroups out of a context. The packages client/,
    informers/factory/, informers/factory/filtered/ and
    informers/taskgroup/v1alpha1/taskgroup/ with their filtered/ and fake/
    variants, the injectors run by knative's injection package
    (injection/interface.go, clients.go, factories.go, informers.go,
    injection.go, context.go), and cmd/controller/main.go, which starts it all.

    A context is the list of what was associated with it; factories, fake
    clientsets and the listers over a dynamic client are objects of a heap. A
    call panics or returns with the heap it leaves. *)
From S2P Require Import Prelude GoStrings Types Conditions RunTypes Listers InformerFactory Rest Wiring Clients FakeClient Clientset.

(** ** Contexts *)

(** The types of the keys, of which [filteredFactory_Key] and
    [filteredTaskgroup_Key] have a selector. *)
Inductive ctx_key : Type :=
  | nsKey | cfgKey | rvKey | resyncPeriodKey | dynamicclient_Key
  | client_Key
  | factory_Key
  | filteredFactory_LabelKey
  | filteredFactory_Key (Selector : string)
  | taskgroup_Key
  | filteredTaskgroup_Key (Selector : string)
  | other_Key (type : string).

#[export] Instance ctx_key_EqDecision : EqDecision ctx_key.
Proof. solve_decision. Defined.

(** [versioned.Interface]: a clientset, a fake one (a pointer), or
    [*wrapClient] around a dynamic client. *)
Inductive versioned_Interface : Type :=
  | ClientsetClient (cs : Clientset)
  | FakeClient (p : nat)
  | WrapClient (w : wrapClient).

(** [*taskGroupInformer], of the factory at an address *)
Record taskGroupInformer := {
  taskGroupInformer_factory : nat;
  taskGroupInformer_tweakListOptions : option TweakListOptionsFunc;
  taskGroupInformer_namespace : string
}.

(** [type wrapper struct] of informers/taskgroup/v1alpha1/taskgroup and of its
    filtered variant *)
Record wrapper := { wrapper_client : versioned_Interface; wrapper_namespace : string; wrapper_resourceVersion : string }.
Record filtered_wrapper := { filtered_client : versioned_Interface; filtered_namespace : string; filtered_selector : string }.

(** [v1alpha1.TaskGroupInformer] *)
Inductive TaskGroupInformer : Type :=
  | SharedTaskGroupInformer (inf : taskGroupInformer)
  | WrapperInformer (p : nat)
  | FilteredWrapperInformer (w : filtered_wrapper).

Inductive ctx_value : Type :=
  | StringValue (s : string)
  | StringsValue (l : list string)
  | DurationValue (d : Z)
  | ConfigValue (c : Config)
  | DynamicValue (dyn : RESTClient)
  | ClientValue (c : versioned_Interface)
  | FactoryValue (p : nat)
  | InformerValue (i : TaskGroupInformer)
  | OtherValue (v : json).

(** [context.Context] *)
Definition context : Type := list (ctx_key * ctx_value).

(** [context.WithValue(ctx, key, val)] and [ctx.Value(key)] *)
Definition WithValue (ctx : context) (key : ctx_key) (val : ctx_value) : context := (key, val) :: ctx.

Fixpoint Value (ctx : context) (key : ctx_key) : option ctx_value :=
  match ctx with
  | [] => None
  | (k, v) :: ctx => if bool_decide (k = key) then Some v else Value ctx key
  end.

(** ** The heap *)
Record heap := {
  (** the number of rate limiters *)
  heap_limiters : nat;
  heap_fakes : list Fake;
  (** factories, each with its client *)
  heap_factories : list (versioned_Interface * sharedInformerFactory);
  heap_wrappers : list wrapper
}.

Definition set_limiters (n : nat) (h : heap) : heap :=
  {| heap_limiters := n; heap_fakes := heap_fakes h; heap_factories := heap_factories h; heap_wrappers := heap_wrappers h |}.
Definition set_fakes (l : list Fake) (h : heap) : heap :=
  {| heap_limiters := heap_limiters h; heap_fakes := l; heap_factories := heap_factories h; heap_wrappers := heap_wrappers h |}.
Definition set_factories (l : list (versioned_Interface * sharedInformerFactory)) (h : heap) : heap :=
  {| heap_limiters := heap_limiters h; heap_fakes := heap_fakes h; heap_factories := l; heap_wrappers := heap_wrappers h |}.
Definition set_wrappers (l : list wrapper) (h : heap) : heap :=
  {| heap_limiters := heap_limiters h; heap_fakes := heap_fakes h; heap_factories := heap_factories h; heap_wrappers := l |}.

(** Calls on the heap, which may panic. *)
Definition action (A : Type) : Type := heap → outcome (A * heap).

#[export] Instance action_ret : MRet action := λ A a h, Returns (a, h).
#[export] Instance action_bind : MBind action := λ A B k m h,
  match m h with Returns (a, h) => k a h | Panics => Panics end.

Definition panic {A} : action A := λ _, Panics.

(** A loop that threads a context. *)
Fixpoint for_range {A B} (body : B → A → action B) (l : list A) (b : B) : action B :=
  match l with
  | [] => mret b
  | a :: l => b ← body b a; for_range body l b
  end.

(** ** injection/context.go, controller.GetResyncPeriod *)
Definition WithNamespaceScope (ctx : context) (namespace : string) : context := WithValue ctx nsKey (StringValue namespace).

Definition GetNamespaceScope (ctx : context) : action string :=
  match Value ctx nsKey with None => mret "" | Some (StringValue s) => mret s | Some _ => panic end.

Definition HasNamespaceScope (ctx : context) : action bool :=
  s ← GetNamespaceScope ctx; mret (negb (bool_decide (s = ""))).

Definition WithConfig (ctx : context) (cfg : Config) : context := WithValue ctx cfgKey (ConfigValue cfg).

Definition GetResourceVersion (ctx : context) : action string :=
  match Value ctx rvKey with None => mret "" | Some (StringValue s) => mret s | Some _ => panic end.

Definition DefaultResyncPeriod : Z := 36000000000000.

Definition GetResyncPeriod (ctx : context) : action Z :=
  match Value ctx resyncPeriodKey with None => mret DefaultResyncPeriod | Some (DurationValue d) => mret d | Some _ => panic end.

Definition dynamicclient_Get (ctx : context) : action RESTClient :=
  match Value ctx dynamicclient_Key with Some (DynamicValue dyn) => mret dyn | _ => panic end.

Section injection.
Context {R : RestLibrary}.

(** ** Clients (client/client.go) *)

(** [func withClientFromConfig(ctx context.Context, cfg *rest.Config) context.Context] *)
Definition withClientFromConfig (ctx : context) (cfg : Config) : action context := λ h,
  match NewForConfigOrDie cfg (heap_limiters h) with
  | (Panics, _) => Panics
  | (Returns cs, n) => Returns (WithValue ctx client_Key (ClientValue (ClientsetClient cs)), set_limiters n h)
  end.

(** [func withClientFromDynamic(ctx context.Context) context.Context] *)
Definition withClientFromDynamic (ctx : context) : action context :=
  dyn ← dynamicclient_Get ctx; mret (WithValue ctx client_Key (ClientValue (WrapClient {| wrapClient_dyn := dyn |}))).

(** [func Get(ctx context.Context) versioned.Interface]: the message of the
    panic depends on whether there is a configuration *)
Definition client_Get (ctx : context) : action versioned_Interface :=
  match Value ctx client_Key with Some (ClientValue c) => mret c | _ => panic end.

(** ** Informer factories (informers/factory/factory.go) *)

(** [externalversions.NewSharedInformerFactoryWithOptions(c, defaultResync, opts...)] *)
Definition new_factory (c : versioned_Interface) (defaultResync : Z) (opts : list SharedInformerOption) : action nat := λ h,
  Returns (length (heap_factories h),
           set_factories (heap_factories h ++ [(c, NewSharedInformerFactoryWithOptions defaultResync opts)]) h).

(** The options of a factory that restrict it to the namespace of the context. *)
Definition namespace_options (ctx : context) : action (list SharedInformerOption) :=
  has ← HasNamespaceScope ctx;
  if has : bool then namespace ← GetNamespaceScope ctx; mret [WithNamespace namespace] else mret [].

(** [func withInformerFactory(ctx context.Context) context.Context] *)
Definition withInformerFactory (ctx : context) : action context :=
  c ← client_Get ctx;
  opts ← namespace_options ctx;
  resync ← GetResyncPeriod ctx;
  p ← new_factory c resync opts;
  mret (WithValue ctx factory_Key (FactoryValue p)).

(** [func Get(ctx context.Context) externalversions.SharedInformerFactory] *)
Definition factory_Get (ctx : context) : action nat :=
  match Value ctx factory_Key with Some (FactoryValue p) => mret p | _ => panic end.

(** ** Filtered factories (informers/factory/filtered/filtered_factory.go) *)

(** [func WithSelectors(ctx context.Context, selector ...string) context.Context] *)
Definition WithSelectors (ctx : context) (selector : list string) : context :=
  WithValue ctx filteredFactory_LabelKey (StringsValue selector).

Definition GetSelectors (ctx : context) : action (list string) :=
  match Value ctx filteredFactory_LabelKey with Some (StringsValue l) => mret l | _ => panic end.

(** [func(l *v1.ListOptions) { l.LabelSelector = selector }], when the variable
    that it refers to holds [selector] *)
Definition set_LabelSelector (selector : string) : TweakListOptionsFunc := λ l, {|
  ListOptions_LabelSelector := selector; ListOptions_Watch := ListOptions_Watch l;
  ListOptions_TimeoutSeconds := ListOptions_TimeoutSeconds l; ListOptions_Other := ListOptions_Other l |}.

(** One round of the loop, given the value that the loop's variable [selector]
    has when the closures run. *)
Definition add_filtered_factory (c : versioned_Interface) (variable : string) (ctx : context) (selector : string) : action context :=
  opts ← namespace_options ctx;
  resync ← GetResyncPeriod ctx;
  p ← new_factory c resync (opts ++ [WithTweakListOptions (Some (set_LabelSelector variable))]);
  mret (WithValue ctx (filteredFactory_Key selector) (FactoryValue p)).

(** [func withInformerFactory(ctx context.Context) context.Context]. The module
    is one of Go 1.16, whose range loops have one variable for all their
    rounds: no closure runs before the loop is over, and then the variable
    holds the last selector. *)
Definition filteredFactory_withInformerFactory (ctx : context) : action context :=
  c ← client_Get ctx;
  labelSelectors ← GetSelectors ctx;
  for_range (add_filtered_factory c (default "" (last labelSelectors))) labelSelectors ctx.

(** [func Get(ctx context.Context, selector string) externalversions.SharedInformerFactory] *)
Definition filteredFactory_Get (ctx : context) (selector : string) : action nat :=
  match Value ctx (filteredFactory_Key selector) with Some (FactoryValue p) => mret p | _ => panic end.

(** ** Informers (informers/taskgroup/v1alpha1/taskgroup/taskgroup.go) *)

(** [type group struct] and [type version struct]
    (informers/externalversions/taskgroup/interface.go and v1alpha1/interface.go),
    with the factory at an address, as [New] makes them *)
Record group := {
  group_factory : nat;
  group_namespace : string;
  group_tweakListOptions : option TweakListOptionsFunc
}.
Record version := {
  version_factory : nat;
  version_namespace : string;
  version_tweakListOptions : option TweakListOptionsFunc
}.

(** [func New(f, namespace, tweakListOptions) Interface] of both packages *)
Definition taskgroup_New (f : nat) (namespace : string) (tweakListOptions : option TweakListOptionsFunc) : group :=
  {| group_factory := f; group_namespace := namespace; group_tweakListOptions := tweakListOptions |}.
Definition v1alpha1_New (f : nat) (namespace : string) (tweakListOptions : option TweakListOptionsFunc) : version :=
  {| version_factory := f; version_namespace := namespace; version_tweakListOptions := tweakListOptions |}.

(** [func (f *sharedInformerFactory) Custom() taskgroup.Interface] *)
Definition sharedInformerFactory_Custom (p : nat) : action group := λ h,
  match heap_factories h !! p with
  | Some (_, f) => Returns (taskgroup_New p (factory_namespace f) (factory_tweakListOptions f), h)
  | None => Panics
  end.

(** [func (g *group) V1alpha1() v1alpha1.Interface] *)
Definition group_V1alpha1 (g : group) : version := v1alpha1_New (group_factory g) (group_namespace g) (group_tweakListOptions g).

(** [func (v *version) TaskGroups() TaskGroupInformer] *)
Definition version_TaskGroups (v : version) : taskGroupInformer := {|
  taskGroupInformer_factory := version_factory v; taskGroupInformer_tweakListOptions := version_tweakListOptions v;
  taskGroupInformer_namespace := version_namespace v |}.

(** [f.Custom().V1alpha1().TaskGroups()] *)
Definition Custom_V1alpha1_TaskGroups (p : nat) : action taskGroupInformer :=
  g ← sharedInformerFactory_Custom p; mret (version_TaskGroups (group_V1alpha1 g)).

(** [inf.Informer()] *)
Definition taskGroupInformer_Informer (inf : taskGroupInformer) : action Informer := λ h,
  match heap_factories h !! taskGroupInformer_factory inf with
  | Some (c, f) =>
    let '(i, f) := InformerFor TaskGroup_type
                     (defaultInformer (taskGroupInformer_namespace inf) (taskGroupInformer_tweakListOptions inf)) f in
    Returns (i, set_factories (<[taskGroupInformer_factory inf := (c, f)]> (heap_factories h)) h)
  | None => Panics
  end.

(** [func withInformer(ctx context.Context) (context.Context, controller.Informer)] *)
Definition withInformer (ctx : context) : action (context * Informer) :=
  f ← factory_Get ctx;
  inf ← Custom_V1alpha1_TaskGroups f;
  i ← taskGroupInformer_Informer inf;
  mret (WithValue ctx taskgroup_Key (InformerValue (SharedTaskGroupInformer inf)), i).

Definition new_wrapper (w : wrapper) : action nat := λ h,
  Returns (length (heap_wrappers h), set_wrappers (heap_wrappers h ++ [w]) h).

(** [func withDynamicInformer(ctx context.Context) context.Context] *)
Definition withDynamicInformer (ctx : context) : action context :=
  c ← client_Get ctx;
  resourceVersion ← GetResourceVersion ctx;
  p ← new_wrapper {| wrapper_client := c; wrapper_namespace := ""; wrapper_resourceVersion := resourceVersion |};
  mret (WithValue ctx taskgroup_Key (InformerValue (WrapperInformer p))).

(** [func Get(ctx context.Context) v1alpha1.TaskGroupInformer] *)
Definition taskgroup_Get (ctx : context) : action TaskGroupInformer :=
  match Value ctx taskgroup_Key with Some (InformerValue i) => mret i | _ => panic end.

(** ** Filtered informers (informers/taskgroup/v1alpha1/taskgroup/filtered/taskgroup.go) *)

Definition add_filtered_informer (st : context * list Informer) (selector : string) : action (context * list Informer) :=
  f ← filteredFactory_Get st.1 selector;
  inf ← Custom_V1alpha1_TaskGroups f;
  i ← taskGroupInformer_Informer inf;
  mret (WithValue st.1 (filteredTaskgroup_Key selector) (InformerValue (SharedTaskGroupInformer inf)), st.2 ++ [i]).

(** [func withInformer(ctx context.Context) (context.Context, []controller.Informer)] *)
Definition filtered_withInformer (ctx : context) : action (context * list Informer) :=
  labelSelectors ← GetSelectors ctx;
  for_range add_filtered_informer labelSelectors (ctx, []).

(** [func withDynamicInformer(ctx context.Context) context.Context] *)
Definition filtered_withDynamicInformer (ctx : context) : action context :=
  labelSelectors ← GetSelectors ctx;
  for_range (λ ctx selector,
    c ← client_Get ctx;
    mret (WithValue ctx (filteredTaskgroup_Key selector) (InformerValue (FilteredWrapperInformer
      {| filtered_client := c; filtered_namespace := ""; filtered_selector := selector |})))) labelSelectors ctx.

(** [func Get(ctx context.Context, selector string) v1alpha1.TaskGroupInformer] *)
Definition filtered_Get (ctx : context) (selector : string) : action TaskGroupInformer :=
  match Value ctx (filteredTaskgroup_Key selector) with Some (InformerValue i) => mret i | _ => panic end.

(** [Informer()] of the informers: those over a client have no way to list. *)
Inductive SharedIndexInformer : Type :=
  | ListingInformer (i : Informer)
  | NilListerWatcher (resync : Z).

Definition TaskGroupInformer_Informer (inf : TaskGroupInformer) : action SharedIndexInformer :=
  match inf with
  | SharedTaskGroupInformer inf => i ← taskGroupInformer_Informer inf; mret (ListingInformer i)
  | WrapperInformer _ | FilteredWrapperInformer _ => mret (NilListerWatcher 0)
  end.

(** ** The injectors (knative's injection package) *)

(** [type impl struct] *)
Record impl := {
  clients : list (context → Config → action context);
  dynamicClients : list (context → action context);
  clientFetchers : list (context → action ctx_value);
  factories : list (context → action context);
  ducks : list (context → action context);
  impl_informers : list (context → action (context * Informer));
  filteredInformers : list (context → action (context * list Informer));
  dynamicInformers : list (context → action context)
}.

(** The rounds of the loops below. *)
Definition inject_client (cfg : Config) (ctx : context) (ci : context → Config → action context) : action context := ci ctx cfg.
Definition inject (ctx : context) (f : context → action context) : action context := f ctx.

Definition inject_informer (st : context * list Informer) (ii : context → action (context * Informer)) :
    action (context * list Informer) :=
  r ← ii st.1; mret (r.1, st.2 ++ [r.2]).

Definition inject_filtered_informers (st : context * list Informer) (fii : context → action (context * list Informer)) :
    action (context * list Informer) :=
  r ← fii st.1; mret (r.1, st.2 ++ r.2).

(** [func (i *impl) SetupInformers(ctx context.Context, cfg *rest.Config) (context.Context, []controller.Informer)] *)
Definition SetupInformers (i : impl) (ctx : context) (cfg : Config) : action (context * list Informer) :=
  ctx ← for_range (inject_client cfg) (clients i) ctx;
  ctx ← for_range inject (factories i) ctx;
  ctx ← for_range inject (ducks i) ctx;
  st ← for_range inject_informer (impl_informers i) (ctx, []);
  for_range inject_filtered_informers (filteredInformers i) st.

(** [func (i *impl) SetupDynamic(ctx context.Context) context.Context] *)
Definition SetupDynamic (i : impl) (ctx : context) : action context :=
  ctx ← for_range inject (dynamicClients i) ctx;
  for_range inject (dynamicInformers i) ctx.

(** [func EnableInjectionOrDie(ctx context.Context, cfg *rest.Config) (context.Context, func())],
    with a context and a configuration: the context, and the informers to start *)
Definition EnableInjectionOrDie (Default : impl) (ctx : context) (cfg : Config) : action (context * list Informer) :=
  let cfg := default_rates 1 cfg in
  SetupInformers Default (WithConfig ctx cfg) cfg.

(** ** The command (cmd/controller/main.go) *)
Definition ManagedByLabelKey : string := "app.kubernetes.io/managed-by".

(** The key of another package: knative's factories of informers of Kubernetes'
    own types have selectors of their own. *)
Definition kube_LabelKey : ctx_key :=
  other_Key "knative.dev/pkg/client/injection/kube/informers/factory/filtered.LabelKey".

(** The context that [func main()] makes, given its flag *)
Definition main_context (namespace : string) : context :=
  WithValue (WithNamespaceScope [] namespace) kube_LabelKey (OtherValue (JArr [JStr ManagedByLabelKey])).

(** [func main()], up to the construction of its controller: [sharedmain.MainWithConfig]
    enables the injection for one controller *)
Definition main (Default : impl) (namespace : string) (cfg : Config) : action (context * list Informer) :=
  EnableInjectionOrDie Default (main_context namespace) (default_rates 1 cfg).
End injection.

(** ** Fakes (client/fake, informers/factory/fake, informers/factory/filtered/fake,
    informers/taskgroup/v1alpha1/taskgroup/fake and .../filtered/fake) *)
Section fakes.
Context {L : Library}.

(** [func With(ctx context.Context, objects ...runtime.Object) (context.Context, *fake.Clientset)] *)
Definition With (ctx : context) (objects : list runtime_Object) : action (context * nat) := λ h,
  match NewSimpleClientset objects with
  | Panics => Panics
  | Returns cs =>
    let p := length (heap_fakes h) in
    Returns ((WithValue ctx client_Key (ClientValue (FakeClient p)), p), set_fakes (heap_fakes h ++ [cs]) h)
  end.

(** [func withClient(ctx context.Context, cfg *rest.Config) context.Context] *)
Definition fake_withClient (ctx : context) (cfg : Config) : action context :=
  r ← With ctx []; mret r.1.

(** [func Get(ctx context.Context) *fake.Clientset] *)
Definition fake_client_Get (ctx : context) : action nat :=
  match Value ctx client_Key with Some (ClientValue (FakeClient p)) => mret p | _ => panic end.

(** [func withInformerFactory(ctx context.Context) context.Context] *)
Definition fake_withInformerFactory (ctx : context) : action context :=
  c ← fake_client_Get ctx;
  opts ← namespace_options ctx;
  resync ← GetResyncPeriod ctx;
  p ← new_factory (FakeClient c) resync opts;
  mret (WithValue ctx factory_Key (FactoryValue p)).

(** [func withInformerFactory(ctx context.Context) context.Context] of the
    filtered factories *)
Definition fake_filteredFactory_withInformerFactory (ctx : context) : action context :=
  c ← fake_client_Get ctx;
  labelSelectors ← GetSelectors ctx;
  for_range (add_filtered_factory (FakeClient c) (default "" (last labelSelectors))) labelSelectors ctx.

(** [func withInformer(ctx context.Context) (context.Context, controller.Informer)],
    whose [fake.Get] is [factory.Get] *)
Definition fake_withInformer (ctx : context) : action (context * Informer) :=
  f ← factory_Get ctx;
  inf ← Custom_V1alpha1_TaskGroups f;
  i ← taskGroupInformer_Informer inf;
  mret (WithValue ctx taskgroup_Key (InformerValue (SharedTaskGroupInformer inf)), i).

(** [func withInformer(ctx context.Context) (context.Context, []controller.Informer)] *)
Definition fake_filtered_withInformer (ctx : context) : action (context * list Informer) :=
  labelSelectors ← GetSelectors ctx;
  for_range add_filtered_informer labelSelectors (ctx, []).
End fakes.
