(* ===== verification/TaskGroupClients.v ===== *)
(** The interfaces of the clients of TaskGroups and their three implementations:
    [Interface] of pkg/client/clientset/versioned/clientset.go,
    [CustomV1alpha1Interface] and [TaskGroupInterface] of its
    typed/taskgroup/v1alpha1/, implemented by the clientset over REST, by the
    fake clientset (fake/clientset_generated.go and typed/.../fake/) and by the
    wrapped dynamic client (pkg/client/injection/client/client.go). An
    interface is the record of its operations. *)
From S2P Require Import Prelude GoStrings Types Conditions RunTypes Listers InformerFactory Rest Wiring Clients FakeClient Clientset Injection.

(** ** The interfaces *)

(** The two results of a call. What comes with an error, an empty object or
    none, is left out. *)
Definition result (A : Type) : Type := option A * option error.

(** [watch.Interface], from the server or of a tracker *)
Inductive watch_Interface : Type :=
  | StreamWatch (stream : json)
  | TrackerWatch (id : nat).

(** [type TaskGroupInterface interface], whose [TaskGroupExpansion] is empty *)
Record TaskGroupInterface := {
  TaskGroups_Create : TaskGroup → Options → action (result TaskGroup);
  TaskGroups_Update : TaskGroup → Options → action (result TaskGroup);
  TaskGroups_Delete : string → Options → action (option error);
  TaskGroups_DeleteCollection : Options → ListOptions → action (option error);
  TaskGroups_Get : string → Options → action (result TaskGroup);
  TaskGroups_List : ListOptions → action (result (list TaskGroup));
  TaskGroups_Watch : ListOptions → action (fallible watch_Interface);
  TaskGroups_Patch : string → string → json → Options → list string → action (result TaskGroup)
}.

(** [type TaskGroupsGetter interface] *)
Record TaskGroupsGetter := { Getter_TaskGroups : string → TaskGroupInterface }.

(** [type CustomV1alpha1Interface interface]; the REST client may be nil *)
Record CustomV1alpha1Interface := {
  Custom_RESTClient : action (option RESTClient);
  Custom_TaskGroupsGetter : TaskGroupsGetter
}.

(** [discovery.DiscoveryInterface] *)
Inductive DiscoveryInterface : Type :=
  | DiscoveryClient (c : built)
  | FakeDiscovery (p : nat).

Section implementations.
Context {S : Server} {C : Codecs} {L : Library}.

(** ** Over REST (taskgroup_client.go, taskgroup.go) *)

(** The results of a call of the server. *)
Definition results {A} (r : fallible A) : result A :=
  match r with inl err => (None, Some err) | inr a => (Some a, None) end.

Definition error_of (r : fallible unit) : option error := match r with inl err => Some err | inr _ => None end.

(** [func newTaskGroups(c *CustomV1alpha1Client, namespace string) *taskGroups] *)
Definition newTaskGroups (c : built) (namespace : string) : taskGroups :=
  {| taskGroups_client := built_client c; taskGroups_ns := namespace |}.

(** [*taskGroups] as a [TaskGroupInterface] *)
Definition typed_interface (c : taskGroups) : TaskGroupInterface := {|
  TaskGroups_Create taskGroup opts := mret (results (taskGroups_Create c taskGroup opts).2);
  TaskGroups_Update taskGroup opts := mret (results (taskGroups_Update c taskGroup opts).2);
  TaskGroups_Delete name opts := mret (error_of (taskGroups_Delete c name opts).2);
  TaskGroups_DeleteCollection opts listOpts := mret (error_of (taskGroups_DeleteCollection c opts listOpts).2);
  TaskGroups_Get name opts := mret (results (taskGroups_Get c name opts).2);
  TaskGroups_List opts := mret (results (taskGroups_List c opts).2);
  TaskGroups_Watch opts := mret (let? w := (taskGroups_Watch c opts).2 in inr (StreamWatch w));
  TaskGroups_Patch name pt data opts subresources := mret (results (taskGroups_Patch c name pt data opts subresources).2) |}.

(** [func (c *CustomV1alpha1Client) TaskGroups(namespace string) TaskGroupInterface] *)
Definition CustomV1alpha1Client_TaskGroups (c : built) (namespace : string) : TaskGroupInterface :=
  typed_interface (newTaskGroups c namespace).

(** [*CustomV1alpha1Client] as a [CustomV1alpha1Interface] *)
Definition typed_group (c : built) : CustomV1alpha1Interface := {|
  Custom_RESTClient := mret (CustomV1alpha1Client_RESTClient (Some c));
  Custom_TaskGroupsGetter := {| Getter_TaskGroups := CustomV1alpha1Client_TaskGroups c |} |}.

(** [func New(c rest.Interface) *CustomV1alpha1Client] *)
Definition CustomV1alpha1_New (c : built) : built := c.

(** ** Over the dynamic client (client.go) *)

(** [*wrapCustomV1alpha1TaskGroupImpl] as a [TaskGroupInterface] *)
Definition wrapped_interface (w : wrapCustomV1alpha1TaskGroupImpl) : TaskGroupInterface := {|
  TaskGroups_Create taskGroup opts := mret (results (wrap_Create w taskGroup opts).2);
  TaskGroups_Update taskGroup opts := mret (results (wrap_Update w taskGroup opts).2);
  TaskGroups_Delete name opts := mret (error_of (wrap_Delete w name opts).2);
  TaskGroups_DeleteCollection opts listOpts := mret (error_of (wrap_DeleteCollection w opts listOpts).2);
  TaskGroups_Get name opts := mret (results (wrap_Get w name opts).2);
  TaskGroups_List opts := mret (results (wrap_List w opts).2);
  TaskGroups_Watch opts := mret (let? w := (wrap_Watch w opts).2 in inr (StreamWatch w));
  TaskGroups_Patch name pt data opts subresources := mret (results (wrap_Patch w name pt data opts subresources).2) |}.

(** [func (w *wrapCustomV1alpha1) RESTClient() rest.Interface] *)
Definition wrapCustomV1alpha1_RESTClient (w : wrapCustomV1alpha1) : action (option RESTClient) := panic.

(** [*wrapCustomV1alpha1] as a [CustomV1alpha1Interface] *)
Definition wrapped_group (w : wrapCustomV1alpha1) : CustomV1alpha1Interface := {|
  Custom_RESTClient := wrapCustomV1alpha1_RESTClient w;
  Custom_TaskGroupsGetter := {| Getter_TaskGroups := λ namespace, wrapped_interface (wrapCustomV1alpha1_TaskGroups w namespace) |} |}.

(** [func (w *wrapClient) Discovery() discovery.DiscoveryInterface] *)
Definition wrapClient_Discovery (w : wrapClient) : action DiscoveryInterface := panic.

(** ** Over a fake clientset *)

(** A call of the fake clientset at an address. *)
Definition call_fake {A} (p : nat) (f : Fake → outcome A * Fake) : action A := λ h,
  match heap_fakes h !! p with
  | None => Panics
  | Some c =>
    match f c with
    | (Panics, _) => Panics
    | (Returns a, c) => Returns (a, set_fakes (<[p := c]> (heap_fakes h)) h)
    end
  end.

(** [type FakeCustomV1alpha1 struct] and [type FakeTaskGroups struct] *)
Record FakeCustomV1alpha1 := { FakeCustomV1alpha1_Fake : nat }.
Record FakeTaskGroups := { FakeTaskGroups_Fake : FakeCustomV1alpha1; FakeTaskGroups_ns : string }.

(** [*FakeTaskGroups] as a [TaskGroupInterface] *)
Definition fake_interface (c : FakeTaskGroups) : TaskGroupInterface :=
  let p := FakeCustomV1alpha1_Fake (FakeTaskGroups_Fake c) in let ns := FakeTaskGroups_ns c in {|
  TaskGroups_Create taskGroup opts := call_fake p (FakeTaskGroups_Create ns taskGroup);
  TaskGroups_Update taskGroup opts := call_fake p (FakeTaskGroups_Update ns taskGroup);
  TaskGroups_Delete name opts := call_fake p (FakeTaskGroups_Delete ns name);
  TaskGroups_DeleteCollection opts listOpts := call_fake p (FakeTaskGroups_DeleteCollection ns listOpts);
  TaskGroups_Get name opts := call_fake p (FakeTaskGroups_Get ns name);
  TaskGroups_List opts := call_fake p (FakeTaskGroups_List ns opts);
  TaskGroups_Watch opts := r ← call_fake p (FakeTaskGroups_Watch ns opts); mret (let? w := r in inr (TrackerWatch w));
  TaskGroups_Patch name pt data opts subresources := call_fake p (FakeTaskGroups_Patch ns name pt data subresources) |}.

(** [func (c *FakeCustomV1alpha1) TaskGroups(namespace string) v1alpha1.TaskGroupInterface] *)
Definition FakeCustomV1alpha1_TaskGroups (c : FakeCustomV1alpha1) (namespace : string) : FakeTaskGroups :=
  {| FakeTaskGroups_Fake := c; FakeTaskGroups_ns := namespace |}.

(** [func (c *FakeCustomV1alpha1) RESTClient() rest.Interface]: a nil pointer *)
Definition FakeCustomV1alpha1_RESTClient (c : FakeCustomV1alpha1) : option RESTClient := None.

(** [*FakeCustomV1alpha1] as a [CustomV1alpha1Interface] *)
Definition fake_group (c : FakeCustomV1alpha1) : CustomV1alpha1Interface := {|
  Custom_RESTClient := mret (FakeCustomV1alpha1_RESTClient c);
  Custom_TaskGroupsGetter := {| Getter_TaskGroups := λ namespace, fake_interface (FakeCustomV1alpha1_TaskGroups c namespace) |} |}.

(** [func (c *Clientset) CustomV1alpha1() customv1alpha1.CustomV1alpha1Interface],
    [Discovery()] and [Tracker()] of the fake clientset at an address *)
Definition fake_Clientset_CustomV1alpha1 (p : nat) : FakeCustomV1alpha1 := {| FakeCustomV1alpha1_Fake := p |}.
Definition fake_Clientset_Discovery (p : nat) : DiscoveryInterface := FakeDiscovery p.
Definition fake_Clientset_Tracker (c : Fake) : tracker := fake_tracker c.

(** ** Calls through the interfaces *)

(** [client.CustomV1alpha1()], of whichever kind the client is *)
Definition Interface_CustomV1alpha1 (client : versioned_Interface) : action CustomV1alpha1Interface :=
  match client with
  | ClientsetClient cs =>
    match Clientset_CustomV1alpha1 (Some cs) with Returns c => mret (typed_group c) | Panics => panic end
  | FakeClient p => mret (fake_group (fake_Clientset_CustomV1alpha1 p))
  | WrapClient w => mret (wrapped_group (wrapClient_CustomV1alpha1 w))
  end.

(** [client.Discovery()] *)
Definition Interface_Discovery (client : versioned_Interface) : action DiscoveryInterface :=
  match client with
  | ClientsetClient cs => mret (DiscoveryClient (Clientset_DiscoveryClient cs))
  | FakeClient p => mret (fake_Clientset_Discovery p)
  | WrapClient w => wrapClient_Discovery w
  end.

(** [client.CustomV1alpha1().TaskGroups(ns)] *)
Definition Interface_TaskGroups (client : versioned_Interface) (ns : string) : action TaskGroupInterface :=
  custom ← Interface_CustomV1alpha1 client; mret (Getter_TaskGroups (Custom_TaskGroupsGetter custom) ns).
End implementations.
