(* ===== verification/InjectedListers.v ===== *)
(** The listers over a client that the injection offers in place of those over
    a cache: [wrapper] of
    pkg/client/injection/informers/taskgroup/v1alpha1/taskgroup/taskgroup.go
    and of its filtered/taskgroup.go. What a client promises to them is a type
    class, which the fake clientset implements, and over a server that serves a
    store the wrapped dynamic client and the typed client; what the listers
    promise is proved against the class. *)
From S2P Require Import Prelude GoStrings Types Conditions RunTypes Listers InformerFactory Rest Wiring ReconcilerExample Clients FakeClient FakeClientTheorems Clientset Injection TaskGroupClients.

(** ** Selectors *)

(** [labels.Selector] and [labels.Requirement] *)
Class LabelSelectors := {
  labels_Selector : Type;
  labels_Requirement : Type;
  Selector_String : labels_Selector → string;
  Selector_Add : labels_Selector → list labels_Requirement → labels_Selector;
  ParseToRequirements : string → fallible (list labels_Requirement)
}.

(** [v1.ListOptions{LabelSelector: ..., ResourceVersion: ...}] and
    [v1.GetOptions{ResourceVersion: ...}]; an empty version is left out. *)
Definition version_options (resourceVersion : string) : json :=
  JObj (if bool_decide (resourceVersion = "") then [] else [("resourceVersion", JStr resourceVersion)]).

Definition selector_options (selector resourceVersion : string) : ListOptions := {|
  ListOptions_LabelSelector := selector; ListOptions_Watch := false; ListOptions_TimeoutSeconds := None;
  ListOptions_Other := version_options resourceVersion |}.

Section listers.
Context {S : Server} {C : Codecs} {L : Library} {LS : LabelSelectors}.

(** ** Calls of the client *)

(** [client.CustomV1alpha1().TaskGroups(ns).List(ctx, opts)] *)
Definition client_List (client : versioned_Interface) (ns : string) (opts : ListOptions) : action (result (list TaskGroup)) :=
  c ← Interface_TaskGroups client ns; TaskGroups_List c opts.

(** [client.CustomV1alpha1().TaskGroups(ns).Get(ctx, name, opts)] *)
Definition client_Get_TaskGroup (client : versioned_Interface) (ns name : string) (opts : Options) : action (result TaskGroup) :=
  c ← Interface_TaskGroups client ns; TaskGroups_Get c name opts.

(** [if err != nil { return nil, err }] and the copy of the items, or the panic
    for a list that is nil *)
Definition items_of (r : result (list TaskGroup)) : action (fallible (list TaskGroup)) :=
  match r with
  | (_, Some err) => mret (inl err)
  | (Some items, None) => mret (inr items)
  | (None, None) => panic
  end.

(** ** The lister over a client (taskgroup.go) *)

Definition load_wrapper (p : nat) : action wrapper := λ h,
  match heap_wrappers h !! p with Some w => Returns (w, h) | None => Panics end.

Definition store_wrapper (p : nat) (w : wrapper) : action unit := λ h,
  Returns (tt, set_wrappers (<[p := w]> (heap_wrappers h)) h).

(** [func (w *wrapper) TaskGroups(namespace string) taskgroupv1alpha1.TaskGroupNamespaceLister] *)
Definition wrapper_TaskGroups (p : nat) (namespace : string) : action nat :=
  w ← load_wrapper p;
  new_wrapper {| wrapper_client := wrapper_client w; wrapper_namespace := namespace;
                 wrapper_resourceVersion := wrapper_resourceVersion w |}.

(** [func (w *wrapper) SetResourceVersion(resourceVersion string)] *)
Definition wrapper_SetResourceVersion (p : nat) (resourceVersion : string) : action unit :=
  w ← load_wrapper p;
  store_wrapper p {| wrapper_client := wrapper_client w; wrapper_namespace := wrapper_namespace w;
                     wrapper_resourceVersion := resourceVersion |}.

(** [func (w *wrapper) List(selector labels.Selector) (ret []*apistaskgroupv1alpha1.TaskGroup, err error)] *)
Definition wrapper_List (p : nat) (selector : labels_Selector) : action (fallible (list TaskGroup)) :=
  w ← load_wrapper p;
  lo ← client_List (wrapper_client w) (wrapper_namespace w)
         (selector_options (Selector_String selector) (wrapper_resourceVersion w));
  items_of lo.

(** [func (w *wrapper) Get(name string) ( *apistaskgroupv1alpha1.TaskGroup, error)] *)
Definition wrapper_Get (p : nat) (name : string) : action (result TaskGroup) :=
  w ← load_wrapper p;
  client_Get_TaskGroup (wrapper_client w) (wrapper_namespace w) name (version_options (wrapper_resourceVersion w)).

(** ** The filtered one (filtered/taskgroup.go) *)
Definition filtered_wrapper_TaskGroups (w : filtered_wrapper) (namespace : string) : filtered_wrapper :=
  {| filtered_client := filtered_client w; filtered_namespace := namespace; filtered_selector := filtered_selector w |}.

(** [func (w *wrapper) List(selector labels.Selector) (ret []*apistaskgroupv1alpha1.TaskGroup, err error)] *)
Definition filtered_wrapper_List (w : filtered_wrapper) (selector : labels_Selector) : action (fallible (list TaskGroup)) :=
  match ParseToRequirements (filtered_selector w) with
  | inl err => mret (inl err)
  | inr reqs =>
    lo ← client_List (filtered_client w) (filtered_namespace w)
           (selector_options (Selector_String (Selector_Add selector reqs)) "");
    items_of lo
  end.

(** [func (w *wrapper) Get(name string) ( *apistaskgroupv1alpha1.TaskGroup, error)] *)
Definition filtered_wrapper_Get (w : filtered_wrapper) (name : string) : action (result TaskGroup) :=
  client_Get_TaskGroup (filtered_client w) (filtered_namespace w) name (version_options "").

(** ** The interfaces of the listers *)

(** [type TaskGroupNamespaceLister interface] and
    [type TaskGroupLister interface], for the selectors of an implementation *)
Record TaskGroupNamespaceLister (selector : Type) := {
  NamespaceLister_List : selector → action (fallible (list TaskGroup));
  NamespaceLister_Get : string → action (result TaskGroup)
}.
Record TaskGroupLister (selector : Type) := {
  Lister_List : selector → action (fallible (list TaskGroup));
  Lister_TaskGroups : string → action (TaskGroupNamespaceLister selector)
}.
#[global] Arguments NamespaceLister_List {_}.
#[global] Arguments NamespaceLister_Get {_}.
#[global] Arguments Lister_List {_}.
#[global] Arguments Lister_TaskGroups {_}.

(** [*taskGroupLister] and [taskGroupNamespaceLister], over a cache *)
Definition cache_namespace_lister (s : taskGroupNamespaceLister) : TaskGroupNamespaceLister (gmap string string) := {|
  NamespaceLister_List selector := mret (inr (taskGroupNamespaceLister_List s selector));
  NamespaceLister_Get name := mret (results (taskGroupNamespaceLister_Get s name)) |}.

Definition cache_lister (s : taskGroupLister) : TaskGroupLister (gmap string string) := {|
  Lister_List selector := mret (inr (taskGroupLister_List s selector));
  Lister_TaskGroups namespace := mret (cache_namespace_lister (taskGroupLister_TaskGroups s namespace)) |}.

(** [*wrapper], which is a lister of both kinds *)
Definition wrapper_namespace_lister (p : nat) : TaskGroupNamespaceLister labels_Selector :=
  {| NamespaceLister_List := wrapper_List p; NamespaceLister_Get := wrapper_Get p |}.

Definition wrapper_as_lister (p : nat) : TaskGroupLister labels_Selector := {|
  Lister_List := wrapper_List p;
  Lister_TaskGroups namespace := q ← wrapper_TaskGroups p namespace; mret (wrapper_namespace_lister q) |}.

(** The filtered one. *)
Definition filtered_namespace_lister (w : filtered_wrapper) : TaskGroupNamespaceLister labels_Selector :=
  {| NamespaceLister_List := filtered_wrapper_List w; NamespaceLister_Get := filtered_wrapper_Get w |}.

Definition filtered_as_lister (w : filtered_wrapper) : TaskGroupLister labels_Selector := {|
  Lister_List := filtered_wrapper_List w;
  Lister_TaskGroups namespace := mret (filtered_namespace_lister (filtered_wrapper_TaskGroups w namespace)) |}.

(** [func (w *wrapper) Lister() taskgroupv1alpha1.TaskGroupLister] of both
    packages *)
Definition wrapper_Lister (p : nat) : TaskGroupLister labels_Selector := wrapper_as_lister p.
Definition filtered_wrapper_Lister (w : filtered_wrapper) : TaskGroupLister labels_Selector := filtered_as_lister w.

(** [func (f *taskGroupInformer) Lister() v1alpha1.TaskGroupLister], given the
    indexers of the informers *)
Definition taskGroupInformer_Lister (GetIndexer : Informer → Indexer TaskGroup) (f : taskGroupInformer) :
    action (TaskGroupLister (gmap string string)) :=
  i ← taskGroupInformer_Informer f; mret (cache_lister (NewTaskGroupLister (GetIndexer i))).

(** ** What selectors and clients promise *)

(** A selector is printed as it is parsed, and adding requirements to it asks
    for them too. *)
Class SelectorLaws := {
  selects : labels_Selector → gomap → bool;
  requires : labels_Requirement → gomap → bool;
  parse_String s : ∃ label, labels_Parse (Selector_String s) = inr label ∧ ∀ m, label m = selects s m;
  selects_Add s reqs m : selects (Selector_Add s reqs) m = selects s m && forallb (λ r, requires r m) reqs;
  no_fields selector rv : fields_ParseSelector (selector_options selector rv) = None
}.

Definition labels_of (tg : TaskGroup) : gomap := ObjectMeta_Labels (TaskGroup_ObjectMeta tg).

(** A TaskGroup of a store, in a namespace or, for the empty one, in any. *)
Definition stored (st : Store) (ns : string) (tg : TaskGroup) : Prop :=
  (∃ k, st !! k = Some tg) ∧ (ns = "" ∨ namespace_of tg = ns).

(** A client that reads a store as long as an invariant of the heap holds: in
    all namespaces, or in a valid one and on a valid name. *)
Class Reads {SL : SelectorLaws} (client : versioned_Interface) (st : Store) (I : heap → Prop) := {
  reads_List ns s rv h : ns = "" ∨ good_segment ns → I h →
    ∃ items h', client_List client ns (selector_options (Selector_String s) rv) h = Returns ((Some items, None), h') ∧
      I h' ∧ heap_wrappers h' = heap_wrappers h ∧ ∀ tg, tg ∈ items ↔ stored st ns tg ∧ selects s (labels_of tg) = true;
  reads_Get ns name opts h : good_segment ns → good_segment name → I h →
    ∃ r h', client_Get_TaskGroup client ns name opts h = Returns (r, h') ∧ I h' ∧ heap_wrappers h' = heap_wrappers h ∧
      match st !! (ns, name) with
      | Some tg => r = (Some tg, None)
      | None => ∃ err, r = (None, Some err)
      end;
  reads_wrappers h l : I h → I (set_wrappers l h)
}.

(** A server that serves a store: it answers the requests for the TaskGroups of
    all namespaces or of one that a selector selects, and for a TaskGroup. *)
Definition collection_path (base_Path ns : string) : list string :=
  path_Join [] [base_Path] ++ ["apis"; "custom.tekton.dev"; "v1alpha1"] ++
  (if bool_decide (ns = "") then [] else ["namespaces"; ns]) ++ ["taskgroups"].

Class Serves {SL : SelectorLaws} (base_Path : string) (st : Store) := {
  serves_List ns s rv r : ns = "" ∨ good_segment ns →
    HTTPRequest_verb r = GET → HTTPRequest_path r = collection_path base_Path ns →
    HTTPRequest_params r = [encode_ListOptions (selector_options (Selector_String s) rv)] →
    ∃ j items, send r = inr j ∧ decode_TaskGroupList j = inr items ∧
      ∀ tg, tg ∈ items ↔ stored st ns tg ∧ selects s (labels_of tg) = true;
  serves_Get ns name r : good_segment ns → good_segment name →
    HTTPRequest_verb r = GET → HTTPRequest_path r = collection_path base_Path ns ++ [name] →
    match st !! (ns, name) with
    | Some tg => ∃ j, send r = inr j ∧ decode_TaskGroup j = inr tg
    | None => ∃ err, send r = inl err
    end
}.
End listers.

(** A fake clientset with the standard reactor that holds a store. *)
Definition holds `{Library} (p : nat) (st : Store) (h : heap) : Prop :=
  ∃ c, heap_fakes h !! p = Some c ∧ standard c ∧ store c = st.

Section implementation.
Context {S : Server} {C : Codecs} {L : Library} {LS : LabelSelectors} {SL : SelectorLaws}.

Lemma call_fake_holds {A} p st (f : Fake → outcome A * Fake) (a : A) h :
  holds p st h → (∀ c, standard c → store c = st → standard (f c).2 ∧ store (f c).2 = st ∧ (f c).1 = Returns a) →
  ∃ h', call_fake p f h = Returns (a, h') ∧ holds p st h' ∧ heap_wrappers h' = heap_wrappers h.
Proof.
  intros (c & Hp & Hc & Hst) Hf. destruct (Hf c Hc Hst) as (Hc' & Hst' & Ha). unfold call_fake. rewrite Hp.
  destruct (f c) as [r c']. cbn [fst snd] in *. subst r. eexists. split_and!; [done| |done].
  exists c'. split_and!; [|done..]. cbn. apply list_lookup_insert_eq. by eapply lookup_lt_Some.
Qed.

(** A call of the fake clientset, through its interfaces. *)
Lemma client_List_fake p ns opts : client_List (FakeClient p) ns opts = call_fake p (FakeTaskGroups_List ns opts).
Proof. reflexivity. Qed.

Lemma client_Get_fake p ns name opts : client_Get_TaskGroup (FakeClient p) ns name opts = call_fake p (FakeTaskGroups_Get ns name).
Proof. reflexivity. Qed.

(** The fake clientset reads what it holds. *)
#[export] Instance fake_Reads p st : Reads (FakeClient p) st (holds p st).
Proof.
  split.
  - intros ns s rv h _ (c & Hp & Hc & Hst). destruct (parse_String s) as (label & Hparse & Hlabel).
    assert (ExtractFromListOptions (selector_options (Selector_String s) rv) = Returns label) as Hopts.
    { unfold ExtractFromListOptions. cbn. by rewrite Hparse, no_fields. }
    pose proof (FakeTaskGroups_List_store c ns _ label Hc Hopts) as H. rewrite client_List_fake. unfold call_fake. rewrite Hp.
    destruct (FakeTaskGroups_List ns _ c) as [r c']. destruct H as (Hc' & Hst' & _ & items & -> & _ & Hitems).
    do 2 eexists. split_and!; [done| |done|].
    + exists c'. split_and!; [|done|by rewrite Hst']. cbn. apply list_lookup_insert_eq. by eapply lookup_lt_Some.
    + intros tg. rewrite Hitems, Hst, Hlabel. unfold stored, labels_of. tauto.
  - intros ns name opts h _ _ Hh. rewrite client_Get_fake.
    destruct (call_fake_holds p st (FakeTaskGroups_Get ns name)
      (match st !! (ns, name) with Some tg => (Some tg, None) | None => (None, Some (errNotFound "taskgroups" name)) end) h Hh)
      as (h' & Hrun & HI & Hw).
    { intros c Hc Hst. pose proof (FakeTaskGroups_Get_store c ns name Hc) as H. destruct (FakeTaskGroups_Get ns name c) as [r c'].
      destruct H as (Hc' & Hst' & _ & ->). cbn [fst snd]. rewrite Hst'. split_and!; [done..|]. by rewrite Hst. }
    do 2 eexists. split_and!; [exact Hrun|done..|]. destruct (st !! (ns, name)); [done|]. by eexists.
  - intros h l (c & Hp & H). by exists c.
Qed.
End implementation.

(** ** Clients of a server *)
Section served.
Context {S : Server} {C : Codecs} {W : WireLaws S C} {L : Library} {LS : LabelSelectors} {SL : SelectorLaws}.
Context (base_Path : string) (timeout : Z) (st : Store) {SV : Serves base_Path st}.

Lemma collection_path_good ns : good_segment ns → resource_path base_Path ns = collection_path base_Path ns.
Proof. intros [Hns _]. unfold collection_path. by rewrite bool_decide_false. Qed.

(** The path of a collection for the dynamic client. *)
Lemma dynamic_collection_path ns : ns = "" ∨ good_segment ns →
  path_Join [] (base_Path :: makeURLSegments (wrap_resource (wrapped_TaskGroups base_Path timeout ns)) "") = collection_path base_Path ns.
Proof.
  intros [->|Hns].
  - change (base_Path :: makeURLSegments _ "") with ([base_Path] ++ ["apis"; "custom.tekton.dev"; "v1alpha1"; "taskgroups"]).
    rewrite path_Join_app, path_Join_good; [done|]. repeat constructor; done.
  - pose proof (dynamic_path base_Path timeout ns Hns "" [] (or_introl eq_refl) (Forall_nil_2 _)) as H.
    rewrite app_nil_r in H. rewrite H, !app_nil_r. by apply collection_path_good.
Qed.

Lemma client_List_wrapped ns opts h :
  client_List (WrapClient {| wrapClient_dyn := dynamic_client base_Path timeout |}) ns opts h =
  Returns (results (wrap_List (wrapped_TaskGroups base_Path timeout ns) opts).2, h).
Proof. reflexivity. Qed.

Lemma client_Get_wrapped ns name opts h :
  client_Get_TaskGroup (WrapClient {| wrapClient_dyn := dynamic_client base_Path timeout |}) ns name opts h =
  Returns (results (wrap_Get (wrapped_TaskGroups base_Path timeout ns) name opts).2, h).
Proof. reflexivity. Qed.

(** The wrapped dynamic client reads what its server serves. *)
#[export] Instance wrapped_Reads : Reads (WrapClient {| wrapClient_dyn := dynamic_client base_Path timeout |}) st (λ _, True).
Proof using W SV.
  split; [| |done].
  - intros ns s rv h Hns _. rewrite client_List_wrapped. unfold wrap_List, dynamic_List, then_convert, Into, VersionedParams, AbsPath.
    cbn -[Do makeURLSegments path_Join newHTTPRequest selector_options].
    rewrite Do_good by by left. cbn [snd fst].
    match goal with |- context [send ?q] =>
      destruct (serves_List (base_Path := base_Path) ns s rv q) as (j & items & Hsend & Hdec & Hitems);
        [done|reflexivity|exact (dynamic_collection_path ns Hns)|reflexivity|] end.
    rewrite Hsend. cbn. rewrite (server_list _ _ Hsend). cbn. unfold convert. rewrite Hdec. by exists items, h.
  - intros ns name opts h Hns Hname _. rewrite client_Get_wrapped. unfold wrap_Get, dynamic_Get, then_convert, Into, VersionedParams, AbsPath.
    rewrite length_zero, bool_decide_false by apply Hname. cbn -[Do makeURLSegments path_Join newHTTPRequest].
    rewrite Do_good by by left. cbn [snd fst].
    do 2 eexists. split; [reflexivity|]. split_and!; [done..|].
    assert (path_Join [] (base_Path :: makeURLSegments (wrap_resource (wrapped_TaskGroups base_Path timeout ns)) name) =
      collection_path base_Path ns ++ [name]) as Hpath.
    { pose proof (dynamic_path base_Path timeout ns Hns name [] (or_intror Hname) (Forall_nil_2 _)) as H.
      by rewrite !app_nil_r, (bool_decide_false (name = "")), collection_path_good in H by (done || apply Hname). }
    match goal with |- context [send ?q] =>
      pose proof (serves_Get (base_Path := base_Path) ns name q Hns Hname eq_refl Hpath) as H end.
    destruct (st !! (ns, name)) as [tg|].
    + destruct H as (j & Hsend & Hdec). rewrite Hsend. cbn. rewrite (server_object _ _ Hsend). cbn. unfold convert. by rewrite Hdec.
    + destruct H as [err Hsend]. rewrite Hsend. by eexists.
Qed.

(** ** Over REST *)
Section typed.
Context (cs : Clientset) (Hcs : built_client (Clientset_customV1alpha1 cs) = typed_client base_Path timeout).

Lemma client_List_typed ns opts h :
  client_List (ClientsetClient cs) ns opts h = Returns (results (taskGroups_List (typed_TaskGroups base_Path timeout ns) opts).2, h).
Proof using Hcs.
  unfold client_List, Interface_TaskGroups, mbind, action_bind. cbn. unfold CustomV1alpha1Client_TaskGroups, newTaskGroups.
  by rewrite Hcs.
Qed.

Lemma client_Get_typed ns name opts h :
  client_Get_TaskGroup (ClientsetClient cs) ns name opts h =
  Returns (results (taskGroups_Get (typed_TaskGroups base_Path timeout ns) name opts).2, h).
Proof using Hcs.
  unfold client_Get_TaskGroup, Interface_TaskGroups, mbind, action_bind. cbn. unfold CustomV1alpha1Client_TaskGroups, newTaskGroups.
  by rewrite Hcs.
Qed.

Lemma typed_collection_path ns r : ns = "" ∨ good_segment ns →
  Request_pathPrefix r = path_Join [] [base_Path; "/apis/custom.tekton.dev/v1alpha1"] →
  Request_namespaceSet r = true → Request_namespace r = ns → Request_resource r = "taskgroups" →
  Request_resourceName r = "" → Request_subresource r = [] → URL_path r = collection_path base_Path ns.
Proof.
  intros [->|Hns] Hp Hs Hrns Hr Hn Hsub.
  - unfold URL_path. rewrite Hp, Hs, Hrns, Hr, Hn, Hsub, typed_prefix, (bool_decide_true ("" = "")), (bool_decide_false ("taskgroups" = "")),
      (bool_decide_true (@nil string = [])) by done. cbn [negb andb orb]. change (ToLower "taskgroups") with "taskgroups".
    rewrite (path_Join_good _ ["taskgroups"]) by by repeat constructor. unfold collection_path.
    by rewrite (bool_decide_true ("" = "")), <-app_assoc by done.
  - rewrite (typed_path base_Path ns Hns r) by (done || rewrite ?Hsub; tauto || done).
    by rewrite Hn, Hsub, !app_nil_r, collection_path_good.
Qed.

(** The typed client reads what its server serves. *)
#[export] Instance typed_Reads : Reads (ClientsetClient cs) st (λ _, True).
Proof using W SV Hcs.
  split; [| |done].
  - intros ns s rv h Hns _. rewrite client_List_typed. unfold taskGroups_List, Into.
    assert (in_namespace GET (typed_TaskGroups base_Path timeout ns) = inr (typed_request base_Path timeout ns GET)) as ->.
    { destruct Hns as [->|Hns]; [reflexivity|by apply in_namespace_good]. }
    unfold VersionedParams, Timeout. cbn -[Do path_Join newHTTPRequest selector_options].
    assert (∀ r, Request_verb r = GET → Request_resourceName r = "" → Do (inr r) = (Some (newHTTPRequest r), send (newHTTPRequest r))) as ->.
    { intros r Hv Hn. unfold Do, requestPreflightCheck. rewrite Hv, Hn, (bool_decide_true ("" = "")) by done.
      by destruct (Request_namespaceSet r), (bool_decide _). }
    2,3: done. cbn [snd fst].
    match goal with |- context [send ?q] =>
      destruct (serves_List (base_Path := base_Path) ns s rv q) as (j & items & Hsend & Hdec & Hitems);
        [done|reflexivity|by apply typed_collection_path|reflexivity|] end.
    rewrite Hsend. cbn. rewrite Hdec. by exists items, h.
  - intros ns name opts h Hns Hname _. rewrite client_Get_typed. unfold taskGroups_Get, Into.
    rewrite in_namespace_good by done. cbn -[Name Do path_Join]. rewrite Name_good by done. cbn -[Do path_Join newHTTPRequest].
    unfold VersionedParams. rewrite Do_good by (right; apply Hns). cbn [snd fst].
    do 2 eexists. split; [reflexivity|]. split_and!; [done..|].
    match goal with |- context [send ?q] =>
      pose proof (serves_Get (base_Path := base_Path) ns name q Hns Hname eq_refl) as H end.
    destruct (st !! (ns, name)) as [tg|].
    + destruct H as (j & Hsend & Hdec); [|by rewrite Hsend; cbn; rewrite Hdec].
      cbn -[URL_path path_Join]. rewrite (typed_path base_Path ns Hns) by (done || by right). cbn -[resource_path].
      by rewrite bool_decide_false, collection_path_good by (done || apply Hname).
    + destruct H as [err Hsend]; [|by rewrite Hsend; eexists].
      cbn -[URL_path path_Join]. rewrite (typed_path base_Path ns Hns) by (done || by right). cbn -[resource_path].
      by rewrite bool_decide_false, collection_path_good by (done || apply Hname).
Qed.
End typed.
End served.

(** ** Theorems *)
Section theorems.
Context {S : Server} {C : Codecs} {L : Library} {LS : LabelSelectors} {SL : SelectorLaws}.
Context (client : versioned_Interface) (st : Store) (I : heap → Prop) {RD : Reads client st I}.

Lemma load_wrapper_run {A} p w h (k : wrapper → action A) : heap_wrappers h !! p = Some w → (load_wrapper p ≫= k) h = k w h.
Proof. unfold mbind, action_bind, load_wrapper. by intros ->. Qed.

Lemma bind_run {A B} (m : action A) (k : A → action B) h a h' : m h = Returns (a, h') → (m ≫= k) h = k a h'.
Proof. unfold mbind, action_bind. by intros ->. Qed.

Lemma wrapper_List_run p ns rv s h :
  ns = "" ∨ good_segment ns →
  I h → heap_wrappers h !! p = Some {| wrapper_client := client; wrapper_namespace := ns; wrapper_resourceVersion := rv |} →
  ∃ items h', wrapper_List p s h = Returns (inr items, h') ∧ I h' ∧ heap_wrappers h' = heap_wrappers h ∧
    ∀ tg, tg ∈ items ↔ stored st ns tg ∧ selects s (labels_of tg) = true.
Proof using RD.
  intros Hns Hh Hp. unfold wrapper_List. rewrite (load_wrapper_run _ _ _ _ Hp). cbn.
  destruct (reads_List ns s rv h Hns Hh) as (items & h' & Hrun & H). exists items, h'. split; [|done].
  by rewrite (bind_run _ _ _ _ _ Hrun).
Qed.

Lemma wrapper_Get_run p ns rv name h :
  good_segment ns → good_segment name →
  I h → heap_wrappers h !! p = Some {| wrapper_client := client; wrapper_namespace := ns; wrapper_resourceVersion := rv |} →
  ∃ r h', wrapper_Get p name h = Returns (r, h') ∧
    match st !! (ns, name) with Some tg => r = (Some tg, None) | None => ∃ err, r = (None, Some err) end.
Proof using RD.
  intros Hns Hname Hh Hp. unfold wrapper_Get. rewrite (load_wrapper_run _ _ _ _ Hp). cbn.
  destruct (reads_Get ns name (version_options rv) h Hns Hname Hh) as (r & h' & Hrun & _ & _ & Hr). by exists r, h'.
Qed.

Lemma wrapper_TaskGroups_run p ns rv ns' h :
  I h → heap_wrappers h !! p = Some {| wrapper_client := client; wrapper_namespace := ns; wrapper_resourceVersion := rv |} →
  ∃ q h', wrapper_TaskGroups p ns' h = Returns (q, h') ∧ I h' ∧
    heap_wrappers h' !! q = Some {| wrapper_client := client; wrapper_namespace := ns'; wrapper_resourceVersion := rv |}.
Proof using RD.
  intros Hh Hp. unfold wrapper_TaskGroups. rewrite (load_wrapper_run _ _ _ _ Hp). do 2 eexists. split_and!; [done|by apply reads_wrappers|].
  cbn. rewrite lookup_app_r by lia. by rewrite Nat.sub_diag.
Qed.

(** An indexer that holds the objects of the store. *)
Definition synced (ix : Indexer TaskGroup) : Prop := ∀ tg, tg ∈ Indexer_objects ix ↔ ∃ k, st !! k = Some tg.

(** The result of [Get] on a client, for that on a cache: the same TaskGroup, or
    an error for an error. *)
Definition over_client (cached : fallible TaskGroup) (r : result TaskGroup) : Prop :=
  match cached with inr tg => r = (Some tg, None) | inl _ => ∃ err, r = (None, Some err) end.

Lemma dynamic_lister_run p rv (ix : Indexer TaskGroup) s sel ns name h :
  I h → heap_wrappers h !! p = Some {| wrapper_client := client; wrapper_namespace := ""; wrapper_resourceVersion := rv |} →
  synced ix → wf_store st → wf_cache ix → good_segment ns → good_segment name → (∀ m, selects s m = selector_matches sel m) →
  (∃ items h', wrapper_List p s h = Returns (inr items, h') ∧ ∀ tg, tg ∈ items ↔ tg ∈ taskGroupLister_List (NewTaskGroupLister ix) sel) ∧
  ∃ q h1, wrapper_TaskGroups p ns h = Returns (q, h1) ∧
    let lister := taskGroupLister_TaskGroups (NewTaskGroupLister ix) ns in
    (∃ items h2, wrapper_List q s h1 = Returns (inr items, h2) ∧
       ∀ tg, tg ∈ items ↔ tg ∈ taskGroupNamespaceLister_List lister sel) ∧
    (∃ r h2, wrapper_Get q name h1 = Returns (r, h2) ∧ over_client (taskGroupNamespaceLister_Get lister name) r).
Proof using RD.
  intros Hh Hp Hix Hst Hcache Hns Hname Hsel. unfold synced in Hix. split.
  { destruct (wrapper_List_run p "" rv s h (or_introl eq_refl) Hh Hp) as (items & h' & Hrun & _ & _ & Hitems). exists items, h'. split; [done|].
    intros tg. rewrite Hitems. unfold taskGroupLister_List, ListAll. rewrite ListAll_loop_filter. cbn.
    rewrite list_elem_of_filter, Hix, Hsel. unfold stored, labels_of. naive_solver. }
  destruct (wrapper_TaskGroups_run p "" rv ns h Hh Hp) as (q & h1 & Hrun & Hh1 & Hq). exists q, h1. split; [done|]. intros lister. split.
  - destruct (wrapper_List_run q ns rv s h1 (or_intror Hns) Hh1 Hq) as (items & h2 & Hrun2 & _ & _ & Hitems). exists items, h2. split; [done|].
    intros tg. rewrite Hitems. unfold taskGroupNamespaceLister_List. rewrite ListAllByNamespace_selected, list_elem_of_filter. cbn.
    unfold selected. rewrite Hix, Hsel. destruct Hns as [Hne _]. unfold stored, labels_of, namespace_of. naive_solver.
  - destruct (wrapper_Get_run q ns rv name h1 Hns Hname Hh1 Hq) as (r & h2 & Hrun2 & Hr). exists r, h2. split; [done|].
    pose proof (taskGroupNamespaceLister_Get_spec ix ns name Hcache (good_segment_no_slash _ Hns)) as Hget. fold lister in Hget.
    destruct (taskGroupNamespaceLister_Get lister name) as [err|tg]; cbn [over_client].
    + destruct Hget as [_ Hno]. destruct (st !! (ns, name)) as [tg|] eqn:Hl; [|done]. exfalso.
      destruct (Hst _ _ _ Hl) as [Htns Htname]. apply (Hno tg); [|done..]. apply Hix. by exists (ns, name).
    + destruct Hget as (Hin & Htns & Htname). apply Hix in Hin as [[ns' name'] Hl].
      destruct (Hst _ _ _ Hl) as [<- <-]. unfold namespace_of, name_of in Hl. rewrite Htns, Htname in Hl. by rewrite Hl in Hr.
Qed.

(** C22: The lister that stands in for one over a cache, over any client that
    reads a store (as the typed client and the wrapped dynamic client of a
    server that serves it do, and the fake clientset), agrees with one over a cache that holds the
    objects of the store: whatever version it asks for, its [List] returns the
    same TaskGroups for a selector, in all namespaces or in a valid one, and
    its [Get] of a valid name the same TaskGroup, or an error where that of the
    cache returns one (the errors differ). None of these calls panics. The
    filtered lister is not such a lister: [filtered_lister_Get_unfiltered]. *)
Theorem dynamic_lister_agrees_with_cache p rv (ix : Indexer TaskGroup) s sel ns name h :
  I h → heap_wrappers h !! p = Some {| wrapper_client := client; wrapper_namespace := ""; wrapper_resourceVersion := rv |} →
  synced ix → wf_store st → wf_cache ix → good_segment ns → good_segment name → (∀ m, selects s m = selector_matches sel m) →
  let dynamic := wrapper_Lister p in let cache := cache_lister (NewTaskGroupLister ix) in
  (∃ items h' cached, Lister_List dynamic s h = Returns (inr items, h') ∧ Lister_List cache sel h = Returns (inr cached, h) ∧
     ∀ tg, tg ∈ items ↔ tg ∈ cached) ∧
  ∃ dynamic' h1 cache', Lister_TaskGroups dynamic ns h = Returns (dynamic', h1) ∧ Lister_TaskGroups cache ns h = Returns (cache', h) ∧
    (∃ items h2 cached, NamespaceLister_List dynamic' s h1 = Returns (inr items, h2) ∧
       NamespaceLister_List cache' sel h = Returns (inr cached, h) ∧ ∀ tg, tg ∈ items ↔ tg ∈ cached) ∧
    (∃ r cached h2, NamespaceLister_Get dynamic' name h1 = Returns (r, h2) ∧
       NamespaceLister_Get cache' name h = Returns (results cached, h) ∧ over_client cached r).
Proof using RD.
  intros Hh Hp Hix Hst Hcache Hns Hname Hsel dynamic cache.
  destruct (dynamic_lister_run p rv ix s sel ns name h Hh Hp Hix Hst Hcache Hns Hname Hsel)
    as [(items & h' & Hlist & Hitems) (q & h1 & Hq & (items2 & h2 & Hlist2 & Hitems2) & (r & h3 & Hget & Hr))]. split.
  - exists items, h'. eexists. split; [exact Hlist|]. split; [reflexivity|exact Hitems].
  - exists (wrapper_namespace_lister q), h1. eexists. split; [exact (bind_run _ _ _ _ _ Hq)|]. split; [reflexivity|]. split.
    + exists items2, h2. eexists. split; [exact Hlist2|]. split; [reflexivity|exact Hitems2].
    + do 3 eexists. split; [exact Hget|]. split; [reflexivity|exact Hr].
Qed.

(** The filtered lister over a client lists the TaskGroups that both its
    own selector and the given one select, and makes no call if its own does
    not parse; but its [Get] does not look at the selector: it gets a TaskGroup
    that it never lists, which the lister over the cache of a filtered informer
    would not have. *)
Theorem filtered_lister_Get_unfiltered w ns reqs s name tg h :
  I h → filtered_client w = client → ParseToRequirements (filtered_selector w) = inr reqs → good_segment ns → good_segment name →
  st !! (ns, name) = Some tg → forallb (λ r, requires r (labels_of tg)) reqs = false →
  let w' := filtered_wrapper_TaskGroups w ns in
  (∃ items h', filtered_wrapper_List w' s h = Returns (inr items, h') ∧ (tg ∉ items) ∧
     ∀ tg', tg' ∈ items ↔ stored st ns tg' ∧ selects s (labels_of tg') = true ∧
       forallb (λ r, requires r (labels_of tg')) reqs = true) ∧
  (∃ h', filtered_wrapper_Get w' name h = Returns ((Some tg, None), h')) ∧
  (∀ bad err, ParseToRequirements bad = inl err →
    filtered_wrapper_List {| filtered_client := client; filtered_namespace := ns; filtered_selector := bad |} s h =
      Returns (inl err, h)).
Proof using RD.
  intros Hh Hc Hreqs Hns Hname Hl Hno w'. split_and!.
  - destruct (reads_List ns (Selector_Add s reqs) "" h (or_intror Hns) Hh) as (items & h' & Hrun & _ & _ & Hitems).
    assert (∀ tg', tg' ∈ items ↔ stored st ns tg' ∧ selects s (labels_of tg') = true ∧
       forallb (λ r, requires r (labels_of tg')) reqs = true) as Hin.
    { intros tg'. rewrite Hitems, selects_Add, andb_true_iff. tauto. }
    exists items, h'. split_and!; [|rewrite Hin; naive_solver congruence|done].
    unfold filtered_wrapper_List, w'. cbn. rewrite Hc, Hreqs. by rewrite (bind_run _ _ _ _ _ Hrun).
  - unfold filtered_wrapper_Get, w'. cbn. rewrite Hc. destruct (reads_Get ns name (version_options "") h Hns Hname Hh) as (r & h' & Hrun & _ & _ & Hr).
    rewrite Hl in Hr. subst r. by exists h'.
  - intros bad err Herr. unfold filtered_wrapper_List. cbn. by rewrite Herr.
Qed.
End theorems.

(** ** Witnesses *)
Module ListersSample.

Definition managed (m : gomap) : bool := bool_decide (is_Some (entries m !! "managed")).

(** Selectors of everything and of what has the label "managed". *)
#[export] Instance selectors : LabelSelectors := {|
  labels_Selector := bool; labels_Requirement := unit;
  Selector_String s := if s then "managed" else "";
  Selector_Add s reqs := s || negb (bool_decide (reqs = []));
  ParseToRequirements s :=
    if bool_decide (s = "") then inr [] else if bool_decide (s = "managed") then inr [tt]
    else inl (errorString "unable to parse requirement") |}.

Definition everything : labels_Selector := false.
Definition has_managed : labels_Requirement := tt.

#[export] Instance library : Library := {|
  labels_Parse s :=
    if bool_decide (s = "") then inr (λ _, true) else if bool_decide (s = "managed") then inr managed
    else inl (errorString "unable to parse requirement");
  fields_ParseSelector _ := None;
  marshal_TaskGroup _ := inr JNull;
  unmarshal_TaskGroup _ := inr Sample.group;
  JSONPatch old _ := inr old; MergePatch old _ := inr old; StrategicMergePatch old _ := inr old |}.

#[export, refine] Instance laws : SelectorLaws := { selects s m := negb s || managed m; requires _ m := managed m }.
Proof.
  - intros []; eexists; split; reflexivity.
  - intros [] reqs m; cbn; [|].
    + induction reqs as [|r reqs IH]; cbn in *; [by rewrite andb_true_r|]. by destruct (managed m).
    + destruct reqs as [|r reqs]; [done|]. cbn. induction reqs; cbn; [by rewrite andb_true_r|]. by destruct (managed m).
  - done.
Defined.

(** A fake clientset with the group of the example, which has no labels. *)
Definition preset : Fake :=
  match NewSimpleClientset [TaskGroupObject Sample.group] with
  | Returns c => c
  | Panics => {| actions := []; ReactionChain := []; fake_tracker := NewObjectTracker |}
  end.

Definition groups : Store := {[("ns", "group") := Sample.group]}.

(** A server that serves it, with codecs that name the group. *)
#[export] Instance serving : Server := {|
  send r :=
    let path := HTTPRequest_path r in
    if bool_decide (length path = 7) then
      if bool_decide (path = collection_path "/" "ns" ++ ["group"]) then inr (JStr "group") else inl (errorString "not found")
    else if bool_decide ((path = collection_path "/" "" ∨ path = collection_path "/" "ns") ∧ HTTPRequest_params r = [JStr ""])
    then inr (JStr "group") else inr JNull;
  send_watch _ := inl (errorString "closed") |}.

#[export] Instance codecs : Codecs := {|
  encode_TaskGroup tg := inr (JStr (ObjectMeta_Name (TaskGroup_ObjectMeta tg)));
  decode_TaskGroup _ := inr Sample.group;
  decode_TaskGroupList j := inr match j with JStr _ => [Sample.group] | _ => [] end;
  encode_ListOptions opts := JStr (ListOptions_LabelSelector opts);
  decode_Unstructured := inr; decode_UnstructuredList := inr;
  GetName j := match j with JStr s => s | _ => "" end |}.

#[export] Instance wire : WireLaws serving codecs.
Proof. split; cbn; [by intros []|done|done|done|naive_solver]. Qed.

Lemma path_Join_root : path_Join [] ["/"] = [].
Proof. reflexivity. Qed.

Lemma collection_path_ns ns : ns ≠ "" → collection_path "/" ns = ["apis"; "custom.tekton.dev"; "v1alpha1"; "namespaces"; ns; "taskgroups"].
Proof. intros Hns. unfold collection_path. by rewrite path_Join_root, bool_decide_false. Qed.

Lemma stored_groups ns tg : stored groups ns tg ↔ tg = Sample.group ∧ (ns = "" ∨ ns = "ns").
Proof.
  unfold stored, groups. split.
  - intros [[k [_ <-]%lookup_singleton_Some] Hns]. cbn in Hns. naive_solver.
  - intros [-> Hns]. split; [by exists ("ns", "group")|cbn; naive_solver].
Qed.

Lemma length_collection_path ns : length (collection_path "/" ns) ≠ 7.
Proof. unfold collection_path. rewrite path_Join_root. by case_bool_decide. Qed.

Lemma collection_path_inj ns ns' : collection_path "/" ns = collection_path "/" ns' → ns = ns'.
Proof. unfold collection_path. rewrite path_Join_root. repeat case_bool_decide; cbn; intros Heq; by simplify_eq. Qed.

Lemma served_list r ns : HTTPRequest_path r = collection_path "/" ns →
  send r = if bool_decide ((ns = "" ∨ ns = "ns") ∧ HTTPRequest_params r = [JStr ""]) then inr (JStr "group") else inr JNull.
Proof.
  intros Hpath. unfold send, serving. rewrite Hpath, (bool_decide_false _ (length_collection_path ns)).
  rewrite (bool_decide_ext _ ((ns = "" ∨ ns = "ns") ∧ HTTPRequest_params r = [JStr ""])); [done|].
  split; intros [[H|H] ?]; (split; [|done]); [left|right|left|right]; by (apply collection_path_inj in H || subst).
Qed.

#[export] Instance serving_groups : Serves "/" groups.
Proof.
  split.
  - intros ns s rv r Hns _ Hpath Hparams. rewrite (served_list r ns Hpath), Hparams. destruct s.
    + rewrite bool_decide_false by naive_solver. do 2 eexists. split_and!; [done..|]. intros tg. rewrite stored_groups, elem_of_nil.
      split; [done|]. intros [[-> _] H]. vm_compute in H. discriminate H.
    + case_bool_decide as H.
      * do 2 eexists. split_and!; [done..|]. intros tg. rewrite stored_groups, list_elem_of_singleton. naive_solver.
      * do 2 eexists. split_and!; [done..|]. intros tg. rewrite stored_groups, elem_of_nil. naive_solver.
  - intros ns name r [Hns _] Hname _ Hpath. unfold send, serving. rewrite Hpath, !collection_path_ns by done. cbn.
    rewrite (bool_decide_true (7 = 7)) by done.
    unfold groups. destruct (decide ((ns, name) = ("ns", "group"))) as [[= -> ->]|Hne].
    + rewrite lookup_singleton_eq, bool_decide_true by done. by eexists.
    + rewrite lookup_singleton_ne, bool_decide_false by (intros Heq; apply Hne; by simplify_eq). by eexists.
Qed.

(** The wrapped dynamic client of the server. *)
Definition wrapped : versioned_Interface := WrapClient {| wrapClient_dyn := dynamic_client "/" 0 |}.

Definition sample_heap : heap := {|
  heap_limiters := 0; heap_fakes := [preset]; heap_factories := [];
  heap_wrappers := [{| wrapper_client := FakeClient 0; wrapper_namespace := ""; wrapper_resourceVersion := "7" |};
    {| wrapper_client := wrapped; wrapper_namespace := ""; wrapper_resourceVersion := "7" |}] |}.

Definition cache : Indexer TaskGroup := {| Indexer_objects := [Sample.group]; Indexer_by_namespace := true |}.

Lemma sample_holds : holds 0 groups sample_heap.
Proof. exists preset. split_and!; [reflexivity|reflexivity|]. vm_compute. reflexivity. Qed.

Lemma groups_wf : wf_store groups.
Proof. intros ns name tg. unfold groups. intros [[= <- <-] <-]%lookup_singleton_Some. split; reflexivity. Qed.

Lemma good_ns : good_segment "ns".
Proof. by apply (bool_decide_unpack _). Qed.

Lemma good_group : good_segment "group".
Proof. by apply (bool_decide_unpack _). Qed.

Lemma cache_synced : synced groups cache.
Proof.
  intros tg. unfold groups. cbn. rewrite elem_of_cons, elem_of_nil. split.
  - intros [->|[]]. exists ("ns", "group"). reflexivity.
  - intros [k [_ ->]%lookup_singleton_Some]. by left.
Qed.

Lemma cache_wf : wf_cache cache.
Proof. split; [constructor; [exact (good_segment_no_slash _ good_ns)|constructor]|]. apply (bool_decide_unpack _). vm_compute. exact I. Qed.

Lemma selects_everything m : selects everything m = selector_matches ∅ m.
Proof. symmetry. apply selector_matches_empty. Qed.
End ListersSample.

Section witnesses.
Import ListersSample.

(** Over the wrapped client of the server. *)
Lemma dynamic_lister_agrees_with_cache_witness :
  ∃ lister h1, Lister_TaskGroups (wrapper_Lister 1) "ns" sample_heap = Returns (lister, h1) ∧
    ∃ h2, NamespaceLister_Get lister "group" h1 = Returns ((Some Sample.group, None), h2).
Proof.
  destruct (dynamic_lister_agrees_with_cache wrapped groups (λ _, True) 1 "7" cache everything ∅ "ns" "group" sample_heap
    I eq_refl cache_synced groups_wf cache_wf good_ns good_group selects_everything)
    as (_ & lister & h1 & cached & Hq & Hc & _ & r & found & h2 & Hget & Hfound & Hr).
  exists lister, h1. split; [exact Hq|]. exists h2. injection Hc as <-.
  destruct found as [err|tg]; [discriminate Hfound|]. injection Hfound as <-. cbn in Hr. subst r. exact Hget.
Defined.

Lemma filtered_lister_Get_unfiltered_witness :
  let w := filtered_wrapper_TaskGroups
    {| filtered_client := FakeClient 0; filtered_namespace := ""; filtered_selector := "managed" |} "ns" in
  (∃ items h', filtered_wrapper_List w everything sample_heap = Returns (inr items, h') ∧ (Sample.group ∉ items)) ∧
  ∃ h', filtered_wrapper_Get w "group" sample_heap = Returns ((Some Sample.group, None), h').
Proof.
  intros w. destruct (filtered_lister_Get_unfiltered (FakeClient 0) groups (holds 0 groups)
    {| filtered_client := FakeClient 0; filtered_namespace := ""; filtered_selector := "managed" |}
    "ns" [has_managed] everything "group" Sample.group sample_heap) as ((items & h' & Hl & Hno & _) & Hg & _).
  - exact sample_holds.
  - reflexivity.
  - reflexivity.
  - exact good_ns.
  - exact good_group.
  - reflexivity.
  - reflexivity.
  - split; [|exact Hg]. exists items, h'. split; [exact Hl|exact Hno].
Defined.
End witnesses.
