(* ===== verification/InjectionTheorems.v ===== *)
(** What the injection sets up: a total Hoare logic of the calls on the heap,
    and with it the contexts that the command, the tests and the filtered
    informers get. *)
From S2P Require Import Prelude GoStrings Types Conditions RunTypes Listers InformerFactory Rest Wiring Clients FakeClient FakeClientTheorems Clientset Injection InjectedListers.

(** ** Calls that return *)
Definition runs {A} (m : action A) (h : heap) (Q : A → heap → Prop) : Prop := ∃ a h', m h = Returns (a, h') ∧ Q a h'.

Lemma runs_ret {A} (a : A) h (Q : A → heap → Prop) : Q a h → runs (mret a) h Q.
Proof. intros HQ. by exists a, h. Qed.

Lemma runs_bind {A B} (m : action A) (k : A → action B) h Q :
  runs m h (λ a h', runs (k a) h' Q) → runs (m ≫= k) h Q.
Proof. intros (a & h' & Hm & b & h'' & Hk & HQ). exists b, h''. unfold mbind, action_bind. by rewrite Hm. Qed.

Lemma runs_weaken {A} (m : action A) h (Q Q' : A → heap → Prop) :
  runs m h Q → (∀ a h', Q a h' → Q' a h') → runs m h Q'.
Proof. intros (a & h' & Hm & HQ) Hw. exists a, h'. auto. Qed.

Lemma runs_call {A} (m : action A) h a h' (Q : A → heap → Prop) : m h = Returns (a, h') → Q a h' → runs m h Q.
Proof. intros Hm HQ. by exists a, h'. Qed.

(** A loop, by an invariant of the rounds that are done. *)
Lemma runs_for_range_from {A B} (Inv : list A → B → heap → Prop) (body : B → A → action B) prefix l b h :
  Inv prefix b h → (∀ prefix a b h, a ∈ l → Inv prefix b h → runs (body b a) h (Inv (prefix ++ [a]))) →
  runs (for_range body l b) h (Inv (prefix ++ l)).
Proof.
  revert prefix b h. induction l as [|a l IH]; intros prefix b h H0 Hstep; simpl.
  - rewrite app_nil_r. by apply runs_ret.
  - apply runs_bind. eapply runs_weaken; [apply Hstep; [left|exact H0]|]. intros b' h' H'.
    replace (prefix ++ a :: l) with ((prefix ++ [a]) ++ l) by by rewrite <-app_assoc.
    apply IH; [exact H'|]. intros ???? Hin. apply Hstep. by right.
Qed.

Lemma runs_for_range {A B} (Inv : list A → B → heap → Prop) (body : B → A → action B) l b h :
  Inv [] b h → (∀ prefix a b h, a ∈ l → Inv prefix b h → runs (body b a) h (Inv (prefix ++ [a]))) →
  runs (for_range body l b) h (Inv l).
Proof. exact (runs_for_range_from Inv body [] l b h). Qed.

Lemma for_range_app {A B} (body : B → A → action B) l1 l2 b h :
  for_range body (l1 ++ l2) b h = (for_range body l1 b ≫= for_range body l2) h.
Proof.
  revert b h. induction l1 as [|a l1 IH]; intros b h; simpl; [done|]. unfold mbind, action_bind in *.
  destruct (body b a h) as [[b' h']|]; [|done]. apply IH.
Qed.

(** ** Contexts *)
Lemma Value_WithValue ctx k v k' : Value (WithValue ctx k v) k' = if bool_decide (k = k') then Some v else Value ctx k'.
Proof. done. Qed.

Lemma Value_eq ctx k v : Value (WithValue ctx k v) k = Some v.
Proof. rewrite Value_WithValue. by rewrite bool_decide_true. Qed.

Lemma Value_ne ctx k v k' : k ≠ k' → Value (WithValue ctx k v) k' = Value ctx k'.
Proof. intros Hk. rewrite Value_WithValue. by rewrite bool_decide_false. Qed.

(** The namespace and the resync period of a context. *)
Definition scope (ctx : context) (namespace : string) : Prop :=
  match Value ctx nsKey with None => namespace = "" | Some v => v = StringValue namespace end.

Definition period (ctx : context) (resync : Z) : Prop :=
  match Value ctx resyncPeriodKey with None => resync = DefaultResyncPeriod | Some v => v = DurationValue resync end.

Lemma runs_scope ctx ns h Q : scope ctx ns → Q ns h → runs (GetNamespaceScope ctx) h Q.
Proof. unfold scope, GetNamespaceScope. intros Hs HQ. destruct (Value ctx nsKey) as [v|]; subst; by apply runs_ret. Qed.

Lemma runs_period ctx d h Q : period ctx d → Q d h → runs (GetResyncPeriod ctx) h Q.
Proof. unfold period, GetResyncPeriod. intros Hs HQ. destruct (Value ctx resyncPeriodKey) as [v|]; subst; by apply runs_ret. Qed.

Lemma runs_namespace_options ctx ns h Q :
  scope ctx ns → Q (if bool_decide (ns = "") then [] else [WithNamespace ns]) h → runs (namespace_options ctx) h Q.
Proof.
  intros Hs HQ. unfold namespace_options, HasNamespaceScope. do 2 apply runs_bind. apply (runs_scope _ ns); [done|]. apply runs_ret.
  case_bool_decide; cbn [negb]; [by apply runs_ret|]. apply runs_bind. apply (runs_scope _ ns); [done|]. by apply runs_ret.
Qed.

(** ** Factories and informers *)

(** A factory at an address that serves TaskGroups of a namespace with a tweak. *)
Record serves (h : heap) (p : nat) (c : versioned_Interface) (ns : string) (tweak : option TweakListOptionsFunc)
    (resync : Z) (f : sharedInformerFactory) : Prop := {
  serves_at : heap_factories h !! p = Some (c, f);
  serves_namespace : factory_namespace f = ns;
  serves_tweak : factory_tweakListOptions f = tweak;
  serves_resync : factory_defaultResync f = resync ∧ factory_customResync f = ∅;
  serves_informer i : factory_informers f !! TaskGroup_type = Some i →
    ∃ id, i = NewFilteredTaskGroupInformer ns resync true tweak id
}.

Lemma runs_new_factory c d ns tweak h :
  runs (new_factory c d ((if bool_decide (ns = "") then [] else [WithNamespace ns]) ++
                         match tweak with Some t => [WithTweakListOptions (Some t)] | None => [] end)) h
    (λ p h', p = length (heap_factories h) ∧ (∃ entry, h' = set_factories (heap_factories h ++ [entry]) h) ∧
       ∃ f, serves h' p c ns tweak d f).
Proof.
  do 2 eexists. split; [reflexivity|]. split_and!; [done|by eexists|].
  eexists. split; cbn; [rewrite lookup_app_r, Nat.sub_diag by lia; reflexivity|..];
    case_bool_decide; destruct tweak; cbn; try done; subst; by rewrite ?lookup_empty.
Qed.

(** An informer of a factory that has built its cache [i]. *)
Record installed (h : heap) (inf : taskGroupInformer) (i : Informer) (c : versioned_Interface) (ns : string)
    (tweak : option TweakListOptionsFunc) (d : Z) : Prop := {
  installed_factory : ∃ f, serves h (taskGroupInformer_factory inf) c ns tweak d f ∧ factory_informers f !! TaskGroup_type = Some i;
  installed_namespace : taskGroupInformer_namespace inf = ns;
  installed_tweak : taskGroupInformer_tweakListOptions inf = tweak
}.

(** The factories that have built it stay as they are; so do those at other
    addresses. *)
Definition factories_stay (p : nat) (h h' : heap) : Prop :=
  heap_fakes h' = heap_fakes h ∧ heap_wrappers h' = heap_wrappers h ∧
  ∀ q c f, heap_factories h !! q = Some (c, f) → q ≠ p ∨ is_Some (factory_informers f !! TaskGroup_type) →
    heap_factories h' !! q = Some (c, f).

Lemma factories_stay_refl p h : factories_stay p h h.
Proof. by split_and!. Qed.

Lemma runs_TaskGroups h p c ns tweak d f :
  serves h p c ns tweak d f →
  Custom_V1alpha1_TaskGroups p h =
    Returns ({| taskGroupInformer_factory := p; taskGroupInformer_tweakListOptions := tweak; taskGroupInformer_namespace := ns |}, h).
Proof.
  intros [Hat <- <- _ _]. unfold Custom_V1alpha1_TaskGroups, mbind, action_bind, sharedInformerFactory_Custom. by rewrite Hat.
Qed.

Lemma runs_Informer h p c ns tweak d f :
  serves h p c ns tweak d f →
  let inf := {| taskGroupInformer_factory := p; taskGroupInformer_tweakListOptions := tweak; taskGroupInformer_namespace := ns |} in
  runs (taskGroupInformer_Informer inf) h (λ i h', installed h' inf i c ns tweak d ∧ factories_stay p h h').
Proof.
  intros [Hat Hns Htweak [Hd Hcustom] Hi] inf. unfold runs, taskGroupInformer_Informer, inf. cbn. rewrite Hat. unfold InformerFor.
  destruct (factory_informers f !! TaskGroup_type) as [i|] eqn:Hf.
  - exists i, h. rewrite list_insert_id by done. split; [by destruct h|]. split; [|apply factories_stay_refl].
    split; [|done..]. exists f. split; [by split; rewrite ?Hf|done].
  - do 2 eexists. split; [reflexivity|]. split.
    + split; [|done..]. eexists. split; [split|]; cbn.
      * apply list_lookup_insert_eq. by eapply lookup_lt_Some.
      * done.
      * done.
      * done.
      * cbn. rewrite lookup_insert_eq. intros i [= <-]. rewrite Hcustom, lookup_empty, Hd. cbn. unfold defaultInformer. by eexists.
      * cbn. by rewrite lookup_insert_eq.
    + split_and!; [done..|]. cbn. intros q c' f' Hq Hor. destruct (decide (q = p)) as [->|Hne].
      * rewrite Hat in Hq. simplify_eq. destruct Hor as [|[? ?]]; congruence.
      * by rewrite list_lookup_insert_ne.
Qed.

Lemma installed_again h inf i c ns tweak d : installed h inf i c ns tweak d → taskGroupInformer_Informer inf h = Returns (i, h).
Proof.
  intros [(f & [Hat _ _ _ _] & Hf) _ _]. unfold taskGroupInformer_Informer. rewrite Hat. unfold InformerFor. rewrite Hf.
  rewrite list_insert_id by done. by destruct h.
Qed.

Lemma installed_informer h inf i c ns tweak d :
  installed h inf i c ns tweak d → ∃ id, i = NewFilteredTaskGroupInformer ns d true tweak id.
Proof. intros [(f & [_ _ _ _ Hi] & Hf) _ _]. by apply Hi. Qed.

Lemma installed_stay h h' p inf i c ns tweak d :
  factories_stay p h h' → installed h inf i c ns tweak d → installed h' inf i c ns tweak d.
Proof.
  intros (_ & _ & Hstay) [(f & [] & Hf) ? ?]. split; [|done..]. exists f. split; [|done]. split; [|done..].
  apply Hstay; [done|]. right. by eexists.
Qed.

Lemma serves_stay h h' p q c ns tweak d f :
  factories_stay p h h' → q ≠ p → serves h q c ns tweak d f → serves h' q c ns tweak d f.
Proof. intros (_ & _ & Hstay) Hne []. split; [|done..]. apply Hstay; [done|by left]. Qed.

(** ** The filtered factories *)

(** A client in a context, and selectors. *)
Definition has_client (ctx : context) (c : versioned_Interface) : Prop := Value ctx client_Key = Some (ClientValue c).
Definition has_selectors (ctx : context) (ss : list string) : Prop := Value ctx filteredFactory_LabelKey = Some (StringsValue ss).

Lemma runs_client_Get ctx c h Q : has_client ctx c → Q c h → runs (client_Get ctx) h Q.
Proof. unfold client_Get. intros -> HQ. by apply runs_ret. Qed.

Lemma runs_GetSelectors ctx ss h Q : has_selectors ctx ss → Q ss h → runs (GetSelectors ctx) h Q.
Proof. unfold GetSelectors. intros -> HQ. by apply runs_ret. Qed.

(** The keys that the filtered packages set. *)
Definition filtered_key (k : ctx_key) : Prop :=
  match k with filteredFactory_Key _ | filteredTaskgroup_Key _ => True | _ => False end.

Definition keeps_unfiltered (ctx ctx' : context) : Prop := ∀ k, ¬ filtered_key k → Value ctx' k = Value ctx k.

Lemma keeps_unfiltered_add ctx ctx' k v :
  filtered_key k → keeps_unfiltered ctx ctx' → keeps_unfiltered ctx (WithValue ctx' k v).
Proof. intros Hk Hkeep k' Hk'. rewrite Value_ne; [by apply Hkeep|]. by intros ->. Qed.

(** The factories of some selectors, which all have one tweak. *)
Definition has_factories (ctx : context) (h : heap) (c : versioned_Interface) ns tweak d (ss : list string) : Prop :=
  ∀ s, s ∈ ss → ∃ p f, Value ctx (filteredFactory_Key s) = Some (FactoryValue p) ∧ serves h p c ns tweak d f.

Lemma runs_filtered_factories ctx c ss ns d h :
  has_client ctx c → has_selectors ctx ss → scope ctx ns → period ctx d →
  runs (filteredFactory_withInformerFactory ctx) h (λ ctx' h', keeps_unfiltered ctx ctx' ∧
    has_factories ctx' h' c ns (Some (set_LabelSelector (default "" (last ss)))) d ss).
Proof.
  intros Hc Hss Hns Hd. unfold filteredFactory_withInformerFactory.
  apply runs_bind. apply (runs_client_Get _ c); [done|]. apply runs_bind. apply (runs_GetSelectors _ ss); [done|].
  set (tweak := set_LabelSelector _).
  apply (runs_for_range (λ done ctx' h', keeps_unfiltered ctx ctx' ∧ has_factories ctx' h' c ns (Some tweak) d done)).
  { split; [by intros k _|]. by intros s ?%elem_of_nil. }
  intros prefix s ctx' h' _ [Hkeep Hdone]. unfold add_filtered_factory.
  assert (scope ctx' ns) as Hns' by (unfold scope; by rewrite Hkeep by by intros []).
  assert (period ctx' d) as Hd' by (unfold period; by rewrite Hkeep by by intros []).
  apply runs_bind. apply (runs_namespace_options _ ns); [done|]. apply runs_bind. apply (runs_period _ d); [done|].
  apply runs_bind. eapply runs_weaken; [apply (runs_new_factory c d ns (Some tweak))|]. cbn beta.
  intros p h'' (-> & [entry ->] & f & Hserves). apply runs_ret. split; [by apply keeps_unfiltered_add|].
  intros s' [Hs'|Hs'%list_elem_of_singleton]%elem_of_app; [|subst s'].
  - destruct (decide (s = s')) as [->|Hne]; [by eexists _, f; rewrite Value_eq|].
    destruct (Hdone s' Hs') as (p & f' & Hp & [Hat ????]). exists p, f'. split; [by rewrite Value_ne by congruence|].
    split; [|done..]. cbn. apply lookup_app_l_Some. exact Hat.
  - exists (length (heap_factories h')), f. by rewrite Value_eq.
Qed.

(** The informers of some selectors, with their caches, all of one tweak. *)
Definition has_informers (ctx : context) (infs : list Informer) (h : heap) (c : versioned_Interface) ns tweak d (ss : list string) : Prop :=
  ∀ s, s ∈ ss → ∃ inf i, Value ctx (filteredTaskgroup_Key s) = Some (InformerValue (SharedTaskGroupInformer inf)) ∧
    installed h inf i c ns tweak d ∧ i ∈ infs.

Lemma has_factories_stay ctx ctx' h h' c ns tweak d ss p :
  (∀ s, Value ctx' (filteredFactory_Key s) = Value ctx (filteredFactory_Key s)) → factories_stay p h h' →
  (∃ f, serves h' p c ns tweak d f) → has_factories ctx h c ns tweak d ss → has_factories ctx' h' c ns tweak d ss.
Proof.
  intros Hctx Hstay [f' Hp] Hf s Hs. destruct (Hf s Hs) as (q & f & Hq & Hserves).
  destruct (decide (q = p)) as [->|Hne]; [exists p, f'|exists q, f]; (split; [by rewrite Hctx|]); [done|by eapply serves_stay].
Qed.

Lemma runs_filtered_informers ctx c ss ns tweak d h :
  has_selectors ctx ss → has_factories ctx h c ns tweak d ss →
  runs (filtered_withInformer ctx) h (λ st h', keeps_unfiltered ctx st.1 ∧ length st.2 = length ss ∧
    has_informers st.1 st.2 h' c ns tweak d ss).
Proof.
  intros Hss Hf. unfold filtered_withInformer. apply runs_bind. apply (runs_GetSelectors _ ss); [done|].
  eapply runs_weaken; [apply (runs_for_range (λ done st h', keeps_unfiltered ctx st.1 ∧ length st.2 = length done ∧
    has_informers st.1 st.2 h' c ns tweak d done ∧ has_factories st.1 h' c ns tweak d ss))|naive_solver].
  { split_and!; [by intros k _|done| |done]. by intros s ?%elem_of_nil. }
  intros prefix s [ctx' infs] h' Hs (Hkeep & Hlen & Hdone & Hall). cbn [fst snd] in *.
  destruct (Hall s Hs) as (p & f & Hp & Hserves). unfold add_filtered_informer. cbn [fst snd].
  apply runs_bind. unfold filteredFactory_Get. rewrite Hp. apply runs_ret.
  apply runs_bind. eapply runs_call; [by eapply runs_TaskGroups|].
  apply runs_bind. eapply runs_weaken; [by eapply runs_Informer|]. cbn beta. intros i h'' [Hi Hstay]. apply runs_ret. cbn [fst snd].
  split_and!.
  - by apply keeps_unfiltered_add.
  - rewrite !length_app, Hlen. done.
  - intros s' [Hs'|Hs'%list_elem_of_singleton]%elem_of_app; [|subst s'].
    + destruct (decide (s = s')) as [->|Hne].
      { do 2 eexists. rewrite Value_eq. split_and!; [done|exact Hi|]. apply elem_of_app. right. left. }
      destruct (Hdone s' Hs') as (inf' & i' & Hv & Hi' & Hin). exists inf', i'. rewrite Value_ne by congruence.
      split_and!; [done|by eapply installed_stay|]. apply elem_of_app. by left.
    + do 2 eexists. rewrite Value_eq. split_and!; [done|exact Hi|]. apply elem_of_app. right. left.
  - eapply has_factories_stay; [|exact Hstay| |exact Hall].
    + intros s'. by rewrite Value_ne.
    + destruct Hi as [(f' & Hf' & _) _ _]. by exists f'.
Qed.

(** The injection of the filtered factories and informers makes an informer
    for each selector, of the namespace of the context, and each can be
    fetched by its selector; but all list and watch with the last selector:
    the closures of the loop share its variable. So an informer has the
    TaskGroups of its own selector only if this is the last. *)
Theorem filtered_informers_last_selector ctx c ss ns d h :
  has_client ctx c → has_selectors ctx ss → scope ctx ns → period ctx d →
  runs (ctx ← filteredFactory_withInformerFactory ctx; filtered_withInformer ctx) h (λ st h',
    length st.2 = length ss ∧
    ∀ s, s ∈ ss → ∃ inf i,
      filtered_Get st.1 s h' = Returns (SharedTaskGroupInformer inf, h') ∧
      TaskGroupInformer_Informer (SharedTaskGroupInformer inf) h' = Returns (ListingInformer i, h') ∧ i ∈ st.2 ∧
      Informer_namespace i = ns ∧ Informer_resync i = d ∧
      (∀ opts, Some (ListOptions_LabelSelector (Informer_options i opts)) = last ss) ∧
      ((∀ opts, ListOptions_LabelSelector (Informer_options i opts) = s) ↔ last ss = Some s)).
Proof.
  intros Hc Hss Hns Hd. apply runs_bind. eapply runs_weaken; [by apply runs_filtered_factories|]. cbn beta.
  intros ctx' h' [Hkeep Hf]. eapply runs_weaken; [eapply runs_filtered_informers; [|exact Hf]|].
  { unfold has_selectors. by rewrite Hkeep by by intros []. }
  cbn beta. intros [ctx'' infs] h'' (_ & Hlen & Hinfs). cbn [fst snd] in *. split; [done|]. intros s Hs.
  destruct (Hinfs s Hs) as (inf & i & Hv & Hi & Hin). exists inf, i.
  destruct (installed_informer _ _ _ _ _ _ _ Hi) as [id ->].
  assert (is_Some (last ss)) as [s' Hlast].
  { apply last_is_Some. intros ->. by apply elem_of_nil in Hs. }
  rewrite Hlast in Hi, Hin |- *. unfold filtered_Get. rewrite Hv. cbn in *. split_and!; try done.
  - unfold TaskGroupInformer_Informer, mbind, action_bind. by rewrite (installed_again _ _ _ _ _ _ _ Hi).
  - split; [intros Hsel|by intros [= ->]].
    pose proof (Hsel {| ListOptions_LabelSelector := ""; ListOptions_Watch := false; ListOptions_TimeoutSeconds := None; ListOptions_Other := JNull |}) as H.
    cbn in H. by rewrite H.
Qed.

(** ** The setup, amid the injectors of other packages *)

(** The keys of other packages, and ours. *)
Definition foreign_key (k : ctx_key) : Prop := match k with other_Key _ | dynamicclient_Key => True | _ => False end.
Definition our_key (k : ctx_key) : Prop := match k with client_Key | factory_Key | taskgroup_Key => True | _ => False end.

(** What is kept of a context and of the heap. *)
Definition keeps_but (P : ctx_key → Prop) (ctx ctx' : context) : Prop := ∀ k, ¬ P k → Value ctx' k = Value ctx k.

Definition same_objects (h h' : heap) : Prop :=
  heap_fakes h' = heap_fakes h ∧ heap_factories h' = heap_factories h ∧ heap_wrappers h' = heap_wrappers h.

(** Injectors of other packages, which rely on a phase of the setup and reach
    the next. *)
Definition segment {A} (P Q : context → Prop) (body : context → A → action context) (l : list A) : Prop :=
  ∀ ctx h, P ctx → runs (for_range body l ctx) h (λ ctx' h', keeps_but foreign_key ctx ctx' ∧ same_objects h h' ∧ Q ctx').

Definition informer_segment {A} (P Q : context → Prop)
    (body : context * list Informer → A → action (context * list Informer)) (l : list A) : Prop :=
  ∀ st h, P st.1 → runs (for_range body l st) h (λ st' h',
    keeps_but foreign_key st.1 st'.1 ∧ st.2 `prefix_of` st'.2 ∧ same_objects h h' ∧ Q st'.1).

(** A registry with an injector of clients, one of factories and that of the
    informer of TaskGroups, which the others do not depend on: with the
    configuration at hand, the others return. *)
Class Linked (i : impl) (cfg : Config) (our_client : context → Config → action context) (our_factory : context → action context) := {
  phase : nat → context → Prop;
  phase_ours j ctx k v : ¬ foreign_key k → phase j ctx → phase j (WithValue ctx k v);
  linked_clients : ∃ before after, clients i = before ++ our_client :: after ∧
    segment (phase 0) (phase 1) (inject_client cfg) before ∧ segment (phase 1) (phase 2) (inject_client cfg) after;
  linked_factories : ∃ before after, factories i = before ++ our_factory :: after ∧
    segment (phase 2) (phase 3) inject before ∧ segment (phase 3) (phase 4) inject after;
  linked_ducks : segment (phase 4) (phase 5) inject (ducks i);
  linked_informers : ∃ before after, impl_informers i = before ++ withInformer :: after ∧
    informer_segment (phase 5) (phase 6) inject_informer before ∧ informer_segment (phase 6) (phase 7) inject_informer after;
  linked_filtered : informer_segment (phase 7) (phase 8) inject_filtered_informers (filteredInformers i)
}.

Lemma keeps_but_scope ctx ctx' ns : keeps_but foreign_key ctx ctx' → scope ctx ns → scope ctx' ns.
Proof. intros Hk. unfold scope. by rewrite Hk by by intros []. Qed.

Lemma keeps_but_period ctx ctx' d : keeps_but foreign_key ctx ctx' → period ctx d → period ctx' d.
Proof. intros Hk. unfold period. by rewrite Hk by by intros []. Qed.

Lemma scope_add ctx k v ns : k ≠ nsKey → scope ctx ns → scope (WithValue ctx k v) ns.
Proof. intros Hk. unfold scope. by rewrite Value_ne. Qed.

Lemma period_add ctx k v d : k ≠ resyncPeriodKey → period ctx d → period (WithValue ctx k v) d.
Proof. intros Hk. unfold period. by rewrite Value_ne. Qed.

Lemma runs_for_range_app {A B} (body : B → A → action B) l1 a l2 b h Q :
  runs (for_range body l1 b) h (λ b1 h1, runs (body b1 a) h1 (λ b2 h2, runs (for_range body l2 b2) h2 Q)) →
  runs (for_range body (l1 ++ a :: l2) b) h Q.
Proof.
  intros (b1 & h1 & Hm & H). unfold runs at 1. rewrite for_range_app. fold (runs (for_range body l1 b ≫= for_range body (a :: l2)) h Q).
  apply runs_bind. apply (runs_call _ _ _ _ _ Hm). simpl. by apply runs_bind.
Qed.

Section setup.
Context {R : RestLibrary} (i : impl) (our_client : context → Config → action context) (our_factory : context → action context).
Context (cfg : Config) {LK : Linked i cfg our_client our_factory}.
(** What the injector of clients puts into a context, whatever factories and
    listers there are. *)
Context (K : versioned_Interface → heap → Prop).
Context (K_fakes : ∀ c h h', heap_fakes h' = heap_fakes h → K c h → K c h').
Context (client_runs : ∀ ctx h, runs (our_client ctx cfg) h (λ ctx' h',
  ∃ c, K c h' ∧ ctx' = WithValue ctx client_Key (ClientValue c))).
Context (factory_runs : ∀ ctx c h, has_client ctx c → K c h → our_factory ctx h = withInformerFactory ctx h).

(** The setup so far. *)
Record set_up (j : nat) (ctx0 ctx : context) (c : versioned_Interface) ns d (h : heap) : Prop := {
  set_up_phase : phase j ctx;
  set_up_client : has_client ctx c;
  set_up_K : K c h;
  set_up_scope : scope ctx ns;
  set_up_period : period ctx d;
  set_up_kept k : ¬ foreign_key k → ¬ our_key k → Value ctx k = Value ctx0 k
}.

Lemma set_up_foreign j j' ctx0 ctx ctx' c ns d h h' :
  set_up j ctx0 ctx c ns d h → keeps_but foreign_key ctx ctx' → same_objects h h' → phase j' ctx' → set_up j' ctx0 ctx' c ns d h'.
Proof using K_fakes.
  intros [] Hk (Hf & _) Hj. split; try done.
  - unfold has_client. by rewrite Hk by by intros [].
  - by eapply K_fakes.
  - by eapply keeps_but_scope.
  - by eapply keeps_but_period.
  - intros k Hn Ho. rewrite Hk by done. auto.
Qed.

Lemma set_up_add j ctx0 ctx k v c ns d h h' :
  set_up j ctx0 ctx c ns d h → k = factory_Key ∨ k = taskgroup_Key → heap_fakes h' = heap_fakes h →
  set_up j ctx0 (WithValue ctx k v) c ns d h'.
Proof using K_fakes.
  intros [] Hk Hf. assert (¬ foreign_key k ∧ our_key k) as [Hforeign Hour] by (destruct Hk; subst; split; [by intros []|done|by intros []|done]).
  split; [by apply phase_ours| |by eapply K_fakes|by apply scope_add; destruct Hk; subst|by apply period_add; destruct Hk; subst|].
  - unfold has_client. by rewrite Value_ne by by destruct Hk; subst.
  - intros k' Hn Ho. rewrite Value_ne by by intros ->. auto.
Qed.

Lemma stage_clients ctx ns d h :
  phase 0 ctx → scope ctx ns → period ctx d →
  runs (for_range (inject_client cfg) (clients i) ctx) h (λ ctx' h', ∃ c, set_up 2 ctx ctx' c ns d h').
Proof using LK K_fakes client_runs.
  intros H0 Hns Hd. destruct linked_clients as (before & after & -> & Hbefore & Hafter).
  apply runs_for_range_app. eapply runs_weaken; [by apply Hbefore|]. cbn beta. intros ctx1 h1 (Hk1 & _ & H1).
  eapply runs_weaken; [apply client_runs|]. cbn beta. intros ctx2 h2 (c & Hc & ->).
  assert (set_up 1 ctx (WithValue ctx1 client_Key (ClientValue c)) c ns d h2) as Hset.
  { split; [apply phase_ours; [by intros []|done]|unfold has_client; by rewrite Value_eq|done| | |].
    - apply scope_add; [done|]. by eapply keeps_but_scope.
    - apply period_add; [done|]. by eapply keeps_but_period.
    - intros k Hn Ho. rewrite Value_ne by by intros <-. by apply Hk1. }
  eapply runs_weaken; [apply Hafter, Hset|]. cbn beta. intros ctx3 h3 (Hk3 & Hsame & H3). exists c. by eapply set_up_foreign.
Qed.

(** A factory in a context. *)
Definition has_factory (ctx : context) (h : heap) (c : versioned_Interface) ns d : Prop :=
  ∃ p f, Value ctx factory_Key = Some (FactoryValue p) ∧ serves h p c ns None d f.

Lemma has_factory_foreign ctx ctx' h h' c ns d :
  keeps_but foreign_key ctx ctx' → same_objects h h' → has_factory ctx h c ns d → has_factory ctx' h' c ns d.
Proof.
  intros Hk (_ & Hf & _) (p & f & Hp & []). exists p, f. rewrite Hk by by intros []. split; [done|]. split; try done. by rewrite Hf.
Qed.

Lemma stage_factories ctx0 ctx c ns d h :
  set_up 2 ctx0 ctx c ns d h →
  runs (for_range inject (factories i) ctx) h (λ ctx' h', set_up 4 ctx0 ctx' c ns d h' ∧ has_factory ctx' h' c ns d).
Proof using LK K_fakes factory_runs.
  intros Hset. destruct linked_factories as (before & after & -> & Hbefore & Hafter).
  apply runs_for_range_app. eapply runs_weaken; [apply Hbefore, Hset|]. cbn beta. intros ctx1 h1 (Hk1 & Hs1 & H1).
  assert (set_up 3 ctx0 ctx1 c ns d h1) as [Hp Hc HK Hns Hd Hkept] by by eapply set_up_foreign. unfold inject at 1.
  unfold runs at 1. rewrite (factory_runs _ c) by done. apply runs_bind. apply (runs_client_Get _ c); [done|].
  apply runs_bind. apply (runs_namespace_options _ ns); [done|]. apply runs_bind. apply (runs_period _ d); [done|].
  apply runs_bind. eapply runs_weaken.
  { rewrite <-(app_nil_r (if bool_decide (ns = "") then [] else [WithNamespace ns])). apply (runs_new_factory c d ns None). }
  cbn beta. intros p h2 (-> & [entry ->] & f & Hserves). apply runs_ret.
  set (ctx2 := WithValue ctx1 factory_Key _). set (h2 := set_factories _ h1) in *.
  assert (set_up 3 ctx0 ctx2 c ns d h2) as Hset2 by (eapply (set_up_add _ _ _ _ _ _ _ _ h1); [by split|by left|done]).
  assert (has_factory ctx2 h2 c ns d) as Hfac by (do 2 eexists; unfold ctx2; split; [by rewrite Value_eq|done]).
  eapply runs_weaken; [apply Hafter, Hset2|]. cbn beta. intros ctx3 h3 (Hk3 & Hs3 & H3).
  split; [by eapply set_up_foreign|by eapply has_factory_foreign].
Qed.

(** An informer in a context, and among those to start. *)
Definition has_informer (ctx : context) (infs : list Informer) (h : heap) (c : versioned_Interface) ns d : Prop :=
  ∃ inf i, Value ctx factory_Key = Some (FactoryValue (taskGroupInformer_factory inf)) ∧
    Value ctx taskgroup_Key = Some (InformerValue (SharedTaskGroupInformer inf)) ∧ installed h inf i c ns None d ∧ i ∈ infs.

Lemma has_informer_foreign ctx ctx' infs infs' h h' c ns d :
  keeps_but foreign_key ctx ctx' → same_objects h h' → infs `prefix_of` infs' → has_informer ctx infs h c ns d →
  has_informer ctx' infs' h' c ns d.
Proof.
  intros Hk (Hfakes & Hf & Hw) [l ->] (inf & i0 & Hp & Hv & Hi & Hin). exists inf, i0. rewrite !Hk by by intros []. split_and!; [done..| |].
  - apply (installed_stay h h' 0); [|done]. split_and!; [done..|]. intros q c' f Hq _. by rewrite Hf.
  - apply elem_of_app. by left.
Qed.

Lemma stage_informers ctx0 ctx c ns d h :
  set_up 5 ctx0 ctx c ns d h → has_factory ctx h c ns d →
  runs (for_range inject_informer (impl_informers i) (ctx, [])) h (λ st h',
    set_up 7 ctx0 st.1 c ns d h' ∧ has_informer st.1 st.2 h' c ns d).
Proof using LK K_fakes.
  intros Hset Hfac. destruct linked_informers as (before & after & -> & Hbefore & Hafter).
  apply runs_for_range_app. eapply runs_weaken; [apply Hbefore, Hset|]. cbn beta.
  intros [ctx1 infs1] h1 (Hk1 & _ & Hs1 & H1). cbn [fst snd] in *.
  assert (set_up 6 ctx0 ctx1 c ns d h1) as Hset1 by by eapply set_up_foreign.
  apply (has_factory_foreign _ _ _ _ _ _ _ Hk1 Hs1) in Hfac as (p & f & Hp & Hserves).
  unfold inject_informer at 1, withInformer. cbn [fst snd]. do 2 apply runs_bind. unfold factory_Get. rewrite Hp. apply runs_ret.
  apply runs_bind. eapply runs_call; [by eapply runs_TaskGroups|].
  apply runs_bind. eapply runs_weaken; [by eapply runs_Informer|]. cbn beta. intros i0 h2 [Hi Hstay]. do 2 apply runs_ret. cbn [fst snd].
  set (ctx2 := WithValue ctx1 taskgroup_Key _).
  assert (set_up 6 ctx0 ctx2 c ns d h2) as Hset2.
  { eapply (set_up_add _ _ _ _ _ _ _ _ h1); [done|by right|]. apply Hstay. }
  assert (has_informer ctx2 (infs1 ++ [i0]) h2 c ns d) as Hinf.
  { do 2 eexists. unfold ctx2. rewrite Value_eq, Value_ne by done. split_and!; [|done|exact Hi|]; [done|].
    apply elem_of_app. right. left. }
  eapply runs_weaken; [apply (Hafter (_, _)), Hset2|]. cbn beta. intros [ctx3 infs3] h3 (Hk3 & Hpre & Hs3 & H3). cbn [fst snd] in *.
  split; [by eapply set_up_foreign|by eapply has_informer_foreign].
Qed.

Lemma runs_SetupInformers ctx ns d h :
  phase 0 ctx → scope ctx ns → period ctx d →
  runs (SetupInformers i ctx cfg) h (λ st h', ∃ c, K c h' ∧ has_client st.1 c ∧ has_informer st.1 st.2 h' c ns d).
Proof using LK K_fakes client_runs factory_runs.
  intros H0 Hns Hd. unfold SetupInformers. apply runs_bind. eapply runs_weaken; [by eapply stage_clients|]. cbn beta.
  intros ctx1 h1 [c Hset1]. apply runs_bind. eapply runs_weaken; [by eapply stage_factories|]. cbn beta.
  intros ctx2 h2 [Hset2 Hfac2]. apply runs_bind. eapply runs_weaken; [apply linked_ducks, Hset2|]. cbn beta.
  intros ctx3 h3 (Hk3 & Hs3 & H3). apply runs_bind. eapply runs_weaken.
  { eapply stage_informers; [by eapply set_up_foreign|by eapply has_factory_foreign]. }
  cbn beta. intros [ctx4 infs4] h4 [Hset4 Hinf4]. eapply runs_weaken; [apply linked_filtered, Hset4|]. cbn beta.
  intros [ctx5 infs5] h5 (Hk5 & Hpre & Hs5 & H5). cbn [fst snd] in *. exists c.
  assert (set_up 8 ctx ctx5 c ns d h5) as [] by by eapply set_up_foreign. split_and!; [done..|]. by eapply has_informer_foreign.
Qed.
End setup.

(** ** The command and the tests *)
Section main.
Context {R : RestLibrary}.

(** A clientset made from a configuration, whatever rate limiters there were. *)
Definition made_from (cfg : Config) (c : versioned_Interface) (h : heap) : Prop :=
  ∃ cs n, c = ClientsetClient cs ∧ (NewForConfigOrDie cfg n).1 = Returns cs.

(** Whether [NewForConfigOrDie] panics does not depend on the other limiters. *)
Lemma NewForConfigOrDie_counter cfg n m cs : (NewForConfigOrDie cfg n).1 = Returns cs → ∃ cs', (NewForConfigOrDie cfg m).1 = Returns cs'.
Proof.
  rewrite !NewForConfigOrDie_two_clients. pose proof (two_clients_limiter cfg (Config_RateLimiter cfg) n m) as H.
  assert (set_RateLimiter (Config_RateLimiter cfg) cfg = cfg) as Hself by by destruct cfg. rewrite Hself in H.
  destruct (two_clients cfg n) as [[|] ?], (two_clients cfg m) as [[|cs'] ?]; cbn in *; try done. intros _. by exists cs'.
Qed.

Lemma withClientFromConfig_runs cfg n cs ctx h :
  (NewForConfigOrDie cfg n).1 = Returns cs →
  runs (withClientFromConfig ctx cfg) h (λ ctx' h', ∃ c, made_from cfg c h' ∧ ctx' = WithValue ctx client_Key (ClientValue c)).
Proof.
  intros Hcs. destruct (NewForConfigOrDie_counter _ _ (heap_limiters h) _ Hcs) as [cs' Hcs'].
  unfold runs, withClientFromConfig. destruct (NewForConfigOrDie cfg (heap_limiters h)) as [[cs0|] n'] eqn:Hnew; [|done].
  do 2 eexists. split; [reflexivity|]. eexists. split; [|done]. exists cs0, (heap_limiters h). by rewrite Hnew.
Qed.

(** The context and the configuration that the injectors of the command get. *)
Definition command_context (namespace : string) (cfg : Config) : context :=
  WithConfig (main_context namespace) (default_rates 1 (default_rates 1 cfg)).
Definition command_config (cfg : Config) : Config := default_rates 1 (default_rates 1 cfg).

Context (i : impl).

(** What the controller finds: a client, a factory on it, and its informer of
    TaskGroups, one of those that are started, which lists a namespace (all, if
    it is empty) without a selector. Fetching it again returns the same. *)
Definition injected (st : context * list Informer) (h : heap) (c : versioned_Interface) (namespace : string) (resync : Z) : Prop :=
  client_Get st.1 h = Returns (c, h) ∧
  ∃ p inf informer, factory_Get st.1 h = Returns (p, h) ∧ (∃ f, heap_factories h !! p = Some (c, f)) ∧
    taskgroup_Get st.1 h = Returns (SharedTaskGroupInformer inf, h) ∧ taskGroupInformer_factory inf = p ∧
    TaskGroupInformer_Informer (SharedTaskGroupInformer inf) h = Returns (ListingInformer informer, h) ∧ informer ∈ st.2 ∧
    Informer_namespace informer = namespace ∧ (∀ opts, Informer_options informer opts = opts) ∧ Informer_resync informer = resync.

Lemma has_informer_injected st h c ns d : has_client st.1 c → has_informer st.1 st.2 h c ns d → injected st h c ns d.
Proof.
  intros Hc (inf & informer & Hp & Hv & Hi & Hin). split; [unfold client_Get; by rewrite Hc|].
  exists (taskGroupInformer_factory inf), inf, informer. unfold factory_Get, taskgroup_Get. rewrite Hp, Hv.
  pose proof (installed_informer _ _ _ _ _ _ _ Hi) as [id Hid]. split_and!; try done; try by rewrite Hid.
  - destruct Hi as [(f & [Hat _ _ _ _] & _) _ _]. by exists f.
  - unfold TaskGroupInformer_Informer, mbind, action_bind. by rewrite (installed_again _ _ _ _ _ _ _ Hi).
Qed.

(** Without a clientset there is no context, whatever other packages inject. *)
Lemma clients_panic ctx cfg h :
  withClientFromConfig ∈ clients i → (NewForConfigOrDie cfg 0).1 = Panics → for_range (inject_client cfg) (clients i) ctx h = Panics.
Proof.
  intros Hin Hnew. apply list_elem_of_split in Hin as (before & after & ->). rewrite for_range_app. unfold mbind, action_bind.
  destruct (for_range _ before ctx h) as [[ctx1 h1]|]; [|done].
  cbn [for_range]. unfold mbind, action_bind, inject_client at 1, withClientFromConfig.
  destruct (NewForConfigOrDie cfg (heap_limiters h1)) as [[cs|] n] eqn:Hnew'; [|done].
  destruct (NewForConfigOrDie_counter cfg (heap_limiters h1) 0 cs) as [cs' Hcs']; [by rewrite Hnew'|congruence].
Qed.

Lemma main_panics namespace cfg h :
  withClientFromConfig ∈ clients i → (NewForConfigOrDie (command_config cfg) 0).1 = Panics → main i namespace cfg h = Panics.
Proof.
  intros Hin Hnew. unfold main, EnableInjectionOrDie, SetupInformers, mbind, action_bind. fold (command_config cfg).
  by rewrite clients_panic.
Qed.

(** When the command has started, the controller finds in its context a
    clientset made from the configuration, with the rates of one controller
    unless they are given, and the informer of TaskGroups on it, restricted to
    the namespace of the flag; it resyncs every ten hours. This holds whatever
    other packages inject, as long as they leave these keys alone and return. *)
Theorem main_installs namespace cfg cs0 h {LK : Linked i (command_config cfg) withClientFromConfig withInformerFactory} :
  phase 0 (command_context namespace cfg) → (NewForConfigOrDie (command_config cfg) 0).1 = Returns cs0 →
  runs (main i namespace cfg) h (λ st h', ∃ cs n, (NewForConfigOrDie (command_config cfg) n).1 = Returns cs ∧
    injected st h' (ClientsetClient cs) namespace DefaultResyncPeriod).
Proof.
  intros H0 Hnew. unfold main, EnableInjectionOrDie. fold (command_config cfg). change (WithConfig _ _) with (command_context namespace cfg).
  eapply runs_weaken.
  { apply (runs_SetupInformers i withClientFromConfig withInformerFactory (command_config cfg) (made_from (command_config cfg)))
      with (ns := namespace) (d := DefaultResyncPeriod); try done. intros ctx h0. by eapply withClientFromConfig_runs. }
  cbn beta. intros st h' (c & (cs & n & -> & Hcs) & Hc & Hi). exists cs, n. split; [done|]. by apply has_informer_injected.
Qed.

(** The registry with the packages of the filtered factories and informers
    linked, too. *)
Definition link_filtered (i : impl) : impl := {|
  clients := clients i; dynamicClients := dynamicClients i; clientFetchers := clientFetchers i;
  factories := factories i ++ [filteredFactory_withInformerFactory]; ducks := ducks i;
  impl_informers := impl_informers i; filteredInformers := filteredInformers i ++ [filtered_withInformer];
  dynamicInformers := dynamicInformers i |}.

(** The command panics if the filtered factories of TaskGroups are linked into
    it: the selectors of its context are those of the filtered factories of
    another package, and [WithSelectors] of this one has not been called. *)
Theorem main_without_selectors namespace cfg h {LK : Linked i (command_config cfg) withClientFromConfig withInformerFactory} :
  phase 0 (command_context namespace cfg) → main (link_filtered i) namespace cfg h = Panics.
Proof.
  intros H0. unfold main, EnableInjectionOrDie. fold (command_config cfg). change (WithConfig _ _) with (command_context namespace cfg).
  unfold SetupInformers, mbind, action_bind. cbn [clients factories link_filtered].
  destruct (NewForConfigOrDie (command_config cfg) 0).1 as [cs0|] eqn:Hnew.
  2: { rewrite clients_panic; [done| |done]. destruct linked_clients as (before & after & -> & _). set_solver. }
  destruct (stage_clients i withClientFromConfig withInformerFactory (command_config cfg) (made_from (command_config cfg)))
    with (ctx := command_context namespace cfg) (ns := namespace) (d := DefaultResyncPeriod) (h := h)
    as (ctx1 & h1 & -> & c & Hset); try done.
  { intros ctx h0. by eapply withClientFromConfig_runs. }
  rewrite for_range_app. unfold mbind, action_bind.
  destruct (stage_factories i withClientFromConfig withInformerFactory (command_config cfg) (made_from (command_config cfg)))
    with (ctx0 := command_context namespace cfg) (ctx := ctx1) (c := c) (ns := namespace) (d := DefaultResyncPeriod) (h := h1)
    as (ctx2 & h2 & -> & [] & _); try done.
  cbn. unfold mbind, action_bind, inject, filteredFactory_withInformerFactory, client_Get, GetSelectors.
  rewrite set_up_client0, set_up_kept0 by by intros []. done.
Qed.
End main.

Section fake_setup.
Context {L : Library} {R : RestLibrary} (i : impl) (cfg : Config) {LK : Linked i cfg fake_withClient fake_withInformerFactory}.

(** An empty fake clientset. *)
Definition empty_fake (c : versioned_Interface) (h : heap) : Prop := ∃ p, c = FakeClient p ∧ holds p ∅ h.

Lemma fake_withClient_runs ctx h :
  runs (fake_withClient ctx cfg) h (λ ctx' h', ∃ c, empty_fake c h' ∧ ctx' = WithValue ctx client_Key (ClientValue c)).
Proof.
  unfold fake_withClient. apply runs_bind. do 2 eexists. split; [reflexivity|]. apply runs_ret. eexists. split; [|done].
  eexists. split; [done|]. eexists. split; [cbn; rewrite lookup_app_r, Nat.sub_diag by lia; reflexivity|].
  split; reflexivity.
Qed.

(** In tests, the injection of the fakes sets up the same as the command, on
    an empty fake clientset and for any configuration; so what a reconciler
    finds in its context does not depend on which it is. *)
Theorem fake_installs ctx ns d h :
  phase 0 ctx → scope ctx ns → period ctx d →
  runs (SetupInformers i ctx cfg) h (λ st h', ∃ p, holds p ∅ h' ∧ injected st h' (FakeClient p) ns d).
Proof using LK.
  intros H0 Hns Hd. eapply runs_weaken.
  { apply (runs_SetupInformers i fake_withClient fake_withInformerFactory cfg empty_fake) with (ns := ns) (d := d); try done.
    - intros c h0 h1 Hf (p & -> & f & Hp & H). exists p. split; [done|]. exists f. by rewrite Hf.
    - intros ctx0 h0. apply fake_withClient_runs.
    - intros ctx0 c h0 Hc (p & -> & _). unfold fake_withInformerFactory, withInformerFactory, fake_client_Get, client_Get.
      by rewrite Hc. }
  cbn beta. intros st h' (c & (p & -> & Hp) & Hc & Hi). exists p. split; [done|]. by apply has_informer_injected.
Qed.
End fake_setup.

(** ** Witnesses *)
Module InjectionSample.
#[export] Existing Instance ClientsetSample.library.
#[export] Existing Instance FakeSample.library.

(** A client and filtered factories of another package; these need its
    selectors. *)
Definition kube_client (ctx : context) (cfg : Config) : action context := mret (WithValue ctx (other_Key "kubeclient") (OtherValue JNull)).

Definition kube_filtered_factories (ctx : context) : action context :=
  match Value ctx kube_LabelKey with Some _ => mret (WithValue ctx (other_Key "kubefactory") (OtherValue JNull)) | None => panic end.

Definition registry (our_client : context → Config → action context) (our_factory : context → action context) : impl := {|
  clients := [kube_client; our_client]; dynamicClients := []; clientFetchers := []; factories := [our_factory; kube_filtered_factories]; ducks := [];
  impl_informers := [withInformer]; filteredInformers := []; dynamicInformers := [] |}.

Lemma segment_nil {A} P (body : context → A → action context) : segment P P body [].
Proof. intros ctx h HP. apply runs_ret. by split_and!. Qed.

Lemma informer_segment_nil {A} P (body : context * list Informer → A → action (context * list Informer)) : informer_segment P P body [].
Proof. intros st h HP. apply runs_ret. by split_and!. Qed.

Lemma kube_selectors_kept ctx s v :
  other_Key s ≠ kube_LabelKey → is_Some (Value ctx kube_LabelKey) →
  keeps_but foreign_key ctx (WithValue ctx (other_Key s) v) ∧ is_Some (Value (WithValue ctx (other_Key s) v) kube_LabelKey).
Proof. intros Hs Hsome. split; [|by rewrite Value_ne]. intros k Hk. rewrite Value_ne; [done|]. intros <-. by apply Hk. Qed.

#[export, refine] Instance registry_linked cfg our_client our_factory : Linked (registry our_client our_factory) cfg our_client our_factory :=
  { phase _ ctx := is_Some (Value ctx kube_LabelKey) }.
Proof.
  - intros _ ctx k v Hk Hsome. rewrite Value_ne; [done|]. intros ->. by apply Hk.
  - exists [kube_client], []. split; [done|]. split; [|apply segment_nil]. intros ctx h Hsome.
    do 2 eexists. split; [reflexivity|]. destruct (kube_selectors_kept ctx "kubeclient" (OtherValue JNull)) as [Hk Hs]; [done..|]. by split_and!.
  - exists [], [kube_filtered_factories]. split; [done|]. split; [apply segment_nil|]. intros ctx h Hsome. cbn.
    apply runs_bind. unfold inject, kube_filtered_factories. pose proof Hsome as [v ->]. do 2 apply runs_ret.
    destruct (kube_selectors_kept ctx "kubefactory" (OtherValue JNull)) as [Hk Hs]; [done..|]. by split_and!.
  - apply segment_nil.
  - exists [], []. split; [done|]. split; apply informer_segment_nil.
  - apply informer_segment_nil.
Defined.

Definition empty_heap : heap := {| heap_limiters := 0; heap_fakes := []; heap_factories := []; heap_wrappers := [] |}.

Definition two_selectors : context :=
  WithSelectors (WithValue [] client_Key (ClientValue (FakeClient 0))) ["app=a"; "app=b"].
End InjectionSample.

Section witnesses.
Import InjectionSample.

Lemma filtered_informers_last_selector_witness :
  runs (ctx ← filteredFactory_withInformerFactory two_selectors; filtered_withInformer ctx) empty_heap (λ st h', ∃ inf i,
    filtered_Get st.1 "app=a" h' = Returns (SharedTaskGroupInformer inf, h') ∧
    TaskGroupInformer_Informer (SharedTaskGroupInformer inf) h' = Returns (ListingInformer i, h') ∧
    ∀ opts, Some (ListOptions_LabelSelector (Informer_options i opts)) = Some "app=b").
Proof.
  eapply runs_weaken.
  - apply (filtered_informers_last_selector two_selectors (FakeClient 0) ["app=a"; "app=b"] "" DefaultResyncPeriod empty_heap); reflexivity.
  - intros st h' [_ H]. destruct (H "app=a") as (inf & i & Hget & Hinf & _ & _ & _ & Hsel & _); [left|].
    exists inf, i. split; [exact Hget|]. split; [exact Hinf|]. exact Hsel.
Defined.

Lemma main_installs_witness :
  let i := registry withClientFromConfig withInformerFactory in
  runs (main i "ns" ClientsetSample.no_rates) empty_heap (λ st h', ∃ cs, injected st h' (ClientsetClient cs) "ns" DefaultResyncPeriod).
Proof.
  intros i. destruct (NewForConfigOrDie (command_config ClientsetSample.no_rates) 0).1 as [cs|] eqn:Hnew; [|vm_compute in Hnew; discriminate Hnew].
  eapply runs_weaken; [exact (main_installs i "ns" ClientsetSample.no_rates cs empty_heap (mk_is_Some _ _ eq_refl) Hnew)|].
  intros st h' (cs' & n & _ & Hi). exists cs'. exact Hi.
Defined.

Lemma main_without_selectors_witness :
  main (link_filtered (registry withClientFromConfig withInformerFactory)) "ns" ClientsetSample.no_rates empty_heap = Panics.
Proof. exact (main_without_selectors (registry _ _) "ns" ClientsetSample.no_rates empty_heap (mk_is_Some _ _ eq_refl)). Defined.

Lemma fake_installs_witness :
  runs (SetupInformers (registry fake_withClient fake_withInformerFactory) (main_context "ns") ClientsetSample.no_rates) empty_heap
    (λ st h', ∃ p, holds p ∅ h' ∧ injected st h' (FakeClient p) "ns" DefaultResyncPeriod).
Proof. exact (fake_installs (registry _ _) ClientsetSample.no_rates (main_context "ns") "ns" DefaultResyncPeriod empty_heap (mk_is_Some _ _ eq_refl) eq_refl eq_refl). Defined.
End witnesses.
