(* ===== verification/Registration.v ===== *)
(** How the packages of pkg/client/injection get into the registries that
    knative's injection package runs: the [Register] functions of
    injection/clients.go, factories.go, ducks.go and informers.go, and the
    [init] of each package. A process initializes the packages that it links,
    those that a package imports before it, amid those of others; what its
    registries set up then follows. *)
From S2P Require Import Prelude GoStrings Types Conditions RunTypes Listers InformerFactory Rest Wiring Clients FakeClient FakeClientTheorems Clientset Injection TaskGroupClients InjectedListers InjectionTheorems.

(** ** The registries *)

(** [&impl{}] *)
Definition zero_impl : impl := {|
  clients := []; dynamicClients := []; clientFetchers := []; factories := []; ducks := []; impl_informers := [];
  filteredInformers := []; dynamicInformers := [] |}.

(** What one implementation registers after another. *)
Definition append (i j : impl) : impl := {|
  clients := clients i ++ clients j; dynamicClients := dynamicClients i ++ dynamicClients j;
  clientFetchers := clientFetchers i ++ clientFetchers j; factories := factories i ++ factories j;
  ducks := ducks i ++ ducks j; impl_informers := impl_informers i ++ impl_informers j;
  filteredInformers := filteredInformers i ++ filteredInformers j; dynamicInformers := dynamicInformers i ++ dynamicInformers j |}.

(** [func (i *impl) RegisterClient(ci ClientInjector)] and the like *)
Definition RegisterClient (ci : context → Config → action context) (i : impl) : impl := {|
  clients := clients i ++ [ci]; dynamicClients := dynamicClients i; clientFetchers := clientFetchers i;
  factories := factories i; ducks := ducks i; impl_informers := impl_informers i;
  filteredInformers := filteredInformers i; dynamicInformers := dynamicInformers i |}.

Definition RegisterClientFetcher (f : context → action ctx_value) (i : impl) : impl := {|
  clients := clients i; dynamicClients := dynamicClients i; clientFetchers := clientFetchers i ++ [f];
  factories := factories i; ducks := ducks i; impl_informers := impl_informers i;
  filteredInformers := filteredInformers i; dynamicInformers := dynamicInformers i |}.

Definition RegisterDynamicClient (ci : context → action context) (i : impl) : impl := {|
  clients := clients i; dynamicClients := dynamicClients i ++ [ci]; clientFetchers := clientFetchers i;
  factories := factories i; ducks := ducks i; impl_informers := impl_informers i;
  filteredInformers := filteredInformers i; dynamicInformers := dynamicInformers i |}.

Definition RegisterInformerFactory (ifi : context → action context) (i : impl) : impl := {|
  clients := clients i; dynamicClients := dynamicClients i; clientFetchers := clientFetchers i;
  factories := factories i ++ [ifi]; ducks := ducks i; impl_informers := impl_informers i;
  filteredInformers := filteredInformers i; dynamicInformers := dynamicInformers i |}.

Definition RegisterInformer (ii : context → action (context * Informer)) (i : impl) : impl := {|
  clients := clients i; dynamicClients := dynamicClients i; clientFetchers := clientFetchers i;
  factories := factories i; ducks := ducks i; impl_informers := impl_informers i ++ [ii];
  filteredInformers := filteredInformers i; dynamicInformers := dynamicInformers i |}.

Definition RegisterFilteredInformers (fii : context → action (context * list Informer)) (i : impl) : impl := {|
  clients := clients i; dynamicClients := dynamicClients i; clientFetchers := clientFetchers i;
  factories := factories i; ducks := ducks i; impl_informers := impl_informers i;
  filteredInformers := filteredInformers i ++ [fii]; dynamicInformers := dynamicInformers i |}.

Definition RegisterDynamicInformer (ii : context → action context) (i : impl) : impl := {|
  clients := clients i; dynamicClients := dynamicClients i; clientFetchers := clientFetchers i;
  factories := factories i; ducks := ducks i; impl_informers := impl_informers i;
  filteredInformers := filteredInformers i; dynamicInformers := dynamicInformers i ++ [ii] |}.

(** [func (i *impl) FetchAllClients(ctx context.Context) []interface{}] *)
Definition FetchAllClients (i : impl) (ctx : context) : action (list ctx_value) :=
  for_range (λ clients f, c ← f ctx; mret (clients ++ [c])) (clientFetchers i) [].

(** [var Default], [var Dynamic] and [var Fake] *)
Record registries := { Default : impl; Dynamic : impl; Fakes : impl }.

Definition no_registrations : registries := {| Default := zero_impl; Dynamic := zero_impl; Fakes := zero_impl |}.

Definition on_Default (f : impl → impl) (r : registries) : registries :=
  {| Default := f (Default r); Dynamic := Dynamic r; Fakes := Fakes r |}.
Definition on_Dynamic (f : impl → impl) (r : registries) : registries :=
  {| Default := Default r; Dynamic := f (Dynamic r); Fakes := Fakes r |}.
Definition on_Fakes (f : impl → impl) (r : registries) : registries :=
  {| Default := Default r; Dynamic := Dynamic r; Fakes := f (Fakes r) |}.

(** The initialization of a package of others. *)
Definition foreign_init (f : registries) (r : registries) : registries := {|
  Default := append (Default r) (Default f); Dynamic := append (Dynamic r) (Dynamic f); Fakes := append (Fakes r) (Fakes f) |}.

(** ** The [init] of the packages *)
Section inits.
Context {R : RestLibrary} {L : Library}.

(** [func init()] of client/client.go *)
Definition client_init (r : registries) : registries :=
  let r := on_Default (RegisterClient withClientFromConfig) r in
  let r := on_Default (RegisterClientFetcher (λ ctx, c ← client_Get ctx; mret (ClientValue c))) r in
  on_Dynamic (RegisterDynamicClient withClientFromDynamic) r.

(** [func init()] of informers/factory/factory.go *)
Definition factory_init : registries → registries := on_Default (RegisterInformerFactory withInformerFactory).

(** [func init()] of informers/factory/filtered/filtered_factory.go *)
Definition filteredFactory_init : registries → registries :=
  on_Default (RegisterInformerFactory filteredFactory_withInformerFactory).

(** [func init()] of informers/taskgroup/v1alpha1/taskgroup/taskgroup.go *)
Definition taskgroup_init (r : registries) : registries :=
  let r := on_Default (RegisterInformer withInformer) r in
  on_Dynamic (RegisterDynamicInformer withDynamicInformer) r.

(** [func init()] of informers/taskgroup/v1alpha1/taskgroup/filtered/taskgroup.go *)
Definition filteredTaskgroup_init (r : registries) : registries :=
  let r := on_Default (RegisterFilteredInformers filtered_withInformer) r in
  on_Dynamic (RegisterDynamicInformer filtered_withDynamicInformer) r.

(** [func init()] of client/fake/fake.go *)
Definition fake_client_init (r : registries) : registries :=
  let r := on_Fakes (RegisterClient fake_withClient) r in
  on_Fakes (RegisterClientFetcher (λ ctx, p ← fake_client_Get ctx; mret (ClientValue (FakeClient p)))) r.

(** [func init()] of informers/factory/fake/fake.go, and its [Get] *)
Definition fake_factory_init : registries → registries := on_Fakes (RegisterInformerFactory fake_withInformerFactory).
Definition fake_factory_Get : context → action nat := factory_Get.

(** [func init()] of informers/factory/filtered/fake/fake_filtered_factory.go, and its [Get] *)
Definition fake_filteredFactory_init : registries → registries :=
  on_Fakes (RegisterInformerFactory fake_filteredFactory_withInformerFactory).
Definition fake_filteredFactory_Get : context → string → action nat := filteredFactory_Get.

(** [func init()] of informers/taskgroup/v1alpha1/taskgroup/fake/fake.go, and its [Get] *)
Definition fake_taskgroup_init : registries → registries := on_Fakes (RegisterInformer fake_withInformer).
Definition fake_taskgroup_Get : context → action TaskGroupInformer := taskgroup_Get.

(** [func init()] of informers/taskgroup/v1alpha1/taskgroup/filtered/fake/fake.go, and its [Get] *)
Definition fake_filteredTaskgroup_init : registries → registries :=
  on_Fakes (RegisterFilteredInformers fake_filtered_withInformer).
Definition fake_filteredTaskgroup_Get : context → string → action TaskGroupInformer := filtered_Get.

(** The command links the packages of the client, of the factory and of the
    informer, each importing the one before it; [f0] to [f3] are what the
    packages of others register before, between and after them. *)
Definition command_registries (f0 f1 f2 f3 : registries) : registries :=
  foreign_init f3 (taskgroup_init (foreign_init f2 (factory_init (foreign_init f1 (client_init (foreign_init f0 no_registrations)))))).

(** A test that uses the fake informer links the fakes of these, which import
    them. *)
Definition test_registries (f0 f1 f2 f3 : registries) : registries :=
  foreign_init f3 (fake_taskgroup_init (taskgroup_init
    (foreign_init f2 (fake_factory_init (factory_init
      (foreign_init f1 (fake_client_init (client_init (foreign_init f0 no_registrations))))))))).
End inits.

(** ** What others register *)

(** Packages of others that depend on each other and on nothing of this
    module's: what each stage of the setup needs of the context holds when its
    turn comes, and with the configuration at hand their injectors return. *)
Class Foreign (cfg : Config) (f0 f1 f2 f3 : impl) := {
  foreign_phase : nat → context → Prop;
  foreign_phase_ours j ctx k v : ¬ foreign_key k → foreign_phase j ctx → foreign_phase j (WithValue ctx k v);
  foreign_clients :
    segment (foreign_phase 0) (foreign_phase 1) (inject_client cfg) (clients f0) ∧
    segment (foreign_phase 1) (foreign_phase 2) (inject_client cfg) (clients f1 ++ clients f2 ++ clients f3);
  foreign_factories :
    segment (foreign_phase 2) (foreign_phase 3) inject (factories f0 ++ factories f1) ∧
    segment (foreign_phase 3) (foreign_phase 4) inject (factories f2 ++ factories f3);
  foreign_ducks : segment (foreign_phase 4) (foreign_phase 5) inject (ducks f0 ++ ducks f1 ++ ducks f2 ++ ducks f3);
  foreign_informers :
    informer_segment (foreign_phase 5) (foreign_phase 6) inject_informer
      (impl_informers f0 ++ impl_informers f1 ++ impl_informers f2) ∧
    informer_segment (foreign_phase 6) (foreign_phase 7) inject_informer (impl_informers f3);
  foreign_filtered : informer_segment (foreign_phase 7) (foreign_phase 8) inject_filtered_informers
    (filteredInformers f0 ++ filteredInformers f1 ++ filteredInformers f2 ++ filteredInformers f3)
}.

(** The same for the injectors over a dynamic client, which they leave in the
    context. *)
Class ForeignDynamic (dyn : RESTClient) (f0 f1 f2 f3 : impl) := {
  dynamic_phase : nat → context → Prop;
  dynamic_phase_ours j ctx k v : ¬ foreign_key k → dynamic_phase j ctx → dynamic_phase j (WithValue ctx k v);
  dynamic_phase_client j ctx : dynamic_phase j ctx → Value ctx dynamicclient_Key = Some (DynamicValue dyn);
  foreign_dynamicClients :
    segment (dynamic_phase 0) (dynamic_phase 1) inject (dynamicClients f0) ∧
    segment (dynamic_phase 1) (dynamic_phase 2) inject (dynamicClients f1 ++ dynamicClients f2 ++ dynamicClients f3);
  foreign_dynamicInformers :
    segment (dynamic_phase 2) (dynamic_phase 3) inject (dynamicInformers f0 ++ dynamicInformers f1 ++ dynamicInformers f2) ∧
    segment (dynamic_phase 3) (dynamic_phase 4) inject (dynamicInformers f3)
}.

(** A registry with these and with ours in their places. *)
Lemma Linked_of_lists (i f0 f1 f2 f3 : impl) our_client our_factory cfg {F : Foreign cfg f0 f1 f2 f3} :
  clients i = clients f0 ++ our_client :: clients f1 ++ clients f2 ++ clients f3 →
  factories i = (factories f0 ++ factories f1) ++ our_factory :: factories f2 ++ factories f3 →
  ducks i = ducks f0 ++ ducks f1 ++ ducks f2 ++ ducks f3 →
  impl_informers i = (impl_informers f0 ++ impl_informers f1 ++ impl_informers f2) ++ withInformer :: impl_informers f3 →
  filteredInformers i = filteredInformers f0 ++ filteredInformers f1 ++ filteredInformers f2 ++ filteredInformers f3 →
  Linked i cfg our_client our_factory.
Proof.
  intros Hc Hf Hd Hi Hfi. refine {| phase := foreign_phase |}.
  - apply foreign_phase_ours.
  - do 2 eexists. split; [exact Hc|]. apply foreign_clients.
  - do 2 eexists. split; [exact Hf|]. apply foreign_factories.
  - rewrite Hd. apply foreign_ducks.
  - do 2 eexists. split; [exact Hi|]. apply foreign_informers.
  - rewrite Hfi. apply foreign_filtered.
Defined.

(** The lists of a registry, in the shape of the lemma. *)
Ltac registered := cbn; rewrite ?app_nil_r, <-?app_assoc; reflexivity.

Section initialized.
Context {R : RestLibrary} {L : Library} (f0 f1 f2 f3 : registries).

#[export] Instance command_linked cfg {F : Foreign cfg (Default f0) (Default f1) (Default f2) (Default f3)} :
  Linked (Default (command_registries f0 f1 f2 f3)) cfg withClientFromConfig withInformerFactory.
Proof. apply (@Linked_of_lists _ _ _ _ _ _ _ _ F); registered. Defined.

#[export] Instance test_linked cfg {F : Foreign cfg (Fakes f0) (Fakes f1) (Fakes f2) (Fakes f3)} :
  Linked (Fakes (test_registries f0 f1 f2 f3)) cfg fake_withClient fake_withInformerFactory.
Proof. apply (@Linked_of_lists _ _ _ _ _ _ _ _ F); registered. Defined.
End initialized.

(** ** What the registries set up *)
Section theorems.
Context {R : RestLibrary} {L : Library} (f0 f1 f2 f3 : registries).

(** A fetcher that finds a value wherever it looks. *)
Definition fetches (ctx : context) (f : context → action ctx_value) : Prop := ∀ h, runs (f ctx) h (λ _ h', heap_factories h' = heap_factories h).

Definition foreign_fetchers : list (context → action ctx_value) :=
  clientFetchers (Default f0) ++ clientFetchers (Default f1) ++ clientFetchers (Default f2) ++ clientFetchers (Default f3).

Lemma FetchAllClients_app i ctx h l1 f l2 c :
  clientFetchers i = l1 ++ f :: l2 → (∀ g, g ∈ l1 ++ l2 → fetches ctx g) → (∀ h, f ctx h = Returns (c, h)) →
  runs (FetchAllClients i ctx) h (λ found _, c ∈ found).
Proof.
  intros Hi Hl Hf. unfold FetchAllClients. rewrite Hi.
  assert (∀ l b h, (∀ g, g ∈ l → fetches ctx g) →
    runs (for_range (λ clients f, c ← f ctx; mret (clients ++ [c])) l b) h (λ found _, b `prefix_of` found)) as Hloop.
  { intros l b h0 Hall. apply (runs_for_range (λ _ found _, b `prefix_of` found)); [done|].
    intros prefix g b' h' Hin Hpre. apply runs_bind. eapply runs_weaken; [by apply Hall|]. intros v h'' _. apply runs_ret.
    by apply prefix_app_r. }
  apply runs_for_range_app. eapply runs_weaken; [apply Hloop|].
  { intros g Hg. apply Hl, elem_of_app. by left. }
  intros b h1 _. apply runs_bind. eapply runs_call; [apply Hf|]. apply runs_ret.
  eapply runs_weaken; [apply Hloop|].
  { intros g Hg. apply Hl, elem_of_app. by right. }
  intros found h2 [rest ->]. apply elem_of_app. left. apply elem_of_app. right. left.
Qed.

(** C16: A process that links the packages of the command, amid those of others,
    panics if no clientset can be made from its configuration, whatever the
    others do. If one can be made, and the injectors of the others return for
    this configuration and leave our keys alone, it sets up what its controller
    needs: it finds in its context a clientset made from the configuration, with
    the rates of one controller unless they are given, and the informer of
    TaskGroups on it, restricted to the namespace of the flag; it resyncs every
    ten hours. The clientset is also among the clients that can be fetched. *)
Theorem command_installs namespace cfg h :
  let i := Default (command_registries f0 f1 f2 f3) in
  match (NewForConfigOrDie (command_config cfg) 0).1 with
  | Panics => main i namespace cfg h = Panics
  | Returns _ =>
    ∀ F : Foreign (command_config cfg) (Default f0) (Default f1) (Default f2) (Default f3),
    foreign_phase 0 (command_context namespace cfg) →
    runs (main i namespace cfg) h (λ st h', ∃ cs n, (NewForConfigOrDie (command_config cfg) n).1 = Returns cs ∧
      injected st h' (ClientsetClient cs) namespace DefaultResyncPeriod ∧
      ((∀ f, f ∈ foreign_fetchers → fetches st.1 f) →
       runs (FetchAllClients i st.1) h' (λ found _, ClientValue (ClientsetClient cs) ∈ found)))
  end.
Proof.
  intros i. destruct (NewForConfigOrDie (command_config cfg) 0).1 as [cs0|] eqn:Hnew.
  2: { apply main_panics; [|done]. subst i. cbn. set_solver. }
  intros F H0. assert (phase (Linked := command_linked f0 f1 f2 f3 _) 0 (command_context namespace cfg)) as Hphase by exact H0.
  eapply runs_weaken; [exact (main_installs i namespace cfg cs0 h (LK := command_linked f0 f1 f2 f3 _) Hphase Hnew)|].
  cbn beta. intros st h' (cs & n & Hcs & Hi). exists cs, n. split; [exact Hcs|split; [exact Hi|]].
  intros Hall. eapply (FetchAllClients_app _ _ _ (clientFetchers (Default f0)) _
    (clientFetchers (Default f1) ++ clientFetchers (Default f2) ++ clientFetchers (Default f3))).
  - subst i. registered.
  - exact Hall.
  - intros h''. destruct Hi as [Hget _]. unfold client_Get in *.
    destruct (Value st.1 client_Key) as [[]|]; try done. injection Hget as ->. done.
Qed.

(** Tests that link the fakes set up the same, on an empty fake clientset. *)
Theorem test_installs cfg {F : Foreign cfg (Fakes f0) (Fakes f1) (Fakes f2) (Fakes f3)} ctx ns d h :
  foreign_phase 0 ctx → scope ctx ns → period ctx d →
  runs (SetupInformers (Fakes (test_registries f0 f1 f2 f3)) ctx cfg) h (λ st h', ∃ p, holds p ∅ h' ∧ injected st h' (FakeClient p) ns d).
Proof. exact (fake_installs (Fakes (test_registries f0 f1 f2 f3)) cfg ctx ns d h). Qed.

(** The version that the lists over a dynamic client ask for. *)
Definition lists_version (ctx : context) (rv : string) : Prop :=
  match Value ctx rvKey with None => rv = "" | Some v => v = StringValue rv end.

Lemma runs_version ctx rv h Q : lists_version ctx rv → Q rv h → runs (GetResourceVersion ctx) h Q.
Proof. unfold lists_version, GetResourceVersion. intros Hv HQ. destruct (Value ctx rvKey) as [v|]; subst; by apply runs_ret. Qed.

(** With a dynamic client in the context, the dynamic registry sets up the
    wrapped client around it, and as informer of TaskGroups the lister over
    that client, for all namespaces and of the version of the context. *)
Theorem dynamic_installs dyn {F : ForeignDynamic dyn (Dynamic f0) (Dynamic f1) (Dynamic f2) (Dynamic f3)} ctx rv h :
  dynamic_phase 0 ctx → lists_version ctx rv →
  let client := WrapClient {| wrapClient_dyn := dyn |} in
  runs (SetupDynamic (Dynamic (command_registries f0 f1 f2 f3)) ctx) h (λ ctx' h',
    client_Get ctx' h' = Returns (client, h') ∧
    ∃ p, taskgroup_Get ctx' h' = Returns (WrapperInformer p, h') ∧
      heap_wrappers h' !! p = Some {| wrapper_client := client; wrapper_namespace := ""; wrapper_resourceVersion := rv |}).
Proof.
  intros H0 Hrv client. unfold SetupDynamic. cbn. rewrite ?app_nil_r, <-?app_assoc. cbn.
  destruct foreign_dynamicClients as [Hc1 Hc2]. destruct foreign_dynamicInformers as [Hi1 Hi2].
  apply runs_bind, runs_for_range_app. eapply runs_weaken; [by apply Hc1|]. cbn beta. intros ctx1 h1 (Hk1 & _ & H1).
  unfold inject at 1, withClientFromDynamic, dynamicclient_Get. rewrite (dynamic_phase_client _ _ H1).
  apply runs_bind, runs_ret, runs_ret. eapply runs_weaken; [apply Hc2, dynamic_phase_ours; [by intros []|done]|]. cbn beta.
  intros ctx3 h3 (Hk3 & _ & H3).
  replace (dynamicInformers (Dynamic f0) ++ dynamicInformers (Dynamic f1) ++ dynamicInformers (Dynamic f2) ++ withDynamicInformer :: dynamicInformers (Dynamic f3))
    with ((dynamicInformers (Dynamic f0) ++ dynamicInformers (Dynamic f1) ++ dynamicInformers (Dynamic f2)) ++ withDynamicInformer :: dynamicInformers (Dynamic f3))
    by by rewrite <-!app_assoc.
  apply runs_for_range_app. eapply runs_weaken; [by apply Hi1|]. cbn beta. intros ctx4 h4 (Hk4 & _ & H4).
  assert (has_client ctx4 client) as Hclient.
  { unfold has_client. rewrite Hk4, Hk3 by by intros []. by rewrite Value_eq. }
  assert (lists_version ctx4 rv) as Hrv4.
  { unfold lists_version. rewrite Hk4, Hk3 by by intros []. rewrite Value_ne by done. by rewrite Hk1 by by intros []. }
  unfold inject at 1, withDynamicInformer. apply runs_bind, (runs_client_Get _ client); [done|].
  apply runs_bind, (runs_version _ rv); [done|]. apply runs_bind. eapply runs_call; [reflexivity|]. apply runs_ret.
  eapply runs_weaken; [apply Hi2, dynamic_phase_ours; [by intros []|done]|]. cbn beta. intros ctx6 h6 (Hk6 & (_ & _ & Hw) & _).
  split; [unfold client_Get; rewrite Hk6, Value_ne by (done || by intros []); by rewrite Hclient|].
  exists (length (heap_wrappers h4)). split; [unfold taskgroup_Get; rewrite Hk6 by (by intros []); by rewrite Value_eq|].
  rewrite Hw. cbn. by rewrite lookup_app_r, Nat.sub_diag by lia.
Qed.
End theorems.

(** ** Witnesses *)
Module RegistrationSample.
#[export] Existing Instance ClientsetSample.library.
#[export] Existing Instance FakeSample.library.
Import InjectionSample.

(** The packages of the client and of the filtered factories of another
    module, with a fetcher for its client, and a dynamic client. *)
Definition kube_registrations : registries := on_Default (λ _, {|
  clients := [kube_client]; dynamicClients := [];
  clientFetchers := [λ ctx, match Value ctx (other_Key "kubeclient") with Some v => mret v | None => panic end];
  factories := [kube_filtered_factories]; ducks := []; impl_informers := []; filteredInformers := []; dynamicInformers := [] |})
  no_registrations.

#[export, refine] Instance kube_Foreign cfg :
  Foreign cfg (Default kube_registrations) (Default no_registrations) (Default no_registrations) (Default no_registrations) :=
  { foreign_phase _ ctx := is_Some (Value ctx kube_LabelKey) }.
Proof.
  - intros _ ctx k v Hk Hsome. rewrite Value_ne; [done|]. intros ->. by apply Hk.
  - split; [|apply segment_nil]. intros ctx h Hsome.
    do 2 eexists. split; [reflexivity|]. destruct (kube_selectors_kept ctx "kubeclient" (OtherValue JNull)) as [Hk Hs]; [done..|]. by split_and!.
  - split; [|apply segment_nil]. intros ctx h Hsome. cbn.
    apply runs_bind. unfold inject, kube_filtered_factories. pose proof Hsome as [v ->]. do 2 apply runs_ret.
    destruct (kube_selectors_kept ctx "kubefactory" (OtherValue JNull)) as [Hk Hs]; [done..|]. by split_and!.
  - apply segment_nil.
  - split; apply informer_segment_nil.
  - apply informer_segment_nil.
Defined.

Definition sample_dynamic : RESTClient :=
  {| RESTClient_base_Path := "/"; RESTClient_versionedAPIPath := "/if-you-see-this-search-for-the-break"; RESTClient_Timeout := 0 |}.

#[export, refine] Instance no_ForeignDynamic :
  ForeignDynamic sample_dynamic (Dynamic no_registrations) (Dynamic no_registrations) (Dynamic no_registrations) (Dynamic no_registrations) :=
  { dynamic_phase _ ctx := Value ctx dynamicclient_Key = Some (DynamicValue sample_dynamic) }.
Proof.
  - intros _ ctx k v Hk Hsome. rewrite Value_ne; [done|]. intros ->. by apply Hk.
  - done.
  - split; apply segment_nil.
  - split; apply segment_nil.
Defined.
End RegistrationSample.

Section witnesses.
Import InjectionSample RegistrationSample.

Lemma command_installs_witness :
  let i := Default (command_registries kube_registrations no_registrations no_registrations no_registrations) in
  runs (main i "ns" ClientsetSample.no_rates) empty_heap (λ st h', ∃ cs,
    injected st h' (ClientsetClient cs) "ns" DefaultResyncPeriod).
Proof.
  intros i. pose proof (command_installs kube_registrations no_registrations no_registrations no_registrations
    "ns" ClientsetSample.no_rates empty_heap) as H. cbv zeta in H.
  destruct (NewForConfigOrDie (command_config ClientsetSample.no_rates) 0).1 as [cs|] eqn:Hnew; [|vm_compute in Hnew; discriminate Hnew].
  eapply runs_weaken; [exact (H (kube_Foreign _) (mk_is_Some _ _ eq_refl))|].
  intros st h' (cs' & n & _ & Hi & _). exists cs'. exact Hi.
Defined.

Lemma test_installs_witness :
  runs (SetupInformers (Fakes (test_registries (on_Fakes (λ _, Default kube_registrations) no_registrations) no_registrations no_registrations no_registrations))
    (main_context "ns") ClientsetSample.no_rates) empty_heap
    (λ st h', ∃ p, holds p ∅ h' ∧ injected st h' (FakeClient p) "ns" DefaultResyncPeriod).
Proof.
  exact (test_installs (on_Fakes (λ _, Default kube_registrations) no_registrations) no_registrations no_registrations no_registrations
    ClientsetSample.no_rates (F := kube_Foreign _) (main_context "ns") "ns" DefaultResyncPeriod empty_heap
    (mk_is_Some _ _ eq_refl) eq_refl eq_refl).
Defined.

Lemma dynamic_installs_witness :
  runs (SetupDynamic (Dynamic (command_registries no_registrations no_registrations no_registrations no_registrations))
    [(dynamicclient_Key, DynamicValue sample_dynamic); (rvKey, StringValue "7")]) empty_heap (λ ctx' h',
    ∃ p w, taskgroup_Get ctx' h' = Returns (WrapperInformer p, h') ∧ heap_wrappers h' !! p = Some w ∧ wrapper_resourceVersion w = "7").
Proof.
  eapply runs_weaken.
  - apply (dynamic_installs no_registrations no_registrations no_registrations no_registrations sample_dynamic _ "7" empty_heap); reflexivity.
  - intros ctx' h' (_ & p & Hget & Hp). exists p. eexists. split; [exact Hget|]. split; [exact Hp|]. reflexivity.
Defined.
End witnesses.
