(* ===== verification/QueueSpec.v ===== *)
(** What a work queue promises, as a state machine that the queues of the
    controller implement: which keys are pending, which are being processed,
    which are promised for later, and whether the queue is closed. With it,
    executions of any state machine, and the simulation of one by another. *)
From S2P Require Import Prelude.

(** ** Executions *)
Section executions.
Context {S E : Type} (step : S → E → S → Prop).

Inductive execution : S → list E → S → Prop :=
  | execution_nil s : execution s [] s
  | execution_step s e s' es s'' : step s e s' → execution s' es s'' → execution s (e :: es) s''.

Lemma execution_one s e s' : step s e s' → execution s [e] s'.
Proof. intros H. eapply execution_step; [done|]. apply execution_nil. Qed.

Lemma execution_app s es s' es' s'' : execution s es s' → execution s' es' s'' → execution s (es ++ es') s''.
Proof. induction 1 as [|s0 e s1 es s2 H1 _ IH]; intros H; [done|]. simpl. eapply execution_step; eauto. Qed.

Lemma execution_snoc s es s' e s'' : execution s es s' → step s' e s'' → execution s (es ++ [e]) s''.
Proof. intros H1 H2. eapply execution_app; [done|]. by apply execution_one. Qed.

(** What every step preserves holds at the end. *)
Lemma execution_invariant (I : S → Prop) s es s' :
  (∀ s e s', I s → step s e s' → I s') → execution s es s' → I s → I s'.
Proof. intros Hstep H. induction H; eauto. Qed.

Lemma execution_split s es1 es2 s'' : execution s (es1 ++ es2) s'' → ∃ s', execution s es1 s' ∧ execution s' es2 s''.
Proof.
  revert s. induction es1 as [|e es1 IH]; intros s H; simpl in *; [exists s; split; [apply execution_nil|done]|].
  inversion H as [|? ? s1 ? ? H1 H2]; subst. destruct (IH _ H2) as (s' & Hs & Hs'). exists s'. split; [|done]. by eapply execution_step.
Qed.

(** Induction from the last step. *)
Lemma execution_snoc_ind (P : list E → S → Prop) s :
  P [] s →
  (∀ es s1 e s2, execution s es s1 → P es s1 → step s1 e s2 → P (es ++ [e]) s2) →
  ∀ es s', execution s es s' → P es s'.
Proof.
  intros Hnil Hsnoc es. induction es as [|e es IH] using rev_ind; intros s' H; [by inversion H; subst|].
  apply execution_split in H as (s1 & H1 & H2). inversion H2 as [|? ? s2 ? ? Hstep H3]; subst. inversion H3; subst. eauto.
Qed.

End executions.

#[global] Hint Constructors execution : core.

(** A forward simulation, with the same events: an invariant of the concrete
    machine and the abstract state of its states. *)
Section simulation.
Context {S T E : Type} (step : S → E → S → Prop) (spec : T → E → T → Prop) (I : S → Prop) (abs : S → T).

Lemma simulation s es s' :
  (∀ s e s', I s → step s e s' → I s' ∧ spec (abs s) e (abs s')) →
  execution step s es s' → I s → I s' ∧ execution spec (abs s) es (abs s').
Proof.
  intros Hsim. induction 1 as [|s e s' es s'' H1 _ IH]; intros HI; [by auto|].
  destruct (Hsim _ _ _ HI H1) as [HI' Hspec]. destruct (IH HI') as [HI'' H]. split; [done|]. by eapply execution_step.
Qed.
End simulation.

(** ** The abstract queue *)

(** What a client of a queue sees, each at the moment it takes effect. *)
Inductive queue_event (A : Type) : Type :=
  | Added (item : A)
  | AddedAfter (item : A)
  | Got (item : A)
  | GotShutdown
  | Finished (item : A)
  | WasShutDown
  (** a step of the queue itself *)
  | Internal.
Arguments Added {A}.
Arguments AddedAfter {A}.
Arguments Got {A}.
Arguments GotShutdown {A}.
Arguments Finished {A}.
Arguments WasShutDown {A}.
Arguments Internal {A}.

#[export] Instance queue_event_EqDecision `{EqDecision A} : EqDecision (queue_event A).
Proof. solve_decision. Defined.

Section spec.
Context {A : Type} `{Countable A}.

Record abstract_queue := {
  (** to be handed out *)
  pending : gset A;
  (** handed out, and not finished *)
  busy : gset A;
  (** to become pending when their delay is over *)
  later : gset A;
  closed : bool
}.

(** Adding an item that is pending changes nothing: additions coalesce; one
    that is to be added later may become pending at once. An item that is busy
    is not handed out again before it is finished; one that is handed out may
    stay pending, when it was added more than once. When the queue is closed, additions may be ignored, promises may be dropped, and a client
    is told so only if nothing that can be handed out is left. *)
Inductive abstract_step : abstract_queue → queue_event A → abstract_queue → Prop :=
  | abstract_add a q : abstract_step q (Added a)
      {| pending := {[a]} ∪ pending q; busy := busy q; later := later q; closed := closed q |}
  | abstract_add_closed a q : closed q = true → abstract_step q (Added a) q
  | abstract_after a q : abstract_step q (AddedAfter a)
      {| pending := pending q; busy := busy q; later := {[a]} ∪ later q; closed := closed q |}
  | abstract_after_now a q : abstract_step q (AddedAfter a)
      {| pending := {[a]} ∪ pending q; busy := busy q; later := later q; closed := closed q |}
  | abstract_after_closed a q : closed q = true → abstract_step q (AddedAfter a) q
  | abstract_get a pending' q :
      a ∈ pending q → a ∉ busy q → pending' ⊆ pending q → pending q ⊆ {[a]} ∪ pending' → abstract_step q (Got a)
      {| pending := pending'; busy := {[a]} ∪ busy q; later := later q; closed := closed q |}
  | abstract_get_shutdown q : closed q = true → pending q ⊆ busy q → abstract_step q GotShutdown q
  | abstract_done a q : a ∈ busy q → abstract_step q (Finished a)
      {| pending := pending q; busy := busy q ∖ {[a]}; later := later q; closed := closed q |}
  | abstract_shutdown q : abstract_step q WasShutDown
      {| pending := pending q; busy := busy q; later := later q; closed := true |}
  | abstract_fire a later' q : a ∈ later q → later' ⊆ later q → later q ⊆ {[a]} ∪ later' → abstract_step q Internal
      {| pending := {[a]} ∪ pending q; busy := busy q; later := later'; closed := closed q |}
  | abstract_drop later' q : closed q = true → later' ⊆ later q → abstract_step q Internal
      {| pending := pending q; busy := busy q; later := later'; closed := closed q |}
  | abstract_idle q : abstract_step q Internal q.

Definition abstract_execution : abstract_queue → list (queue_event A) → abstract_queue → Prop := execution abstract_step.

(** How often an event occurs. *)
Definition times (e : queue_event A) (es : list (queue_event A)) : nat := length (filter (e =.) es).

Lemma times_cons e e' es : times e (e' :: es) = (if decide (e = e') then 1 else 0) + times e es.
Proof. unfold times. rewrite filter_cons. by case_decide. Qed.

Lemma times_nil e : times e [] = 0.
Proof. done. Qed.

(** A key is busy exactly while it has been handed out once more than it was
    finished. *)
Lemma abstract_busy a q es q' :
  abstract_execution q es q' →
  times (Got a) es + (if bool_decide (a ∈ busy q) then 1 else 0) =
  times (Finished a) es + (if bool_decide (a ∈ busy q') then 1 else 0).
Proof.
  induction 1 as [q|q e q1 es q' Hs _ IH]; [done|]. rewrite !times_cons.
  destruct Hs; simpl in *; rewrite ?(decide_False (P := Got _ = _)), ?(decide_False (P := Finished _ = _)) by done; try exact IH.
  - destruct (decide (Got a = Got a0)) as [[= <-]|Hne].
    + rewrite (bool_decide_false (a ∈ busy q)) by done. rewrite bool_decide_true in IH by set_solver. lia.
    + rewrite (bool_decide_ext (a ∈ {[a0]} ∪ busy q) (a ∈ busy q)) in IH by (assert (a ≠ a0) by congruence; set_solver). lia.
  - destruct (decide (Finished a = Finished a0)) as [[= <-]|Hne].
    + rewrite (bool_decide_true (a ∈ busy q)) by done. rewrite bool_decide_false in IH by set_solver. lia.
    + rewrite (bool_decide_ext (a ∈ busy q ∖ {[a0]}) (a ∈ busy q)) in IH by (assert (a ≠ a0) by congruence; set_solver). lia.
Qed.

(** An addition, or a step of the queue itself, with something beside it that
    is pending, promised or busy. *)
Lemma abstract_frame (p l b : gset A) (c : bool) q e q' :
  match e with Added _ | AddedAfter _ | Internal => True | _ => False end →
  (closed q = true → c = true) → abstract_step q e q' →
  abstract_step {| pending := pending q ∪ p; busy := b; later := later q ∪ l; closed := c |} e
                {| pending := pending q' ∪ p; busy := b; later := later q' ∪ l; closed := c |}.
Proof.
  intros He Hc Hs. set (frame x y := {| pending := x ∪ p; busy := b; later := y ∪ l; closed := c |}).
  change (abstract_step (frame (pending q) (later q)) e (frame (pending q') (later q'))).
  destruct Hs as [a q|a q Hq|a q|a q|a q Hq|a p' q ? ? ? ?|q ? ?|a q ?|q|a l' q H1 H2 H3|l' q Hq Hl|q]; try done; simpl.
  - pose proof (abstract_add a (frame (pending q) (later q))) as Hs. simpl in Hs. by rewrite (assoc_L (∪)) in Hs.
  - by apply abstract_add_closed, Hc.
  - pose proof (abstract_after a (frame (pending q) (later q))) as Hs. simpl in Hs. by rewrite (assoc_L (∪)) in Hs.
  - pose proof (abstract_after_now a (frame (pending q) (later q))) as Hs. simpl in Hs. by rewrite (assoc_L (∪)) in Hs.
  - by apply abstract_after_closed, Hc.
  - pose proof (abstract_fire a (l' ∪ l) (frame (pending q) (later q))) as Hs. simpl in Hs.
    rewrite (assoc_L (∪) {[a]} (pending q) p) in Hs. apply Hs; set_solver.
  - apply (abstract_drop (l' ∪ l) (frame (pending q) (later q))); simpl; [by apply Hc|set_solver].
  - apply abstract_idle.
Qed.

(** What is pending is handed out before it is not pending any more. *)
Lemma abstract_kept a q es q' :
  abstract_execution q es q' → a ∈ pending q → Got a ∉ es → a ∈ pending q'.
Proof.
  induction 1 as [q|q e q1 es q' Hs _ IH]; [done|]. intros Hp Hno. apply not_elem_of_cons in Hno as [Hne Hno].
  apply IH; [|done]. destruct Hs; set_solver.
Qed.

(** A queue does not open again. *)
Lemma abstract_stays_closed q es q' : abstract_execution q es q' → closed q' = false → closed q = false.
Proof. induction 1 as [|? ? ? ? ? Hs _ IH]; [done|]. intros Hopen. specialize (IH Hopen). by destruct Hs. Qed.

(** Only a shutdown closes a queue. *)
Lemma abstract_closes q es q' : abstract_execution q es q' → closed q = false → closed q' = true → WasShutDown ∈ es.
Proof.
  induction 1 as [q|q e q1 es q' Hs _ IH]; [congruence|]. intros Hopen Hclosed.
  destruct (closed q1) eqn:Hq1; [|right; by apply IH]. destruct Hs; simpl in *; first [congruence|left].
Qed.

Lemma abstract_shut_closes q es q' : abstract_execution q es q' → WasShutDown ∈ es → closed q' = true.
Proof.
  intros Hes Hin. destruct (closed q') eqn:Hc; [done|exfalso].
  revert Hin. induction Hes as [q|q e q1 es q' Hs Hes IH]; [by intros ?%elem_of_nil|].
  intros [<-|Hin]%elem_of_cons; [|by apply IH]. apply (abstract_stays_closed _ _ _ Hes) in Hc. by inversion Hs; subst.
Qed.

(** What is added to an open queue is pending until it is handed out. *)
Lemma abstract_added a q es1 es2 q' :
  abstract_execution q (es1 ++ Added a :: es2) q' → closed q = false → WasShutDown ∉ es1 → Got a ∈ es2 ∨ a ∈ pending q'.
Proof.
  intros (q1 & H1 & H2)%execution_split Hopen Hno. inversion H2 as [|? ? q2 ? ? Hs Hes]; subst.
  destruct (decide (Got a ∈ es2)) as [|Hgot]; [by left|right]. eapply abstract_kept; [done| |done].
  assert (closed q1 = false) as Hq1 by (destruct (closed q1) eqn:Hc; [|done]; destruct Hno; by eapply abstract_closes).
  inversion Hs; subst; simpl in *; [set_solver|congruence].
Qed.

Lemma abstract_added_after a q q' : abstract_step q (AddedAfter a) q' → closed q = false → a ∈ later q' ∨ a ∈ pending q'.
Proof. intros Hs Hopen. inversion Hs; subst; simpl in *; [left; set_solver|right; set_solver|congruence]. Qed.

(** What is promised becomes pending while the queue is not closed. *)
Lemma abstract_promised a q es q' :
  abstract_execution q es q' → a ∈ later q → closed q' = false → Got a ∈ es ∨ a ∈ pending q' ∨ a ∈ later q'.
Proof.
  induction 1 as [q|q e q1 es q' Hs Hes IH]; [by auto|]. intros Hl Hopen.
  assert (closed q1 = false) as Hq1 by by eapply abstract_stays_closed.
  assert (a ∈ later q1 ∨ a ∈ pending q1) as [Hl1|Hp1].
  { clear IH Hes. destruct Hs; simpl in *; first [congruence|set_solver]. }
  - destruct (IH Hl1 Hopen) as [?|?]; [left; by right|by right].
  - destruct (decide (Got a ∈ es)) as [?|Hno]; [left; by right|]. right. left. by eapply abstract_kept.
Qed.

End spec.
#[global] Arguments abstract_queue A {_ _}.
