(* ===== verification/WorkQueue.v ===== *)
(** client-go's util/workqueue/queue.go: the work queue itself. Its mutex makes
    each call one step; [Get], which waits on the condition variable, is a step
    that is not enabled while it waits. Metrics are left out. *)
From S2P Require Import Prelude QueueSpec.

Section queue.
Context {A : Type} `{Countable A}.

(** ** The queue *)

(** [type Type struct] *)
Record workqueue := {
  queue : list A;
  dirty : gset A;
  processing : gset A;
  shuttingDown : bool
}.

(** [func newQueue(c clock.Clock, metrics queueMetrics, updatePeriod time.Duration) *Type] *)
Definition newQueue : workqueue := {| queue := []; dirty := ∅; processing := ∅; shuttingDown := false |}.

(** [func (q *Type) Add(item interface{})] *)
Definition queue_Add (item : A) (q : workqueue) : workqueue :=
  if shuttingDown q then q
  else if bool_decide (item ∈ dirty q) then q
  else
    let dirty' := {[item]} ∪ dirty q in
    if bool_decide (item ∈ processing q)
    then {| queue := queue q; dirty := dirty'; processing := processing q; shuttingDown := shuttingDown q |}
    else {| queue := queue q ++ [item]; dirty := dirty'; processing := processing q; shuttingDown := shuttingDown q |}.

(** [func (q *Type) Len() int] *)
Definition queue_Len (q : workqueue) : nat := length (queue q).

(** [func (q *Type) Get() (item interface{}, shutdown bool)]: it waits, or
    returns an item, or that the queue is shut down. *)
Definition queue_Get (q : workqueue) : option (option A * workqueue) :=
  match queue q with
  | [] => if shuttingDown q then Some (None, q) else None
  | item :: rest =>
    Some (Some item, {| queue := rest; dirty := dirty q ∖ {[item]}; processing := {[item]} ∪ processing q;
                        shuttingDown := shuttingDown q |})
  end.

(** [func (q *Type) Done(item interface{})] *)
Definition queue_Done (item : A) (q : workqueue) : workqueue := {|
  queue := if bool_decide (item ∈ dirty q) then queue q ++ [item] else queue q;
  dirty := dirty q; processing := processing q ∖ {[item]}; shuttingDown := shuttingDown q |}.

(** [func (q *Type) ShutDown()] and [ShuttingDown()] *)
Definition queue_ShutDown (q : workqueue) : workqueue :=
  {| queue := queue q; dirty := dirty q; processing := processing q; shuttingDown := true |}.
Definition queue_ShuttingDown (q : workqueue) : bool := shuttingDown q.

(** The calls of clients that finish only what they were handed out. *)
Inductive queue_step : workqueue → queue_event A → workqueue → Prop :=
  | step_Add a q : queue_step q (Added a) (queue_Add a q)
  | step_Get a q q' : queue_Get q = Some (Some a, q') → queue_step q (Got a) q'
  | step_Get_shutdown q q' : queue_Get q = Some (None, q') → queue_step q GotShutdown q'
  | step_Done a q : a ∈ processing q → queue_step q (Finished a) (queue_Done a q)
  | step_ShutDown q : queue_step q WasShutDown (queue_ShutDown q).

(** The same as a function, which fails for a call that does not return this. *)
Definition queue_do (q : workqueue) (e : queue_event A) : option workqueue :=
  match e with
  | Added a => Some (queue_Add a q)
  | Got a => match queue_Get q with
             | Some (Some b, q') => if bool_decide (b = a) then Some q' else None
             | _ => None
             end
  | GotShutdown => match queue_Get q with Some (None, q') => Some q' | _ => None end
  | Finished a => if bool_decide (a ∈ processing q) then Some (queue_Done a q) else None
  | WasShutDown => Some (queue_ShutDown q)
  | AddedAfter _ | Internal => None
  end.

Fixpoint queue_run (q : workqueue) (es : list (queue_event A)) : option workqueue :=
  match es with [] => Some q | e :: es => queue_do q e ≫= λ q', queue_run q' es end.

Lemma queue_do_step q e q' : queue_do q e = Some q' → queue_step q e q'.
Proof.
  destruct e as [a|a|a| |a| |]; simpl; intros Hdo; simplify_eq; try constructor.
  - destruct (queue_Get q) as [[[b|] q1]|] eqn:Hget; simplify_eq. case_bool_decide; simplify_eq. by constructor.
  - destruct (queue_Get q) as [[[b|] q1]|] eqn:Hget; simplify_eq. by constructor.
  - case_bool_decide; simplify_eq. by constructor.
Qed.

Lemma queue_run_execution q es q' : queue_run q es = Some q' → execution queue_step q es q'.
Proof.
  revert q. induction es as [|e es IH]; intros q Hrun; simpl in Hrun; [simplify_eq; constructor|].
  destruct (queue_do q e) as [q1|] eqn:Hdo; [|done]. eapply execution_step; [by apply queue_do_step|]. by apply IH.
Qed.

(** ** The invariant *)

(** "Every element of queue should be in the dirty set and not in the processing
    set", and the other way round. *)
Record wf_queue (q : workqueue) : Prop := {
  wf_distinct : NoDup (queue q);
  wf_queued a : a ∈ queue q ↔ a ∈ dirty q ∧ a ∉ processing q
}.

Lemma wf_newQueue : wf_queue newQueue.
Proof. split; [constructor|]. intros a. simpl. set_solver. Qed.

Lemma wf_snoc (l : list A) a : NoDup l → a ∉ l → NoDup (l ++ [a]).
Proof. intros Hl Ha. apply NoDup_app. split_and!; [done| |apply NoDup_singleton]. set_solver. Qed.

Lemma queue_Add_wf a q : wf_queue q → wf_queue (queue_Add a q).
Proof.
  intros [Hd Hq]. unfold queue_Add. destruct (shuttingDown q); [done|]. case_bool_decide as Hdirty; [done|].
  case_bool_decide as Hproc; split; simpl; try done.
  - intros b. rewrite Hq. destruct (decide (b = a)) as [->|]; set_solver.
  - apply wf_snoc; [done|]. rewrite Hq. tauto.
  - intros b. rewrite elem_of_app, list_elem_of_singleton, Hq. destruct (decide (b = a)) as [->|]; set_solver.
Qed.

Lemma queue_Get_wf q r q' : wf_queue q → queue_Get q = Some (r, q') → wf_queue q'.
Proof.
  intros Hwf. pose proof Hwf as [Hd Hq]. unfold queue_Get. destruct (queue q) as [|a rest] eqn:Hqueue; [by destruct (shuttingDown q); intros; simplify_eq|].
  intros [= <- <-]. apply NoDup_cons in Hd as [Ha Hd]. split; simpl; [done|]. intros b. specialize (Hq b).
  rewrite elem_of_cons in Hq. destruct (decide (b = a)) as [->|]; set_solver.
Qed.

Lemma queue_Done_wf a q : wf_queue q → a ∈ processing q → wf_queue (queue_Done a q).
Proof.
  intros [Hd Hq] Ha. unfold queue_Done. split; simpl; case_bool_decide as Hdirty; try done.
  - apply wf_snoc; [done|]. rewrite Hq. tauto.
  - intros b. rewrite elem_of_app, list_elem_of_singleton, Hq. destruct (decide (b = a)) as [->|]; set_solver.
  - intros b. rewrite Hq. destruct (decide (b = a)) as [->|]; set_solver.
Qed.

Lemma queue_ShutDown_wf q : wf_queue q → wf_queue (queue_ShutDown q).
Proof. by intros []. Qed.

(** ** The refinement *)
Definition queue_abs (q : workqueue) : abstract_queue A :=
  {| pending := dirty q; busy := processing q; later := ∅; closed := shuttingDown q |}.

Lemma wf_head q a rest : wf_queue q → queue q = a :: rest → a ∈ dirty q ∧ a ∉ processing q.
Proof. intros [_ Hq] Heq. apply Hq. rewrite Heq. left. Qed.

Lemma queue_Get_item q a q' :
  wf_queue q → queue_Get q = Some (Some a, q') →
  a ∈ dirty q ∧ (a ∉ processing q) ∧ dirty q' = dirty q ∖ {[a]} ∧ processing q' = {[a]} ∪ processing q ∧
  shuttingDown q' = shuttingDown q.
Proof.
  intros Hwf. unfold queue_Get. destruct (queue q) as [|b rest] eqn:Hq; [by destruct (shuttingDown q)|].
  intros [= -> <-]. by destruct (wf_head q a rest Hwf Hq).
Qed.

Lemma queue_Get_shutdown q q' :
  wf_queue q → queue_Get q = Some (None, q') → q' = q ∧ shuttingDown q = true ∧ dirty q ⊆ processing q.
Proof.
  intros Hwf. unfold queue_Get. destruct (queue q) eqn:Hq; [|done]. destruct (shuttingDown q) eqn:Hdown; [|done].
  intros [= <-]. split_and!; [done..|]. intros b Hb. destruct (decide (b ∈ processing q)) as [|Hno]; [done|].
  assert (b ∈ queue q) as Hin by by apply Hwf. rewrite Hq in Hin. by apply elem_of_nil in Hin.
Qed.

Lemma queue_Add_closed a q : shuttingDown q = true → queue_Add a q = q.
Proof. unfold queue_Add. by intros ->. Qed.

Lemma queue_Add_shuttingDown a q : shuttingDown (queue_Add a q) = shuttingDown q.
Proof. unfold queue_Add. destruct (shuttingDown q) eqn:Hq; [done|]. case_bool_decide; [done|]. by case_bool_decide. Qed.

Lemma queue_Add_open a q :
  shuttingDown q = false →
  queue_abs (queue_Add a q) = {| pending := {[a]} ∪ dirty q; busy := processing q; later := ∅; closed := false |}.
Proof.
  unfold queue_Add, queue_abs. intros Hopen. rewrite Hopen. case_bool_decide; [|by case_bool_decide; simpl; rewrite ?Hopen].
  rewrite Hopen. f_equal. set_solver.
Qed.

Lemma queue_simulates q e q' :
  wf_queue q → queue_step q e q' → wf_queue q' ∧ abstract_step (queue_abs q) e (queue_abs q').
Proof.
  intros Hwf Hs. destruct Hs as [a q|a q q' Hget|q q' Hget|a q Ha|q].
  - split; [by apply queue_Add_wf|]. destruct (shuttingDown q) eqn:Hdown; [rewrite queue_Add_closed by done; by apply abstract_add_closed|].
    rewrite queue_Add_open by done. rewrite <-Hdown. apply (abstract_add a (queue_abs q)).
  - split; [by eapply queue_Get_wf|]. destruct (queue_Get_item _ _ _ Hwf Hget) as (Hd & Hp & Hd' & Hp' & Hdown).
    unfold queue_abs at 2. rewrite Hd', Hp', Hdown. apply (abstract_get a _ (queue_abs q)); [done|done|set_solver|].
    intros c Hc. destruct (decide (c = a)); set_solver.
  - split; [by eapply queue_Get_wf|]. destruct (queue_Get_shutdown _ _ Hwf Hget) as (-> & Hdown & Hsub). by apply abstract_get_shutdown.
  - split; [by apply queue_Done_wf|]. by apply (abstract_done a (queue_abs q)).
  - split; [by apply queue_ShutDown_wf|]. apply (abstract_shutdown (queue_abs q)).
Qed.

Definition queue_execution : workqueue → list (queue_event A) → workqueue → Prop := execution queue_step.

Lemma queue_refines q es q' :
  wf_queue q → queue_execution q es q' → wf_queue q' ∧ abstract_execution (queue_abs q) es (queue_abs q').
Proof. intros Hwf Hes. by apply (simulation queue_step abstract_step wf_queue queue_abs _ _ _ queue_simulates Hes). Qed.

(** ** Order *)

(** The items handed out, in order. *)
Definition handed_out (es : list (queue_event A)) : list A :=
  omap (λ e, match e with Got a => Some a | _ => None end) es.

(** What a step does to the items that wait. *)
Lemma queue_step_order q e q' :
  queue_step q e q' → match e with Got b => queue q = b :: queue q' | _ => queue q `prefix_of` queue q' end.
Proof.
  destruct 1 as [b q|b q q' Hget|q q' Hget|b q Hb|q]; [|unfold queue_Get in Hget; destruct (queue q) eqn:Hq..| |].
  - unfold queue_Add. destruct (shuttingDown q); [done|]. case_bool_decide; [done|]. case_bool_decide; [done|].
    by apply prefix_app_r.
  - by destruct (shuttingDown q).
  - by injection Hget as <- <-.
  - destruct (shuttingDown q); [|done]. apply prefix_nil.
  - done.
  - unfold queue_Done. simpl. case_bool_decide; [by apply prefix_app_r|done].
  - done.
Qed.

(** The items that wait are handed out first, in their order. *)
Lemma queue_order q es q' :
  queue_execution q es q' → handed_out es `prefix_of` queue q ∨ queue q `prefix_of` handed_out es.
Proof.
  induction 1 as [q|q e q1 es q' Hs _ IH]; [left; apply prefix_nil|].
  apply queue_step_order in Hs. destruct e; simpl in *;
    try (destruct IH as [IH|IH]; [destruct (prefix_weak_total _ _ _ Hs IH); by auto|right; by etrans]).
  rewrite Hs. destruct IH as [IH|IH]; [left|right]; by apply prefix_cons.
Qed.

(** What makes an item dirty, and clean. *)
Lemma queue_step_dirty q e q' a :
  wf_queue q → queue_step q e q' →
  (e = Got a → a ∈ dirty q ∧ a ∉ dirty q') ∧ (a ∈ dirty q' → a ∈ dirty q ∨ e = Added a).
Proof.
  intros Hwf Hs. destruct Hs as [b q|b q q' Hget|q q' Hget|b q Hb|q]; split; intros Ha; try discriminate Ha; try (by left).
  - revert Ha. unfold queue_Add. destruct (shuttingDown q); [by left|]. case_bool_decide; [by left|].
    case_bool_decide; simpl; intros [->%elem_of_singleton|]%elem_of_union; by auto.
  - injection Ha as ->. unfold queue_Get in Hget. destruct (queue q) as [|c rest] eqn:Hq; [by destruct (shuttingDown q)|].
    injection Hget as -> <-. destruct (wf_head q a rest Hwf Hq) as [Hd _]. simpl. set_solver.
  - left. unfold queue_Get in Hget. destruct (queue q) as [|c rest] eqn:Hq; [by destruct (shuttingDown q)|].
    injection Hget as -> <-. set_solver.
  - left. unfold queue_Get in Hget. destruct (queue q); [|done]. destruct (shuttingDown q); [|done]. by injection Hget as <-.
Qed.

Lemma queue_coalesces q es q' a :
  queue_execution q es q' → wf_queue q →
  times (Got a) es + (if bool_decide (a ∈ dirty q') then 1 else 0) ≤
  times (Added a) es + (if bool_decide (a ∈ dirty q) then 1 else 0).
Proof.
  induction 1 as [q|q e q1 es q' Hs _ IH]; intros Hwf; [done|].
  destruct (queue_simulates _ _ _ Hwf Hs) as [Hwf1 _]. specialize (IH Hwf1). rewrite !times_cons.
  destruct (queue_step_dirty q e q1 a Hwf Hs) as [Hgot Hadd].
  assert ((if decide (Got a = e) then 1 else 0) + (if bool_decide (a ∈ dirty q1) then 1 else 0) ≤
    (if decide (Added a = e) then 1 else 0) + (if bool_decide (a ∈ dirty q) then 1 else 0)); [|lia].
  destruct (decide (Got a = e)) as [<-|Hne].
  - destruct (Hgot eq_refl) as [Hd Hd']. rewrite bool_decide_false, bool_decide_true by done. lia.
  - destruct (decide (a ∈ dirty q1)) as [Hd1|Hd1]; [rewrite (bool_decide_true _ Hd1)|rewrite (bool_decide_false _ Hd1); lia].
    destruct (Hadd Hd1) as [Hd | <-]; [rewrite (bool_decide_true _ Hd)|rewrite decide_True by done]; lia.
Qed.

(** ** Theorems *)

(** No key is handed out to two workers at a time: after any calls of a new
    queue it has been handed out as often as it was finished, and once more if
    it is being processed; and it is handed out at most as often as it was
    added. *)
Theorem queue_exclusive es q a :
  queue_execution newQueue es q →
  times (Got a) es = times (Finished a) es + (if bool_decide (a ∈ processing q) then 1 else 0) ∧
  times (Got a) es + (if bool_decide (a ∈ dirty q) then 1 else 0) ≤ times (Added a) es.
Proof.
  intros Hes. destruct (queue_refines _ _ _ wf_newQueue Hes) as [_ Habs]. split.
  { apply (abstract_busy a) in Habs. simpl in Habs. rewrite bool_decide_false in Habs by set_solver. lia. }
  apply (queue_coalesces _ _ _ a) in Hes; [|apply wf_newQueue]. simpl in Hes. rewrite (bool_decide_false (a ∈ ∅)) in Hes by set_solver. lia.
Qed.

(** After a key is added to an open queue, it is to be handed out (again), and
    it is next or waits for those that were queued before it: unless it is
    being processed, it is among the items handed out as soon as there are
    more of them than waited before. *)
Theorem queue_hands_out a q q1 es q' :
  wf_queue q → shuttingDown q = false → queue_step q (Added a) q1 → queue_execution q1 es q' →
  (a ∈ dirty q' ∨ Got a ∈ es) ∧
  (a ∉ processing q → queue_Len q < length (handed_out es) → a ∈ handed_out es).
Proof.
  intros Hwf Hopen Hs Hes. destruct (queue_simulates _ _ _ Hwf Hs) as [Hwf1 Habs1].
  destruct (queue_refines _ _ _ Hwf1 Hes) as [_ Habs].
  assert (a ∈ dirty q1) as Hd.
  { inversion Hs; subst. unfold queue_Add. rewrite Hopen. case_bool_decide as Hd; [done|]. case_bool_decide; set_solver. }
  split.
  - destruct (decide (Got a ∈ es)) as [|Hno]; [by right|left]. exact (abstract_kept _ _ _ _ Habs Hd Hno).
  - intros Hp Hlen. assert (a ∈ queue q1) as Hin.
    { apply Hwf1. split; [done|]. inversion Hs; subst. unfold queue_Add. rewrite Hopen. case_bool_decide; [done|]. by case_bool_decide. }
    assert (length (queue q1) ≤ S (queue_Len q)) as Hlen1.
    { inversion Hs; subst. unfold queue_Add. rewrite Hopen. case_bool_decide; [unfold queue_Len; lia|].
      case_bool_decide; simpl; rewrite ?length_app; simpl; unfold queue_Len; lia. }
    destruct (queue_order _ _ _ Hes) as [[l Hl]|[l ->]]; [|apply elem_of_app; by left].
    assert (l = []) as -> by (apply length_zero_iff_nil; apply (f_equal length) in Hl; rewrite length_app in Hl; lia).
    by rewrite app_nil_r in Hl; subst; rewrite <-Hl.
Qed.

(** What closing a queue leaves to do: nothing is added any more, and what is
    dirty is handed out once. *)
Lemma queue_shut_step q e q' :
  wf_queue q → shuttingDown q = true → queue_step q e q' →
  shuttingDown q' = true ∧ size (dirty q') + length (handed_out [e]) = size (dirty q) ∧ dirty q' ⊆ dirty q.
Proof.
  intros Hwf Hdown Hs. destruct Hs as [b q|b q q' Hget|q q' Hget|b q Hb|q]; simpl.
  - unfold queue_Add. rewrite Hdown. by auto with lia.
  - unfold queue_Get in Hget. destruct (queue q) as [|c rest] eqn:Hq; [by destruct (shuttingDown q)|]. injection Hget as -> <-.
    simpl. destruct (wf_head q b rest Hwf Hq) as [Hd _]. split_and!; [done| |set_solver].
    rewrite size_difference, size_singleton by set_solver. assert (size (dirty q) ≠ 0); [|lia].
    intros Hz%size_empty_inv. set_solver.
  - unfold queue_Get in Hget. destruct (queue q); [|done]. rewrite Hdown in Hget. injection Hget as <-. by auto with lia.
  - by auto with lia.
  - by auto with lia.
Qed.

Lemma handed_out_cons e es : handed_out (e :: es) = handed_out [e] ++ handed_out es.
Proof. by destruct e. Qed.

(** A queue that was shut down hands out each key that is dirty exactly once
    more, and no other, before it tells its clients; so its workers end, after
    at most as many items as there were. *)
Theorem queue_drains q es q' :
  wf_queue q → shuttingDown q = true → queue_execution q (es ++ [GotShutdown]) q' →
  length (handed_out es) + size (dirty q') = size (dirty q) ∧
  (∀ a, a ∈ handed_out es → a ∈ dirty q) ∧ (∀ a, a ∈ dirty q' → a ∈ processing q').
Proof.
  intros Hwf Hdown (q1 & Hes & Hlast)%execution_split.
  assert (shuttingDown q1 = true ∧ length (handed_out es) + size (dirty q1) = size (dirty q) ∧
    (∀ a, a ∈ handed_out es → a ∈ dirty q) ∧ dirty q1 ⊆ dirty q ∧ wf_queue q1) as (Hdown1 & Hlen & Hin & _ & Hwf1).
  { clear Hlast. induction Hes as [q|q e q1 es q2 Hs _ IH].
    - split_and!; try done. by intros a ?%elem_of_nil.
    - destruct (queue_simulates _ _ _ Hwf Hs) as [Hwf1 _]. destruct (queue_shut_step _ _ _ Hwf Hdown Hs) as (Hd1 & Hsz & Hsub).
      destruct (IH Hwf1 Hd1) as (H1 & H2 & H3 & H4 & H5). rewrite handed_out_cons, length_app. split_and!; [done|lia| |set_solver|done].
      intros a [Ha|Ha]%elem_of_app; [|set_solver]. destruct e; try by apply elem_of_nil in Ha. apply list_elem_of_singleton in Ha as ->.
      by apply (queue_step_dirty _ _ _ item Hwf Hs). }
  inversion Hlast as [|? ? q2 ? ? Hs Hnil]; subst. inversion Hnil; subst.
  destruct (queue_simulates _ _ _ Hwf1 Hs) as [_ Habs]. inversion Hs as [| |? ? Hget| |]; subst.
  assert (q' = q1) as ->.
  { unfold queue_Get in Hget. destruct (queue q1); [|done]. rewrite Hdown1 in Hget. by injection Hget. }
  split_and!; [done|done|]. inversion Habs; subst. done.
Qed.
End queue.
#[global] Arguments workqueue A {_ _}.

(** ** Witnesses *)

(** A key is added, got, and added again while it is processed; another one is
    added meanwhile, and the queue is shut down. *)
Definition sample_events : list (queue_event nat) :=
  [Added 1; Got 1; Added 1; Added 2; WasShutDown; Added 3; Finished 1; Got 2; Finished 2; Got 1].

Definition sample_queue : workqueue nat := default newQueue (queue_run newQueue sample_events).

Lemma queue_exclusive_witness :
  times (Got 1) sample_events = times (Finished 1) sample_events + 1 ∧ times (Got 1) sample_events ≤ times (Added 1) sample_events.
Proof.
  destruct (queue_exclusive sample_events sample_queue 1) as [Hex Hco].
  - apply queue_run_execution. vm_compute. reflexivity.
  - split; [rewrite Hex; vm_compute; reflexivity|lia].
Defined.

Definition busy_queue : workqueue nat := {| queue := [5; 6]; dirty := {[5; 6]}; processing := {[4]}; shuttingDown := false |}.

Lemma busy_queue_wf : wf_queue busy_queue.
Proof.
  split; [apply (bool_decide_unpack _); vm_compute; exact I|]. intros a. simpl. rewrite !elem_of_cons, elem_of_nil. set_solver.
Qed.

Lemma queue_hands_out_witness : 7 ∈ handed_out [Got 5; Added 8; Got 6; Got 7 : queue_event nat].
Proof.
  apply (queue_hands_out 7 busy_queue (queue_Add 7 busy_queue) _ (default newQueue (queue_run (queue_Add 7 busy_queue) [Got 5; Added 8; Got 6; Got 7]))).
  - exact busy_queue_wf.
  - reflexivity.
  - apply step_Add.
  - apply queue_run_execution. vm_compute. reflexivity.
  - apply (bool_decide_unpack _). vm_compute. exact I.
  - simpl. unfold queue_Len. simpl. lia.
Defined.

Lemma queue_drains_witness :
  let es := [Got 5; Finished 4; Added 8; Got 6; Finished 5 : queue_event nat] in
  let q' := {| queue := []; dirty := ∅; processing := {[6]}; shuttingDown := true |} in
  length (handed_out es) + size (dirty q') = size (dirty (queue_ShutDown busy_queue)).
Proof.
  intros es q'. destruct (queue_drains (queue_ShutDown busy_queue) es q') as [Hlen _].
  - apply queue_ShutDown_wf, busy_queue_wf.
  - reflexivity.
  - apply queue_run_execution. vm_compute. reflexivity.
  - exact Hlen.
Defined.
