(* ===== verification/RateLimiter.v ===== *)
(** client-go's util/workqueue/default_rate_limiters.go: how long a key waits
    before it is retried. Durations are nanoseconds, in an int64; the product
    of the exponential limiter is a float64, which is exact for bases of up to
    53 bits, so that it is an integer here. The token bucket of
    golang.org/x/time/rate is a parameter. *)
From S2P Require Import Prelude.

(** [rate.Limiter]: [r.Limiter.Reserve().Delay()] at a time *)
Class TokenBucket := {
  Limiter : Type;
  Reserve_Delay : Z → Limiter → Z * Limiter
}.

Section limiters.
Context {A : Type} `{Countable A} {TB : TokenBucket}.

Definition MaxInt64 : Z := 2 ^ 63 - 1.

(** [time.Duration(backoff)] of a float64 that is an integer, on amd64: out of
    range it is the least int64. *)
Definition Duration_of_float (backoff : Z) : Z :=
  if bool_decide (- 2 ^ 63 ≤ backoff ≤ MaxInt64)%Z then backoff else (- 2 ^ 63)%Z.

(** [type ItemExponentialFailureRateLimiter struct] *)
Record ItemExponentialFailureRateLimiter := {
  failures : gmap A nat;
  baseDelay : Z;
  maxDelay : Z
}.

(** [func NewItemExponentialFailureRateLimiter(baseDelay time.Duration, maxDelay time.Duration) RateLimiter] *)
Definition NewItemExponentialFailureRateLimiter (baseDelay maxDelay : Z) : ItemExponentialFailureRateLimiter :=
  {| failures := ∅; baseDelay := baseDelay; maxDelay := maxDelay |}.

Definition set_failures (f : gmap A nat) (r : ItemExponentialFailureRateLimiter) : ItemExponentialFailureRateLimiter :=
  {| failures := f; baseDelay := baseDelay r; maxDelay := maxDelay r |}.

(** [func (r *ItemExponentialFailureRateLimiter) When(item interface{}) time.Duration];
    [math.MaxInt64] is [2^63] as a float64. *)
Definition exponential_When (item : A) (r : ItemExponentialFailureRateLimiter) : Z * ItemExponentialFailureRateLimiter :=
  let exp := default 0 (failures r !! item) in
  let r' := set_failures (<[item := S exp]> (failures r)) r in
  let backoff := (baseDelay r * 2 ^ Z.of_nat exp)%Z in
  if bool_decide (2 ^ 63 < backoff)%Z then (maxDelay r, r')
  else
    let calculated := Duration_of_float backoff in
    if bool_decide (maxDelay r < calculated)%Z then (maxDelay r, r') else (calculated, r').

(** [NumRequeues(item)] and [Forget(item)] *)
Definition exponential_NumRequeues (item : A) (r : ItemExponentialFailureRateLimiter) : nat := default 0 (failures r !! item).
Definition exponential_Forget (item : A) (r : ItemExponentialFailureRateLimiter) : ItemExponentialFailureRateLimiter :=
  set_failures (delete item (failures r)) r.

(** [type ItemFastSlowRateLimiter struct], with its methods *)
Record ItemFastSlowRateLimiter := {
  fast_failures : gmap A nat;
  maxFastAttempts : nat;
  fastDelay : Z;
  slowDelay : Z
}.

Definition fastslow_When (item : A) (r : ItemFastSlowRateLimiter) : Z * ItemFastSlowRateLimiter :=
  let n := S (default 0 (fast_failures r !! item)) in
  let r' := {| fast_failures := <[item := n]> (fast_failures r); maxFastAttempts := maxFastAttempts r;
               fastDelay := fastDelay r; slowDelay := slowDelay r |} in
  if bool_decide (n ≤ maxFastAttempts r) then (fastDelay r, r') else (slowDelay r, r').
Definition fastslow_NumRequeues (item : A) (r : ItemFastSlowRateLimiter) : nat := default 0 (fast_failures r !! item).
Definition fastslow_Forget (item : A) (r : ItemFastSlowRateLimiter) : ItemFastSlowRateLimiter :=
  {| fast_failures := delete item (fast_failures r); maxFastAttempts := maxFastAttempts r;
     fastDelay := fastDelay r; slowDelay := slowDelay r |}.

(** ** The interface *)

(** [type RateLimiter interface], by its implementations *)
Inductive RateLimiter : Type :=
  | ExponentialLimiter (r : ItemExponentialFailureRateLimiter)
  | FastSlowLimiter (r : ItemFastSlowRateLimiter)
  | BucketRateLimiter (r : Limiter)
  | MaxOfRateLimiter (limiters : list RateLimiter).

(** [When(item)] at a time. That of [MaxOfRateLimiter] asks every limiter. *)
Fixpoint When (now : Z) (item : A) (r : RateLimiter) : Z * RateLimiter :=
  match r with
  | ExponentialLimiter r => let '(d, r) := exponential_When item r in (d, ExponentialLimiter r)
  | FastSlowLimiter r => let '(d, r) := fastslow_When item r in (d, FastSlowLimiter r)
  | BucketRateLimiter r => let '(d, r) := Reserve_Delay now r in (d, BucketRateLimiter r)
  | MaxOfRateLimiter limiters =>
    let '(ret, limiters) :=
      (fix loop (limiters : list RateLimiter) (ret : Z) : Z * list RateLimiter :=
         match limiters with
         | [] => (ret, [])
         | limiter :: limiters =>
           let '(curr, limiter) := When now item limiter in
           let ret := if bool_decide (ret < curr)%Z then curr else ret in
           let '(ret, limiters) := loop limiters ret in
           (ret, limiter :: limiters)
         end) limiters 0%Z in
    (ret, MaxOfRateLimiter limiters)
  end.

(** [NumRequeues(item)] and [Forget(item)] *)
Fixpoint NumRequeues (item : A) (r : RateLimiter) : nat :=
  match r with
  | ExponentialLimiter r => exponential_NumRequeues item r
  | FastSlowLimiter r => fastslow_NumRequeues item r
  | BucketRateLimiter _ => 0
  | MaxOfRateLimiter limiters =>
    (fix loop (limiters : list RateLimiter) (ret : nat) : nat :=
       match limiters with
       | [] => ret
       | limiter :: limiters =>
         let curr := NumRequeues item limiter in loop limiters (if bool_decide (ret < curr) then curr else ret)
       end) limiters 0
  end.

Fixpoint limiter_Forget (item : A) (r : RateLimiter) : RateLimiter :=
  match r with
  | ExponentialLimiter r => ExponentialLimiter (exponential_Forget item r)
  | FastSlowLimiter r => FastSlowLimiter (fastslow_Forget item r)
  | BucketRateLimiter r => BucketRateLimiter r
  | MaxOfRateLimiter limiters => MaxOfRateLimiter (map (limiter_Forget item) limiters)
  end.

(** [func DefaultControllerRateLimiter() RateLimiter], with its bucket of 10
    tokens per second and a burst of 100 *)
Definition Millisecond : Z := 1000000.
Definition Second : Z := 1000000000.

Definition DefaultControllerRateLimiter (bucket : Limiter) : RateLimiter :=
  MaxOfRateLimiter [
    ExponentialLimiter (NewItemExponentialFailureRateLimiter (5 * Millisecond) (1000 * Second));
    BucketRateLimiter bucket].

(** ** Lemmas *)

(** The delay of the exponential limiter: the base doubled at each failure, up
    to the maximum. *)
Lemma exponential_When_delay item r :
  (0 < baseDelay r)%Z → (0 ≤ maxDelay r ≤ MaxInt64)%Z →
  let exp := exponential_NumRequeues item r in
  (baseDelay r * 2 ^ Z.of_nat exp ≠ 2 ^ 63)%Z →
  (exponential_When item r).1 = Z.min (baseDelay r * 2 ^ Z.of_nat exp) (maxDelay r) ∧
  exponential_NumRequeues item (exponential_When item r).2 = S exp.
Proof.
  intros Hbase Hmax exp Hne. unfold exponential_When. change (default 0 (failures r !! item)) with exp. unfold MaxInt64 in Hmax.
  assert (0 < baseDelay r * 2 ^ Z.of_nat exp)%Z as Hpos by (apply Z.mul_pos_pos; [lia|apply Z.pow_pos_nonneg; lia]).
  set (backoff := (baseDelay r * 2 ^ Z.of_nat exp)%Z) in *. unfold Duration_of_float, MaxInt64.
  case_bool_decide as Hbig; [|rewrite (bool_decide_true (_ ≤ backoff ≤ _)%Z) by lia; case_bool_decide]; cbn [fst snd];
    (split; [lia|]); unfold exponential_NumRequeues; cbn; by rewrite lookup_insert_eq.
Qed.

(** Others are not touched. *)
Lemma exponential_When_other item item' r :
  item' ≠ item → exponential_NumRequeues item' (exponential_When item r).2 = exponential_NumRequeues item' r.
Proof.
  intros Hne. unfold exponential_When, exponential_NumRequeues. case_bool_decide; [|case_bool_decide]; cbn; by rewrite lookup_insert_ne.
Qed.

Lemma exponential_When_config item r :
  baseDelay (exponential_When item r).2 = baseDelay r ∧ maxDelay (exponential_When item r).2 = maxDelay r.
Proof. unfold exponential_When. case_bool_decide; [|case_bool_decide]; done. Qed.

(** The loop of [MaxOfRateLimiter]. *)
Lemma When_max now item limiters :
  ∃ ds limiters', When now item (MaxOfRateLimiter limiters) = (foldr Z.max 0%Z ds, MaxOfRateLimiter limiters') ∧
    Forall2 (λ limiter dl, When now item limiter = dl) limiters (zip ds limiters') ∧ length ds = length limiters'.
Proof.
  cbn [When]. assert (∀ ret, (0 ≤ ret)%Z → ∃ ds limiters',
    (fix loop (limiters : list RateLimiter) (ret : Z) : Z * list RateLimiter :=
         match limiters with
         | [] => (ret, [])
         | limiter :: limiters =>
           let '(curr, limiter) := When now item limiter in
           let ret := if bool_decide (ret < curr)%Z then curr else ret in
           let '(ret, limiters) := loop limiters ret in
           (ret, limiter :: limiters)
         end) limiters ret = (foldr Z.max ret ds, limiters') ∧
    Forall2 (λ limiter dl, When now item limiter = dl) limiters (zip ds limiters') ∧ length ds = length limiters') as Hloop.
  { induction limiters as [|limiter limiters IH]; intros ret Hret; [by exists [], []|].
    destruct (When now item limiter) as [curr limiter'] eqn:Hw.
    destruct (IH (if bool_decide (ret < curr)%Z then curr else ret)) as (ds & limiters' & Hloop & Hall & Hlen); [case_bool_decide; lia|].
    cbn. cbn in Hloop. rewrite Hloop.
    exists (curr :: ds), (limiter' :: limiters'). split_and!; [|by constructor|simpl; by rewrite Hlen]. f_equal.
    clear. induction ds as [|d ds IH]; simpl; [case_bool_decide; lia|]. rewrite IH. simpl. lia. }
  destruct (Hloop 0%Z) as (ds & limiters' & Hl & H2); [lia|]. exists ds, limiters'. split; [|exact H2]. cbn in *. by rewrite Hl.
Qed.

(** The calls of clients, and the failures of an item since it was last
    forgotten. *)
Inductive limiter_op : Type := WhenOp (now : Z) (item : A) | ForgetOp (item : A).

Definition limiter_do (r : RateLimiter) (op : limiter_op) : RateLimiter :=
  match op with WhenOp now item => (When now item r).2 | ForgetOp item => limiter_Forget item r end.

Definition failures_of (item : A) (ops : list limiter_op) : nat :=
  foldl (λ n op, match op with
                 | WhenOp _ item' => if bool_decide (item' = item) then S n else n
                 | ForgetOp item' => if bool_decide (item' = item) then 0 else n
                 end) 0 ops.

(** The state of the default limiter: that of the exponential one and a bucket. *)
Definition default_shape (r : RateLimiter) (e : ItemExponentialFailureRateLimiter) (b : Limiter) : Prop :=
  r = MaxOfRateLimiter [ExponentialLimiter e; BucketRateLimiter b] ∧
  baseDelay e = (5 * Millisecond)%Z ∧ maxDelay e = (1000 * Second)%Z.

(** Five milliseconds never double to [2^63], the one value that would not fit. *)
Lemma five_ms_fits n : (5 * Millisecond * 2 ^ Z.of_nat n ≠ 2 ^ 63)%Z.
Proof.
  intros Heq. apply (f_equal (λ z, z `mod` 5)%Z) in Heq. unfold Millisecond in Heq.
  replace (5 * 1000000 * 2 ^ Z.of_nat n)%Z with (1000000 * 2 ^ Z.of_nat n * 5)%Z in Heq by lia.
  rewrite Z.mod_mul in Heq by done. by vm_compute in Heq.
Qed.

Lemma default_When now item r e b :
  default_shape r e b →
  default_shape (When now item r).2 (exponential_When item e).2 (Reserve_Delay now b).2 ∧
  (When now item r).1 = Z.max (Z.max 0 (exponential_When item e).1) (Reserve_Delay now b).1.
Proof.
  intros (-> & Hb & Hm). cbn. destruct (exponential_When_config item e) as [Hb' Hm'].
  destruct (exponential_When item e) as [d e'], (Reserve_Delay now b) as [d' b']. cbn in *.
  split; [split_and!; congruence|]. repeat case_bool_decide; lia.
Qed.

Lemma default_Forget item r e b : default_shape r e b → default_shape (limiter_Forget item r) (exponential_Forget item e) b.
Proof. by intros (-> & Hb & Hm). Qed.

Lemma default_When_failures item e :
  baseDelay e = (5 * Millisecond)%Z → maxDelay e = (1000 * Second)%Z →
  (exponential_When item e).1 = Z.min (5 * Millisecond * 2 ^ Z.of_nat (exponential_NumRequeues item e)) (1000 * Second) ∧
  exponential_NumRequeues item (exponential_When item e).2 = S (exponential_NumRequeues item e).
Proof.
  intros Hb Hm. destruct (exponential_When_delay item e) as [Hd Hn].
  - rewrite Hb. unfold Millisecond. lia.
  - rewrite Hm. unfold Second, MaxInt64. lia.
  - rewrite Hb. apply five_ms_fits.
  - by rewrite Hd, Hb, Hm.
Qed.

Lemma default_run ops r e b :
  default_shape r e b → (∀ item, exponential_NumRequeues item e = 0) →
  ∃ e' b', default_shape (foldl limiter_do r ops) e' b' ∧ ∀ item, exponential_NumRequeues item e' = failures_of item ops.
Proof.
  intros Hr He. induction ops as [|op ops IH] using rev_ind; [by exists e, b|].
  destruct IH as (e' & b' & Hshape & Hn). rewrite foldl_app. unfold failures_of. setoid_rewrite foldl_app. cbn [foldl].
  destruct op as [now item|item]; cbn [limiter_do].
  - exists (exponential_When item e').2, (Reserve_Delay now b').2. split; [by apply default_When|]. intros item'.
    change (foldl _ 0 ops) with (failures_of item' ops). rewrite <-Hn. case_bool_decide as Hi; [subst item'|by apply exponential_When_other].
    destruct Hshape as (_ & Hb & Hm). by apply default_When_failures.
  - exists (exponential_Forget item e'), b'. split; [by apply default_Forget|]. intros item'.
    change (foldl _ 0 ops) with (failures_of item' ops). rewrite <-Hn. unfold exponential_NumRequeues, exponential_Forget. cbn.
    case_bool_decide as Hi; [subst item'; by rewrite lookup_delete_eq|by rewrite lookup_delete_ne].
Qed.

(** C32: The default limiter of the controllers, after any calls: a key that has
    failed [n] times since it was last forgotten waits for five milliseconds
    doubled [n] times, up to 1000 seconds, or longer if the bucket that all
    keys share asks for it; how often other keys failed does not matter. The
    delay is positive, it does not get shorter with a further failure, and it
    is the maximum from the eighteenth on: it never overflows. *)
Theorem default_backoff bucket ops now item :
  let r := foldl limiter_do (DefaultControllerRateLimiter bucket) ops in
  let n := failures_of item ops in
  let own := Z.min (5 * Millisecond * 2 ^ Z.of_nat n) (1000 * Second) in
  NumRequeues item r = n ∧
  (∃ b, (When now item r).1 = Z.max own (Reserve_Delay now b).1) ∧
  (5 * Millisecond ≤ own ≤ 1000 * Second ∧ own ≤ Z.min (5 * Millisecond * 2 ^ Z.of_nat (S n)) (1000 * Second))%Z ∧
  (18 ≤ n → own = (1000 * Second)%Z).
Proof.
  intros r n own. set (e := NewItemExponentialFailureRateLimiter (5 * Millisecond) (1000 * Second)).
  destruct (default_run ops (DefaultControllerRateLimiter bucket) e bucket) as (e' & b' & Hshape & Hn).
  { by split_and!. }
  { intros item'. unfold exponential_NumRequeues, e. cbn. by rewrite lookup_empty. }
  fold r in Hshape. destruct (default_When now item r e' b' Hshape) as [_ Hwhen]. pose proof Hshape as (Hr & Hb & Hm).
  destruct (default_When_failures item e' Hb Hm) as [Hd _]. rewrite Hn in Hd. fold n own in Hd.
  assert (1 ≤ 2 ^ Z.of_nat n)%Z as Hpow by (assert (0 < 2 ^ Z.of_nat n)%Z by (apply Z.pow_pos_nonneg; lia); lia).
  assert (2 ^ Z.of_nat (S n) = 2 * 2 ^ Z.of_nat n)%Z as HS by by rewrite Nat2Z.inj_succ, Z.pow_succ_r by lia.
  unfold Millisecond, Second in *. split_and!.
  - rewrite Hr. cbn. rewrite Hn. fold n. case_bool_decide; case_bool_decide; lia.
  - exists b'. rewrite Hwhen, Hd. unfold own. lia.
  - unfold own. lia.
  - unfold own. lia.
  - unfold own. rewrite HS. lia.
  - intros H18. assert (2 ^ 18 ≤ 2 ^ Z.of_nat n)%Z by (apply Z.pow_le_mono_r; lia). unfold own. lia.
Qed.

(** The cap does not cover a base that is a power of two: the product [2^63] is
    not above [math.MaxInt64], as a float64, and does not fit an int64. *)
Example power_of_two_overflows (item : A) :
  let r := {| failures := {[item := 63]}; baseDelay := 1; maxDelay := 1000 |} in
  (exponential_When item r).1 = (- 2 ^ 63)%Z.
Proof. unfold exponential_When. cbn [failures]. by rewrite lookup_singleton_eq. Qed.
End limiters.
#[global] Arguments RateLimiter A {_ _ _}.
#[global] Arguments ItemExponentialFailureRateLimiter A {_ _}.
