(* ===== verification/DelayingQueue.v ===== *)
(** client-go's util/workqueue/delaying_queue.go and rate_limiting_queue.go:
    items that are added after a delay, and the queue that asks a rate limiter
    for the delay. The goroutine of [waitingLoop] is a sequence of steps among
    those of the clients; the heap of the entries that wait, with the map to
    them, is the map from their items to the times they are ready, of which
    [heap.Pop] takes one that no other precedes. The clock is part of the
    state; it never goes back. *)
From S2P Require Import Prelude QueueSpec WorkQueue RateLimiter.

Section queue.
Context {A : Type} `{Countable A} {TB : TokenBucket}.

(** ** The delaying queue *)

(** [type waitFor struct]: an item and the time it should be added *)
Record waitFor := { waitFor_data : A; waitFor_readyAt : Z }.

(** [type delayingType struct], with [waitingForQueue] and
    [waitingEntryByData] of its loop *)
Record delayingType := {
  delaying_Interface : workqueue A;
  delaying_clock : Z;
  waitingForAddCh : list waitFor;
  waitingEntryByData : gmap A Z
}.

Definition channel_capacity : nat := 1000.

(** [func newDelayingQueue(clock clock.Clock, q Interface, name string) *delayingType] *)
Definition newDelayingQueue (clock : Z) : delayingType :=
  {| delaying_Interface := newQueue; delaying_clock := clock; waitingForAddCh := []; waitingEntryByData := ∅ |}.

Definition set_Interface (i : workqueue A) (q : delayingType) : delayingType :=
  {| delaying_Interface := i; delaying_clock := delaying_clock q; waitingForAddCh := waitingForAddCh q;
     waitingEntryByData := waitingEntryByData q |}.

Definition delaying_Add (item : A) (q : delayingType) : delayingType := set_Interface (queue_Add item (delaying_Interface q)) q.

(** [func (q *delayingType) AddAfter(item interface{}, duration time.Duration)];
    it waits while the channel is full. *)
Definition AddAfter (item : A) (duration : Z) (q : delayingType) : option delayingType :=
  if queue_ShuttingDown (delaying_Interface q) then Some q
  else if bool_decide (duration ≤ 0)%Z then Some (delaying_Add item q)
  else if bool_decide (length (waitingForAddCh q) < channel_capacity)
  then Some {| delaying_Interface := delaying_Interface q; delaying_clock := delaying_clock q;
               waitingForAddCh := waitingForAddCh q ++
                 [{| waitFor_data := item; waitFor_readyAt := (delaying_clock q + duration)%Z |}];
               waitingEntryByData := waitingEntryByData q |}
  else None.

(** [func (q *delayingType) ShutDown()] *)
Definition delaying_ShutDown (q : delayingType) : delayingType := set_Interface (queue_ShutDown (delaying_Interface q)) q.

(** [func insert(q *waitForPriorityQueue, knownEntries map[t]*waitFor, entry *waitFor)] *)
Definition insert_entry (entry : waitFor) (known : gmap A Z) : gmap A Z :=
  match known !! waitFor_data entry with
  | Some existing =>
    if bool_decide (waitFor_readyAt entry < existing)%Z then <[waitFor_data entry := waitFor_readyAt entry]> known else known
  | None => <[waitFor_data entry := waitFor_readyAt entry]> known
  end.

(** What [waitingLoop] does with an entry it receives. *)
Definition receive (entry : waitFor) (q : delayingType) : delayingType :=
  if bool_decide (delaying_clock q < waitFor_readyAt entry)%Z
  then {| delaying_Interface := delaying_Interface q; delaying_clock := delaying_clock q; waitingForAddCh := waitingForAddCh q;
          waitingEntryByData := insert_entry entry (waitingEntryByData q) |}
  else delaying_Add (waitFor_data entry) q.

Definition set_channel (l : list waitFor) (q : delayingType) : delayingType :=
  {| delaying_Interface := delaying_Interface q; delaying_clock := delaying_clock q; waitingForAddCh := l;
     waitingEntryByData := waitingEntryByData q |}.

Definition set_waiting (m : gmap A Z) (q : delayingType) : delayingType :=
  {| delaying_Interface := delaying_Interface q; delaying_clock := delaying_clock q; waitingForAddCh := waitingForAddCh q;
     waitingEntryByData := m |}.

Definition set_clock (now : Z) (q : delayingType) : delayingType :=
  {| delaying_Interface := delaying_Interface q; delaying_clock := now; waitingForAddCh := waitingForAddCh q;
     waitingEntryByData := waitingEntryByData q |}.

(** The root of the heap. *)
Definition heap_root (m : gmap A Z) (a : A) (t : Z) : Prop :=
  m !! a = Some t ∧ ∀ b s, m !! b = Some s → (t ≤ s)%Z.

(** What [waitingLoop] does between the shutdowns and the waits: it receives the
    next entry of the channel, or takes the root of the heap when it is ready. *)
Inductive loop_step : delayingType → delayingType → Prop :=
  | loop_receive entry rest q : waitingForAddCh q = entry :: rest → loop_step q (receive entry (set_channel rest q))
  | loop_ready a t q :
    heap_root (waitingEntryByData q) a t → (t ≤ delaying_clock q)%Z →
    loop_step q (delaying_Add a (set_waiting (delete a (waitingEntryByData q)) q)).

(** The calls of clients and the steps of [waitingLoop]. *)
Inductive delaying_step : delayingType → queue_event A → delayingType → Prop :=
  | delaying_call q e i : e ≠ WasShutDown → queue_step (delaying_Interface q) e i → delaying_step q e (set_Interface i q)
  | delaying_shutdown q : delaying_step q WasShutDown (delaying_ShutDown q)
  | delaying_AddAfter a d q q' : AddAfter a d q = Some q' → delaying_step q (AddedAfter a) q'
  | delaying_tick now q : (delaying_clock q ≤ now)%Z → delaying_step q Internal (set_clock now q)
  | delaying_loop q q' : loop_step q q' → delaying_step q Internal q'
  | delaying_exit q :
    queue_ShuttingDown (delaying_Interface q) = true → delaying_step q Internal (set_waiting ∅ (set_channel [] q)).

Definition delaying_execution : delayingType → list (queue_event A) → delayingType → Prop := execution delaying_step.

(** ** rate_limiting_queue.go *)

(** [type rateLimitingType struct]: the limiter, which queues may share, is
    passed along. [AddRateLimited(item)], [NumRequeues(item)], [Forget(item)] *)
Definition rateLimiting_AddRateLimited (item : A) (q : delayingType) (rateLimiter : RateLimiter A) : option (delayingType * RateLimiter A) :=
  let '(duration, rateLimiter) := When (delaying_clock q) item rateLimiter in
  q' ← AddAfter item duration q; Some (q', rateLimiter).
Definition rateLimiting_NumRequeues (item : A) (rateLimiter : RateLimiter A) : nat := NumRequeues item rateLimiter.
Definition rateLimiting_Forget (item : A) (rateLimiter : RateLimiter A) : RateLimiter A := limiter_Forget item rateLimiter.

(** ** The refinement *)

(** The items that wait for their time. *)
Definition waiting (q : delayingType) : gset A :=
  list_to_set (waitFor_data <$> waitingForAddCh q) ∪ dom (waitingEntryByData q).

Definition with_later (l : gset A) (q : abstract_queue A) : abstract_queue A :=
  {| pending := pending q; busy := busy q; later := l; closed := closed q |}.

Definition delaying_abs (q : delayingType) : abstract_queue A := with_later (waiting q) (queue_abs (delaying_Interface q)).

Definition wf_delaying (q : delayingType) : Prop := wf_queue (delaying_Interface q).

Lemma wf_newDelayingQueue clock : wf_delaying (newDelayingQueue clock).
Proof. apply wf_newQueue. Qed.

Lemma dom_insert_entry entry known : dom (insert_entry entry known) = {[waitFor_data entry]} ∪ dom known.
Proof.
  unfold insert_entry. destruct (known !! waitFor_data entry) as [t|] eqn:Hk; [|set_solver].
  apply elem_of_dom_2 in Hk. case_bool_decide; set_solver.
Qed.

(** The calls of the queue inside do not look at what waits. *)
Lemma queue_step_frame l q e q' :
  wf_queue q → queue_step q e q' → wf_queue q' ∧ abstract_step (with_later l (queue_abs q)) e (with_later l (queue_abs q')).
Proof.
  intros Hwf Hs. destruct (queue_simulates _ _ _ Hwf Hs) as [Hwf' Habs]. split; [done|].
  set (p := queue_abs q) in *. set (p' := queue_abs q') in *. clearbody p p'.
  destruct Habs as [a p|a p Hc|a p|a p|a p Hc|a p1 p H1 H2 H3 H4|p H1 H2|a p H1|p|a l' p H1 H2 H3|l' p H1 H2|p]; try (exfalso; by inversion Hs).
  - exact (abstract_add a (with_later l p)).
  - by apply abstract_add_closed.
  - exact (abstract_get a p1 (with_later l p) H1 H2 H3 H4).
  - by apply abstract_get_shutdown.
  - exact (abstract_done a (with_later l p) H1).
  - exact (abstract_shutdown (with_later l p)).
Qed.

(** An addition by the loop: what waited for its time becomes pending, or is
    dropped by a closed queue. *)
Lemma queue_Add_fires (a : A) (q : workqueue A) (l l' : gset A) :
  a ∈ l → l' ⊆ l → l ⊆ {[a]} ∪ l' →
  abstract_step (with_later l (queue_abs q)) Internal (with_later l' (queue_abs (queue_Add a q))).
Proof.
  intros Ha H1 H2. destruct (shuttingDown q) eqn:Hdown.
  { rewrite queue_Add_closed by done. by apply (abstract_drop l' (with_later l (queue_abs q))). }
  rewrite queue_Add_open by done. rewrite <-Hdown. exact (abstract_fire a l' (with_later l (queue_abs q)) Ha H1 H2).
Qed.

Lemma AddAfter_simulates a d q q' :
  wf_delaying q → AddAfter a d q = Some q' → wf_delaying q' ∧ abstract_step (delaying_abs q) (AddedAfter a) (delaying_abs q').
Proof.
  intros Hwf. unfold AddAfter, queue_ShuttingDown. destruct (shuttingDown (delaying_Interface q)) eqn:Hdown.
  { intros [= <-]. split; [done|]. by apply abstract_after_closed. }
  case_bool_decide as Hd; [|case_bool_decide as Hch; [|done]]; intros [= <-].
  - split; [by apply queue_Add_wf|]. unfold delaying_abs. cbn. rewrite queue_Add_open by done.
    rewrite <-Hdown. apply (abstract_after_now a (with_later (waiting q) (queue_abs (delaying_Interface q)))).
  - split; [done|]. pose proof (abstract_after a (delaying_abs q)) as Hafter. unfold delaying_abs, with_later, waiting in *. cbn in *.
    by replace (list_to_set (waitFor_data <$> waitingForAddCh q ++ [{| waitFor_data := a; waitFor_readyAt := delaying_clock q + d |}]) ∪ dom (waitingEntryByData q))
      with ({[a]} ∪ (list_to_set (waitFor_data <$> waitingForAddCh q) ∪ dom (waitingEntryByData q)))
      by (rewrite fmap_app, list_to_set_app_L; set_solver).
Qed.

Lemma loop_simulates q q' :
  wf_delaying q → loop_step q q' → wf_delaying q' ∧ abstract_step (delaying_abs q) Internal (delaying_abs q').
Proof.
  intros Hwf Hs. unfold wf_delaying in Hwf. destruct Hs as [entry rest q Hch|a t q [Hroot _] Ht].
  - unfold receive. cbn. case_bool_decide as Ht.
    + split; [done|]. pose proof (abstract_idle (delaying_abs q)) as Hidle. unfold delaying_abs, waiting in *. cbn.
      rewrite dom_insert_entry. rewrite Hch in Hidle at 2. cbn in Hidle.
      by replace (list_to_set (waitFor_data <$> rest) ∪ ({[waitFor_data entry]} ∪ dom (waitingEntryByData q)))
        with ({[waitFor_data entry]} ∪ list_to_set (waitFor_data <$> rest) ∪ dom (waitingEntryByData q)) by set_solver.
    + split; [by apply queue_Add_wf|]. apply queue_Add_fires; unfold waiting; rewrite Hch; cbn; set_solver.
  - split; [by apply queue_Add_wf|]. apply elem_of_dom_2 in Hroot.
    apply queue_Add_fires; unfold waiting; cbn; rewrite ?dom_delete_L; [set_solver..|]. intros b. destruct (decide (b = a)); set_solver.
Qed.

Lemma delaying_simulates q e q' :
  wf_delaying q → delaying_step q e q' → wf_delaying q' ∧ abstract_step (delaying_abs q) e (delaying_abs q').
Proof.
  intros Hwf Hs. destruct Hs as [q e i Hne Hi|q|a d q q' Hafter|now q Hnow|q q' Hloop|q Hdown].
  - by apply queue_step_frame.
  - apply queue_step_frame; [done|]. apply step_ShutDown.
  - by apply AddAfter_simulates in Hafter.
  - split; [done|]. apply abstract_idle.
  - by apply loop_simulates.
  - split; [done|]. apply (abstract_drop _ (delaying_abs q)); [done|]. set_solver.
Qed.

Lemma delaying_refines q es q' :
  wf_delaying q → delaying_execution q es q' → wf_delaying q' ∧ abstract_execution (delaying_abs q) es (delaying_abs q').
Proof. intros Hwf Hes. by apply (simulation delaying_step abstract_step wf_delaying delaying_abs _ _ _ delaying_simulates Hes). Qed.

(** ** Deadlines *)

(** A map that is not empty has a root. *)
Lemma heap_root_exists (m : gmap A Z) : m ≠ ∅ → ∃ a t, heap_root m a t.
Proof.
  induction m as [|a t m Hnew IH] using map_ind; [done|]. intros _. destruct (decide (m = ∅)) as [->|Hm].
  { exists a, t. split; [by rewrite lookup_insert_eq|]. intros b s. rewrite lookup_insert_Some, lookup_empty. intros [[_ ->]|[_ ?]]; [lia|done]. }
  destruct (IH Hm) as (b & s & Hb & Hmin). destruct (decide (t ≤ s)%Z).
  - exists a, t. split; [by rewrite lookup_insert_eq|]. intros c u [[_ ->]|[_ Hc]]%lookup_insert_Some; [lia|]. apply Hmin in Hc. lia.
  - exists b, s. assert (b ≠ a) by congruence. split; [by rewrite lookup_insert_ne|].
    intros c u [[_ ->]|[_ Hc]]%lookup_insert_Some; [lia|by eapply Hmin].
Qed.

(** The item is to be handed out, or will be added not later than [deadline]. *)
Definition due (deadline : Z) (a : A) (q : delayingType) : Prop :=
  a ∈ dirty (delaying_Interface q) ∨
  (∃ t, {| waitFor_data := a; waitFor_readyAt := t |} ∈ waitingForAddCh q ∧ (t ≤ deadline)%Z) ∨
  (∃ t, waitingEntryByData q !! a = Some t ∧ (t ≤ deadline)%Z).

Lemma queue_Add_dirty (a b : A) (q : workqueue A) : shuttingDown q = false → a ∈ dirty (queue_Add b q) ↔ a = b ∨ a ∈ dirty q.
Proof.
  intros Hopen. change (dirty (queue_Add b q)) with (pending (queue_abs (queue_Add b q))). rewrite queue_Add_open by done. simpl. set_solver.
Qed.

(** The deadline of an entry that is known is that of the earlier one. *)
Lemma insert_entry_lookup entry (known : gmap A Z) (a : A) :
  insert_entry entry known !! a =
  if decide (a = waitFor_data entry)
  then Some (from_option (Z.min (waitFor_readyAt entry)) (waitFor_readyAt entry) (known !! a)) else known !! a.
Proof.
  unfold insert_entry. destruct (decide (a = waitFor_data entry)) as [->|Hne].
  - destruct (known !! waitFor_data entry) as [t|] eqn:Hk; simpl; [case_bool_decide|]; rewrite ?lookup_insert_eq, ?Hk; f_equal; lia.
  - destruct (known !! waitFor_data entry) as [t|]; [case_bool_decide|]; rewrite ?lookup_insert_ne by done; done.
Qed.

Lemma loop_due deadline a q q' :
  shuttingDown (delaying_Interface q) = false → loop_step q q' → due deadline a q → due deadline a q'.
Proof.
  intros Hopen Hs Hdue. destruct Hs as [[b s] rest q Hch|b s q [Hroot _] Hs].
  - unfold receive. cbn. case_bool_decide as Hlate; unfold due in *; cbn in *.
    + destruct Hdue as [?|[(t & Hin & Ht)|(t & Hin & Ht)]]; [by auto| |].
      * rewrite Hch in Hin. apply elem_of_cons in Hin as [[= <- <-]|Hin]; [|by eauto].
        right. right. rewrite insert_entry_lookup, decide_True by done. eexists. split; [done|]. simpl.
        destruct (_ !! a); simpl; lia.
      * right. right. rewrite insert_entry_lookup. case_decide; [|by eauto]. rewrite Hin. eexists. split; [done|]. simpl. lia.
    + rewrite queue_Add_dirty by done. destruct Hdue as [?|[(t & Hin & Ht)|?]]; [by auto| |by auto].
      rewrite Hch in Hin. apply elem_of_cons in Hin as [[= <- <-]|Hin]; [by auto|]. right. left. by eauto.
  - unfold due in *. cbn in *. rewrite queue_Add_dirty by done. destruct Hdue as [?|[?|(t & Hin & Ht)]]; [by auto..|].
    destruct (decide (a = b)) as [->|Hne]; [by auto|]. right. right. exists t. by rewrite lookup_delete_ne.
Qed.

Lemma AddAfter_due a d q q' :
  shuttingDown (delaying_Interface q) = false → AddAfter a d q = Some q' → due (delaying_clock q + d) a q'.
Proof.
  intros Hopen. unfold AddAfter, queue_ShuttingDown. rewrite Hopen. case_bool_decide; [|case_bool_decide; [|done]]; intros [= <-].
  - left. apply queue_Add_dirty; by auto.
  - right. left. eexists. split; [apply elem_of_app; right; by left|]. lia.
Qed.

(** What it was before holds of the calls of clients. *)
Lemma AddAfter_keeps deadline a b d q q' : AddAfter b d q = Some q' → due deadline a q → due deadline a q'.
Proof.
  unfold AddAfter, queue_ShuttingDown. destruct (shuttingDown (delaying_Interface q)) eqn:Hopen; [by intros [= <-]|].
  case_bool_decide; [|case_bool_decide; [|done]]; intros [= <-]; intros [?|[(t & Hin & Ht)|?]]; unfold due; cbn;
    rewrite ?queue_Add_dirty by done; try by auto.
  - right. left. by eauto.
  - right. left. exists t. split; [apply elem_of_app; by left|done].
Qed.

Lemma delaying_step_due deadline a q e q' :
  wf_delaying q → delaying_step q e q' → shuttingDown (delaying_Interface q') = false → e ≠ Got a → due deadline a q → due deadline a q'.
Proof.
  intros Hwf Hs Hopen Hne Hdue. destruct Hs as [q e i Hne' Hi|q|b d q q' Hafter|now q Hnow|q q' Hloop|q Hdown].
  - destruct Hdue as [Hd|?]; [|by right]. left. cbn.
    destruct (queue_simulates _ _ _ Hwf Hi) as [_ Habs].
    apply (abstract_kept a _ [e] _ (execution_one _ _ _ _ Habs)); [done|]. set_solver.
  - done.
  - by eapply AddAfter_keeps.
  - done.
  - eapply loop_due; [|done..]. destruct (shuttingDown (delaying_Interface q)) eqn:Hq; [|done].
    destruct (loop_simulates _ _ Hwf Hloop) as [_ Habs]. inversion Habs; subst; simpl in *; congruence.
  - unfold queue_ShuttingDown in Hdown. cbn in Hopen. congruence.
Qed.

(** A queue does not open again. *)
Lemma delaying_stays_shut q es q' :
  wf_delaying q → delaying_execution q es q' → shuttingDown (delaying_Interface q') = false → shuttingDown (delaying_Interface q) = false.
Proof.
  intros Hwf Hes Hopen. destruct (delaying_refines _ _ _ Hwf Hes) as [_ Habs]. by apply (abstract_stays_closed _ _ _ Habs).
Qed.

Lemma delaying_due deadline a q es q' :
  wf_delaying q → delaying_execution q es q' → shuttingDown (delaying_Interface q') = false →
  due deadline a q → Got a ∈ es ∨ due deadline a q'.
Proof.
  intros Hwf Hes Hopen. induction Hes as [q|q e q1 es q' Hs Hes IH]; [by auto|]. intros Hdue.
  destruct (delaying_simulates _ _ _ Hwf Hs) as [Hwf1 _].
  destruct (decide (e = Got a)) as [->|Hne]; [left; by left|].
  destruct (IH Hwf1 Hopen) as [?|?]; [|left; by right|by right].
  apply (delaying_step_due deadline a q e); [done|done|by eapply delaying_stays_shut|done|done].
Qed.

(** The loop ends: it has at most this many steps before it waits. *)
Definition loop_work (q : delayingType) : nat := 2 * length (waitingForAddCh q) + size (waitingEntryByData q).

Lemma size_insert_entry entry known : size (insert_entry entry known) ≤ S (size known).
Proof.
  unfold insert_entry. destruct (known !! waitFor_data entry) as [t|] eqn:Hk; [case_bool_decide; [|lia]|];
    rewrite map_size_insert, Hk; simpl; lia.
Qed.

Lemma loop_step_work q q' : loop_step q q' → loop_work q' < loop_work q.
Proof.
  unfold loop_work. intros [entry rest q0 Hch|a t q0 [Hroot _] Ht].
  - rewrite Hch. unfold receive. case_bool_decide; cbn; [|lia]. pose proof (size_insert_entry entry (waitingEntryByData q0)). lia.
  - cbn. rewrite map_size_delete, Hroot. simpl. assert (size (waitingEntryByData q0) ≠ 0); [|lia].
    intros Hz%map_size_empty_inv. by rewrite Hz, lookup_empty in Hroot.
Qed.

Lemma loop_steps_work n q q' : nsteps loop_step n q q' → n + loop_work q' ≤ loop_work q.
Proof. induction 1 as [q|n q q1 q' Hs _ IH]; [done|]. apply loop_step_work in Hs. lia. Qed.

(** A loop that waits has nothing that is ready. *)
Lemma loop_waits deadline a q :
  (∀ q', ¬ loop_step q q') → (deadline ≤ delaying_clock q)%Z → due deadline a q → a ∈ dirty (delaying_Interface q).
Proof.
  intros Hwaits Hclock [Hd|[(t & Hin & Ht)|(t & Hin & Ht)]]; [done|exfalso..].
  - destruct (waitingForAddCh q) as [|entry rest] eqn:Hch; [by apply elem_of_nil in Hin|]. by eapply Hwaits, loop_receive.
  - destruct (heap_root_exists (waitingEntryByData q)) as (b & s & Hroot & Hmin); [intros Hm; by rewrite Hm, lookup_empty in Hin|].
    apply (Hwaits _ (loop_ready b s q (conj Hroot Hmin) ltac:(apply Hmin in Hin; lia))).
Qed.

(** A loop with nothing to do. *)
Lemma loop_idle q q' : waitingForAddCh q = [] → waitingEntryByData q = ∅ → ¬ loop_step q q'.
Proof.
  intros Hch Hm Hs. destruct Hs as [entry rest q Hcons|a t q [Hroot _] _]; [by rewrite Hch in Hcons|].
  by rewrite Hm, lookup_empty in Hroot.
Qed.

Lemma loop_execution n q q' : nsteps loop_step n q q' → delaying_execution q (replicate n Internal) q'.
Proof. induction 1; simpl; [constructor|]. eapply execution_step; [by apply delaying_loop|done]. Qed.

Lemma loop_clock n q q' : nsteps loop_step n q q' → delaying_clock q' = delaying_clock q.
Proof.
  induction 1 as [q|n q q1 q' Hs _ IH]; [done|]. rewrite IH. destruct Hs; [|done]. unfold receive. by case_bool_decide.
Qed.

Lemma loop_open n q q' :
  nsteps loop_step n q q' → shuttingDown (delaying_Interface q) = false → shuttingDown (delaying_Interface q') = false.
Proof.
  induction 1 as [q|n q q1 q' Hs _ IH]; [done|]. intros Hopen. apply IH.
  destruct Hs; cbn; rewrite ?queue_Add_shuttingDown; [|done]. unfold receive. case_bool_decide; cbn; by rewrite ?queue_Add_shuttingDown.
Qed.

(** [AddAfter] is in time: while the queue is open, an item that was added
    after a delay, and is not handed out meanwhile, is to be handed out as soon
    as the delay is over and the loop waits again; whatever else is added, the
    same item with a longer delay included. The loop waits again after at most
    [loop_work] steps. *)
Theorem AddAfter_in_time a d q q1 es q2 :
  wf_delaying q → AddAfter a d q = Some q1 → delaying_execution q1 es q2 →
  shuttingDown (delaying_Interface q2) = false → (delaying_clock q + d ≤ delaying_clock q2)%Z →
  ∀ n q3, nsteps loop_step n q2 q3 →
  n ≤ loop_work q2 ∧ ((∀ q4, ¬ loop_step q3 q4) → Got a ∈ es ∨ a ∈ dirty (delaying_Interface q3)).
Proof.
  intros Hwf Hafter Hes Hopen Hclock n q3 Hloop. split; [apply loop_steps_work in Hloop; lia|]. intros Hwaits.
  destruct (AddAfter_simulates _ _ _ _ Hwf Hafter) as [Hwf1 Habs1].
  assert (shuttingDown (delaying_Interface q) = false) as Hopen0.
  { apply (delaying_stays_shut q (AddedAfter a :: es) q2); [done| |done]. eapply execution_step; [by eapply delaying_AddAfter|done]. }
  assert (delaying_execution q1 (es ++ replicate n Internal) q3) as Hall by (eapply execution_app; [done|by apply loop_execution]).
  destruct (delaying_due (delaying_clock q + d) a _ _ _ Hwf1 Hall) as [Hgot|Hdue].
  - by eapply loop_open.
  - by apply AddAfter_due.
  - left. apply elem_of_app in Hgot as [?|Hin]; [done|]. by apply elem_of_replicate in Hin as [? _].
  - right. eapply loop_waits; [done| |done]. by rewrite (loop_clock _ _ _ Hloop).
Qed.
End queue.
#[global] Arguments delayingType A {_ _}.

(** ** Witness *)

(** An item is to be added after 5, and again after 9: it is ready at 5. *)
Definition sample_delaying : delayingType nat :=
  {| delaying_Interface := newQueue; delaying_clock := 6;
     waitingForAddCh := [{| waitFor_data := 7; waitFor_readyAt := 9 |}]; waitingEntryByData := {[7 := 5%Z]} |}.

Definition sample_ready : delayingType nat :=
  {| delaying_Interface := queue_Add 7 newQueue; delaying_clock := 6; waitingForAddCh := []; waitingEntryByData := ∅ |}.

Lemma AddAfter_in_time_witness : 7 ∈ dirty (delaying_Interface sample_ready).
Proof.
  destruct (AddAfter_in_time 7 5 (newDelayingQueue 0)
    {| delaying_Interface := newQueue; delaying_clock := 0; waitingForAddCh := [{| waitFor_data := 7; waitFor_readyAt := 5 |}];
       waitingEntryByData := ∅ |} [Internal; AddedAfter 7; Internal] sample_delaying) with (n := 2) (q3 := sample_ready) as [_ Hready].
  - apply wf_newDelayingQueue.
  - reflexivity.
  - eapply execution_step; [apply delaying_loop, (loop_receive {| waitFor_data := 7; waitFor_readyAt := 5 |} []); reflexivity|].
    eapply execution_step; [apply (delaying_AddAfter 7 9); reflexivity|].
    eapply execution_step; [apply (delaying_tick 6); vm_compute; discriminate|]. apply execution_nil.
  - reflexivity.
  - vm_compute. discriminate.
  - eapply nsteps_l; [apply (loop_receive {| waitFor_data := 7; waitFor_readyAt := 9 |} []); reflexivity|].
    eapply nsteps_l; [apply (loop_ready 7 5)|].
    + split; [reflexivity|]. intros b s. change (receive _ _) with (set_channel [] sample_delaying). cbn.
      intros [<- <-]%lookup_singleton_Some. lia.
    + vm_compute. discriminate.
    + apply nsteps_O.
  - destruct Hready as [Hgot|Hd]; [| |exact Hd].
    + intros q4. apply loop_idle; reflexivity.
    + by repeat (apply elem_of_cons in Hgot as [[=]|Hgot]); apply elem_of_nil in Hgot.
Defined.
