(* ===== verification/TwoLaneQueue.v ===== *)
(** knative's controller/two_lane_queue.go: the queue of a controller, made of
    two rate limited queues, whose producers feed a consumer, and the queue that
    the workers take from. The goroutines are steps, interleaved with each other
    and with the calls of clients. It implements the abstract queue, and hands
    on all that it is given. *)
From S2P Require Import Prelude QueueSpec WorkQueue RateLimiter DelayingQueue.

Section queue.
Context {A : Type} `{Countable A} {TB : TokenBucket}.

(** ** A lane *)

(** Where the goroutine of [process(q, ch)] is: at [Get], at [Done] with an item,
    before the send of it, waiting for a receiver, or gone, after it closed the
    channel. *)
Inductive producer : Type := Getting | Holding (i : A) | Releasing (i : A) | Sending (i : A) | Closed.

(** A rate limited queue, its producer and their channel. *)
Record lane := { lane_queue : delayingType A; lane_producer : producer }.

Definition newLane (clock : Z) : lane := {| lane_queue := newDelayingQueue clock; lane_producer := Getting |}.

Definition set_lane_queue (d : delayingType A) (l : lane) : lane := {| lane_queue := d; lane_producer := lane_producer l |}.

(** The calls of the queue itself, and whether it is shut down. *)
Definition lane_Interface (l : lane) : workqueue A := delaying_Interface (lane_queue l).

Definition lane_call (i : workqueue A) (p : producer) (l : lane) : lane :=
  {| lane_queue := set_Interface i (lane_queue l); lane_producer := p |}.

Definition lane_ShutDown (l : lane) : lane := set_lane_queue (delaying_ShutDown (lane_queue l)) l.

(** [func process(q workqueue.Interface, ch chan interface{})]: its next step, if
    it does not wait. *)
Definition process (l : lane) : option lane :=
  match lane_producer l with
  | Getting =>
    '(r, i) ← queue_Get (lane_Interface l);
    Some (lane_call i (match r with None => Closed | Some a => Holding a end) l)
  | Holding a => Some (lane_call (queue_Done a (lane_Interface l)) (Releasing a) l)
  | Releasing a => Some (lane_call (lane_Interface l) (Sending a) l)
  | Sending _ | Closed => None
  end.

(** [item, ok := <-ch], if it does not wait *)
Definition lane_receive (l : lane) : option (option A * lane) :=
  match lane_producer l with
  | Sending a => Some (Some a, {| lane_queue := lane_queue l; lane_producer := Getting |})
  | Closed => Some (None, l)
  | _ => None
  end.

(** What the goroutines of a lane do by themselves. *)
Inductive lane_step : lane → lane → Prop :=
  | lane_loop d l : loop_step (lane_queue l) d → lane_step l (set_lane_queue d l)
  | lane_process l l' : process l = Some l' → lane_step l l'.

(** What its clients call, and what else happens to it. *)
Inductive lane_event : lane → queue_event A → lane → Prop :=
  | lane_Add a l : lane_event l (Added a) (set_lane_queue (delaying_Add a (lane_queue l)) l)
  | lane_AddAfter a d q l : AddAfter a d (lane_queue l) = Some q → lane_event l (AddedAfter a) (set_lane_queue q l)
  | lane_exit l :
    queue_ShuttingDown (lane_Interface l) = true →
    lane_event l Internal (set_lane_queue (set_waiting ∅ (set_channel [] (lane_queue l))) l)
  | lane_own l l' : lane_step l l' → lane_event l Internal l'.

(** *** Its invariant *)
Definition producer_has (p : producer) : gset A := match p with Holding a | Releasing a | Sending a => {[a]} | _ => ∅ end.

Record wf_lane (l : lane) : Prop := {
  wf_lane_queue : wf_queue (lane_Interface l);
  wf_lane_processing :
    processing (lane_Interface l) = match lane_producer l with Holding a => {[a]} | _ => ∅ end;
  wf_lane_closed :
    lane_producer l = Closed → shuttingDown (lane_Interface l) = true ∧ dirty (lane_Interface l) = ∅
}.

Definition lane_pending (l : lane) : gset A := dirty (lane_Interface l) ∪ producer_has (lane_producer l).
Definition lane_later (l : lane) : gset A := waiting (lane_queue l).

Definition lane_abs (l : lane) : abstract_queue A :=
  {| pending := lane_pending l; busy := ∅; later := lane_later l;
     closed := shuttingDown (lane_Interface l) |}.

Lemma wf_newLane clock : wf_lane (newLane clock).
Proof. by split; [apply wf_newQueue| |]. Qed.
(** What is added to a lane, at once or after a delay, by a client or by its loop. *)
Inductive lane_delaying : delayingType A → queue_event A → delayingType A → Prop :=
  | delaying_of_Add a d : lane_delaying d (Added a) (delaying_Add a d)
  | delaying_of_AddAfter a t d d' : AddAfter a t d = Some d' → lane_delaying d (AddedAfter a) d'
  | delaying_of_exit d :
    queue_ShuttingDown (delaying_Interface d) = true → lane_delaying d Internal (set_waiting ∅ (set_channel [] d))
  | delaying_of_loop d d' : loop_step d d' → lane_delaying d Internal d'.

Lemma lane_delaying_step d e d' : lane_delaying d e d' → delaying_step d e d'.
Proof.
  intros [a d0|a t d0 d0' Ha|d0 Hd|d0 d0' Hd].
  - apply (delaying_call d0 (Added a) (queue_Add a (delaying_Interface d0))); [done|]. apply step_Add.
  - by eapply delaying_AddAfter.
  - by apply delaying_exit.
  - by apply delaying_loop.
Qed.

Lemma lane_delaying_same d e d' :
  lane_delaying d e d' →
  delaying_Interface d' = delaying_Interface d ∨ ∃ a, delaying_Interface d' = queue_Add a (delaying_Interface d).
Proof.
  intros [a d0|a t d0 d0' Ha|d0 Hd|d0 d0' [entry rest d1 _|a t d1 _ _]]; [right; by exists a| |by left| |right; by exists a].
  - unfold AddAfter in Ha. repeat case_match; simplify_eq; [by left|right; by exists a|by left].
  - unfold receive. case_bool_decide; [by left|right; by exists (waitFor_data entry)].
Qed.

Lemma queue_Add_processing a (q : workqueue A) : processing (queue_Add a q) = processing q.
Proof. unfold queue_Add. destruct (shuttingDown q); [done|]. case_bool_decide; [done|]. by case_bool_decide. Qed.

Lemma lane_delaying_simulates d e d' l :
  lane_queue l = d → wf_lane l → lane_delaying d e d' →
  wf_lane (set_lane_queue d' l) ∧ abstract_step (lane_abs l) e (lane_abs (set_lane_queue d' l)).
Proof.
  intros <- [Hwf Hproc Hclosed] Hs. pose proof (lane_delaying_same _ _ _ Hs) as Hsame.
  assert (processing (delaying_Interface d') = processing (lane_Interface l) ∧
          shuttingDown (delaying_Interface d') = shuttingDown (lane_Interface l) ∧
          (shuttingDown (lane_Interface l) = true → delaying_Interface d' = lane_Interface l)) as (Hp & Hsh & Hfrozen).
  { destruct Hsame as [-> | [a ->]]; [done|]. rewrite queue_Add_processing, queue_Add_shuttingDown. split_and!; try done. apply queue_Add_closed. }
  destruct (delaying_simulates _ _ _ Hwf (lane_delaying_step _ _ _ Hs)) as [Hwf' Habs]. split; [split; cbn|].
  - done.
  - unfold lane_Interface at 1. cbn. by rewrite Hp.
  - intros Hcl. destruct (Hclosed Hcl) as [Hdown Hd]. unfold lane_Interface. cbn. by rewrite Hfrozen.
  - apply (abstract_frame (producer_has (lane_producer l)) ∅ ∅ (shuttingDown (lane_Interface l))) in Habs; [|by destruct Hs|done].
    cbn in Habs. rewrite !(right_id_L ∅ (∪)) in Habs. unfold lane_abs, lane_pending, lane_later, lane_Interface in *.
    cbn in *. by rewrite Hsh.
Qed.

Lemma process_simulates l l' :
  wf_lane l → process l = Some l' →
  wf_lane l' ∧ lane_pending l' = lane_pending l ∧ lane_later l' = lane_later l ∧
  shuttingDown (lane_Interface l') = shuttingDown (lane_Interface l).
Proof.
  intros [Hwf Hproc Hclosed]. unfold process. destruct (lane_producer l) as [|a|a|a|] eqn:Hpr; try done.
  - destruct (queue_Get (lane_Interface l)) as [[r i]|] eqn:Hget; [|done]. intros [= <-].
    pose proof (queue_Get_wf _ _ _ Hwf Hget) as Hwf'. pose proof (wf_queued _ Hwf) as Hq. unfold queue_Get in Hget.
    destruct (queue (lane_Interface l)) as [|a rest] eqn:Hqueue.
    + destruct (shuttingDown (lane_Interface l)) eqn:Hdown; [|done]. injection Hget as <- <-. unfold lane_pending. rewrite Hpr.
      split_and!; [|done..]. split; cbn; [done|done|]. intros _. split; [done|]. apply set_eq. intros b. specialize (Hq b).
      rewrite Hproc, elem_of_nil in Hq. set_solver.
    + injection Hget as <- <-. destruct (wf_head _ _ _ Hwf Hqueue) as [Hd _].
      split_and!; [|unfold lane_pending; rewrite Hpr|done|done]; cbn.
      * split; cbn; [done| |done]. rewrite Hproc. set_solver.
      * unfold lane_Interface. cbn. apply set_eq. intros b. destruct (decide (b = a)); set_solver.
  - intros [= <-]. unfold lane_pending. rewrite Hpr. split_and!; [|done..]. split; cbn; [|set_solver|done].
    apply queue_Done_wf; [done|]. rewrite Hproc. set_solver.
  - intros [= <-]. unfold lane_pending. rewrite Hpr. by split_and!; [split|..].
Qed.

Lemma lane_simulates l e l' :
  wf_lane l → lane_event l e l' → wf_lane l' ∧ abstract_step (lane_abs l) e (lane_abs l').
Proof.
  intros Hwf Hs. destruct Hs as [a l|a d q l Ha|l Hd|l l' [d l0 Hl|l0 l1 Hp]].
  - apply (lane_delaying_simulates (lane_queue l)); [done|done|]. apply delaying_of_Add.
  - apply (lane_delaying_simulates (lane_queue l)); [done|done|]. by eapply delaying_of_AddAfter.
  - apply (lane_delaying_simulates (lane_queue l)); [done|done|]. by apply delaying_of_exit.
  - apply (lane_delaying_simulates (lane_queue l0)); [done|done|]. by apply delaying_of_loop.
  - destruct (process_simulates _ _ Hwf Hp) as (Hwf' & Hpend & Hlater & Hdown). split; [done|].
    unfold lane_abs. rewrite Hpend, Hlater, Hdown. apply abstract_idle.
Qed.

(** *** What is left to do for its goroutines *)
Definition producer_work (p : producer) : nat :=
  match p with Getting => 2 | Holding _ => 7 | Releasing _ => 6 | Sending _ => 5 | Closed => 1 end.

Definition lane_work (l : lane) : nat :=
  7 * loop_work (lane_queue l) + 6 * size (dirty (lane_Interface l)) + producer_work (lane_producer l).

#[local] Arguments lane_work : simpl never.

Lemma queue_Add_size a (q : workqueue A) : size (dirty (queue_Add a q)) ≤ S (size (dirty q)).
Proof.
  assert (size ({[a]} ∪ dirty q) ≤ S (size (dirty q))) as Hle.
  { rewrite size_union_alt, size_singleton. apply le_n_S, subseteq_size. set_solver. }
  unfold queue_Add. destruct (shuttingDown q); [lia|]. case_bool_decide; [lia|]. by case_bool_decide.
Qed.

Lemma loop_step_dirty (d d' : delayingType A) :
  loop_step d d' → size (dirty (delaying_Interface d')) ≤ S (size (dirty (delaying_Interface d))).
Proof.
  intros [entry rest d0 _|a t d0 _ _]; [unfold receive; case_bool_decide; cbn; [lia|]|]; apply queue_Add_size.
Qed.

Lemma lane_step_work l l' : wf_lane l → lane_step l l' → lane_work l' < lane_work l.
Proof.
  intros Hwf Hs. destruct Hs as [d l0 Hl|l0 l1 Hp].
  - unfold lane_work, lane_Interface. cbn [lane_queue set_lane_queue lane_producer]. pose proof (loop_step_work _ _ Hl). pose proof (loop_step_dirty _ _ Hl). lia.
  - unfold process in Hp. unfold lane_work. destruct (lane_producer l0) as [|a|a|a|] eqn:Hpr; try done.
    + destruct (queue_Get (lane_Interface l0)) as [[r i]|] eqn:Hget; [|done]. injection Hp as <-. unfold queue_Get in Hget.
      destruct (queue (lane_Interface l0)) as [|a rest] eqn:Hqueue.
      * destruct (shuttingDown (lane_Interface l0)); [|done]. injection Hget as <- <-. cbn. lia.
      * injection Hget as <- <-. destruct (wf_head _ _ _ (wf_lane_queue _ Hwf) Hqueue) as [Hd _].
        unfold lane_call, lane_Interface at 1, loop_work, set_Interface. cbn -[Nat.mul].
        rewrite size_difference, size_singleton by set_solver. assert (size (dirty (lane_Interface l0)) ≠ 0); [|lia].
        intros Hz%size_empty_inv. set_solver.
    + injection Hp as <-. cbn. lia.
    + injection Hp as <-. cbn. lia.
Qed.

(** A lane that waits has nothing to hand on, or offers it. *)
Lemma lane_waits l :
  wf_lane l → (∀ l', ¬ lane_step l l') →
  (lane_producer l = Getting ∧ lane_pending l = ∅) ∨ (∃ a, lane_producer l = Sending a) ∨ (lane_producer l = Closed ∧ lane_pending l = ∅).
Proof.
  intros [Hwf Hproc Hclosed] Hwaits. assert (∀ l', process l ≠ Some l') as Hno by (intros l' Hp; by eapply Hwaits, lane_process).
  unfold process in Hno. unfold lane_pending. destruct (lane_producer l) as [|a|a|a|] eqn:Hpr.
  - left. split; [done|]. destruct (queue_Get (lane_Interface l)) as [[r i]|] eqn:Hget; [by edestruct Hno|].
    unfold queue_Get in Hget. destruct (queue (lane_Interface l)) as [|a rest] eqn:Hqueue; [|done].
    apply set_eq. intros b. pose proof (wf_queued _ Hwf b) as Hq. rewrite Hqueue, Hproc, elem_of_nil in Hq. set_solver.
  - by edestruct Hno.
  - by edestruct Hno.
  - right. left. by exists a.
  - right. right. destruct (Hclosed eq_refl) as [_ Hd]. split; [done|]. rewrite Hd. set_solver.
Qed.
(** A lane that closed its channel stays so, and only its clients shut it down. *)
Lemma lane_event_stays l e l' :
  lane_event l e l' →
  (lane_producer l = Closed → lane_producer l' = Closed) ∧ shuttingDown (lane_Interface l') = shuttingDown (lane_Interface l).
Proof.
  assert (∀ d e d', lane_delaying d e d' → shuttingDown (delaying_Interface d') = shuttingDown (delaying_Interface d)) as Hsame.
  { intros d e0 d' Hd. destruct (lane_delaying_same _ _ _ Hd) as [-> | [a ->]]; [done|apply queue_Add_shuttingDown]. }
  intros Hs. destruct Hs as [a l|a d q l Ha|l Hd|l l' [d l0 Hl|l0 l1 Hp]]; (split; [try done|try done]).
  - apply (Hsame _ _ _ (delaying_of_Add a (lane_queue l))).
  - apply (Hsame _ _ _ (delaying_of_AddAfter _ _ _ _ Ha)).
  - apply (Hsame _ _ _ (delaying_of_loop _ _ Hl)).
  - unfold process in Hp. by intros Hcl; rewrite Hcl in Hp.
  - unfold process in Hp. destruct (lane_producer l0); try done; [|by injection Hp as <-..].
    destruct (queue_Get (lane_Interface l0)) as [[r i]|] eqn:Hget; [|done]. injection Hp as <-. unfold lane_Interface in *. cbn.
    unfold queue_Get in Hget. repeat case_match; by simplify_eq/=.
Qed.

(** ** The queue of a controller *)

(** Where the goroutine of [runConsumer] is: at the head of its loop, at the
    select from both channels, before it adds what it received, or gone. *)
Inductive consumer_point : Type := Looping | Selecting | Adding (item : A) | Stopped.

(** [type twoLaneQueue struct], with the variables of [runConsumer] *)
Record twoLaneQueue := {
  fastLane : lane;
  slowLane : lane;
  rateLimiter : RateLimiter A;
  consumerQueue : workqueue A;
  fast : bool;
  slow : bool;
  consumer : consumer_point
}.

(** [func newTwoLaneWorkQueue(name string, rl workqueue.RateLimiter) *twoLaneQueue] *)
Definition newTwoLaneWorkQueue (clock : Z) (rl : RateLimiter A) : twoLaneQueue := {|
  fastLane := newLane clock; slowLane := newLane clock; rateLimiter := rl; consumerQueue := newQueue;
  fast := true; slow := true; consumer := Looping |}.

Definition set_fastLane (l : lane) (q : twoLaneQueue) : twoLaneQueue := {|
  fastLane := l; slowLane := slowLane q; rateLimiter := rateLimiter q; consumerQueue := consumerQueue q;
  fast := fast q; slow := slow q; consumer := consumer q |}.
Definition set_slowLane (l : lane) (q : twoLaneQueue) : twoLaneQueue := {|
  fastLane := fastLane q; slowLane := l; rateLimiter := rateLimiter q; consumerQueue := consumerQueue q;
  fast := fast q; slow := slow q; consumer := consumer q |}.
Definition set_rateLimiter (rl : RateLimiter A) (q : twoLaneQueue) : twoLaneQueue := {|
  fastLane := fastLane q; slowLane := slowLane q; rateLimiter := rl; consumerQueue := consumerQueue q;
  fast := fast q; slow := slow q; consumer := consumer q |}.
Definition set_consumerQueue (i : workqueue A) (q : twoLaneQueue) : twoLaneQueue := {|
  fastLane := fastLane q; slowLane := slowLane q; rateLimiter := rateLimiter q; consumerQueue := i;
  fast := fast q; slow := slow q; consumer := consumer q |}.
Definition goto (c : consumer_point) (q : twoLaneQueue) : twoLaneQueue := {|
  fastLane := fastLane q; slowLane := slowLane q; rateLimiter := rateLimiter q; consumerQueue := consumerQueue q;
  fast := fast q; slow := slow q; consumer := c |}.
Definition set_flags (f s : bool) (q : twoLaneQueue) : twoLaneQueue := {|
  fastLane := fastLane q; slowLane := slowLane q; rateLimiter := rateLimiter q; consumerQueue := consumerQueue q;
  fast := f; slow := s; consumer := consumer q |}.

(** The case of a select that receives from the fast channel, and from the slow
    one. *)
Definition receive_fast (q : twoLaneQueue) : option twoLaneQueue :=
  '(r, l) ← lane_receive (fastLane q);
  Some (match r with
        | Some item => goto (Adding item) (set_fastLane l q)
        | None => goto Looping (set_flags false (slow q) q)
        end).
Definition receive_slow (q : twoLaneQueue) : option twoLaneQueue :=
  '(r, l) ← lane_receive (slowLane q);
  Some (match r with
        | Some item => goto (Adding item) (set_slowLane l q)
        | None => goto Looping (set_flags (fast q) false q)
        end).

(** [func (tlq *twoLaneQueue) runConsumer()]: its next step, if it does not
    wait; [pick_fast] is the choice of a select that could take both. *)
Definition runConsumer (pick_fast : bool) (q : twoLaneQueue) : option twoLaneQueue :=
  match consumer q with
  | Looping =>
    if negb (fast q || slow q) then Some (goto Stopped (set_consumerQueue (queue_ShutDown (consumerQueue q)) q))
    else if fast q then match receive_fast q with Some q' => Some q' | None => Some (goto Selecting q) end
    else Some (goto Selecting q)
  | Selecting =>
    match receive_fast q, receive_slow q with
    | Some qf, Some qs => Some (if pick_fast then qf else qs)
    | Some qf, None => Some qf
    | None, qs => qs
    end
  | Adding item => Some (goto Looping (set_consumerQueue (queue_Add item (consumerQueue q)) q))
  | Stopped => None
  end.

(** The calls: [Add], [AddAfter], [AddRateLimited] and [Forget] of the embedded
    fast lane, those of [SlowLane()], and [Get], [Done] and [Len]. [ShutDown]
    has two steps, one for each lane. *)
Definition two_lane_AddRateLimited (item : A) (q : twoLaneQueue) : option twoLaneQueue :=
  '(d, rl) ← rateLimiting_AddRateLimited item (lane_queue (fastLane q)) (rateLimiter q);
  Some (set_rateLimiter rl (set_fastLane (set_lane_queue d (fastLane q)) q)).
Definition two_lane_Forget (item : A) (q : twoLaneQueue) : twoLaneQueue :=
  set_rateLimiter (rateLimiting_Forget item (rateLimiter q)) q.
Definition two_lane_Done (i : A) (q : twoLaneQueue) : twoLaneQueue := set_consumerQueue (queue_Done i (consumerQueue q)) q.
Definition two_lane_Get (q : twoLaneQueue) : option (option A * twoLaneQueue) :=
  '(r, i) ← queue_Get (consumerQueue q); Some (r, set_consumerQueue i q).
Definition two_lane_Len (q : twoLaneQueue) : nat :=
  queue_Len (lane_Interface (fastLane q)) + queue_Len (lane_Interface (slowLane q)) + queue_Len (consumerQueue q).
Definition ShutDown_fast (q : twoLaneQueue) : twoLaneQueue := set_fastLane (lane_ShutDown (fastLane q)) q.
Definition ShutDown_slow (q : twoLaneQueue) : twoLaneQueue := set_slowLane (lane_ShutDown (slowLane q)) q.

Definition two_lane_tick (now : Z) (q : twoLaneQueue) : twoLaneQueue :=
  let tick l := set_lane_queue (set_clock now (lane_queue l)) l in
  set_fastLane (tick (fastLane q)) (set_slowLane (tick (slowLane q)) q).

Inductive two_lane_step : twoLaneQueue → queue_event A → twoLaneQueue → Prop :=
  | two_fast e l q : lane_event (fastLane q) e l → two_lane_step q e (set_fastLane l q)
  | two_slow e l q : lane_event (slowLane q) e l → two_lane_step q e (set_slowLane l q)
  | two_AddRateLimited a q q' : two_lane_AddRateLimited a q = Some q' → two_lane_step q (AddedAfter a) q'
  | two_Forget a q : two_lane_step q Internal (two_lane_Forget a q)
  | two_Get a q q' : two_lane_Get q = Some (Some a, q') → two_lane_step q (Got a) q'
  | two_Get_shutdown q q' : two_lane_Get q = Some (None, q') → two_lane_step q GotShutdown q'
  | two_Done a q : a ∈ processing (consumerQueue q) → two_lane_step q (Finished a) (two_lane_Done a q)
  | two_ShutDown q : two_lane_step q WasShutDown (ShutDown_fast q)
  | two_ShutDown_slow q :
    queue_ShuttingDown (lane_Interface (fastLane q)) = true → two_lane_step q Internal (ShutDown_slow q)
  | two_consumer pick q q' : runConsumer pick q = Some q' → two_lane_step q Internal q'
  | two_tick now q :
    (delaying_clock (lane_queue (fastLane q)) ≤ now)%Z → (delaying_clock (lane_queue (slowLane q)) ≤ now)%Z →
    two_lane_step q Internal (two_lane_tick now q).

Definition two_lane_execution : twoLaneQueue → list (queue_event A) → twoLaneQueue → Prop := execution two_lane_step.

(** The same as a function of what the clients call and which goroutine moves. *)
Inductive two_lane_action : Type :=
  | CallAdd (a : A) | CallAddSlow (a : A) | CallAddAfter (a : A) (d : Z) | CallAddRateLimited (a : A) | CallGet | CallDone (a : A)
  | CallShutDown | MoreShutDown | MoveFast | MoveSlow | MoveConsumer (pick_fast : bool).

Definition two_lane_do (q : twoLaneQueue) (m : two_lane_action) : option (queue_event A * twoLaneQueue) :=
  match m with
  | CallAdd a => Some (Added a, set_fastLane (set_lane_queue (delaying_Add a (lane_queue (fastLane q))) (fastLane q)) q)
  | CallAddSlow a => Some (Added a, set_slowLane (set_lane_queue (delaying_Add a (lane_queue (slowLane q))) (slowLane q)) q)
  | CallAddAfter a d =>
    d' ← AddAfter a d (lane_queue (fastLane q)); Some (AddedAfter a, set_fastLane (set_lane_queue d' (fastLane q)) q)
  | CallAddRateLimited a => q' ← two_lane_AddRateLimited a q; Some (AddedAfter a, q')
  | CallGet => '(r, q') ← two_lane_Get q; Some (match r with Some a => Got a | None => GotShutdown end, q')
  | CallDone a => if bool_decide (a ∈ processing (consumerQueue q)) then Some (Finished a, two_lane_Done a q) else None
  | CallShutDown => Some (WasShutDown, ShutDown_fast q)
  | MoreShutDown => if queue_ShuttingDown (lane_Interface (fastLane q)) then Some (Internal, ShutDown_slow q) else None
  | MoveFast => l ← process (fastLane q); Some (Internal, set_fastLane l q)
  | MoveSlow => l ← process (slowLane q); Some (Internal, set_slowLane l q)
  | MoveConsumer pick => q' ← runConsumer pick q; Some (Internal, q')
  end.

Fixpoint two_lane_run (q : twoLaneQueue) (ms : list two_lane_action) : option (list (queue_event A) * twoLaneQueue) :=
  match ms with
  | [] => Some ([], q)
  | m :: ms => '(e, q1) ← two_lane_do q m; '(es, q') ← two_lane_run q1 ms; Some (e :: es, q')
  end.

Lemma two_lane_do_step q m e q' : two_lane_do q m = Some (e, q') → two_lane_step q e q'.
Proof.
  destruct m as [a|a|a d|a| |a| | | | |pick]; simpl; intros Hdo.
  - injection Hdo as <- <-. apply two_fast, lane_Add.
  - injection Hdo as <- <-. apply two_slow, lane_Add.
  - destruct (AddAfter _ _ _) as [d'|] eqn:Hd; [|done]. injection Hdo as <- <-. by eapply two_fast, lane_AddAfter.
  - destruct (two_lane_AddRateLimited a q) as [q1|] eqn:Hq; [|done]. injection Hdo as <- <-. by apply two_AddRateLimited.
  - destruct (two_lane_Get q) as [[[a|] q1]|] eqn:Hq; [| |done]; injection Hdo as <- <-; [by apply two_Get|by apply two_Get_shutdown].
  - case_bool_decide; [|done]. injection Hdo as <- <-. by apply two_Done.
  - injection Hdo as <- <-. apply two_ShutDown.
  - destruct (queue_ShuttingDown _) eqn:Hd; [|done]. injection Hdo as <- <-. by apply two_ShutDown_slow.
  - destruct (process (fastLane q)) as [l|] eqn:Hl; [|done]. injection Hdo as <- <-. by apply two_fast, lane_own, lane_process.
  - destruct (process (slowLane q)) as [l|] eqn:Hl; [|done]. injection Hdo as <- <-. by apply two_slow, lane_own, lane_process.
  - destruct (runConsumer pick q) as [q1|] eqn:Hq; [|done]. injection Hdo as <- <-. by eapply two_consumer.
Qed.

Lemma two_lane_run_execution q ms es q' : two_lane_run q ms = Some (es, q') → two_lane_execution q es q'.
Proof.
  revert q es. induction ms as [|m ms IH]; intros q es Hrun; simpl in Hrun; [injection Hrun as <- <-; constructor|].
  destruct (two_lane_do q m) as [[e q1]|] eqn:Hdo; simpl in Hrun; [|done].
  destruct (two_lane_run q1 ms) as [[es1 q2]|] eqn:Hms; simpl in Hrun; [|done]. injection Hrun as <- <-.
  eapply execution_step; [by eapply two_lane_do_step|by apply IH].
Qed.

(** *** The invariant *)
Record wf_two_lane (q : twoLaneQueue) : Prop := {
  wf_fast : wf_lane (fastLane q);
  wf_slow : wf_lane (slowLane q);
  wf_consumer : wf_queue (consumerQueue q);
  wf_shut : shuttingDown (lane_Interface (slowLane q)) = true → shuttingDown (lane_Interface (fastLane q)) = true;
  wf_fast_flag : fast q = false → lane_producer (fastLane q) = Closed;
  wf_slow_flag : slow q = false → lane_producer (slowLane q) = Closed;
  wf_stopped : consumer q = Stopped → fast q = false ∧ slow q = false;
  wf_consumer_shut : shuttingDown (consumerQueue q) = true ↔ consumer q = Stopped
}.

Lemma wf_newTwoLaneWorkQueue clock rl : wf_two_lane (newTwoLaneWorkQueue clock rl).
Proof. split; try done; [apply wf_newLane..|apply wf_newQueue]. Qed.

Definition consumer_has (c : consumer_point) : gset A := match c with Adding a => {[a]} | _ => ∅ end.

Definition two_lane_abs (q : twoLaneQueue) : abstract_queue A := {|
  pending := lane_pending (fastLane q) ∪ (lane_pending (slowLane q) ∪ (consumer_has (consumer q) ∪ dirty (consumerQueue q)));
  busy := processing (consumerQueue q);
  later := lane_later (fastLane q) ∪ lane_later (slowLane q);
  closed := shuttingDown (lane_Interface (fastLane q)) |}.
(** *** The refinement *)
Lemma abstract_step_eq (p p1 q q1 : abstract_queue A) e : abstract_step p e q → p = p1 → q = q1 → abstract_step p1 e q1.
Proof. by intros ? <- <-. Qed.

Lemma abstract_queue_eq (p p' b b' l l' : gset A) c c' :
  p = p' → b = b' → l = l' → c = c' →
  {| pending := p; busy := b; later := l; closed := c |} = {| pending := p'; busy := b'; later := l'; closed := c' |}.
Proof. by intros -> -> -> ->. Qed.

Lemma lane_event_adds l e l' : lane_event l e l' → match e with Added _ | AddedAfter _ | Internal => True | _ => False end.
Proof. by destruct 1. Qed.

Lemma fast_simulates q e l :
  wf_two_lane q → lane_event (fastLane q) e l →
  wf_two_lane (set_fastLane l q) ∧ abstract_step (two_lane_abs q) e (two_lane_abs (set_fastLane l q)).
Proof.
  intros [Hf Hs Hc Hshut Hff Hsf Hst Hcs] He. destruct (lane_simulates _ _ _ Hf He) as [Hf' Habs].
  destruct (lane_event_stays _ _ _ He) as [Hclosed Hdown]. split.
  { split; cbn; try done; [by rewrite Hdown|by auto]. }
  eapply (abstract_frame (lane_pending (slowLane q) ∪ (consumer_has (consumer q) ∪ dirty (consumerQueue q)))
    (lane_later (slowLane q)) (processing (consumerQueue q)) (shuttingDown (lane_Interface (fastLane q)))) in Habs;
    [|by eapply lane_event_adds|done].
  unfold two_lane_abs. cbn in *. by rewrite Hdown.
Qed.

Lemma slow_simulates q e l :
  wf_two_lane q → lane_event (slowLane q) e l →
  wf_two_lane (set_slowLane l q) ∧ abstract_step (two_lane_abs q) e (two_lane_abs (set_slowLane l q)).
Proof.
  intros [Hf Hs Hc Hshut Hff Hsf Hst Hcs] He. destruct (lane_simulates _ _ _ Hs He) as [Hs' Habs].
  destruct (lane_event_stays _ _ _ He) as [Hclosed Hdown]. split.
  { split; cbn; try done; [by rewrite Hdown|by auto]. }
  eapply (abstract_frame (lane_pending (fastLane q) ∪ (consumer_has (consumer q) ∪ dirty (consumerQueue q)))
    (lane_later (fastLane q)) (processing (consumerQueue q)) (shuttingDown (lane_Interface (fastLane q)))) in Habs;
    [|by eapply lane_event_adds|done].
  eapply abstract_step_eq; [exact Habs|..]; unfold two_lane_abs; cbn; apply abstract_queue_eq; try done; set_solver.
Qed.

Lemma lane_receive_item l a l' :
  wf_lane l → lane_receive l = Some (Some a, l') →
  wf_lane l' ∧ lane_pending l = {[a]} ∪ lane_pending l' ∧ lane_later l' = lane_later l ∧ lane_Interface l' = lane_Interface l ∧
  lane_producer l = Sending a.
Proof.
  intros [Hwf Hproc Hcl]. unfold lane_receive. destruct (lane_producer l) eqn:Hp; try done. intros [= <- <-]. unfold lane_pending.
  rewrite Hp. cbn. split_and!; [by split| |done|done|done]. change (lane_Interface _) with (lane_Interface l) at 2. set_solver.
Qed.

Lemma lane_receive_closed l l' : lane_receive l = Some (None, l') → l' = l ∧ lane_producer l = Closed.
Proof. unfold lane_receive. destruct (lane_producer l); try done. by intros [= <-]. Qed.

Lemma receive_fast_abs q q' :
  wf_two_lane q → consumer q = Looping ∨ consumer q = Selecting → receive_fast q = Some q' →
  wf_two_lane q' ∧ two_lane_abs q' = two_lane_abs q.
Proof.
  intros [Hf Hs Hc Hshut Hff Hsf Hst Hcs] Hcons. unfold receive_fast.
  assert (shuttingDown (consumerQueue q) = false) as Hopen.
  { destruct (shuttingDown (consumerQueue q)); [|done]. destruct Hcs as [Hcs _]. rewrite Hcs in Hcons by done. by destruct Hcons. }
  assert (consumer_has (consumer q) = ∅) as Hhas by by destruct Hcons as [-> | ->].
  destruct (lane_receive (fastLane q)) as [[[a|] l]|] eqn:Hr; [| |done]; intros [= <-].
  - destruct (lane_receive_item _ _ _ Hf Hr) as (Hf' & Hpend & Hlater & Hi & Hp). split.
    + split; cbn; try done; [by rewrite Hi|intros Hflag; rewrite Hff in Hp; done|by rewrite Hopen].
    + unfold two_lane_abs. cbn. rewrite Hlater, Hi, Hpend, Hhas. apply abstract_queue_eq; [set_solver|done..].
  - destruct (lane_receive_closed _ _ Hr) as [-> Hp]. split; [split; cbn; try done; by rewrite Hopen|].
    unfold two_lane_abs. cbn. by rewrite Hhas.
Qed.

Lemma receive_slow_abs q q' :
  wf_two_lane q → consumer q = Looping ∨ consumer q = Selecting → receive_slow q = Some q' →
  wf_two_lane q' ∧ two_lane_abs q' = two_lane_abs q.
Proof.
  intros [Hf Hs Hc Hshut Hff Hsf Hst Hcs] Hcons. unfold receive_slow.
  assert (shuttingDown (consumerQueue q) = false) as Hopen.
  { destruct (shuttingDown (consumerQueue q)); [|done]. destruct Hcs as [Hcs _]. rewrite Hcs in Hcons by done. by destruct Hcons. }
  assert (consumer_has (consumer q) = ∅) as Hhas by by destruct Hcons as [-> | ->].
  destruct (lane_receive (slowLane q)) as [[[a|] l]|] eqn:Hr; [| |done]; intros [= <-].
  - destruct (lane_receive_item _ _ _ Hs Hr) as (Hs' & Hpend & Hlater & Hi & Hp). split.
    + split; cbn; try done; [by rewrite Hi|intros Hflag; rewrite Hsf in Hp; done|by rewrite Hopen].
    + unfold two_lane_abs. cbn. rewrite Hlater, Hpend, Hhas. apply abstract_queue_eq; [set_solver|done..].
  - destruct (lane_receive_closed _ _ Hr) as [-> Hp]. split; [split; cbn; try done; by rewrite Hopen|].
    unfold two_lane_abs. cbn. by rewrite Hhas.
Qed.

Lemma runConsumer_abs pick q q' :
  wf_two_lane q → runConsumer pick q = Some q' → wf_two_lane q' ∧ two_lane_abs q' = two_lane_abs q.
Proof.
  intros Hwf. pose proof Hwf as [Hf Hs Hc Hshut Hff Hsf Hst Hcs]. unfold runConsumer.
  assert (consumer q = Looping → wf_two_lane (goto Selecting q) ∧ two_lane_abs (goto Selecting q) = two_lane_abs q) as Hgoto.
  { intros Hl. rewrite Hl in *. split; [by split; cbn; try done; rewrite Hcs|]. unfold two_lane_abs. cbn. by rewrite Hl. }
  destruct (consumer q) as [| |a|] eqn:Hcons; [| | |done].
  - destruct (fast q) eqn:Hfast; simpl; [|destruct (slow q) eqn:Hslow; simpl].
    + destruct (receive_fast q) as [q1|] eqn:Hr; intros [= <-]; [apply receive_fast_abs; by auto|by apply Hgoto].
    + intros [= <-]. by apply Hgoto.
    + intros [= <-]. split; [|unfold two_lane_abs; cbn; by rewrite Hcons]. split; cbn; try done; [by apply queue_ShutDown_wf|by auto..].
  - destruct (receive_fast q) as [qf|] eqn:Hrf, (receive_slow q) as [qs|] eqn:Hrs; [destruct pick| | |done]; intros [= <-];
      first [apply receive_fast_abs; by auto|apply receive_slow_abs; by auto].
  - intros [= <-]. assert (shuttingDown (consumerQueue q) = false) as Hopen.
    { destruct (shuttingDown (consumerQueue q)); [|done]. destruct Hcs as [Hcs _]. by specialize (Hcs eq_refl). }
    split; [split; cbn -[queue_Add]; try done; [by apply queue_Add_wf|by rewrite queue_Add_shuttingDown, Hopen]|].
    unfold two_lane_abs. cbn -[queue_Add]. rewrite Hcons, queue_Add_processing. apply abstract_queue_eq; try done.
    change (dirty (queue_Add a (consumerQueue q))) with (pending (queue_abs (queue_Add a (consumerQueue q)))).
    rewrite queue_Add_open by done. cbn. set_solver.
Qed.
Lemma wf_lane_closed_pending l : wf_lane l → lane_producer l = Closed → lane_pending l = ∅ ∧ shuttingDown (lane_Interface l) = true.
Proof. intros [_ _ Hcl] Hp. destruct (Hcl Hp) as [Hdown Hd]. unfold lane_pending. rewrite Hd, Hp. split; [set_solver|done]. Qed.

(** The calls of the workers. *)
Lemma two_Get_simulates q a q' :
  wf_two_lane q → two_lane_Get q = Some (Some a, q') → wf_two_lane q' ∧ abstract_step (two_lane_abs q) (Got a) (two_lane_abs q').
Proof.
  intros [Hf Hs Hc Hshut Hff Hsf Hst Hcs]. unfold two_lane_Get. destruct (queue_Get (consumerQueue q)) as [[r i]|] eqn:Hget; [|done].
  intros [= -> <-]. destruct (queue_Get_item _ _ _ Hc Hget) as (Hd & Hp & Hd' & Hp' & Hdown). split.
  { split; cbn; try done; [by eapply queue_Get_wf|by rewrite Hdown]. }
  unfold two_lane_abs at 2. cbn. rewrite Hd', Hp'. apply (abstract_get a _ (two_lane_abs q)); cbn; [set_solver|done|set_solver|].
  intros c. rewrite !elem_of_union, elem_of_difference, !elem_of_singleton. destruct (decide (c = a)); tauto.
Qed.

Lemma two_Get_shutdown_simulates q q' :
  wf_two_lane q → two_lane_Get q = Some (None, q') → q' = q ∧ abstract_step (two_lane_abs q) GotShutdown (two_lane_abs q).
Proof.
  intros [Hf Hs Hc Hshut Hff Hsf Hst Hcs]. unfold two_lane_Get. destruct (queue_Get (consumerQueue q)) as [[r i]|] eqn:Hget; [|done].
  intros [= -> <-]. destruct (queue_Get_shutdown _ _ Hc Hget) as (-> & Hdown & Hsub). split; [by destruct q|].
  apply Hcs in Hdown. destruct (Hst Hdown) as [Hf0 Hs0].
  destruct (wf_lane_closed_pending _ Hf (Hff Hf0)) as [Hfp Hfd], (wf_lane_closed_pending _ Hs (Hsf Hs0)) as [Hsp _].
  apply abstract_get_shutdown; [done|]. cbn. rewrite Hfp, Hsp, Hdown. set_solver.
Qed.

Lemma two_Done_simulates q a :
  wf_two_lane q → a ∈ processing (consumerQueue q) →
  wf_two_lane (two_lane_Done a q) ∧ abstract_step (two_lane_abs q) (Finished a) (two_lane_abs (two_lane_Done a q)).
Proof.
  intros [Hf Hs Hc Hshut Hff Hsf Hst Hcs] Ha. split.
  { split; cbn; try done. by apply queue_Done_wf. }
  apply (abstract_done a (two_lane_abs q) Ha).
Qed.

Lemma ShutDown_fast_wf q : wf_two_lane q → wf_two_lane (ShutDown_fast q).
Proof.
  intros [Hf Hs Hc Hshut Hff Hsf Hst Hcs]. split; cbn; try done. destruct Hf as [Hq Hp Hcl].
  split; cbn; [by apply queue_ShutDown_wf|done|]. intros Hc'. by destruct (Hcl Hc').
Qed.

Lemma ShutDown_slow_wf q :
  wf_two_lane q → shuttingDown (lane_Interface (fastLane q)) = true → wf_two_lane (ShutDown_slow q).
Proof.
  intros [Hf Hs Hc Hshut Hff Hsf Hst Hcs] Hdown. split; cbn; try done. destruct Hs as [Hq Hp Hcl].
  split; cbn; [by apply queue_ShutDown_wf|done|]. intros Hc'. by destruct (Hcl Hc').
Qed.

Lemma AddRateLimited_simulates a q q' :
  wf_two_lane q → two_lane_AddRateLimited a q = Some q' →
  wf_two_lane q' ∧ abstract_step (two_lane_abs q) (AddedAfter a) (two_lane_abs q').
Proof.
  intros Hwf. unfold two_lane_AddRateLimited, rateLimiting_AddRateLimited. destruct (When _ a (rateLimiter q)) as [t rl].
  destruct (AddAfter a t (lane_queue (fastLane q))) as [d|] eqn:Hafter; [|done]. intros [= <-].
  destruct (fast_simulates q (AddedAfter a) _ Hwf (lane_AddAfter a t d (fastLane q) Hafter)) as [Hwf' Habs]. split; [|exact Habs].
  by destruct Hwf'.
Qed.

Lemma tick_wf now q : wf_two_lane q → wf_two_lane (two_lane_tick now q).
Proof. intros [[] [] Hc Hshut Hff Hsf Hst Hcs]. by split; cbn; try done; split. Qed.

(** The queue of a controller is an abstract queue. *)
Lemma two_lane_simulates q e q' :
  wf_two_lane q → two_lane_step q e q' → wf_two_lane q' ∧ abstract_step (two_lane_abs q) e (two_lane_abs q').
Proof.
  intros Hwf Hs. destruct Hs as [e l q He|e l q He|a q q' Ha|a q|a q q' Hget|q q' Hget|a q Ha|q|q Hdown|pick q q' Hr|now q _ _].
  - by apply fast_simulates.
  - by apply slow_simulates.
  - by apply AddRateLimited_simulates.
  - split; [by destruct Hwf|]. apply abstract_idle.
  - by apply two_Get_simulates.
  - destruct (two_Get_shutdown_simulates _ _ Hwf Hget) as [-> Habs]. by split.
  - by apply two_Done_simulates.
  - split; [by apply ShutDown_fast_wf|]. apply (abstract_shutdown (two_lane_abs q)).
  - split; [by apply ShutDown_slow_wf|]. apply (abstract_idle (two_lane_abs q)).
  - destruct (runConsumer_abs _ _ _ Hwf Hr) as [Hwf' ->]. split; [done|]. apply abstract_idle.
  - split; [by apply tick_wf|]. apply (abstract_idle (two_lane_abs q)).
Qed.

Lemma two_lane_refines q es q' :
  wf_two_lane q → two_lane_execution q es q' → wf_two_lane q' ∧ abstract_execution (two_lane_abs q) es (two_lane_abs q').
Proof. intros Hwf Hes. by apply (simulation two_lane_step abstract_step wf_two_lane two_lane_abs _ _ _ two_lane_simulates Hes). Qed.

(** *** Delivery *)

(** What its goroutines do, besides the consumer's looking at a channel that it
    knows to be closed. *)
Definition spins (q q' : twoLaneQueue) : Prop := consumer q = Selecting ∧ q' = goto Looping q.

Inductive two_lane_own : twoLaneQueue → twoLaneQueue → Prop :=
  | own_fast l q : lane_step (fastLane q) l → two_lane_own q (set_fastLane l q)
  | own_slow l q : lane_step (slowLane q) l → two_lane_own q (set_slowLane l q)
  | own_consumer pick q q' : runConsumer pick q = Some q' → ¬ spins q q' → two_lane_own q q'.

Lemma two_lane_own_step q q' : two_lane_own q q' → two_lane_step q Internal q'.
Proof.
  intros [l q0 Hl|l q0 Hl|pick q0 q0' Hr _].
  - by apply two_fast, lane_own.
  - by apply two_slow, lane_own.
  - by eapply two_consumer.
Qed.

(** The same as a function. *)
Definition own_do (q : twoLaneQueue) (m : two_lane_action) : option twoLaneQueue :=
  match m with
  | MoveFast => l ← process (fastLane q); Some (set_fastLane l q)
  | MoveSlow => l ← process (slowLane q); Some (set_slowLane l q)
  | MoveConsumer pick =>
    q' ← runConsumer pick q;
    match consumer q, consumer q' with Selecting, Looping => None | _, _ => Some q' end
  | _ => None
  end.

Fixpoint own_run (q : twoLaneQueue) (ms : list two_lane_action) : option twoLaneQueue :=
  match ms with [] => Some q | m :: ms => q1 ← own_do q m; own_run q1 ms end.

Lemma own_do_own q m q' : own_do q m = Some q' → two_lane_own q q'.
Proof.
  destruct m; simpl; intros Hdo; try done.
  - destruct (process _) as [l|] eqn:Hl; [|done]. injection Hdo as <-. by apply own_fast, lane_process.
  - destruct (process _) as [l|] eqn:Hl; [|done]. injection Hdo as <-. by apply own_slow, lane_process.
  - destruct (runConsumer _ q) as [q1|] eqn:Hr; [|done]. simpl in Hdo.
    assert (q1 = q') as -> by by destruct (consumer q), (consumer q1); simplify_eq. eapply own_consumer; [done|].
    intros [Hsel ->]. by rewrite Hsel in Hdo.
Qed.

Lemma own_run_own q ms q' : own_run q ms = Some q' → nsteps two_lane_own (length ms) q q'.
Proof.
  revert q. induction ms as [|m ms IH]; intros q Hrun; simpl in *; [injection Hrun as <-; constructor|].
  destruct (own_do q m) as [q1|] eqn:Hdo; [|done]. econstructor; [by eapply own_do_own|by apply IH].
Qed.

Definition consumer_work (c : consumer_point) : nat := match c with Looping => 1 | Adding _ => 2 | Selecting | Stopped => 0 end.

Definition two_lane_work (q : twoLaneQueue) : nat :=
  lane_work (fastLane q) + lane_work (slowLane q) + consumer_work (consumer q) +
  (if fast q then 2 else 0) + (if slow q then 2 else 0).

Lemma lane_receive_work l a l' : lane_receive l = Some (Some a, l') → lane_work l' + 3 = lane_work l.
Proof.
  unfold lane_receive, lane_work. destruct (lane_producer l) eqn:Hp; try done. intros [= <- <-].
  change (lane_Interface {| lane_queue := lane_queue l; lane_producer := Getting |}) with (lane_Interface l).
  cbn [lane_queue lane_producer producer_work]. lia.
Qed.

Lemma receive_fast_work q q' :
  receive_fast q = Some q' → consumer q = Looping ∧ fast q = true ∨ consumer q = Selecting → ¬ spins q q' →
  two_lane_work q' < two_lane_work q.
Proof.
  unfold receive_fast, two_lane_work, spins. destruct (lane_receive (fastLane q)) as [[[a|] l]|] eqn:Hr; [| |done]; intros [= <-] Hc Hspin.
  - apply lane_receive_work in Hr. cbn. destruct Hc as [[-> _]| ->]; cbn; lia.
  - cbn. destruct Hc as [[-> ->]| Hc]; cbn; [lia|]. rewrite Hc. destruct (fast q) eqn:Hfast; cbn; [lia|]. exfalso. apply Hspin. split; [done|].
    destruct q. cbn in *. by subst.
Qed.

Lemma receive_slow_work q q' :
  receive_slow q = Some q' → consumer q = Selecting → ¬ spins q q' → two_lane_work q' < two_lane_work q.
Proof.
  unfold receive_slow, two_lane_work, spins. destruct (lane_receive (slowLane q)) as [[[a|] l]|] eqn:Hr; [| |done]; intros [= <-] Hc Hspin.
  - apply lane_receive_work in Hr. cbn. rewrite Hc. cbn. lia.
  - cbn. rewrite Hc. destruct (slow q) eqn:Hslow; cbn; [lia|]. exfalso. apply Hspin. split; [done|]. destruct q. cbn in *. by subst.
Qed.

Lemma two_lane_own_work q q' : wf_two_lane q → two_lane_own q q' → two_lane_work q' < two_lane_work q.
Proof.
  intros Hwf Hs. destruct Hs as [l q Hl|l q Hl|pick q q' Hr Hspin].
  - apply lane_step_work in Hl; [|apply Hwf]. unfold two_lane_work. cbn. lia.
  - apply lane_step_work in Hl; [|apply Hwf]. unfold two_lane_work. cbn. lia.
  - unfold runConsumer in Hr. destruct (consumer q) as [| |a|] eqn:Hc; [| | |done].
    + destruct (fast q) eqn:Hfast; simpl in Hr; [destruct (receive_fast q) as [q1|] eqn:Hf|destruct (slow q) eqn:Hslow; simpl in Hr];
        injection Hr as <-; [apply receive_fast_work; by auto|unfold two_lane_work; cbn; rewrite Hc; cbn; lia..].
    + destruct (receive_fast q) as [qf|] eqn:Hf, (receive_slow q) as [qs|] eqn:Hsl; [destruct pick| | |done]; injection Hr as <-;
        first [apply receive_fast_work; by auto|apply receive_slow_work; by auto].
    + injection Hr as <-. unfold two_lane_work. cbn. rewrite Hc. cbn. lia.
Qed.

Lemma two_lane_own_steps n q q' :
  wf_two_lane q → nsteps two_lane_own n q q' →
  wf_two_lane q' ∧ n + two_lane_work q' ≤ two_lane_work q ∧ two_lane_execution q (replicate n Internal) q'.
Proof.
  intros Hwf. induction 1 as [q|n q q1 q' Hs _ IH]; [split_and!; [done|lia|constructor]|].
  destruct (two_lane_simulates _ _ _ Hwf (two_lane_own_step _ _ Hs)) as [Hwf1 _]. destruct (IH Hwf1) as (Hwf' & Hn & Hes).
  apply two_lane_own_work in Hs as Hlt; [|done]. split_and!; [done|lia|]. simpl. eapply execution_step; [by apply two_lane_own_step|done].
Qed.

(** When its goroutines wait, all that is pending is in the queue of the workers. *)
Lemma two_lane_waits q :
  wf_two_lane q → (∀ q', ¬ two_lane_own q q') → pending (two_lane_abs q) = dirty (consumerQueue q).
Proof.
  intros [Hf Hs Hc Hshut Hff Hsf Hst Hcs] Hwaits.
  assert (∀ pick q', runConsumer pick q = Some q' → consumer q' ≠ Looping ∨ consumer q ≠ Selecting → False) as Hcw.
  { intros pick q' Hr Hno. apply (Hwaits q'), (own_consumer pick); [done|]. intros [Hsel ->]. by destruct Hno. }
  assert (lane_pending (fastLane q) = ∅ ∧ lane_pending (slowLane q) = ∅ ∧ consumer_has (consumer q) = ∅) as (Hf0 & Hs0 & Hc0);
    [|unfold two_lane_abs; cbn; rewrite Hf0, Hs0, Hc0; set_solver].
  destruct (consumer q) as [| |a|] eqn:Hcons.
  - exfalso. unfold runConsumer in Hcw. rewrite Hcons in Hcw. destruct (fast q); simpl in Hcw;
      [destruct (receive_fast q)|destruct (slow q)]; by (eapply (Hcw true); [done|right]).
  - assert (∀ l, ¬ lane_step (fastLane q) l) as Hfw by (intros l Hl; by eapply Hwaits, own_fast).
    assert (∀ l, ¬ lane_step (slowLane q) l) as Hsw by (intros l Hl; by eapply Hwaits, own_slow).
    unfold runConsumer in Hcw. rewrite Hcons in Hcw.
    split_and!; [| |done].
    + destruct (lane_waits _ Hf Hfw) as [[_ ?]|[[a Ha]|[_ ?]]]; [done| |done]. exfalso.
      assert (∃ q1, receive_fast q = Some q1 ∧ consumer q1 = Adding a) as (q1 & Hr & Hq1) by (unfold receive_fast, lane_receive; rewrite Ha; by eexists).
      rewrite Hr in Hcw. destruct (receive_slow q); (eapply (Hcw true); [done|left; by rewrite Hq1]).
    + destruct (lane_waits _ Hs Hsw) as [[_ ?]|[[a Ha]|[_ ?]]]; [done| |done]. exfalso.
      assert (∃ q1, receive_slow q = Some q1 ∧ consumer q1 = Adding a) as (q1 & Hr & Hq1) by (unfold receive_slow, lane_receive; rewrite Ha; by eexists).
      rewrite Hr in Hcw. destruct (receive_fast q); (eapply (Hcw false); [done|left; by rewrite Hq1]).
  - exfalso. unfold runConsumer in Hcw. rewrite Hcons in Hcw. eapply (Hcw true); [done|by right].
  - destruct (Hst eq_refl) as [Hf0 Hs0]. destruct (wf_lane_closed_pending _ Hf (Hff Hf0)) as [-> _].
    by destruct (wf_lane_closed_pending _ Hs (Hsf Hs0)) as [-> _].
Qed.

(** *** Theorems *)

(** No key is handed out to two workers of a controller at a time, even when
    it was added to both lanes: after any calls, and any interleaving with the
    goroutines of the queue, it has been handed out as often as it was
    finished, and once more if it is being processed. *)
Theorem two_lane_exclusive clock rl es q a :
  two_lane_execution (newTwoLaneWorkQueue clock rl) es q →
  times (Got a) es = times (Finished a) es + (if bool_decide (a ∈ processing (consumerQueue q)) then 1 else 0).
Proof.
  intros Hes. destruct (two_lane_refines _ _ _ (wf_newTwoLaneWorkQueue _ _) Hes) as [_ Habs].
  apply (abstract_busy a) in Habs. simpl in Habs. rewrite bool_decide_false in Habs by set_solver. lia.
Qed.

(** C31: What is added to a controller's queue that is not shut down reaches its
    workers: after at most [two_lane_work] steps its goroutines wait, and then a
    key that was not handed out since it was added is in the queue that the
    workers take from, ready unless it is being processed. *)
Theorem two_lane_delivers clock rl es1 a es2 q n q' :
  two_lane_execution (newTwoLaneWorkQueue clock rl) (es1 ++ Added a :: es2) q → WasShutDown ∉ es1 → Got a ∉ es2 →
  nsteps two_lane_own n q q' →
  n ≤ two_lane_work q ∧
  ((∀ q'', ¬ two_lane_own q' q'') →
   a ∈ dirty (consumerQueue q') ∧ (a ∉ processing (consumerQueue q') → a ∈ queue (consumerQueue q'))).
Proof.
  intros Hes Hopen Hno Hown. destruct (two_lane_refines _ _ _ (wf_newTwoLaneWorkQueue _ _) Hes) as [Hwf Habs].
  destruct (two_lane_own_steps _ _ _ Hwf Hown) as (Hwf' & Hn & Hes'). split; [lia|]. intros Hwaits.
  assert (a ∈ dirty (consumerQueue q')) as Hd; [|split; [done|]; intros Hp; by apply (wf_queued _ (wf_consumer _ Hwf'))].
  rewrite <-(two_lane_waits _ Hwf' Hwaits). destruct (abstract_added a _ _ _ _ Habs eq_refl Hopen) as [?|Hpend]; [done|].
  destruct (two_lane_refines _ _ _ Hwf Hes') as [_ Habs']. eapply abstract_kept; [done..|]. by intros [? _]%elem_of_replicate.
Qed.

(** A queue that is shut down is drained first: when a worker is told of the
    shutdown, each key that was added before it was handed out since then, or is
    still being processed. *)
Theorem two_lane_drains clock rl es1 a es2 q :
  two_lane_execution (newTwoLaneWorkQueue clock rl) (es1 ++ Added a :: es2 ++ [GotShutdown]) q → WasShutDown ∉ es1 →
  Got a ∈ es2 ∨ a ∈ processing (consumerQueue q).
Proof.
  intros Hes Hopen. rewrite app_comm_cons, (assoc_L (++)) in Hes. destruct (execution_split _ _ _ _ _ Hes) as (q1 & H1 & H2).
  destruct (two_lane_refines _ _ _ (wf_newTwoLaneWorkQueue _ _) H1) as [Hwf1 Habs].
  inversion H2 as [|? ? q2 ? ? Hs Hnil]; subst. inversion Hnil; subst.
  destruct (abstract_added a _ _ _ _ Habs eq_refl Hopen) as [?|Hpend]; [by left|right].
  inversion Hs as [? ? ? He|? ? ? He| | | |? ? Hget| | | | |]; subst; [by apply lane_event_adds in He..|].
  destruct (two_Get_shutdown_simulates _ _ Hwf1 Hget) as [-> Hsd]. inversion Hsd as [| | | | | |? ? Hsub| | | | |]; subst. by apply Hsub.
Qed.
End queue.
#[global] Arguments twoLaneQueue A {_ _ _}.

(** ** Witnesses *)
#[local] Instance no_bucket : TokenBucket := {| Limiter := unit; Reserve_Delay _ l := (0%Z, l) |}.

Definition sample_limiter : RateLimiter nat := DefaultControllerRateLimiter tt.

(** The key 1 is added to both lanes; the workers are handed it once, and again
    after they finished it. *)
Definition both_lanes : list two_lane_action :=
  [CallAdd 1; CallAddSlow 1; MoveFast; MoveFast; MoveSlow; MoveSlow; MoveFast; MoveSlow; MoveConsumer true; MoveConsumer true; CallGet;
   MoveConsumer true; MoveConsumer false; MoveConsumer false; CallDone 1; CallGet].

Definition sample_two_lane : list (queue_event nat) * twoLaneQueue nat :=
  default ([], newTwoLaneWorkQueue 0 sample_limiter) (two_lane_run (newTwoLaneWorkQueue 0 sample_limiter) both_lanes).

Lemma two_lane_exclusive_witness :
  times (Got 1) sample_two_lane.1 = 2 ∧ times (Got 1) sample_two_lane.1 = times (Finished 1) sample_two_lane.1 + 1.
Proof.
  split; [vm_compute; reflexivity|]. rewrite (two_lane_exclusive 0 sample_limiter sample_two_lane.1 sample_two_lane.2 1).
  - vm_compute. reflexivity.
  - apply (two_lane_run_execution _ both_lanes). vm_compute. reflexivity.
Defined.

(** A key is added, and the goroutines move until they wait. *)
Definition added_one : twoLaneQueue nat :=
  default (newTwoLaneWorkQueue 0 sample_limiter) (snd <$> two_lane_run (newTwoLaneWorkQueue 0 sample_limiter) [CallAdd 1]).

Definition moves (ms : list two_lane_action) (q : twoLaneQueue nat) : twoLaneQueue nat := default q (snd <$> two_lane_run q ms).

Lemma two_lane_delivers_witness :
  let q' := moves [MoveFast; MoveFast; MoveFast; MoveConsumer true; MoveConsumer true; MoveConsumer true] added_one in
  1 ∈ queue (consumerQueue q').
Proof.
  intros q'. destruct (two_lane_delivers 0 sample_limiter [] 1 [] added_one 6 q') as [_ Hdelivered].
  - apply (two_lane_run_execution _ [CallAdd 1]). reflexivity.
  - apply not_elem_of_nil.
  - apply not_elem_of_nil.
  - apply (own_run_own _ [MoveFast; MoveFast; MoveFast; MoveConsumer true; MoveConsumer true; MoveConsumer true]). vm_compute. reflexivity.
  - destruct Hdelivered as [_ Hq]; [|apply Hq; apply (bool_decide_unpack _); vm_compute; exact I].
    intros q'' Hs. inversion Hs as [l ? Hl|l ? Hl|pick ? ? Hr Hspin]; subst.
    + inversion Hl as [? ? Hloop|? ? Hp]; subst; [|discriminate Hp]. revert Hloop. apply loop_idle; reflexivity.
    + inversion Hl as [? ? Hloop|? ? Hp]; subst; [|discriminate Hp]. revert Hloop. apply loop_idle; reflexivity.
    + discriminate Hr.
Defined.

(** The queue is shut down while a key is on its way: the worker gets it, and
    is told of the shutdown once both producers are gone. *)
Definition drained : list two_lane_action :=
  [CallAdd 1; MoveFast; CallShutDown; MoreShutDown; MoveFast; MoveFast; MoveConsumer true; MoveConsumer true; CallGet; MoveFast; MoveSlow;
   MoveConsumer true; MoveConsumer true; MoveConsumer false; MoveConsumer false; CallDone 1; CallGet].

Lemma two_lane_drains_witness :
  let es := (default ([], newTwoLaneWorkQueue 0 sample_limiter) (two_lane_run (newTwoLaneWorkQueue 0 sample_limiter) drained)).1 in
  Got 1 ∈ take 15 (drop 1 es).
Proof.
  intros es. destruct (two_lane_drains 0 sample_limiter [] 1 (take 15 (drop 1 es))
    (moves drained (newTwoLaneWorkQueue 0 sample_limiter))) as [Hgot|Hp].
  - apply (two_lane_run_execution _ drained). vm_compute. reflexivity.
  - apply not_elem_of_nil.
  - exact Hgot.
  - exfalso. revert Hp. apply (bool_decide_unpack _). vm_compute. exact I.
Defined.
