(* ===== verification/ControllerRun.v ===== *)
(** knative's controller at work (controller.go): the workers of [RunContext],
    which take keys from the two-lane queue, reconcile them, and tell the queue
    what to do with them, while the informers add keys. *)
From S2P Require Import Prelude GoStrings FieldErrors Types Substitution StepMerge Resolve Validation Conditions RunTypes.
From S2P Require Import Listers Cluster Reconciler RunReconciler Wiring QueueSpec WorkQueue RateLimiter DelayingQueue TwoLaneQueue.
From S2P Require Import ReconcilerExample RunReconcilerSpec.

Section controller.
Context {MO : MapOrder} {CM : ContainerMerge} {TB : TokenBucket}.

Abbreviation work_queue := (twoLaneQueue NamespacedName).
Abbreviation work_event := (queue_event NamespacedName).

(** ** Adding keys *)

(** [func (c *Impl) EnqueueKey(key)], [EnqueueKeyAfter(key, delay)] and
    [EnqueueSlowKey(key)] *)
Definition EnqueueKey (key : NamespacedName) (q : work_queue) : work_queue :=
  set_fastLane (set_lane_queue (delaying_Add key (lane_queue (fastLane q))) (fastLane q)) q.
Definition EnqueueKeyAfter (key : NamespacedName) (delay : Z) (q : work_queue) : option work_queue :=
  d ← AddAfter key delay (lane_queue (fastLane q)); Some (set_fastLane (set_lane_queue d (fastLane q)) q).
Definition EnqueueSlowKey (key : NamespacedName) (q : work_queue) : work_queue :=
  set_slowLane (set_lane_queue (delaying_Add key (lane_queue (slowLane q))) (slowLane q)) q.

(** [func (c *Impl) MaybeEnqueueBucketKey(bkt reconciler.Bucket, key types.NamespacedName)] *)
Definition MaybeEnqueueBucketKey (Has : NamespacedName → bool) (key : NamespacedName) (q : work_queue) : work_queue :=
  if Has key then EnqueueSlowKey key q else q.

(** ** The workers *)

(** Where a goroutine of [RunContext] is in [processNextWorkItem]: at [Get], in
    [Reconcile], before the calls of the queue that are left, or gone. *)
Inductive worker : Type :=
  | Waiting
  | Reconciling (key : NamespacedName)
  | Finishing (key : NamespacedName) (ops : list queue_op)
  | Exited.

(** The state of [Impl] and of its workers. *)
Record Impl := { workQueue : work_queue; workers : list worker }.

(** [NewContext] with [RunContext(ctx, threadiness)]: the workers it launches *)
Definition RunContext (clock : Z) (rl : RateLimiter NamespacedName) (threadiness : nat) : Impl :=
  {| workQueue := newTwoLaneWorkQueue clock rl; workers := replicate threadiness Waiting |}.

(** A call of the queue, and what it is for the queue's clients. *)
Definition perform (op : queue_op) (q : work_queue) : option (work_event * work_queue) :=
  match op with
  | Forget key => Some (Internal, two_lane_Forget key q)
  | AddRateLimited key => q' ← two_lane_AddRateLimited key q; Some (AddedAfter key, q')
  | Done key => Some (Finished key, two_lane_Done key q)
  end.

(** What a worker does after a call: [processNextWorkItem] returns, and it is
    called again. *)
Definition after_call (key : NamespacedName) (ops : list queue_op) : worker :=
  match ops with [] => Waiting | _ => Finishing key ops end.

(** What happens: to the queue, when a worker starts with a key, and when it
    has reconciled it. *)
Inductive run_event : Type :=
  | OfQueue (e : work_event)
  | Started (i : nat) (key : NamespacedName)
  | Reconciled (i : nat) (key : NamespacedName) (err : option error) (effects : list effect).

(** What the others do to the queue: they add keys, and shut it down. *)
Definition by_others (e : work_event) : Prop := match e with Got _ | GotShutdown | Finished _ => False | _ => True end.

(** The steps: of the queue with its other clients; of a worker, in each
    reconciliation of which the cluster, the API server and the leader are as
    they happen to be. *)
Inductive run_step : Impl → run_event → Impl → Prop :=
  | others_do e q c :
    by_others e → two_lane_step (workQueue c) e q → run_step c (OfQueue e) {| workQueue := q; workers := workers c |}
  | worker_gets i key q c :
    workers c !! i = Some Waiting → two_lane_Get (workQueue c) = Some (Some key, q) →
    run_step c (Started i key) {| workQueue := q; workers := <[i := Reconciling key]> (workers c) |}
  | worker_exits i q c :
    workers c !! i = Some Waiting → two_lane_Get (workQueue c) = Some (None, q) →
    run_step c (OfQueue GotShutdown) {| workQueue := q; workers := <[i := Exited]> (workers c) |}
  | worker_reconciles i key CL RS start err effects ops c :
    workers c !! i = Some (Reconciling key) →
    @reconcilerImpl_Reconcile MO CM CL RS (safeKey key) start = (err, effects) →
    processNextWorkItem (λ keyStr, @reconcilerImpl_Reconcile MO CM CL RS keyStr start)
      (queue_ShuttingDown (lane_Interface (fastLane (workQueue c)))) key = (effects, ops) →
    run_step c (Reconciled i key err effects) {| workQueue := workQueue c; workers := <[i := Finishing key ops]> (workers c) |}
  | worker_calls i key op ops e q c :
    workers c !! i = Some (Finishing key (op :: ops)) → perform op (workQueue c) = Some (e, q) →
    run_step c (OfQueue e) {| workQueue := q; workers := <[i := after_call key ops]> (workers c) |}.

Definition run_execution : Impl → list run_event → Impl → Prop := execution run_step.

(** The same as a function: of a call of the others, or of the next step of a
    worker with what it finds in the cluster. *)
Inductive run_action : Type :=
  | Others (m : @two_lane_action NamespacedName)
  | Works (i : nat) (CL : Cluster) (RS : RunServer) (start : nat).

Definition run_do (c : Impl) (m : run_action) : option (run_event * Impl) :=
  match m with
  | Others m =>
    '(e, q) ← two_lane_do (workQueue c) m;
    match e with
    | Got _ | GotShutdown | Finished _ => None
    | _ => Some (OfQueue e, {| workQueue := q; workers := workers c |})
    end
  | Works i CL RS start =>
    match workers c !! i with
    | Some Waiting =>
      '(r, q) ← two_lane_Get (workQueue c);
      Some (match r with
            | Some key => (Started i key, {| workQueue := q; workers := <[i := Reconciling key]> (workers c) |})
            | None => (OfQueue GotShutdown, {| workQueue := q; workers := <[i := Exited]> (workers c) |})
            end)
    | Some (Reconciling key) =>
      let result := @reconcilerImpl_Reconcile MO CM CL RS (safeKey key) start in
      let ops := (processNextWorkItem (λ keyStr, @reconcilerImpl_Reconcile MO CM CL RS keyStr start)
        (queue_ShuttingDown (lane_Interface (fastLane (workQueue c)))) key).2 in
      Some (Reconciled i key result.1 result.2, {| workQueue := workQueue c; workers := <[i := Finishing key ops]> (workers c) |})
    | Some (Finishing key (op :: ops)) =>
      '(e, q) ← perform op (workQueue c);
      Some (OfQueue e, {| workQueue := q; workers := <[i := after_call key ops]> (workers c) |})
    | _ => None
    end
  end.

Fixpoint run_all (c : Impl) (ms : list run_action) : option (list run_event * Impl) :=
  match ms with
  | [] => Some ([], c)
  | m :: ms => '(e, c1) ← run_do c m; '(es, c') ← run_all c1 ms; Some (e :: es, c')
  end.

Lemma processNextWorkItem_effects {E} (Reconcile : string → option error * E) down key :
  (processNextWorkItem Reconcile down key).1 = (Reconcile (safeKey key)).2.
Proof. unfold processNextWorkItem. by destruct (Reconcile (safeKey key)) as [[err|] e]. Qed.

Lemma run_do_step c m e c' : run_do c m = Some (e, c') → run_step c e c'.
Proof.
  destruct m as [m|i CL RS start]; simpl.
  - destruct (two_lane_do (workQueue c) m) as [[e1 q]|] eqn:Hdo; simpl; [|done]. apply two_lane_do_step in Hdo.
    destruct e1; simpl; intros [= <- <-]; by apply others_do.
  - destruct (workers c !! i) as [[|key|key [|op ops]|]|] eqn:Hi; try done.
    + destruct (two_lane_Get (workQueue c)) as [[[key|] q]|] eqn:Hget; simpl; [| |done]; intros [= <- <-]; [by apply worker_gets|by eapply worker_exits].
    + intros [= <- <-]. eapply (worker_reconciles i key CL RS start); [done|by rewrite <-surjective_pairing|].
      etrans; [apply surjective_pairing|]. by rewrite processNextWorkItem_effects.
    + destruct (perform op (workQueue c)) as [[e1 q]|] eqn:Hop; simpl; [|done]. intros [= <- <-]. by eapply worker_calls.
Qed.

Lemma run_all_execution c ms es c' : run_all c ms = Some (es, c') → run_execution c es c'.
Proof.
  revert c es. induction ms as [|m ms IH]; intros c es Hrun; simpl in Hrun; [injection Hrun as <- <-; constructor|].
  destruct (run_do c m) as [[e c1]|] eqn:Hdo; simpl in Hrun; [|done].
  destruct (run_all c1 ms) as [[es1 c2]|] eqn:Hms; simpl in Hrun; [|done]. injection Hrun as <- <-.
  eapply execution_step; [by eapply run_do_step|by apply IH].
Qed.

(** ** The invariant *)

(** The key that a worker has not finished. *)
Definition holds (w : worker) : option NamespacedName :=
  match w with Reconciling key | Finishing key _ => Some key | Waiting | Exited => None end.

(** The calls that [processNextWorkItem] leaves to be done. *)
Definition finishes (key : NamespacedName) (ops : list queue_op) : Prop :=
  ops = [Done key] ∨ ops = [Forget key; Done key] ∨ ops = [AddRateLimited key; Done key].

(** The key of a worker. *)
Definition held (ws : list worker) (i : nat) : option NamespacedName := ws !! i ≫= holds.

Record wf_run (c : Impl) : Prop := {
  wf_workQueue : wf_two_lane (workQueue c);
  wf_held key : key ∈ processing (consumerQueue (workQueue c)) ↔ ∃ i, held (workers c) i = Some key;
  wf_exclusive i j key : held (workers c) i = Some key → held (workers c) j = Some key → i = j;
  wf_finishing i key ops : workers c !! i = Some (Finishing key ops) → finishes key ops;
  wf_exited : workers c ≠ [] → (∀ i w, workers c !! i = Some w → w = Exited) →
    shuttingDown (consumerQueue (workQueue c)) = true ∧ dirty (consumerQueue (workQueue c)) = ∅
}.

Lemma wf_RunContext clock rl threadiness : wf_run (RunContext clock rl threadiness).
Proof.
  assert (∀ i, held (replicate threadiness Waiting) i = None) as Hnone.
  { intros i. unfold held. destruct (replicate _ _ !! i) as [w|] eqn:Hw; [|done]. by apply lookup_replicate in Hw as [-> _]. }
  split; cbn.
  - apply wf_newTwoLaneWorkQueue.
  - intros key. split; [set_solver|]. intros [i Hi]. by rewrite Hnone in Hi.
  - intros i j key Hi. by rewrite Hnone in Hi.
  - by intros i key ops [? _]%lookup_replicate.
  - intros Hne Hall. destruct threadiness as [|n]; [done|]. by specialize (Hall 0 Waiting eq_refl).
Qed.

Lemma held_insert ws i w0 w j : ws !! i = Some w0 → held (<[i := w]> ws) j = if decide (j = i) then holds w else held ws j.
Proof.
  intros Hi. unfold held. apply lookup_lt_Some in Hi as Hlt. case_decide as Hj; [subst j; by rewrite list_lookup_insert_eq|].
  by rewrite list_lookup_insert_ne.
Qed.

(** What the others do does not reach the keys that are being processed. *)
Lemma others_processing q e q' :
  by_others e → wf_two_lane q → two_lane_step q e q' →
  wf_two_lane q' ∧ processing (consumerQueue q') = processing (consumerQueue q) ∧
  (shuttingDown (consumerQueue q) = true → consumerQueue q' = consumerQueue q).
Proof.
  intros He Hwf Hs. destruct (two_lane_simulates _ _ _ Hwf Hs) as [Hwf' Habs]. split; [done|]. split.
  - change (busy (two_lane_abs q') = busy (two_lane_abs q)). by destruct Habs.
  - intros Hdown. destruct Hs as [e l q He'|e l q He'|a q q' Ha|a q|a q q' Hget|q q' Hget|a q Ha|q|q Hd|pick q q' Hr|now q _ _]; try done.
    + unfold two_lane_AddRateLimited in Ha. destruct (rateLimiting_AddRateLimited _ _ _) as [[d rl]|]; [|done]. by injection Ha as <-.
    + apply (wf_consumer_shut _ Hwf) in Hdown. unfold runConsumer in Hr. by rewrite Hdown in Hr.
Qed.
(** A worker that stays in the hands of what it had. *)
Lemma wf_same_hands c i w0 w q :
  wf_run c → wf_two_lane q → processing (consumerQueue q) = processing (consumerQueue (workQueue c)) →
  workers c !! i = Some w0 → holds w = holds w0 → w ≠ Exited → (∀ key ops, w = Finishing key ops → finishes key ops) →
  wf_run {| workQueue := q; workers := <[i := w]> (workers c) |}.
Proof.
  intros [Hq Hheld Hex Hfin Hexit] Hwf Hproc Hi Hh Hne Hops. assert (holds w0 = held (workers c) i) as Hi' by (unfold held; by rewrite Hi).
  assert (∀ j, held (<[i := w]> (workers c)) j = held (workers c) j) as Hsame.
  { intros j. rewrite (held_insert _ _ w0) by done. case_decide; [subst; by rewrite Hh|done]. }
  apply lookup_lt_Some in Hi as Hlt. split; cbn; [done| | | |].
  - intros key. rewrite Hproc, Hheld. by setoid_rewrite Hsame.
  - intros j k key. rewrite !Hsame. apply Hex.
  - intros j key ops. destruct (decide (j = i)) as [->|Hj]; [rewrite list_lookup_insert_eq by done; intros [= ->]; by apply Hops|].
    rewrite list_lookup_insert_ne by done. apply Hfin.
  - intros _ Hall. destruct Hne. apply (Hall i). by rewrite list_lookup_insert_eq.
Qed.

Lemma processNextWorkItem_finishes {E} (Reconcile : string → option error * E) down key e ops :
  processNextWorkItem Reconcile down key = (e, ops) → finishes key ops.
Proof.
  unfold processNextWorkItem, handleErr, finishes. destruct (Reconcile (safeKey key)) as [[err|] e']; [|intros [= <- <-]; by auto].
  intros [= <- <-]. destruct (IsSkipKey err); [by auto|]. destruct (_ && _); by auto.
Qed.

Lemma run_gets_wf c i key q :
  wf_run c → workers c !! i = Some Waiting → two_lane_Get (workQueue c) = Some (Some key, q) →
  (key ∉ processing (consumerQueue (workQueue c))) ∧ wf_run {| workQueue := q; workers := <[i := Reconciling key]> (workers c) |}.
Proof.
  intros [Hq Hheld Hex Hfin Hexit] Hi Hget. destruct (two_Get_simulates _ _ _ Hq Hget) as [Hwf' _].
  unfold two_lane_Get in Hget. destruct (queue_Get (consumerQueue (workQueue c))) as [[r qi]|] eqn:Hg; [|done]. injection Hget as -> <-.
  destruct (queue_Get_item _ _ _ (wf_consumer _ Hq) Hg) as (_ & Hp & _ & Hp' & _). split; [done|].
  apply lookup_lt_Some in Hi as Hlt. assert (∀ j, held (workers c) j ≠ Some key) as Hfree by (intros j Hj; apply Hp, Hheld; by exists j).
  split; cbn -[held]; [done| | | |].
  - intros key'. rewrite Hp', elem_of_union, elem_of_singleton, Hheld. split.
    + intros [->|[j Hj]]; [exists i; by rewrite (held_insert _ _ Waiting), decide_True|]. exists j. rewrite (held_insert _ _ Waiting) by done.
      rewrite decide_False; [done|]. intros ->. unfold held in Hj. by rewrite Hi in Hj.
    + intros [j Hj]. rewrite (held_insert _ _ Waiting) in Hj by done. case_decide; [injection Hj as <-; by left|right; by exists j].
  - intros j k key'. rewrite !(held_insert _ _ Waiting) by done. repeat case_decide; subst; cbn; try done.
    + intros [= <-] Hk. by edestruct Hfree.
    + intros Hk [= <-]. by edestruct Hfree.
    + apply Hex.
  - intros j key' ops. destruct (decide (j = i)) as [->|Hj]; [by rewrite list_lookup_insert_eq|]. rewrite list_lookup_insert_ne by done. apply Hfin.
  - intros _ Hall. specialize (Hall i (Reconciling key)). rewrite list_lookup_insert_eq in Hall by done. by specialize (Hall eq_refl).
Qed.

Lemma run_exits_wf c i q :
  wf_run c → workers c !! i = Some Waiting → two_lane_Get (workQueue c) = Some (None, q) →
  wf_run {| workQueue := q; workers := <[i := Exited]> (workers c) |}.
Proof.
  intros [Hq Hheld Hex Hfin Hexit] Hi Hget. destruct (two_Get_shutdown_simulates _ _ Hq Hget) as [-> _].
  unfold two_lane_Get in Hget. destruct (queue_Get (consumerQueue (workQueue c))) as [[r qi]|] eqn:Hg; [|done]. injection Hget as -> _.
  destruct (queue_Get_shutdown _ _ (wf_consumer _ Hq) Hg) as (_ & Hdown & Hsub).
  assert (∀ j, held (<[i := Exited]> (workers c)) j = held (workers c) j) as Hsame.
  { intros j. rewrite (held_insert _ _ Waiting) by done. case_decide; [subst; unfold held; by rewrite Hi|done]. }
  split; cbn -[held]; [done| | | |].
  - intros key. rewrite Hheld. by setoid_rewrite Hsame.
  - intros j k' key. rewrite !Hsame. apply Hex.
  - intros j key ops. apply lookup_lt_Some in Hi. destruct (decide (j = i)) as [->|Hj]; [by rewrite list_lookup_insert_eq|].
    rewrite list_lookup_insert_ne by done. apply Hfin.
  - intros _ Hall. split; [done|]. apply set_eq. intros key. split; [|set_solver]. intros Hd. apply Hsub, Hheld in Hd as [j Hj].
    rewrite <-Hsame in Hj. unfold held in Hj. destruct (<[i := Exited]> (workers c) !! j) as [w|] eqn:Hw; [|done].
    apply Hall in Hw. by subst w.
Qed.

Lemma run_done_wf c i key :
  wf_run c → workers c !! i = Some (Finishing key [Done key]) →
  wf_run {| workQueue := two_lane_Done key (workQueue c); workers := <[i := Waiting]> (workers c) |}.
Proof.
  intros [Hq Hheld Hex Hfin Hexit] Hi. assert (held (workers c) i = Some key) as Hmine by (unfold held; by rewrite Hi).
  assert (key ∈ processing (consumerQueue (workQueue c))) as Hp by (apply Hheld; by exists i).
  destruct (two_Done_simulates _ _ Hq Hp) as [Hwf' _]. apply lookup_lt_Some in Hi as Hlt. split; cbn -[held]; [done| | | |].
  - intros key'. rewrite elem_of_difference, elem_of_singleton, Hheld. split.
    + intros [[j Hj] Hne]. exists j. rewrite (held_insert _ _ (Finishing key [Done key])) by done. rewrite decide_False; [done|]. intros ->. congruence.
    + intros [j Hj]. rewrite (held_insert _ _ (Finishing key [Done key])) in Hj by done. case_decide as Hji; [done|]. split; [by exists j|].
      intros ->. apply Hji. by apply (Hex _ _ key).
  - intros j k key'. rewrite !(held_insert _ _ (Finishing key [Done key])) by done. repeat case_decide; subst; cbn; try done. apply Hex.
  - intros j key' ops. destruct (decide (j = i)) as [->|Hj]; [by rewrite list_lookup_insert_eq|]. rewrite list_lookup_insert_ne by done. apply Hfin.
  - intros _ Hall. specialize (Hall i Waiting). rewrite list_lookup_insert_eq in Hall by done. by specialize (Hall eq_refl).
Qed.
(** ** The refinement *)

(** What an event is for the queue. *)
Definition queue_part (e : run_event) : option work_event :=
  match e with OfQueue e => Some e | Started _ key => Some (Got key) | Reconciled _ _ _ _ => None end.
Definition queue_events (es : list run_event) : list work_event := omap queue_part es.

Lemma run_simulates c e c' :
  wf_run c → run_step c e c' →
  wf_run c' ∧ match queue_part e with
              | Some e => two_lane_step (workQueue c) e (workQueue c')
              | None => workQueue c' = workQueue c
              end.
Proof.
  intros Hwf Hs. destruct Hs as [e q c He Hq|i key q c Hi Hget|i q c Hi Hget|i key CL RS start err effects ops c Hi _ Hops|i key op ops e q c Hi Hop].
  - split; [|done]. destruct (others_processing _ _ _ He (wf_workQueue _ Hwf) Hq) as (Hq' & Hp & Hshut).
    destruct Hwf as [Hwq Hheld Hex Hfin Hexit]. split; cbn; [done|by rewrite Hp|done|done|].
    intros Hne Hall. destruct (Hexit Hne Hall) as [Hdown Hd]. by rewrite Hshut.
  - split; [by apply run_gets_wf|]. by apply two_Get.
  - split; [by apply run_exits_wf|]. by apply two_Get_shutdown.
  - split; [|done]. apply (wf_same_hands _ _ (Reconciling key)); try done; [by apply Hwf|].
    intros key' ops' [= <- <-]. by eapply processNextWorkItem_finishes.
  - pose proof (wf_finishing _ Hwf _ _ _ Hi) as [[= -> ->]|[[= -> ->]|[= -> ->]]]; cbn in Hop.
    + injection Hop as <- <-. split; [by apply run_done_wf|]. apply two_Done, (wf_held _ Hwf). exists i. unfold held. by rewrite Hi.
    + injection Hop as <- <-. split; [|apply two_Forget].
      apply (wf_same_hands _ _ _ _ _ Hwf (proj1 (two_lane_simulates _ _ _ (wf_workQueue _ Hwf) (two_Forget key _))) eq_refl Hi); try done.
      intros key' ops [= <- <-]. by left.
    + destruct (two_lane_AddRateLimited key (workQueue c)) as [q1|] eqn:Hq; [|done]. injection Hop as <- <-.
      pose proof (two_AddRateLimited _ _ _ Hq) as Hs. split; [|done].
      destruct (others_processing _ (AddedAfter key) _ I (wf_workQueue _ Hwf) Hs) as (Hq' & Hp & _).
      apply (wf_same_hands _ _ _ _ _ Hwf Hq' Hp Hi); try done. intros key' ops [= <- <-]. by left.
Qed.

Lemma run_refines c es c' :
  wf_run c → run_execution c es c' → wf_run c' ∧ two_lane_execution (workQueue c) (queue_events es) (workQueue c').
Proof.
  intros Hwf. induction 1 as [c|c e c1 es c' Hs _ IH]; [split; [done|constructor]|].
  destruct (run_simulates _ _ _ Hwf Hs) as [Hwf1 Hq]. destruct (IH Hwf1) as [Hwf' Hes]. split; [done|].
  unfold queue_events. cbn. destruct (queue_part e); [by eapply execution_step|by rewrite <-Hq].
Qed.

Lemma run_abstract c es c' :
  wf_run c → run_execution c es c' →
  wf_run c' ∧ abstract_execution (two_lane_abs (workQueue c)) (queue_events es) (two_lane_abs (workQueue c')).
Proof.
  intros Hwf Hes. destruct (run_refines _ _ _ Hwf Hes) as [Hwf' Hq]. split; [done|].
  by destruct (two_lane_refines _ _ _ (wf_workQueue _ Hwf) Hq).
Qed.

(** Only a worker is handed a key. *)
Lemma run_started c es c' key : run_execution c es c' → Got key ∈ queue_events es → ∃ i, Started i key ∈ es.
Proof.
  induction 1 as [c|c e c1 es c' Hs _ IH]; [by intros ?%elem_of_nil|]. unfold queue_events. cbn. intros Hin.
  assert (queue_part e = Some (Got key) ∨ Got key ∈ queue_events es) as [Hgot|Hin'].
  { destruct (queue_part e) as [e'|]; [|by right]. apply elem_of_cons in Hin as [<-|Hin]; [by left|by right]. }
  - destruct e as [e|i key'|]; simplify_eq/=; [|exists i; by left]. inversion Hs as [? ? ? He| | | |? ? op ? ? ? ? _ Hop]; subst; [done|].
    destruct op; cbn in Hop; [done| |done]. by destruct (two_lane_AddRateLimited _ _).
  - destruct (IH Hin') as [i Hi]. exists i. by right.
Qed.

(** A worker that reconciles a key goes on when the reconciliation is over. *)
Lemma run_reconciling c es c' i key :
  run_execution c es c' → workers c !! i = Some (Reconciling key) →
  (∃ err effects, Reconciled i key err effects ∈ es) ∨ workers c' !! i = Some (Reconciling key).
Proof.
  induction 1 as [c|c e c1 es c' Hs _ IH]; intros Hi; [by right|].
  assert ((∃ err effects, e = Reconciled i key err effects) ∨ workers c1 !! i = Some (Reconciling key)) as [(err & effects & ->)|Hi1].
  { destruct Hs as [|j key' q c Hj _|j q c Hj _|j key' CL RS start err effects ops c Hj _ _|j key' op ops e q c Hj _]; cbn; [by right|..];
      (destruct (decide (j = i)) as [->|Hne]; [|rewrite list_lookup_insert_ne by done; by right]); rewrite Hi in Hj; simplify_eq.
    left. by exists err, effects. }
  - left. exists err, effects. by left.
  - destruct (IH Hi1) as [(err & effects & Hin)|?]; [left|by right]. exists err, effects. by right.
Qed.

Lemma run_length c es c' : run_execution c es c' → length (workers c') = length (workers c).
Proof. induction 1 as [c|c e c1 es c' Hs _ IH]; [done|]. rewrite IH. destruct Hs; cbn; by rewrite ?length_insert. Qed.

Lemma queue_events_app es es' : queue_events (es ++ es') = queue_events es ++ queue_events es'.
Proof. apply omap_app. Qed.

(** A worker whose calls put the key back. *)
Lemma run_puts_back c es c' i key :
  wf_run c → run_execution c es c' → closed (two_lane_abs (workQueue c')) = false →
  workers c !! i = Some (Finishing key [AddRateLimited key; Done key]) →
  workers c' !! i = Some (Finishing key [AddRateLimited key; Done key]) ∨
  Got key ∈ queue_events es ∨ key ∈ pending (two_lane_abs (workQueue c')) ∪ later (two_lane_abs (workQueue c')).
Proof.
  intros Hwf Hes Hopen. induction Hes as [c|c e c1 es c' Hs Hes IH]; intros Hi; [by left|].
  destruct (run_simulates _ _ _ Hwf Hs) as [Hwf1 Hq].
  assert (workers c1 !! i = workers c !! i ∨ e = OfQueue (AddedAfter key)) as [Hsame| ->].
  { destruct Hs as [|j key' q c Hj _|j q c Hj _|j key' CL RS start err effects ops c Hj _ _|j key' op ops e q c Hj Hop]; cbn; [by left|..];
      (destruct (decide (j = i)) as [->|Hne]; [|rewrite list_lookup_insert_ne by done; by left]); rewrite Hi in Hj; simplify_eq/=.
    destruct (two_lane_AddRateLimited _ _); simplify_eq/=. by right. }
  - rewrite Hsame in IH. destruct (IH Hwf1 Hopen Hi) as [?|[Hin|?]]; [by left| |by right; right]. right. left.
    unfold queue_events in *. cbn. destruct (queue_part e); [by right|done].
  - right. destruct (two_lane_simulates _ _ _ (wf_workQueue _ Hwf) Hq) as [_ Habs]. destruct (run_abstract _ _ _ Hwf1 Hes) as [_ Habs'].
    assert (closed (two_lane_abs (workQueue c)) = false) as Hopen0.
    { eapply (abstract_stays_closed _ (AddedAfter key :: queue_events es)); [|exact Hopen]. by eapply execution_step. }
    change (queue_events (OfQueue (AddedAfter key) :: es)) with (AddedAfter key :: queue_events es).
    destruct (abstract_added_after _ _ _ Habs Hopen0) as [Hl|Hp].
    + destruct (abstract_promised _ _ _ _ Habs' Hl Hopen) as [?|?]; [left; by right|right; set_solver].
    + destruct (decide (Got key ∈ queue_events es)) as [?|Hno]; [left; by right|right]. apply elem_of_union_l. by eapply abstract_kept.
Qed.
(** ** Theorems *)

(** C4: The controller never reconciles a key twice at the same time, however
    many workers it has and whatever is added to its queue meanwhile: a worker
    starts with a key only after the worker that started with it before has
    reconciled it. *)
Theorem reconciles_one_at_a_time clock rl threadiness es1 i key es2 j es3 c :
  run_execution (RunContext clock rl threadiness) (es1 ++ Started i key :: es2 ++ Started j key :: es3) c →
  ∃ err effects, Reconciled i key err effects ∈ es2.
Proof.
  intros (c1 & H1 & H2)%execution_split. destruct (run_refines _ _ _ (wf_RunContext _ _ _) H1) as [Hwf1 _].
  inversion H2 as [|? ? c2 ? ? Hs Hrest]; subst. destruct (run_simulates _ _ _ Hwf1 Hs) as [Hwf2 _].
  apply execution_split in Hrest as (c3 & H3 & H4). destruct (run_refines _ _ _ Hwf2 H3) as [Hwf3 _].
  assert (workers c2 !! i = Some (Reconciling key)) as Hi.
  { inversion Hs as [|? ? ? ? Hw _| | |]; subst. cbn. apply lookup_lt_Some in Hw. by rewrite list_lookup_insert_eq. }
  destruct (run_reconciling _ _ _ _ _ H3 Hi) as [?|Hi3]; [done|exfalso].
  inversion H4 as [|? ? c4 ? ? Hs4 _]; subst. inversion Hs4 as [|? ? ? ? Hw Hget| | |]; subst.
  destruct (run_gets_wf _ _ _ _ Hwf3 Hw Hget) as [Hfree _]. apply Hfree, (wf_held _ Hwf3). exists i. unfold held. by rewrite Hi3.
Qed.

(** C29: A reconciliation that fails is tried again: after one that returns an
    error that is neither permanent nor a skip, and when its worker is done
    with the key, the key was handed out again or is still to be, now or after
    the delay of the rate limiter, as long as the queue is not shut down. *)
Theorem failed_reconcile_retried clock rl threadiness es1 i key err effects es2 c :
  run_execution (RunContext clock rl threadiness) (es1 ++ Reconciled i key (Some err) effects :: es2) c →
  IsSkipKey err = false → IsPermanentError err = false →
  closed (two_lane_abs (workQueue c)) = false → held (workers c) i ≠ Some key →
  (∃ j, Started j key ∈ es2) ∨ key ∈ pending (two_lane_abs (workQueue c)) ∪ later (two_lane_abs (workQueue c)).
Proof.
  intros (c1 & H1 & H2)%execution_split Hskip Hperm Hopen Hdone. destruct (run_refines _ _ _ (wf_RunContext _ _ _) H1) as [Hwf1 _].
  destruct (run_abstract _ _ _ Hwf1 H2) as [_ Habs]. pose proof (abstract_stays_closed _ _ _ Habs Hopen) as Hopen1.
  inversion H2 as [|? ? c2 ? ? Hs Hrest]; subst. destruct (run_simulates _ _ _ Hwf1 Hs) as [Hwf2 Hq]. cbn in Hq.
  inversion Hs as [| | |? ? ? ? ? ? ? ops ? Hi Hrec Hops|]; subst. cbn in Hrest, Hwf2.
  assert (ops = [AddRateLimited key; Done key]) as ->.
  { unfold processNextWorkItem in Hops. rewrite Hrec in Hops. unfold handleErr in Hops. rewrite Hskip, Hperm in Hops.
    change (queue_ShuttingDown _) with (closed (two_lane_abs (workQueue c1))) in Hops. rewrite Hopen1 in Hops. by injection Hops as <-. }
  apply lookup_lt_Some in Hi as Hlt.
  destruct (run_puts_back _ _ _ i key Hwf2 Hrest Hopen) as [Hstill|[Hgot|?]]; [cbn; by rewrite list_lookup_insert_eq| | |by right].
  - destruct Hdone. unfold held. by rewrite Hstill.
  - left. by eapply run_started.
Qed.

(** C30: Shutting down loses nothing: when all the workers of a controller are
    gone, each key that was added before the shutdown was reconciled after it
    was added. *)
Theorem controller_drains clock rl threadiness es1 key es2 c :
  run_execution (RunContext clock rl threadiness) (es1 ++ OfQueue (Added key) :: es2) c →
  threadiness ≠ 0 → WasShutDown ∉ queue_events es1 → (∀ i w, workers c !! i = Some w → w = Exited) →
  ∃ i err effects, Reconciled i key err effects ∈ es2.
Proof.
  intros Hes Hn Hopen Hgone. destruct (run_abstract _ _ _ (wf_RunContext _ _ _) Hes) as [Hwf Habs].
  rewrite queue_events_app in Habs. destruct (abstract_added key _ (queue_events es1) (queue_events es2) _ Habs eq_refl Hopen) as [Hgot|Hpend].
  - apply execution_split in Hes as (c1 & H1 & H2). inversion H2 as [|? ? c2 ? ? _ Hrest]; subst.
    destruct (run_started _ _ _ _ Hrest Hgot) as [i Hi]. apply list_elem_of_split in Hi as (es3 & es4 & ->).
    apply execution_split in Hrest as (c3 & _ & H4). inversion H4 as [|? ? c4 ? ? Hs Hrest]; subst.
    inversion Hs as [|? ? ? ? Hw _| | |]; subst. apply lookup_lt_Some in Hw as Hlt.
    destruct (run_reconciling _ _ _ i key Hrest) as [(err & effects & Hin)|Hi]; [cbn; by rewrite list_lookup_insert_eq| |].
    + exists i, err, effects. apply elem_of_app. right. by right.
    + by apply Hgone in Hi.
  - exfalso. pose proof (run_length _ _ _ Hes) as Hlen. cbn in Hlen. rewrite length_replicate in Hlen.
    destruct (wf_exited _ Hwf) as [Hdown Hd]; [intros Hnil; by rewrite Hnil in Hlen|done|].
    apply (wf_consumer_shut _ (wf_workQueue _ Hwf)) in Hdown. pose proof (wf_workQueue _ Hwf) as Hq.
    destruct (wf_stopped _ Hq Hdown) as [Hf Hs].
    destruct (wf_lane_closed_pending _ (wf_fast _ Hq) (wf_fast_flag _ Hq Hf)) as [Hfp _].
    destruct (wf_lane_closed_pending _ (wf_slow _ Hq) (wf_slow_flag _ Hq Hs)) as [Hsp _].
    revert Hpend. cbn. rewrite Hfp, Hsp, Hdown, Hd. set_solver.
Qed.
End controller.

(** ** Witnesses *)
Section witnesses.
#[local] Existing Instance canonical_order.
#[local] Existing Instance image_merge.
#[local] Existing Instance no_bucket.

Definition run_key : NamespacedName := ("ns", "run").
Definition limiter : RateLimiter NamespacedName := DefaultControllerRateLimiter tt.

(** Two workers, a new Run, an API server that accepts its status, and one that
    refuses it. *)
Definition two_workers : Impl := RunContext 0 limiter 2.
Definition works (i : nat) : run_action := Works i Sample.stale ServerSample.accepting 0.
Definition refusing : RunServer := ServerSample.server 1000 Sample.new_run (run ServerSample.reached).
Definition fails (i : nat) : run_action := Works i Sample.stale refusing 0.

(** The goroutines of the queue hand on a key that was added to the fast lane. *)
Definition hand_on : list run_action := map Others [MoveFast; MoveFast; MoveFast; MoveConsumer true; MoveConsumer true].

Definition events_of (ms : list run_action) : list run_event := from_option fst [] (run_all two_workers ms).
Definition result_of (ms : list run_action) : Impl := from_option snd two_workers (run_all two_workers ms).

(** The key is added again while the first worker reconciles it; the second one
    starts with it when the first is done. *)
Definition again : list run_action :=
  Others (CallAdd run_key) :: hand_on ++ [works 0; Others (CallAdd run_key)] ++ hand_on ++ [works 0; works 0; works 0; works 1].

Lemma reconciles_one_at_a_time_witness :
  let es := events_of again in
  last es = Some (Started 1 run_key) ∧ ∃ err effects, Reconciled 0 run_key err effects ∈ take 9 (drop 7 es).
Proof.
  intros es. split; [vm_compute; reflexivity|].
  apply (reconciles_one_at_a_time 0 limiter 2 (take 6 es) 0 run_key (take 9 (drop 7 es)) 1 [] (result_of again)).
  apply (run_all_execution _ again). vm_compute. reflexivity.
Defined.

(** The update of the status is refused: the key is to be added again after the
    delay. *)
Definition refused : list run_action :=
  Others (CallAdd run_key) :: hand_on ++ [fails 0; fails 0; fails 0; fails 0].

Lemma failed_reconcile_retried_witness :
  run_key ∈ pending (two_lane_abs (workQueue (result_of refused))) ∪ later (two_lane_abs (workQueue (result_of refused))).
Proof.
  set (es := events_of refused).
  destruct (failed_reconcile_retried 0 limiter 2 (take 7 es) 0 run_key ServerSample.conflict
    (match es !! 7 with Some (Reconciled _ _ _ effects) => effects | _ => [] end) (drop 8 es) (result_of refused)) as [[j Hj]|Hin].
  - apply (run_all_execution _ refused). vm_compute. reflexivity.
  - reflexivity.
  - reflexivity.
  - vm_compute. reflexivity.
  - vm_compute. discriminate.
  - exfalso. vm_compute in Hj. by repeat (apply elem_of_cons in Hj as [[=]|Hj]); apply elem_of_nil in Hj.
  - exact Hin.
Defined.

(** The controller is shut down while the key is on its way. *)
Definition shut : list run_action :=
  map Others [CallAdd run_key; CallShutDown; MoreShutDown; MoveFast; MoveFast; MoveFast; MoveConsumer true; MoveConsumer true; MoveFast;
    MoveSlow; MoveConsumer true; MoveConsumer true; MoveConsumer false; MoveConsumer false] ++
  [works 0; works 1; works 0; works 0; works 0; works 0].

Lemma controller_drains_witness :
  ∃ i err effects, Reconciled i run_key err effects ∈ drop 1 (events_of shut).
Proof.
  apply (controller_drains 0 limiter 2 [] run_key (drop 1 (events_of shut)) (result_of shut)).
  - apply (run_all_execution _ shut). vm_compute. reflexivity.
  - discriminate.
  - apply not_elem_of_nil.
  - intros i w. change (workers (result_of shut)) with [Exited; Exited]. intros Hw. destruct i as [|[|i]]; simpl in Hw; by simplify_eq.
Defined.
End witnesses.
