(* ===== verification/ControllerProgress.v ===== *)
(** The controller never gets stuck: from every state that it reaches while its
    queue is open, its own steps lead to a reconciliation of each key that was
    added, whatever the reconciliations return. *)
From S2P Require Import Prelude GoStrings FieldErrors Types Substitution StepMerge Resolve Validation Conditions RunTypes.
From S2P Require Import Listers Cluster Reconciler RunReconciler Wiring QueueSpec WorkQueue RateLimiter DelayingQueue TwoLaneQueue.
From S2P Require Import ControllerRun ReconcilerExample ReconcilerSpec ReconcileKind RunReconcilerSpec RunReconcilerTheorems.

(** ** The queue settles *)
Section queue.
Context {A : Type} `{Countable A} {TB : TokenBucket}.

Lemma loop_step_dec (d : delayingType A) : (∃ d', loop_step d d') ∨ (∀ d', ¬ loop_step d d').
Proof.
  destruct (waitingForAddCh d) as [|entry rest] eqn:Hch; [|left; eexists; by apply (loop_receive entry rest)].
  destruct (decide (waitingEntryByData d = ∅)) as [Hm|Hm]; [right; intros d'; by apply loop_idle|].
  destruct (heap_root_exists _ Hm) as (a & t & Hroot). destruct (decide (t ≤ delaying_clock d)%Z) as [Ht|Ht].
  - left. eexists. by apply (loop_ready a t).
  - right. intros d' Hs. destruct Hs as [entry rest d Hcons|b s d [Hb Hmin] Hs]; [by rewrite Hch in Hcons|].
    apply Hroot in Hb. lia.
Qed.

Lemma lane_step_dec (l : @lane A _ _) : (∃ l', lane_step l l') ∨ (∀ l', ¬ lane_step l l').
Proof.
  destruct (process l) as [l'|] eqn:Hp; [left; exists l'; by apply lane_process|].
  destruct (loop_step_dec (lane_queue l)) as [[d Hd]|Hno]; [left; eexists; by apply lane_loop|].
  right. intros l' Hs. destruct Hs as [d l Hl|l l' Hl]; [by eapply Hno|congruence].
Qed.

Lemma spins_dec (q q' : twoLaneQueue A) pick : runConsumer pick q = Some q' → spins q q' ∨ ¬ spins q q'.
Proof.
  intros Hr. destruct (consumer q) eqn:Hc; try (by right; intros [Hsel _]; rewrite Hc in Hsel).
  destruct (consumer q') eqn:Hc'; try (by right; intros [_ ->]). unfold runConsumer in Hr. rewrite Hc in Hr.
  assert (receive_fast q = Some q' ∨ receive_slow q = Some q') as Hr'.
  { destruct (receive_fast q), (receive_slow q); [destruct pick|..]; simplify_eq; by auto. }
  unfold receive_fast, receive_slow in Hr'. destruct Hr' as [Hr'|Hr'].
  - destruct (lane_receive (fastLane q)) as [[[a|] l]|]; simplify_eq/=. destruct (fast q) eqn:Hf.
    + right. intros [_ Heq]. apply (f_equal fast) in Heq. cbn in Heq. congruence.
    + left. split; [done|]. destruct q; cbn in *; by subst.
  - destruct (lane_receive (slowLane q)) as [[[a|] l]|]; simplify_eq/=. destruct (slow q) eqn:Hf.
    + right. intros [_ Heq]. apply (f_equal slow) in Heq. cbn in Heq. congruence.
    + left. split; [done|]. destruct q; cbn in *; by subst.
Qed.

Lemma two_lane_own_dec (q : twoLaneQueue A) : (∃ q', two_lane_own q q') ∨ (∀ q', ¬ two_lane_own q q').
Proof.
  destruct (lane_step_dec (fastLane q)) as [[l Hl]|Hf]; [left; eexists; by apply own_fast|].
  destruct (lane_step_dec (slowLane q)) as [[l Hl]|Hs]; [left; eexists; by apply own_slow|].
  assert (∀ pick, (∃ q', runConsumer pick q = Some q' ∧ ¬ spins q q') ∨ (∀ q', runConsumer pick q = Some q' → spins q q')) as Hc.
  { intros pick. destruct (runConsumer pick q) as [q'|] eqn:Hr; [|by right].
    destruct (spins_dec _ _ _ Hr); [right; by intros ? [= <-]|left; by exists q']. }
  destruct (Hc true) as [(q' & Hr & Hns)|Ht]; [left; exists q'; by apply (own_consumer true)|].
  destruct (Hc false) as [(q' & Hr & Hns)|Hf']; [left; exists q'; by apply (own_consumer false)|].
  right. intros q' Hown. destruct Hown as [l q Hl|l q Hl|[|] q q' Hr Hns]; [by eapply Hf|by eapply Hs|by apply Hns, Ht|by apply Hns, Hf'].
Qed.

Lemma two_lane_settles (q : twoLaneQueue A) :
  wf_two_lane q → ∃ n q', nsteps two_lane_own n q q' ∧ ∀ q'', ¬ two_lane_own q' q''.
Proof.
  remember (two_lane_work q) as m eqn:Hm. revert q Hm. induction (lt_wf m) as [m _ IH]. intros q -> Hwf.
  destruct (two_lane_own_dec q) as [[q1 Hown]|Hno]; [|exists 0, q; split; [constructor|done]].
  destruct (two_lane_simulates _ _ _ Hwf (two_lane_own_step _ _ Hown)) as [Hwf1 _].
  destruct (IH _ (two_lane_own_work _ _ Hwf Hown) q1 eq_refl Hwf1) as (n & q' & Hn & Hno). exists (S n), q'. split; [by econstructor|done].
Qed.

(** What the goroutines do to the queue of the workers. *)
Lemma queue_Add_grows (a : A) (q : workqueue A) : queue q `prefix_of` queue (queue_Add a q) ∧ dirty q ⊆ dirty (queue_Add a q).
Proof.
  unfold queue_Add. destruct (shuttingDown q); [done|]. case_bool_decide; [done|].
  case_bool_decide; cbn; (split; [|set_solver]); [done|by apply prefix_app_r].
Qed.

Lemma two_lane_own_grows (q q' : twoLaneQueue A) :
  two_lane_own q q' →
  queue (consumerQueue q) `prefix_of` queue (consumerQueue q') ∧ dirty (consumerQueue q) ⊆ dirty (consumerQueue q').
Proof.
  intros [l q0 _|l q0 _|pick q0 q1 Hr _]; [done..|]. unfold runConsumer in Hr.
  assert (∀ q2, receive_fast q0 = Some q2 ∨ receive_slow q0 = Some q2 → consumerQueue q2 = consumerQueue q0) as Hsame.
  { unfold receive_fast, receive_slow. intros q2 [Hq|Hq]; destruct (lane_receive _) as [[[a|] l]|]; by simplify_eq/=. }
  destruct (consumer q0) as [| |a|]; [| | |done].
  - destruct (fast q0); simpl in Hr; [destruct (receive_fast q0) eqn:Hf|destruct (slow q0)]; simplify_eq/=; [|done..].
    rewrite (Hsame q1) by by left. done.
  - rewrite (Hsame q1); [done|]. destruct (receive_fast q0), (receive_slow q0); [destruct pick|..]; simplify_eq; by auto.
  - simplify_eq/=. apply queue_Add_grows.
Qed.

Lemma queue_Done_grows (a : A) (q : workqueue A) : queue q `prefix_of` queue (queue_Done a q) ∧ dirty q ⊆ dirty (queue_Done a q).
Proof. unfold queue_Done. cbn. case_bool_decide; (split; [|done]); [by apply prefix_app_r|done]. Qed.
End queue.

(** ** The workers go on *)
Section controller.
Context {MO : MapOrder} {CM : ContainerMerge} {TB : TokenBucket}.

(** A step of the controller alone: of a goroutine of its queue, or of a worker,
    which is one that moves a worker. No other client adds a key or shuts the
    queue down; a key is added only by a worker that puts back its own. *)
Inductive own_step : Impl → run_event → Impl → Prop :=
  | own_queue q c : two_lane_own (workQueue c) q → own_step c (OfQueue Internal) {| workQueue := q; workers := workers c |}
  | own_worker e c c' : run_step c e c' → workers c' ≠ workers c → own_step c e c'.

Definition own_run_execution : Impl → list run_event → Impl → Prop := execution own_step.

Lemma own_run_step c e c' : own_step c e c' → run_step c e c'.
Proof. intros [q c0 Hq|e0 c0 c1 Hs _]; [apply others_do; [done|by apply two_lane_own_step]|done]. Qed.

Lemma own_run c es c' : own_run_execution c es c' → run_execution c es c'.
Proof. induction 1; [apply execution_nil|]. eapply execution_step; [by apply own_run_step|done]. Qed.

(** The events of such steps; in particular no key is added from outside. *)
Definition own_event (e : run_event) : Prop := match e with OfQueue (Added _) | OfQueue WasShutDown => False | _ => True end.

Lemma own_step_event c e c' : own_step c e c' → own_event e.
Proof.
  intros [q c0 _|e0 c0 c1 Hs Hne]; [done|]. destruct Hs as [e1 q c1 He|i key q c1 Hi Hget|i q c1 Hi Hget|i key CL RS start err effects ops c1 Hi _ _|i key op ops e1 q c1 Hi Hop]; [done..|].
  destruct op; cbn in Hop; [by simplify_eq|destruct (two_lane_AddRateLimited _ _); by simplify_eq/=|by simplify_eq].
Qed.

Lemma worker_changed (ws : list worker) i w0 w : ws !! i = Some w0 → w ≠ w0 → <[i := w]> ws ≠ ws.
Proof.
  intros Hi Hne Heq. apply lookup_lt_Some in Hi as Hlt. apply Hne. apply (f_equal (.!! i)) in Heq. simpl in Heq.
  rewrite list_lookup_insert_eq in Heq by done. congruence.
Qed.

Lemma after_call_moves key op ops : after_call key ops ≠ Finishing key (op :: ops).
Proof. destruct ops as [|op' ops]; cbn; [done|]. intros [= _ Heq]. apply (f_equal length) in Heq. simpl in Heq. lia. Qed.

(** No key is handed out. *)
Definition hands_none (e : run_event) : Prop := match e with Started _ _ => False | _ => True end.

Definition is_open (c : Impl) : Prop := closed (two_lane_abs (workQueue c)) = false.
Definition consumers (c : Impl) : workqueue NamespacedName := consumerQueue (workQueue c).

(** The controller goes on by itself, and hands out nothing. *)
Record goes_on (es : list run_event) (c c' : Impl) : Prop := {
  on_execution : own_run_execution c es c';
  on_quiet : Forall hands_none es;
  on_queue : queue (consumers c) `prefix_of` queue (consumers c');
  on_dirty : dirty (consumers c) ⊆ dirty (consumers c')
}.

Lemma goes_on_refl c : goes_on [] c c.
Proof. by split; [constructor|constructor|..]. Qed.

Lemma goes_on_trans es c c1 es' c2 : goes_on es c c1 → goes_on es' c1 c2 → goes_on (es ++ es') c c2.
Proof.
  intros [H1 H2 H3 H4] [H5 H6 H7 H8]. split; [by eapply execution_app|by apply Forall_app|by etrans|by etrans].
Qed.

Lemma goes_on_one e c c' :
  own_step c e c' → hands_none e → queue (consumers c) `prefix_of` queue (consumers c') → dirty (consumers c) ⊆ dirty (consumers c') →
  goes_on [e] c c'.
Proof. intros. split; [by apply execution_one|by apply Forall_singleton|done..]. Qed.

Lemma own_open c es c' : wf_run c → own_run_execution c es c' → is_open c → is_open c'.
Proof.
  intros Hwf Hes Hopen. unfold is_open in *. destruct (closed (two_lane_abs (workQueue c'))) eqn:Hc; [exfalso|done].
  destruct (run_abstract _ _ _ Hwf (own_run _ _ _ Hes)) as [_ Habs]. pose proof (abstract_closes _ _ _ Habs Hopen Hc) as Hin.
  assert (Forall own_event es) as Hown by (clear -Hes; induction Hes; constructor; [by eapply own_step_event|done]).
  unfold queue_events in Hin. apply list_elem_of_omap in Hin as (e & He & Hpart). rewrite Forall_forall in Hown. apply Hown in He.
  by destruct e; simplify_eq/=.
Qed.

Lemma goes_on_keeps es c c' : goes_on es c c' → wf_run c → is_open c → wf_run c' ∧ is_open c'.
Proof. intros [Hes _ _ _] Hwf Hopen. split; [by apply (run_refines _ _ _ Hwf (own_run _ _ _ Hes))|by eapply own_open]. Qed.

(** The goroutines of the queue run until they wait. *)
Definition settled (c : Impl) : Prop := ∀ q, ¬ two_lane_own (workQueue c) q.

Lemma own_steps_go_on n q q' ws :
  nsteps two_lane_own n q q' →
  ∃ es, goes_on es {| workQueue := q; workers := ws |} {| workQueue := q'; workers := ws |}.
Proof.
  induction 1 as [q|n q q1 q' Hs _ [es IH]]; [exists []; apply goes_on_refl|]. exists ([OfQueue Internal] ++ es).
  eapply goes_on_trans; [|exact IH]. destruct (two_lane_own_grows _ _ Hs). apply goes_on_one; [|done..].
  by apply (own_queue _ {| workQueue := q; workers := ws |}).
Qed.

Lemma settles c : wf_run c → ∃ es c', goes_on es c c' ∧ workers c' = workers c ∧ settled c'.
Proof.
  intros Hwf. destruct (two_lane_settles _ (wf_workQueue _ Hwf)) as (n & q' & Hn & Hwaits).
  destruct c as [q ws]. destruct (own_steps_go_on _ _ _ ws Hn) as [es Hes]. exists es. eexists. split_and!; [exact Hes|done|exact Hwaits].
Qed.

Lemma settled_channel c : settled c → waitingForAddCh (lane_queue (fastLane (workQueue c))) = [].
Proof.
  intros Hset. destruct (waitingForAddCh _) as [|entry rest] eqn:Hch; [done|exfalso].
  eapply Hset, own_fast, lane_loop, (loop_receive entry rest), Hch.
Qed.

(** A call of the queue returns when the queue has settled. *)
Lemma perform_returns c op :
  settled c → ∃ e q, perform op (workQueue c) = Some (e, q) ∧
    queue (consumers c) `prefix_of` queue (consumerQueue q) ∧ dirty (consumers c) ⊆ dirty (consumerQueue q).
Proof.
  intros Hset. destruct op as [key|key|key]; cbn.
  - by eexists _, _.
  - unfold two_lane_AddRateLimited, rateLimiting_AddRateLimited, AddAfter. destruct (When _ _ _) as [d rl]. rewrite (settled_channel _ Hset).
    destruct (queue_ShuttingDown _); [by eexists _, _|]. case_bool_decide; by eexists _, _.
  - eexists _, _. split; [done|]. apply queue_Done_grows.
Qed.

Lemma calls_once c i key op ops :
  wf_run c → workers c !! i = Some (Finishing key (op :: ops)) →
  ∃ es c', goes_on es c c' ∧ workers c' = <[i := after_call key ops]> (workers c).
Proof.
  intros Hwf Hi. destruct (settles c Hwf) as (es & c1 & Hon & Hws & Hset).
  destruct (perform_returns c1 op Hset) as (e & q & Hop & Hq & Hd).
  exists (es ++ [OfQueue e]), {| workQueue := q; workers := <[i := after_call key ops]> (workers c1) |}.
  split; [eapply goes_on_trans; [exact Hon|]|].
  - apply goes_on_one; [|done..]. apply own_worker; [eapply worker_calls; [by rewrite Hws|done]|].
    rewrite Hws. eapply worker_changed; [exact Hi|]. by apply after_call_moves.
  - cbn. by rewrite Hws.
Qed.

(** A worker that has reconciled a key finishes with it. *)
Lemma finishing_goes_on c i key ops :
  wf_run c → is_open c → workers c !! i = Some (Finishing key ops) → ∃ es c', goes_on es c c' ∧ workers c' = <[i := Waiting]> (workers c).
Proof.
  intros Hwf Hopen Hi. apply lookup_lt_Some in Hi as Hlt.
  destruct (wf_finishing _ Hwf _ _ _ Hi) as [->|Htwo]; [apply (calls_once c i key (Done key) []); done|].
  assert (∃ op, ops = [op; Done key]) as [op ->] by (destruct Htwo as [->| ->]; by eexists).
  destruct (calls_once c i key op [Done key] Hwf Hi) as (es1 & c1 & Hon1 & Hw1).
  destruct (goes_on_keeps _ _ _ Hon1 Hwf Hopen) as [Hwf1 _].
  destruct (calls_once c1 i key (Done key) [] Hwf1) as (es2 & c2 & Hon2 & Hw2); [rewrite Hw1; by apply list_lookup_insert_eq|].
  exists (es1 ++ es2), c2. split; [by eapply goes_on_trans|]. rewrite Hw2, Hw1. apply list_insert_insert_eq.
Qed.

Section in_a_world.
(** The cluster, the API server and the leader as the reconciliations find them. *)
Context (CL : Cluster) (RS : RunServer) (start : nat).

Definition reconciled_by (i : nat) (key : NamespacedName) (es : list run_event) : Prop :=
  ∃ err effects, @reconcilerImpl_Reconcile MO CM CL RS (safeKey key) start = (err, effects) ∧ Reconciled i key err effects ∈ es.

Lemma reconciles_once c i key :
  workers c !! i = Some (Reconciling key) →
  ∃ err effects ops c', goes_on [Reconciled i key err effects] c c' ∧ workers c' = <[i := Finishing key ops]> (workers c) ∧
    @reconcilerImpl_Reconcile MO CM CL RS (safeKey key) start = (err, effects).
Proof.
  intros Hi. destruct (@reconcilerImpl_Reconcile MO CM CL RS (safeKey key) start) as [err effects] eqn:Hrec.
  set (ops := (processNextWorkItem (λ keyStr, @reconcilerImpl_Reconcile MO CM CL RS keyStr start)
    (queue_ShuttingDown (lane_Interface (fastLane (workQueue c)))) key).2).
  exists err, effects, ops, {| workQueue := workQueue c; workers := <[i := Finishing key ops]> (workers c) |}.
  split_and!; [|done|done]. apply goes_on_one; [|done..]. apply own_worker; [|by eapply worker_changed].
  eapply (worker_reconciles i key CL RS start); [done|done|]. etrans; [apply surjective_pairing|].
  rewrite processNextWorkItem_effects. by rewrite Hrec.
Qed.

(** A worker that is not gone comes back for the next key, and it has reconciled
    the one that it started with. *)
Lemma worker_comes_back c i w :
  wf_run c → is_open c → workers c !! i = Some w → w ≠ Exited →
  ∃ es c', goes_on es c c' ∧ workers c' = <[i := Waiting]> (workers c) ∧ ∀ key, w = Reconciling key → reconciled_by i key es.
Proof.
  intros Hwf Hopen Hi Hne. destruct w as [|key|key ops|]; [| | |done].
  - exists [], c. split_and!; [apply goes_on_refl|by rewrite list_insert_id|done].
  - destruct (reconciles_once c i key Hi) as (err & effects & ops & c1 & Hon1 & Hw1 & Hrec).
    destruct (goes_on_keeps _ _ _ Hon1 Hwf Hopen) as [Hwf1 Hopen1]. apply lookup_lt_Some in Hi as Hlt.
    destruct (finishing_goes_on c1 i key ops Hwf1 Hopen1) as (es2 & c2 & Hon2 & Hw2); [rewrite Hw1; by apply list_lookup_insert_eq|].
    exists ([Reconciled i key err effects] ++ es2), c2. split_and!; [by eapply goes_on_trans|rewrite Hw2, Hw1; apply list_insert_insert_eq|].
    intros key' [= <-]. exists err, effects. split; [done|]. by left.
  - destruct (finishing_goes_on c i key ops Hwf Hopen Hi) as (es & c' & Hon & Hw). by exists es, c'.
Qed.

(** A worker starts with the key, and reconciles it then. *)
Definition turn_of (i : nat) (key : NamespacedName) (es : list run_event) : Prop :=
  ∃ es1 es2, es = es1 ++ Started i key :: es2 ∧ reconciled_by i key es2.

Lemma turn_later i key es es' : turn_of i key es' → turn_of i key (es ++ es').
Proof. intros (es1 & es2 & -> & H). exists (es ++ es1), es2. split; [by rewrite <-app_assoc|done]. Qed.

(** What is queued is reconciled in turn. *)
Lemma queued_is_reconciled n : ∀ c i key,
  wf_run c → is_open c → workers c !! i = Some Waiting → queue (consumers c) !! n = Some key →
  ∃ es c', own_run_execution c es c' ∧ turn_of i key es.
Proof.
  induction n as [|n IH]; intros c i key Hwf Hopen Hi Hn; apply lookup_lt_Some in Hi as Hlt;
    (destruct (queue (consumers c)) as [|k rest] eqn:Hq; [done|]);
    (assert (∃ q, two_lane_Get (workQueue c) = Some (Some k, q) ∧ queue (consumerQueue q) = rest) as (q & Hget & Hrest);
      [unfold two_lane_Get, queue_Get, consumers in *; rewrite Hq; by eexists|]);
    pose proof (worker_gets i k q c Hi Hget) as Hs; (destruct (run_simulates _ _ _ Hwf Hs) as [Hwf1 _]);
    (assert (own_step c (Started i k) {| workQueue := q; workers := <[i := Reconciling k]> (workers c) |}) as Hown;
      [apply own_worker; [done|by eapply worker_changed]|]);
    (assert (is_open {| workQueue := q; workers := <[i := Reconciling k]> (workers c) |}) as Hopen1;
      [apply (own_open c [Started i k]); [done|by apply execution_one|done]|]);
    (destruct (worker_comes_back _ i (Reconciling k) Hwf1 Hopen1) as (es & c2 & Hon & Hw & Hrec);
      [cbn; by apply list_lookup_insert_eq|done|]).
  - simpl in Hn. injection Hn as ->. exists (Started i key :: es), c2. split.
    + eapply execution_step; [done|]. apply Hon.
    + exists [], es. split; [done|by apply Hrec].
  - destruct (goes_on_keeps _ _ _ Hon Hwf1 Hopen1) as [Hwf2 Hopen2]. simpl in Hn.
    destruct (IH c2 i key Hwf2 Hopen2) as (es' & c' & Hes' & Hturn).
    + rewrite Hw. cbn. rewrite list_insert_insert_eq. by apply list_lookup_insert_eq.
    + eapply prefix_lookup_Some; [|apply Hon]. unfold consumers. cbn. by rewrite Hrest.
    + exists ((Started i k :: es) ++ es'), c'. split; [|by apply turn_later].
      eapply execution_step; [done|]. eapply execution_app; [apply Hon|done].
Qed.

(** While the queue is open, no worker is gone. *)
Lemma run_not_gone c es c' :
  wf_run c → run_execution c es c' → (∀ i, workers c !! i = Some Exited → is_open c → False) →
  ∀ i, workers c' !! i = Some Exited → is_open c' → False.
Proof.
  intros Hwf. induction 1 as [c|c e c1 es c' Hs _ IH]; [done|]. intros Hgone.
  destruct (run_simulates _ _ _ Hwf Hs) as [Hwf1 Hq]. apply IH; [done|]. clear IH. intros i Hi Hopen.
  assert (is_open c) as Hopen0.
  { destruct (run_abstract _ _ _ Hwf (execution_one _ _ _ _ Hs)) as [_ Habs]. by apply (abstract_stays_closed _ _ _ Habs). }
  destruct Hs as [|j k q c Hj _|j q c Hj Hget|j k CL' RS' start' err effects ops c Hj _ _|j k op ops e q c Hj _]; cbn in Hi; [by eapply Hgone|..];
    (destruct (decide (j = i)) as [->|Hne]; [|rewrite list_lookup_insert_ne in Hi by done; by eapply Hgone]);
    rewrite list_lookup_insert_eq in Hi by (by eapply lookup_lt_Some); simplify_eq.
  - destruct (two_Get_shutdown_simulates _ _ (wf_workQueue _ Hwf) Hget) as [-> Habs].
    inversion Habs as [| | | | | |? Hc _| | | | |]; subst. unfold is_open in Hopen0. congruence.
  - unfold after_call in Hi. by destruct ops.
Qed.

(** What a state needs for a pending key to be reconciled. *)
Record serves (c : Impl) (key : NamespacedName) : Prop := {
  serves_wf : wf_run c;
  serves_open : is_open c;
  serves_workers : workers c ≠ [];
  serves_not_gone i : workers c !! i ≠ Some Exited;
  serves_pending : key ∈ pending (two_lane_abs (workQueue c))
}.

Lemma serves_turn c key : serves c key → ∃ es c' i, own_run_execution c es c' ∧ turn_of i key es.
Proof.
  intros [Hwf Hopen Hsome Hgone Hpend].
  destruct (settles c Hwf) as (es0 & c0 & Hon0 & Hw0 & Hset). destruct (goes_on_keeps _ _ _ Hon0 Hwf Hopen) as [Hwf0 Hopen0].
  assert (key ∈ dirty (consumers c0)) as Hd.
  { unfold consumers. rewrite <-(two_lane_waits _ (wf_workQueue _ Hwf0) Hset). pose proof (own_run _ _ _ (on_execution _ _ _ Hon0)) as Hrun0. destruct (run_abstract _ _ _ Hwf Hrun0) as [_ Habs0].
    apply (abstract_kept _ _ _ _ Habs0 Hpend). intros Hgot.
    destruct (run_started _ _ _ _ Hrun0 Hgot) as [i Hi].
    pose proof (on_quiet _ _ _ Hon0) as Hq. rewrite Forall_forall in Hq. by apply Hq in Hi. }
  assert (workers c0 ≠ []) as Hsome' by by rewrite Hw0.
  assert (∃ i w, workers c0 !! i = Some w ∧ ∀ j, held (workers c0) j = Some key → j = i) as (i & w & Hi & Honly).
  { destruct (decide (key ∈ processing (consumers c0))) as [Hp|Hp].
    - apply (wf_held _ Hwf0) in Hp as [i Hi]. pose proof Hi as Hheld. unfold held in Hi. destruct (workers c0 !! i) as [w|] eqn:Hw; [|done].
      exists i, w. split; [done|]. intros j Hj. by apply (wf_exclusive _ Hwf0 _ _ key).
    - destruct (workers c0 !! 0) as [w|] eqn:Hw; [|apply lookup_ge_None in Hw; destruct (workers c0); [done|cbn in Hw; lia]]. exists 0, w. split; [done|].
      intros j Hj. destruct Hp. apply (wf_held _ Hwf0). by exists j. }
  destruct (worker_comes_back c0 i w Hwf0 Hopen0 Hi) as (es3 & c3 & Hon3 & Hw3 & _); [intros ->; apply (Hgone i); by rewrite <-Hw0|].
  destruct (goes_on_keeps _ _ _ Hon3 Hwf0 Hopen0) as [Hwf3 Hopen3]. apply (on_dirty _ _ _ Hon3) in Hd.
  assert (key ∈ queue (consumers c3)) as Hq.
  { apply (wf_queued _ (wf_consumer _ (wf_workQueue _ Hwf3))). split; [done|]. intros [j Hj]%(wf_held _ Hwf3).
    rewrite Hw3, (held_insert _ _ w) in Hj by done. case_decide as Hji; [done|]. by apply Hji, Honly. }
  apply list_elem_of_lookup in Hq as [n Hn'].
  destruct (queued_is_reconciled n c3 i key Hwf3 Hopen3) as (es4 & c4 & Hes4 & Hturn); [rewrite Hw3; apply lookup_lt_Some in Hi; by apply list_lookup_insert_eq|done|].
  exists (es0 ++ es3 ++ es4), c4, i. split; [|by do 2 apply turn_later].
  eapply execution_app; [apply Hon0|]. eapply execution_app; [apply Hon3|done].
Qed.

(** A key that was added is served. *)
Lemma added_is_served clock rl threadiness es1 key es2 c :
  run_execution (RunContext clock rl threadiness) (es1 ++ OfQueue (Added key) :: es2) c →
  threadiness ≠ 0 → is_open c → Got key ∉ queue_events es2 → serves c key.
Proof.
  intros Hes Hn Hopen Hno. destruct (run_abstract _ _ _ (wf_RunContext _ _ _) Hes) as [Hwf Habs]. split; [done|done|..].
  - intros Hnil. pose proof (run_length _ _ _ Hes) as Hlen. cbn in Hlen. rewrite length_replicate, Hnil in Hlen. by subst threadiness.
  - intros i Hi. apply (run_not_gone _ _ _ (wf_RunContext clock rl threadiness) Hes) with (i := i); [|done|done].
    by intros j [? _]%lookup_replicate.
  - rewrite queue_events_app in Habs. destruct (abstract_added _ _ _ _ _ Habs eq_refl) as [?|?]; [|done|done].
    intros Hdown. unfold is_open in Hopen. rewrite (abstract_shut_closes _ _ _ Habs) in Hopen; [done|]. apply elem_of_app. by left.
Qed.

(** C24: No key that was added is lost, and the controller is never stuck:
    whatever has happened so far, while its queue is open and it has a worker,
    steps of the goroutines of its queue and of its workers alone, with no
    further call of its Enqueue functions, can bring a worker to start with a
    key that was added and not handed out since, and to reconcile it, whatever
    the reconciliations on the way return in the world as it is. *)
Theorem every_key_gets_its_turn clock rl threadiness es1 key es2 c :
  run_execution (RunContext clock rl threadiness) (es1 ++ OfQueue (Added key) :: es2) c →
  threadiness ≠ 0 → is_open c → Got key ∉ queue_events es2 →
  ∃ es c' i, own_run_execution c es c' ∧ turn_of i key es.
Proof. intros. by eapply serves_turn, added_is_served. Qed.

(** ** From the notification to the TaskRun *)

(** What the handlers of a notification do to the queue. *)
Definition handled (runLister : string → string → fallible Run) (i : informer) (n : notification) : list run_event :=
  (λ key, OfQueue (Added key)) <$> NewController runLister i n.

(** From the notification about a Run to its TaskRun: when the handlers of
    the controller have seen a Run of a TaskGroup, the goroutines of the queue
    and the workers can alone come to a reconciliation that asks the API server for exactly one TaskRun
    for it, if it finds the Run not done with its generation and without a
    TaskRun, and the TaskGroup valid and resolvable; whatever else has happened
    to the controller before and since. *)
Theorem notified_Run_gets_TaskRun clock rl threadiness es1 runLister n es2 c ns name original tg :
  run_execution (RunContext clock rl threadiness) (es1 ++ handled runLister runInformer n ++ es2) c →
  threadiness ≠ 0 → is_open c → Got (ns, name) ∉ queue_events es2 →
  subject n = RunObject original → gets (safeKey (ns, name)) start ns name original →
  wf_conditions (RunStatus_Conditions (Run_Status original)) → ready (Run_SetDefaults original) tg →
  responsible original = true → reconcileMethodFor original = true → ¬ (observed original ∧ Run_IsDone original = true) →
  TaskGroupRunStatus_TaskRun (DecodeExtraFields (Run_Status original) zero_TaskGroupRunStatus).1 = None →
  ∃ es c' i err effects tr, own_run_execution c es c' ∧ Reconciled i (ns, name) err effects ∈ es ∧
    @reconcilerImpl_Reconcile MO CM CL RS (safeKey (ns, name)) start = (err, effects) ∧ creations effects = [(ns, tr)].
Proof.
  intros Hes Hn Hopen Hno Hsub Hg Hwf Hready Hmine Hlive Hnd Hnone.
  assert (NewController runLister runInformer n = [(ns, name)]) as Hkeys.
  { unfold NewController. rewrite handler_passing; rewrite Hsub; [|exact Hmine]. cbn.
    rewrite <-(gets_name _ _ _ _ _ Hg). pose proof (gets_namespace _ _ _ _ _ Hg) as Hns. unfold namespace in Hns. by rewrite Hns. }
  unfold handled in Hes. rewrite Hkeys in Hes. cbn in Hes.
  destruct (serves_turn c (ns, name) (added_is_served _ _ _ _ _ _ _ Hes Hn Hopen Hno)) as (es & c' & i & Hes' & es3 & es4 & -> & err & effects & Hrec & Hin).
  destruct (fresh_Run_gets_TaskRun _ _ _ _ _ _ Hg Hwf Hready Hmine Hlive Hnd Hnone) as [tr Htr]. pose proof Htr as Htr'. rewrite Hrec in Htr'.
  exists (es3 ++ Started i (ns, name) :: es4), c', i, err, effects, tr. split_and!; [done| |done..]. apply elem_of_app. right. by right.
Qed.
End in_a_world.
End controller.

(** ** Witnesses *)
Section witnesses.
#[local] Existing Instance canonical_order.
#[local] Existing Instance image_merge.
#[local] Existing Instance no_bucket.

(** The Run is added, and the first worker is busy with another key. *)
Definition busy : list run_action :=
  Others (CallAdd ("ns", "other")) :: hand_on ++ [works 0; Others (CallAdd run_key); Others MoveFast].

Lemma every_key_gets_its_turn_witness :
  ∃ es c' i, own_run_execution (result_of busy) es c' ∧ turn_of Sample.stale ServerSample.accepting 0 i run_key es.
Proof.
  apply (every_key_gets_its_turn Sample.stale ServerSample.accepting 0 0 limiter 2 (take 7 (events_of busy)) run_key
    (drop 8 (events_of busy))).
  - apply (run_all_execution _ busy). vm_compute. reflexivity.
  - discriminate.
  - vm_compute. reflexivity.
  - apply (bool_decide_unpack _). vm_compute. exact I.
Defined.
End witnesses.
