(* ===== verification/RingGrowing.v ===== *)
(** The ring buffer behind the listeners of an informer
    (k8s.io/utils/buffer/ring_growing.go), and that it is a queue. *)
From S2P Require Import Prelude.

Section ring.
Context {A : Type}.

(** [type RingGrowing struct]; a cell without an item is nil. *)
Record RingGrowing := { data : list (option A); n : nat; beg : nat; readable : nat }.

(** [func NewRingGrowing(initialSize int)] *)
Definition NewRingGrowing (initialSize : nat) : RingGrowing :=
  {| data := replicate initialSize None; n := initialSize; beg := 0; readable := 0 |}.

(** [func (r *RingGrowing) ReadOne()]: [None] is a panic. *)
Definition ReadOne (r : RingGrowing) : option (option A * bool * RingGrowing) :=
  if bool_decide (readable r = 0) then Some (None, false, r)
  else
    element ← data r !! beg r;
    Some (element, true,
      {| data := <[beg r := None]> (data r); n := n r; beg := if bool_decide (beg r + 1 = n r) then 0 else beg r + 1; readable := readable r - 1 |}).

(** [copy(dst, src)] into a slice of another array *)
Definition copy (dst src : list (option A)) : list (option A) := take (length dst) src ++ drop (length src) dst.

(** [func (r *RingGrowing) WriteOne(data interface{})]: an index or a remainder
    that is out of range panics. *)
Definition grown (r : RingGrowing) : RingGrowing :=
  let newN := n r * 2 in
  let newData := replicate newN None in
  let to := beg r + readable r in
  let newData :=
    if bool_decide (to ≤ n r) then copy newData (drop (beg r) (take to (data r)))
    else
      let copied := length (drop (beg r) (data r)) in
      let newData := copy newData (drop (beg r) (data r)) in
      take copied newData ++ copy (drop copied newData) (take (to mod n r) (data r)) in
  {| data := newData; n := newN; beg := 0; readable := readable r |}.
Definition WriteOne (x : A) (r : RingGrowing) : option RingGrowing :=
  let r := if bool_decide (readable r = n r) then grown r else r in
  if bool_decide ((readable r + beg r) mod n r < length (data r) ∧ n r ≠ 0) then
    Some {| data := <[(readable r + beg r) mod n r := Some x]> (data r); n := n r; beg := beg r; readable := readable r + 1 |}
  else None.

(** ** The queue that it is *)

(** Where the item [i] is *)
Definition cell (r : RingGrowing) (i : nat) : nat := if bool_decide (beg r + i < n r) then beg r + i else beg r + i - n r.

Record represents (r : RingGrowing) (xs : list A) : Prop := {
  ring_length : length (data r) = n r;
  ring_size : 0 < n r;
  ring_beg : beg r < n r;
  ring_readable : readable r = length xs;
  ring_fits : length xs ≤ n r;
  ring_items i x : xs !! i = Some x → data r !! cell r i = Some (Some x)
}.

Lemma cell_mod r i : 0 < n r → beg r < n r → i < n r → (i + beg r) mod n r = cell r i.
Proof.
  intros Hn Hb Hi. unfold cell. case_bool_decide; [rewrite Nat.mod_small by lia; lia|].
  symmetry. apply (Nat.mod_unique _ _ 1); lia.
Qed.

Lemma cell_inj r i j : beg r < n r → i < n r → j < n r → cell r i = cell r j → i = j.
Proof. unfold cell. intros. repeat case_bool_decide; lia. Qed.

Lemma cell_lt r i : beg r < n r → i < n r → cell r i < n r.
Proof. unfold cell. intros. case_bool_decide; lia. Qed.

Lemma represents_New size : 0 < size → represents (NewRingGrowing size) [].
Proof. intros. split; simpl; try lia; [apply length_replicate|done]. Qed.

(** The data of a full ring in order *)
Lemma grown_data r : length (data r) = n r → beg r < n r → readable r = n r → data (grown r) = drop (beg r) (data r) ++ take (beg r) (data r) ++ replicate (n r) None.
Proof.
  intros Hlen Hb Hr. unfold grown. simpl. rewrite Hr. unfold copy. case_bool_decide as Hto.
  - assert (beg r = 0) as -> by lia. simpl. rewrite !drop_0, take_ge by (rewrite length_replicate, firstn_all2 by lia; lia).
    rewrite firstn_all2 by lia. rewrite drop_replicate, Hlen. do 2 f_equal. lia.
  - assert ((beg r + n r) mod n r = beg r) as Hmod.
    { symmetry. apply (Nat.mod_unique _ _ 1); lia. }
    rewrite Hmod. set (d := drop (beg r) (data r)). assert (length d = n r - beg r) as Hd by (unfold d; rewrite length_drop; lia).
    rewrite (take_ge d) by (rewrite length_replicate; lia). rewrite drop_replicate. rewrite take_app_length, drop_app_length.
    f_equal. rewrite take_ge by (rewrite length_take, length_replicate; lia). f_equal. rewrite drop_replicate, length_take. f_equal. lia.
Qed.

Lemma represents_grown r xs : represents r xs → readable r = n r → represents (grown r) xs.
Proof.
  intros [Hlen Hn Hb Hr Hfit Hitems] Hfull. pose proof (grown_data r Hlen Hb Hfull) as Hdata. split.
  - rewrite Hdata, !length_app, length_drop, length_take, length_replicate. simpl. lia.
  - simpl. lia.
  - simpl. lia.
  - exact Hr.
  - simpl. lia.
  - intros i x Hi. pose proof (lookup_lt_Some _ _ _ Hi) as Hlt. specialize (Hitems _ _ Hi). unfold cell in *. rewrite Hdata. simpl.
    rewrite bool_decide_true by lia. rewrite lookup_app. case_bool_decide as Hwrap.
    + by rewrite lookup_drop, Hitems.
    + rewrite lookup_ge_None_2 by (rewrite length_drop; lia). rewrite length_drop, lookup_app_l by (rewrite length_take; lia).
      rewrite lookup_take_lt by lia. rewrite <-Hitems. f_equal. lia.
Qed.

Lemma WriteOne_spec r xs x :
  represents r xs →
  ∃ r', WriteOne x r = Some r' ∧ represents r' (xs ++ [x]) ∧ n r' = if bool_decide (length xs = n r) then n r * 2 else n r.
Proof.
  intros Hrep. unfold WriteOne. set (r1 := if bool_decide (readable r = n r) then grown r else r).
  assert (represents r1 xs ∧ length xs < n r1 ∧ n r1 = if bool_decide (length xs = n r) then n r * 2 else n r) as (Hrep1 & Hspace & Hn1).
  { unfold r1. rewrite (ring_readable _ _ Hrep). pose proof (ring_fits _ _ Hrep). pose proof (ring_size _ _ Hrep). case_bool_decide.
    - split_and!; [apply represents_grown; [done|by rewrite (ring_readable _ _ Hrep)]|simpl; lia|done].
    - split_and!; [done|lia|done]. }
  destruct Hrep1 as [Hlen Hn Hb Hr Hfit Hitems]. rewrite Hr, cell_mod by done.
  pose proof (cell_lt r1 (length xs) Hb Hspace) as Hcell. rewrite bool_decide_true by lia. eexists. split_and!; [done| |exact Hn1].
  split; simpl; try done; [by rewrite length_insert|rewrite length_app; simpl; lia|rewrite length_app; simpl; lia|].
  intros i y Hi. change (cell _ i) with (cell r1 i). apply lookup_app_Some in Hi as [Hi|[Hge Hi]].
  - pose proof (lookup_lt_Some _ _ _ Hi). rewrite list_lookup_insert_ne; [by apply Hitems|].
    intros Heq%cell_inj; lia.
  - apply list_lookup_singleton_Some in Hi as [Hi <-]. assert (i = length xs) as -> by lia. apply list_lookup_insert_eq. lia.
Qed.

Lemma ReadOne_spec r xs :
  represents r xs →
  match xs with
  | [] => ReadOne r = Some (None, false, r)
  | x :: xs => ∃ r', ReadOne r = Some (Some x, true, r') ∧ represents r' xs ∧ n r' = n r
  end.
Proof.
  intros [Hlen Hn Hb Hr Hfit Hitems]. unfold ReadOne. destruct xs as [|x xs]; [by rewrite Hr|]. rewrite bool_decide_false by (rewrite Hr; simpl; lia).
  pose proof (Hitems 0 x eq_refl) as H0. unfold cell in H0. rewrite bool_decide_true, Nat.add_0_r in H0 by lia. rewrite H0. simpl.
  eexists. split_and!; [done| |done]. simpl in *.
  split; simpl; [by rewrite length_insert|done|case_bool_decide; lia|lia|lia|]. intros i y Hi. pose proof (lookup_lt_Some _ _ _ Hi).
  specialize (Hitems (S i) y Hi). unfold cell in *. simpl in *. rewrite <-Hitems.
  rewrite list_lookup_insert_ne; [f_equal|]; repeat case_bool_decide; lia.
Qed.

(** ** Any sequence of calls *)

(** [Some x] writes [x] and [None] reads; the results of the reads. *)
Fixpoint ring_calls (ops : list (option A)) (r : RingGrowing) : option (list (option A * bool) * RingGrowing) :=
  match ops with
  | [] => Some ([], r)
  | Some x :: ops => r ← WriteOne x r; ring_calls ops r
  | None :: ops => '(result, r) ← ReadOne r; '(results, r) ← ring_calls ops r; Some (result :: results, r)
  end.
Fixpoint queue_calls (ops : list (option A)) (xs : list A) : list (option A * bool) * list A :=
  match ops with
  | [] => ([], xs)
  | Some x :: ops => queue_calls ops (xs ++ [x])
  | None :: ops =>
    match xs with
    | [] => let '(results, xs) := queue_calls ops [] in ((None, false) :: results, xs)
    | x :: xs => let '(results, xs) := queue_calls ops xs in ((Some x, true) :: results, xs)
    end
  end.

(** The most items that are in it at a time *)
Fixpoint most (ops : list (option A)) (held : nat) : nat :=
  match ops with
  | [] => held
  | Some _ :: ops => held `max` most ops (held + 1)
  | None :: ops => held `max` most ops (held - 1)
  end.

Lemma most_ge ops held : held ≤ most ops held.
Proof. destruct ops as [|[x|] ops]; simpl; lia. Qed.

Lemma ring_simulates ops r xs bound :
  represents r xs → n r ≤ bound → 2 * most ops (length xs) ≤ bound →
  ∃ r', ring_calls ops r = Some ((queue_calls ops xs).1, r') ∧ represents r' (queue_calls ops xs).2 ∧ n r' ≤ bound.
Proof.
  revert r xs. induction ops as [|[x|] ops IH]; intros r xs Hrep Hbound Hmost; simpl in *; [by exists r|..].
  - destruct (WriteOne_spec r xs x Hrep) as (r1 & Hw & Hrep1 & Hn1). rewrite Hw. simpl. apply IH; [done| |].
    + rewrite Hn1. case_bool_decide; lia.
    + rewrite length_app. simpl. lia.
  - pose proof (ReadOne_spec r xs Hrep) as Hread. destruct xs as [|x xs].
    + rewrite Hread. simpl. destruct (IH r [] Hrep Hbound) as (r' & Hc & Hrep' & ?); [cbn in Hmost |- *; lia|]. rewrite Hc.
      destruct (queue_calls ops []) as [results xs]. simpl in *. by exists r'.
    + destruct Hread as (r1 & Hread & Hrep1 & Hn1). rewrite Hread. simpl in *. rewrite Nat.sub_0_r in Hmost.
      destruct (IH r1 xs Hrep1) as (r' & Hc & Hrep' & ?); [lia|lia|]. rewrite Hc. destruct (queue_calls ops xs) as [results xs']. simpl in *. by exists r'.
Qed.

(** A growing ring buffer is an unbounded queue: whatever is written and
    read, no call panics, the reads return what was written first and not read
    yet, or that there is nothing, and the array has never more than twice
    the room that was needed at a time, or its first size. *)
Theorem ring_is_queue size ops :
  0 < size →
  ∃ r, ring_calls ops (NewRingGrowing size) = Some ((queue_calls ops []).1, r) ∧ represents r (queue_calls ops []).2 ∧
    length (data r) ≤ size `max` (2 * most ops 0).
Proof.
  intros Hsize. destruct (ring_simulates ops (NewRingGrowing size) [] (size `max` (2 * most ops 0))) as (r & Hc & Hrep & Hn);
    [by apply represents_New|simpl; lia|simpl; lia|].
  exists r. split_and!; [done..|]. by rewrite (ring_length _ _ Hrep).
Qed.
End ring.
Arguments RingGrowing : clear implicits.

(** The buffer wraps around, and grows while it does. *)
Lemma ring_is_queue_witness :
  ∃ r, ring_calls [Some 1; Some 2; None; Some 3; Some 4; None; None; None; None] (NewRingGrowing 2) =
      Some ([(Some 1, true); (Some 2, true); (Some 3, true); (Some 4, true); (None, false)], r) ∧ represents r [] ∧ length (data r) ≤ 6.
Proof. apply (ring_is_queue 2 [Some 1; Some 2; None; Some 3; Some 4; None; None; None; None]). lia. Defined.
