(* ===== verification/DeltaFIFO.v ===== *)
(** client-go's tools/cache/delta_fifo.go: the queue between the reflector and
    the cache of an informer, which has for each key the changes that the
    cache has not seen yet. *)
From S2P Require Import Prelude GoStrings Types Conditions RunTypes Listers.

(** ** Data *)

(** [type DeltaType string]; a [Deleted] delta is a constructor of [Delta]. *)
Inductive DeltaType : Type := Added | Updated | Replaced | Sync.

#[export] Instance DeltaType_EqDecision : EqDecision DeltaType.
Proof. solve_decision. Defined.

(** The object of a deletion: the last state of it, or the tombstone
    [DeletedFinalStateUnknown] when its deletion was missed. *)
Inductive deleted (A : Type) : Type :=
  | FinalState (obj : A)
  | FinalStateUnknown (Key : string) (Obj : option A).
Arguments FinalState {A}.
Arguments FinalStateUnknown {A}.

(** [type Delta struct] *)
Inductive Delta (A : Type) : Type :=
  | Upsert (Type_ : DeltaType) (Object : A)
  | Deleted (Object : deleted A).
Arguments Upsert {A}.
Arguments Deleted {A}.

(** [type DeltaFIFO struct]; what the cache knows is an argument of the methods
    that look at [knownObjects]. *)
Record DeltaFIFO (A : Type) := {
  fifo_items : gmap string (list (Delta A));
  fifo_queue : list string;
  fifo_populated : bool;
  fifo_initialPopulationCount : nat;
  fifo_emitDeltaTypeReplaced : bool
}.
Arguments fifo_items {A}.
Arguments fifo_queue {A}.
Arguments fifo_populated {A}.
Arguments fifo_initialPopulationCount {A}.
Arguments fifo_emitDeltaTypeReplaced {A}.

Section fifo.
Context {A : Type} (meta : A → ObjectMeta).
Implicit Types (f : DeltaFIFO A) (known : gmap string A).

(** [func NewDeltaFIFOWithOptions(opts)] *)
Definition NewDeltaFIFOWithOptions (EmitDeltaTypeReplaced : bool) : DeltaFIFO A :=
  {| fifo_items := ∅; fifo_queue := []; fifo_populated := false; fifo_initialPopulationCount := 0;
     fifo_emitDeltaTypeReplaced := EmitDeltaTypeReplaced |}.

(** [MetaNamespaceKeyFunc] of an object, and [f.KeyOf(obj)] *)
Definition key_of (obj : A) : string := MetaNamespaceKeyFunc (meta obj).
Definition KeyOf_deleted (d : deleted A) : string :=
  match d with FinalState obj => key_of obj | FinalStateUnknown key _ => key end.
Definition KeyOf (d : Delta A) : string :=
  match d with Upsert _ obj => key_of obj | Deleted d => KeyOf_deleted d end.

(** [isDeletionDup(a, b)], of the last and the one before *)
Definition isDeletionDup (a b : Delta A) : option (Delta A) :=
  match b, a with
  | Deleted (FinalStateUnknown _ _), Deleted _ => Some a
  | Deleted _, Deleted _ => Some b
  | _, _ => None
  end.
Definition isDup (a b : Delta A) : option (Delta A) := isDeletionDup a b.

(** [dedupDeltas(deltas)] *)
Definition dedupDeltas (deltas : list (Delta A)) : list (Delta A) :=
  match reverse deltas with
  | a :: b :: rest => match isDup a b with Some out => reverse (out :: rest) | None => deltas end
  | _ => deltas
  end.

Definition set_populated (count : nat) f : DeltaFIFO A :=
  {| fifo_items := fifo_items f; fifo_queue := fifo_queue f; fifo_populated := true; fifo_initialPopulationCount := count;
     fifo_emitDeltaTypeReplaced := fifo_emitDeltaTypeReplaced f |}.

(** [f.queueActionLocked(actionType, obj)]: there is always a delta left, so
    that the branches for none cannot be taken ([dedupDeltas_nonempty]). *)
Definition queueActionLocked (d : Delta A) f : DeltaFIFO A :=
  let id := KeyOf d in
  {| fifo_items := <[id := dedupDeltas (default [] (fifo_items f !! id) ++ [d])]> (fifo_items f);
     fifo_queue := match fifo_items f !! id with Some _ => fifo_queue f | None => fifo_queue f ++ [id] end;
     fifo_populated := fifo_populated f; fifo_initialPopulationCount := fifo_initialPopulationCount f;
     fifo_emitDeltaTypeReplaced := fifo_emitDeltaTypeReplaced f |}.

(** [f.Add(obj)], [f.Update(obj)] and [f.Delete(obj)] *)
Definition fifo_Add (obj : A) f : DeltaFIFO A :=
  queueActionLocked (Upsert Added obj) (set_populated (fifo_initialPopulationCount f) f).
Definition fifo_Update (obj : A) f : DeltaFIFO A :=
  queueActionLocked (Upsert Updated obj) (set_populated (fifo_initialPopulationCount f) f).
Definition fifo_Delete known (obj : A) f : DeltaFIFO A :=
  let f := set_populated (fifo_initialPopulationCount f) f in
  match known !! key_of obj, fifo_items f !! key_of obj with
  | None, None => f
  | _, _ => queueActionLocked (Deleted (FinalState obj)) f
  end.

(** [f.Replace(list, resourceVersion)]: [knownKeys] is what
    [f.knownObjects.ListKeys()] returns. *)
Definition Replace_items (list : list A) f : DeltaFIFO A :=
  let action := if fifo_emitDeltaTypeReplaced f then Replaced else Sync in
  foldl (λ f item, queueActionLocked (Upsert action item) f) f list.
Definition Replace_known known (keys : gset string) (knownKeys : list string) (f : DeltaFIFO A) : DeltaFIFO A * nat :=
  foldl (λ '(f, queuedDeletions) k,
    if bool_decide (k ∈ keys) then (f, queuedDeletions)
    else (queueActionLocked (Deleted (FinalStateUnknown k (known !! k))) f, S queuedDeletions)) (f, 0) knownKeys.
Definition Replace known (knownKeys : list string) (list : list A) f : DeltaFIFO A :=
  let keys := list_to_set (key_of <$> list) : gset string in
  let '(f, queuedDeletions) := Replace_known known keys knownKeys (Replace_items list f) in
  if fifo_populated f then f else set_populated (size keys + queuedDeletions) f.

(** [f.Resync()] with [f.syncKeyLocked(key)] *)
Definition syncKeyLocked known (f : DeltaFIFO A) (key : string) : DeltaFIFO A :=
  match known !! key with
  | None => f
  | Some obj =>
    match fifo_items f !! key_of obj with
    | Some (_ :: _) => f
    | _ => queueActionLocked (Upsert Sync obj) f
    end
  end.
Definition Resync known (knownKeys : list string) f : DeltaFIFO A := foldl (syncKeyLocked known) f knownKeys.

(** [f.Pop(process)], up to the call of [process]: the deltas it is called with.
    With an empty queue it waits. *)
Fixpoint Pop_loop (queue : list string) (count : nat) (items : gmap string (list (Delta A))) :
    option (list (Delta A) * (list string * nat * gmap string (list (Delta A)))) :=
  match queue with
  | [] => None
  | id :: queue =>
    match items !! id with
    | None => Pop_loop queue (count - 1) items
    | Some item => Some (item, (queue, count - 1, delete id items))
    end
  end.
Definition Pop f : option (list (Delta A) * DeltaFIFO A) :=
  match Pop_loop (fifo_queue f) (fifo_initialPopulationCount f) (fifo_items f) with
  | None => None
  | Some (item, (queue, count, items)) => Some (item,
      {| fifo_items := items; fifo_queue := queue; fifo_populated := fifo_populated f; fifo_initialPopulationCount := count;
         fifo_emitDeltaTypeReplaced := fifo_emitDeltaTypeReplaced f |})
  end.

(** [f.HasSynced()] *)
Definition fifo_HasSynced f : bool := fifo_populated f && bool_decide (fifo_initialPopulationCount f = 0).

(** ** Lemmas *)

(** What a delta makes of its key *)
Definition effect (d : Delta A) : option A := match d with Upsert _ obj => Some obj | Deleted _ => None end.

(** What the cache will have of a key when it has seen all deltas *)
Definition view known f (k : string) : option A :=
  match fifo_items f !! k with
  | Some ds => match last ds with Some d => effect d | None => known !! k end
  | None => known !! k
  end.

(** The queue has each key with deltas once; there are deltas, and of the key. *)
Record wf_fifo f : Prop := {
  wf_fifo_NoDup : NoDup (fifo_queue f);
  wf_fifo_queue k : k ∈ fifo_queue f ↔ is_Some (fifo_items f !! k);
  wf_fifo_nonempty k ds : fifo_items f !! k = Some ds → ds ≠ [];
  wf_fifo_keys k ds : fifo_items f !! k = Some ds → Forall (λ d, KeyOf d = k) ds
}.

Lemma dedup_snoc ds d :
  dedupDeltas (ds ++ [d]) = ds ++ [d] ∨
  ∃ ds' b o o', ds = ds' ++ [b] ∧ b = Deleted o ∧ d = Deleted o' ∧ (dedupDeltas (ds ++ [d]) = ds' ++ [d] ∨ dedupDeltas (ds ++ [d]) = ds' ++ [b]).
Proof.
  unfold dedupDeltas. rewrite reverse_snoc. destruct ds as [|b ds _] using rev_ind; [by left|].
  rewrite reverse_snoc. destruct (isDup d b) as [out|] eqn:Hdup; [right|by left].
  assert (∃ o o', b = Deleted o ∧ d = Deleted o' ∧ (out = d ∨ out = b)) as (o & o' & Hb & Hd & Hout).
  { destruct b as [|[]], d; simpl in Hdup; simplify_eq; try done; eexists _, _; split_and!; try done; [by right|by left]. }
  exists ds, b, o, o'. split_and!; [done..|]. rewrite reverse_cons, reverse_involutive. destruct Hout as [-> | ->]; [by left|by right].
Qed.

Lemma dedupDeltas_nonempty ds d : dedupDeltas (ds ++ [d]) ≠ [].
Proof. destruct (dedup_snoc ds d) as [->|(? & ? & ? & ? & _ & _ & _ & [-> | ->])]; by intros []%app_nil. Qed.

Lemma dedup_last ds d : effect <$> last (dedupDeltas (ds ++ [d])) = Some (effect d).
Proof.
  destruct (dedup_snoc ds d) as [->|(? & ? & ? & ? & _ & -> & -> & [-> | ->])]; by rewrite last_snoc.
Qed.

Lemma dedup_in ds d x : x ∈ dedupDeltas (ds ++ [d]) → x ∈ ds ∨ x = d.
Proof. destruct (dedup_snoc ds d) as [->|(? & ? & ? & ? & -> & _ & _ & [-> | ->])]; set_solver. Qed.

(** *** Queueing a delta *)
Lemma queueAction_items d f k :
  fifo_items (queueActionLocked d f) !! k =
    if bool_decide (k = KeyOf d) then Some (dedupDeltas (default [] (fifo_items f !! k) ++ [d])) else fifo_items f !! k.
Proof. simpl. case_bool_decide; subst; [by rewrite lookup_insert_eq|by rewrite lookup_insert_ne]. Qed.

Lemma view_queueAction known d f k :
  view known (queueActionLocked d f) k = if bool_decide (k = KeyOf d) then effect d else view known f k.
Proof.
  unfold view. rewrite queueAction_items. case_bool_decide; [|done]. pose proof (dedup_last (default [] (fifo_items f !! k)) d) as Hlast.
  destruct (last _) as [d'|]; simpl in Hlast; congruence.
Qed.

Lemma wf_queueAction d f : wf_fifo f → wf_fifo (queueActionLocked d f).
Proof.
  intros [Hnd Hq Hne Hk]. split.
  - simpl. destruct (fifo_items f !! KeyOf d) as [ds|] eqn:Hd; [done|]. apply NoDup_app. split_and!; [done| |apply NoDup_singleton].
    intros k Hin. rewrite list_elem_of_singleton. intros ->. apply Hq in Hin as [? ?]. congruence.
  - intros k. rewrite queueAction_items. simpl. case_bool_decide as Hkey.
    + split; [by eexists|]. intros _. subst k. destruct (fifo_items f !! KeyOf d) eqn:Hd; [by apply Hq; eexists|set_solver].
    + rewrite <-Hq. destruct (fifo_items f !! KeyOf d); [done|]. set_solver.
  - intros k ds. rewrite queueAction_items. case_bool_decide; [|apply Hne]. intros [= <-]. apply dedupDeltas_nonempty.
  - intros k ds. rewrite queueAction_items. case_bool_decide as Hkey; [|apply Hk]. intros [= <-]. apply Forall_forall. intros x.
    intros [Hx| ->]%dedup_in; [|done]. destruct (fifo_items f !! k) as [ds|] eqn:Hds; simpl in Hx; [|by apply not_elem_of_nil in Hx].
    specialize (Hk _ _ Hds). rewrite Forall_forall in Hk. by apply Hk.
Qed.

Lemma wf_set_populated n f : wf_fifo f → wf_fifo (set_populated n f).
Proof. by intros [? ? ? ?]. Qed.

(** The deltas that are queued are those that were and the new one. *)
Definition queued f (d : Delta A) : Prop := ∃ k ds, fifo_items f !! k = Some ds ∧ d ∈ ds.

Lemma queued_queueAction d f x : queued (queueActionLocked d f) x → queued f x ∨ x = d.
Proof.
  intros (k & ds & Hk & Hx). rewrite queueAction_items in Hk. case_bool_decide; [|by left; exists k, ds]. injection Hk as <-.
  apply dedup_in in Hx as [Hx| ->]; [|by right]. destruct (fifo_items f !! k) as [ds'|] eqn:Hds; [by left; exists k, ds'|by apply not_elem_of_nil in Hx].
Qed.

(** What every queueing of one of these deltas preserves holds in the end. *)
Lemma fold_queueAction (P : DeltaFIFO A → Prop) (Q : Delta A → Prop) (ds : list (Delta A)) f :
  (∀ d f, Q d → P f → P (queueActionLocked d f)) → Forall Q ds → P f → P (foldl (λ f d, queueActionLocked d f) f ds).
Proof. intros HP. revert f. induction ds as [|d ds IH]; intros f HQ Hf; [done|]. inversion HQ; subst. simpl. auto. Qed.

(** *** Replace and Resync *)

(** The objects of a list, by their keys *)
Definition index_by (objs : list A) : gmap string A := list_to_map ((λ obj, (key_of obj, obj)) <$> objs).

(** The deltas that [Replace] queues *)
Definition replaced f (objs : list A) : list (Delta A) :=
  Upsert (if fifo_emitDeltaTypeReplaced f then Replaced else Sync) <$> objs.
Definition removed known (keys : gset string) (knownKeys : list string) : list (Delta A) :=
  (λ k, Deleted (FinalStateUnknown k (known !! k))) <$> filter (.∉ keys) knownKeys.

Lemma Replace_items_fold objs f : Replace_items objs f = foldl (λ f d, queueActionLocked d f) f (replaced f objs).
Proof. unfold Replace_items, replaced. generalize (if fifo_emitDeltaTypeReplaced f then Replaced else Sync). intros t. revert f. by induction objs as [|o objs IH]; intros f; simpl. Qed.

Lemma Replace_known_fold known keys knownKeys f :
  Replace_known known keys knownKeys f =
    (foldl (λ f d, queueActionLocked d f) f (removed known keys knownKeys), length (removed known keys knownKeys)).
Proof.
  unfold Replace_known, removed. enough (∀ n, foldl (λ '(f, queuedDeletions) k,
    if bool_decide (k ∈ keys) then (f, queuedDeletions)
    else (queueActionLocked (Deleted (FinalStateUnknown k (known !! k))) f, S queuedDeletions)) (f, n) knownKeys =
    (foldl (λ f d, queueActionLocked d f) f ((λ k, Deleted (FinalStateUnknown k (known !! k))) <$> filter (.∉ keys) knownKeys),
     n + length (filter (.∉ keys) knownKeys))) as H.
  { rewrite H. by rewrite length_fmap. }
  revert f. induction knownKeys as [|k ks IH]; intros f n; [by rewrite Nat.add_0_r|]. simpl. case_bool_decide.
  - rewrite IH, filter_cons_False by (intros Hn; by apply Hn). done.
  - rewrite IH, filter_cons_True by done. simpl. f_equal. lia.
Qed.

Definition queue_all (ds : list (Delta A)) f : DeltaFIFO A := foldl (λ f d, queueActionLocked d f) f ds.

Lemma queue_all_populated ds f : fifo_populated (queue_all ds f) = fifo_populated f.
Proof. revert f. induction ds as [|d ds IH]; intros f; [done|]. simpl. unfold queue_all in *. simpl. by rewrite IH. Qed.

Lemma queue_all_emit ds f : fifo_emitDeltaTypeReplaced (queue_all ds f) = fifo_emitDeltaTypeReplaced f.
Proof. revert f. induction ds as [|d ds IH]; intros f; [done|]. simpl. unfold queue_all in *. simpl. by rewrite IH. Qed.

(** All the deltas of a [Replace], which it queues one after the other *)
Definition replacing known (knownKeys : list string) (objs : list A) f : list (Delta A) :=
  replaced f objs ++ removed known (list_to_set (key_of <$> objs)) knownKeys.

Lemma Replace_queues known knownKeys objs f :
  let ds := replacing known knownKeys objs f in
  Replace known knownKeys objs f =
    if fifo_populated f then queue_all ds f
    else set_populated (size (list_to_set (key_of <$> objs) : gset string) + length (removed known (list_to_set (key_of <$> objs)) knownKeys))
           (queue_all ds f).
Proof.
  cbv zeta. unfold Replace. rewrite Replace_known_fold, Replace_items_fold. unfold replacing, queue_all. rewrite foldl_app.
  fold (queue_all (replaced f objs) f). set (g := queue_all _ _).
  fold (queue_all (removed known (list_to_set (key_of <$> objs)) knownKeys) g). unfold g. by rewrite !queue_all_populated.
Qed.

Lemma view_queue_all known ds f k :
  view known (queue_all ds f) k =
    match last (filter (λ d, KeyOf d = k) ds) with Some d => effect d | None => view known f k end.
Proof.
  unfold queue_all. induction ds as [|d ds IH] using rev_ind; [done|].
  rewrite foldl_app. simpl. rewrite view_queueAction, filter_app, filter_cons, filter_nil. case_bool_decide as Hk.
  - rewrite decide_True by done. by rewrite last_snoc.
  - rewrite decide_False by done. by rewrite app_nil_r.
Qed.

Lemma view_set_populated known n f k : view known (set_populated n f) k = view known f k.
Proof. done. Qed.

Lemma filter_no_key k (ds : list (Delta A)) : (∀ d, d ∈ ds → KeyOf d ≠ k) → filter (λ d, KeyOf d = k) ds = [].
Proof.
  induction ds as [|d ds IH]; intros H; [done|]. rewrite filter_cons_False by (apply H; left). apply IH. intros d' Hd'. apply H. by right.
Qed.

Lemma last_replaced f objs k :
  NoDup (key_of <$> objs) →
  last (filter (λ d, KeyOf d = k) (replaced f objs)) =
    Upsert (if fifo_emitDeltaTypeReplaced f then Replaced else Sync) <$> index_by objs !! k.
Proof.
  intros Hnd. unfold replaced, index_by. induction objs as [|o objs IH]; [done|].
  apply NoDup_cons in Hnd as [Hnew Hnd]. specialize (IH Hnd). rewrite !fmap_cons, filter_cons. simpl. case_decide as Hk.
  - rewrite <-Hk, lookup_insert_eq, filter_no_key; [done|]. intros d (o' & -> & Ho')%list_elem_of_fmap Heq. destruct Hnew.
    simpl in Heq. rewrite <-Heq. by apply list_elem_of_fmap_2.
  - by rewrite lookup_insert_ne.
Qed.

Lemma removed_elem known keys knownKeys d :
  d ∈ removed known keys knownKeys ↔ ∃ k, d = Deleted (FinalStateUnknown k (known !! k)) ∧ k ∈ knownKeys ∧ k ∉ keys.
Proof.
  unfold removed. rewrite list_elem_of_fmap. setoid_rewrite list_elem_of_filter. naive_solver.
Qed.

Lemma last_removed known keys knownKeys k :
  match last (filter (λ d, KeyOf d = k) (removed known keys knownKeys)) with
  | Some d => effect d = None ∧ k ∈ knownKeys ∧ k ∉ keys
  | None => k ∉ knownKeys ∨ k ∈ keys
  end.
Proof.
  destruct (last _) as [d|] eqn:Hlast.
  - apply last_Some_elem_of in Hlast. apply list_elem_of_filter in Hlast as [Hk (k' & -> & ? & ?)%removed_elem]. simpl in Hk. by subst.
  - apply last_None in Hlast. destruct (decide (k ∈ keys)) as [?|Hn]; [by right|left]. intros Hin.
    assert (Deleted (FinalStateUnknown k (known !! k)) ∈ filter (λ d, KeyOf d = k) (removed known keys knownKeys)) as H.
    { apply list_elem_of_filter. split; [done|]. apply removed_elem. by exists k. }
    rewrite Hlast in H. by apply not_elem_of_nil in H.
Qed.

Lemma index_by_elem objs k o : NoDup (key_of <$> objs) → index_by objs !! k = Some o ↔ o ∈ objs ∧ key_of o = k.
Proof.
  intros Hnd. unfold index_by. rewrite <-elem_of_list_to_map.
  - rewrite list_elem_of_fmap. split; [intros (o' & [= -> ->] & ?); done|]. intros [? <-]. by exists o.
  - rewrite <-list_fmap_compose. done.
Qed.

(** After a [Replace] the cache is going to have the list, and the ghosts:
    what is queued, neither known to the cache nor in the list. *)
Lemma view_Replace known knownKeys objs f k :
  NoDup (key_of <$> objs) → knownKeys ≡ₚ elements (dom known) →
  view known (Replace known knownKeys objs f) k =
    match index_by objs !! k with
    | Some obj => Some obj
    | None => if bool_decide (k ∈ dom known) then None else view known f k
    end.
Proof.
  intros Hnd Hknown. rewrite Replace_queues. set (g := queue_all _ f).
  assert (view known (if fifo_populated f then g else set_populated (size (list_to_set (key_of <$> objs) : gset string) +
    length (removed known (list_to_set (key_of <$> objs)) knownKeys)) g) k = view known g k) as -> by by destruct (fifo_populated f).
  unfold g. rewrite view_queue_all. unfold replacing. rewrite filter_app, last_app.
  pose proof (last_removed known (list_to_set (key_of <$> objs)) knownKeys k) as Hrem.
  assert (k ∈ (list_to_set (key_of <$> objs) : gset string) ↔ is_Some (index_by objs !! k)) as Hin.
  { rewrite elem_of_list_to_set, list_elem_of_fmap. split.
    - intros (o & -> & Ho). exists o. by apply index_by_elem.
    - intros [o [Ho <-]%index_by_elem]; [by exists o|done]. }
  assert (k ∈ knownKeys ↔ k ∈ dom known) as Hks by (rewrite Hknown; by rewrite elem_of_elements).
  destruct (last (filter _ (removed _ _ _))) as [d|].
  - destruct Hrem as (-> & Hk & Hn). destruct (index_by objs !! k); [by destruct Hn; apply Hin; eexists|].
    by rewrite bool_decide_true by by apply Hks.
  - rewrite last_replaced by done. destruct (index_by objs !! k) as [o|]; [done|]. simpl.
    rewrite bool_decide_false; [done|]. intros Hd%Hks. destruct Hrem as [?|[? ?]%Hin]; done.
Qed.

Lemma view_Resync known knownKeys f k :
  (∀ k o, known !! k = Some o → key_of o = k) → (∀ k ds, fifo_items f !! k = Some ds → ds ≠ []) →
  view known (Resync known knownKeys f) k = view known f k.
Proof.
  intros Hkeyed Hne.
  enough (view known (Resync known knownKeys f) k = view known f k ∧
    ∀ k ds, fifo_items (Resync known knownKeys f) !! k = Some ds → ds ≠ []) by tauto.
  unfold Resync. induction knownKeys as [|k' ks [IH IHne]] using rev_ind; [done|]. rewrite foldl_app. simpl.
  set (g := foldl _ f ks) in *. unfold syncKeyLocked. destruct (known !! k') as [o|] eqn:Ho; [|done].
  destruct (fifo_items g !! key_of o) as [[|? ?]|] eqn:Hi; [by destruct (IHne _ _ Hi)|done|]. split.
  - rewrite view_queueAction. case_bool_decide as Hk; [|done]. simpl in Hk. rewrite <-IH. unfold view. subst k. rewrite Hi. simpl.
    rewrite <-Ho. f_equal. symmetry. by apply Hkeyed.
  - intros k0 ds. rewrite queueAction_items. case_bool_decide; [|apply IHne]. intros [= <-]. apply dedupDeltas_nonempty.
Qed.

(** *** Pop *)
Lemma Pop_spec f :
  wf_fifo f →
  match fifo_queue f with
  | [] => Pop f = None
  | id :: queue => ∃ ds, fifo_items f !! id = Some ds ∧ Pop f = Some (ds,
      {| fifo_items := delete id (fifo_items f); fifo_queue := queue; fifo_populated := fifo_populated f;
         fifo_initialPopulationCount := fifo_initialPopulationCount f - 1;
         fifo_emitDeltaTypeReplaced := fifo_emitDeltaTypeReplaced f |})
  end.
Proof.
  intros Hwf. unfold Pop. destruct (fifo_queue f) as [|id queue] eqn:Hq; [done|].
  assert (is_Some (fifo_items f !! id)) as [ds Hds] by (apply (wf_fifo_queue _ Hwf); rewrite Hq; left).
  exists ds. split; [done|]. simpl. by rewrite Hds.
Qed.

Lemma wf_Pop f ds f' : wf_fifo f → Pop f = Some (ds, f') → wf_fifo f'.
Proof.
  intros Hwf Hpop. pose proof (Pop_spec f Hwf) as Hspec. destruct Hwf as [Hnd Hqi Hne Hk]. destruct (fifo_queue f) as [|id queue] eqn:Hq; [congruence|].
  destruct Hspec as (ds' & Hds & Hp). rewrite Hpop in Hp. injection Hp as <- ->. apply NoDup_cons in Hnd as [Hnew Hnd]. split; simpl.
  - done.
  - intros k. rewrite lookup_delete_is_Some, <-Hqi, elem_of_cons. split; [|naive_solver]. intros Hin. split; [congruence|by right].
  - intros k ds0 [_ H]%lookup_delete_Some. by eapply Hne.
  - intros k ds0 [_ H]%lookup_delete_Some. by eapply Hk.
Qed.
End fifo.
