(* ===== verification/SharedInformer.v ===== *)
(** client-go's tools/cache/shared_informer.go and reflector.go: an informer,
    from the answers of the API server to its handlers. The reflector lists and
    watches into the queue of DeltaFIFO; the processing loop takes the deltas of
    a key at a time from it, updates the cache and distributes notifications;
    each listener has a goroutine that buffers its notifications and one that
    calls its handler. They are the steps of a state machine, in any order. *)
From S2P Require Import Prelude GoStrings Types Conditions RunTypes Listers QueueSpec DeltaFIFO.

(** ** Data *)
Section data.
Context (A : Type).

(** [addNotification], [updateNotification] and [deleteNotification] *)
Inductive informer_notification : Type :=
  | addNotification (newObj : A)
  | updateNotification (oldObj newObj : A)
  | deleteNotification (oldObj : deleted A).

(** [type processorListener struct], with the notification that [pop] holds for
    [nextCh], the queue of the others ([ring_is_queue] of RingGrowing), and the one whose handler [run] is
    calling; and whether it is one of the [syncingListeners]. *)
Record processorListener := {
  listener_handling : option informer_notification;
  listener_notification : option informer_notification;
  listener_pendingNotifications : list informer_notification;
  listener_requestedResyncPeriod : Z;
  listener_resyncPeriod : Z;
  listener_nextResync : Z;
  listener_syncing : bool
}.

(** What the API server answers to a list: the items with the resource version
    of the list, or an error, that is expired (or for a version that is too
    large) or not. *)
Inductive list_answer : Type := ListOk (items : list A) (resourceVersion : string) | ListErr (expired : bool).

(** What it answers to a watch: an error is one to retry (the connection is
    refused, or there are too many requests) or not. *)
Inductive watch_answer : Type := WatchOk | WatchErr (retry : bool).

(** What comes from the channel of a watch *)
Inductive watch_event : Type :=
  | WatchAdded (obj : A)
  | WatchModified (obj : A)
  | WatchDeleted (obj : A)
  | WatchBookmark (resourceVersion : string)
  | WatchError (tooManyRequests : bool)
  (** the channel is closed, less than a second after the watch began or not *)
  | WatchClosed (short : bool).

(** Where [ListAndWatch] is: not called, waiting for a list, for the second time
    or not, with a list, about to watch, and in [watchHandler] with the count of
    the events. *)
Inductive phase : Type :=
  | Waiting
  | Listing (resourceVersion : string) (again : bool)
  | Listed (items : list A) (resourceVersion : string)
  | WatchStarts (resourceVersion : string)
  | Watching (resourceVersion : string) (eventCount : nat).

(** [type Reflector struct] *)
Record Reflector := {
  lastSyncResourceVersion : string;
  isLastSyncResourceVersionUnavailable : bool;
  reflector_phase : phase
}.

(** [type sharedIndexInformer struct], with the queue and the reflector that
    [Run] makes; resync periods are in nanoseconds. *)
Record sharedIndexInformer := {
  informer_indexer : gmap string A;
  informer_fifo : DeltaFIFO A;
  informer_listeners : list processorListener;
  informer_resyncCheckPeriod : Z;
  informer_started : bool;
  informer_reflector : Reflector
}.
End data.
Arguments addNotification {A}.
Arguments updateNotification {A}.
Arguments deleteNotification {A}.
Arguments listener_handling {A}.
Arguments listener_notification {A}.
Arguments listener_pendingNotifications {A}.
Arguments listener_requestedResyncPeriod {A}.
Arguments listener_resyncPeriod {A}.
Arguments listener_nextResync {A}.
Arguments listener_syncing {A}.
Arguments ListOk {A}.
Arguments ListErr {A}.
Arguments WatchAdded {A}.
Arguments WatchModified {A}.
Arguments WatchDeleted {A}.
Arguments WatchBookmark {A}.
Arguments WatchError {A}.
Arguments WatchClosed {A}.
Arguments Waiting {A}.
Arguments Listing {A}.
Arguments Listed {A}.
Arguments WatchStarts {A}.
Arguments Watching {A}.
Arguments lastSyncResourceVersion {A}.
Arguments isLastSyncResourceVersionUnavailable {A}.
Arguments reflector_phase {A}.
Arguments informer_indexer {A}.
Arguments informer_fifo {A}.
Arguments informer_listeners {A}.
Arguments informer_resyncCheckPeriod {A}.
Arguments informer_started {A}.
Arguments informer_reflector {A}.

Section informer.
Context {A : Type} (meta : A → ObjectMeta).
Implicit Types (s : sharedIndexInformer A) (r : Reflector A) (l : processorListener A) (store : gmap string A).

(** ** The reflector *)

(** [r.relistResourceVersion()] *)
Definition relistResourceVersion r : string :=
  if isLastSyncResourceVersionUnavailable r then ""
  else if bool_decide (lastSyncResourceVersion r = "") then "0"
  else lastSyncResourceVersion r.

Definition set_phase (p : phase A) r : Reflector A :=
  {| lastSyncResourceVersion := lastSyncResourceVersion r;
     isLastSyncResourceVersionUnavailable := isLastSyncResourceVersionUnavailable r; reflector_phase := p |}.
Definition setIsLastSyncResourceVersionUnavailable (b : bool) r : Reflector A :=
  {| lastSyncResourceVersion := lastSyncResourceVersion r; isLastSyncResourceVersionUnavailable := b; reflector_phase := reflector_phase r |}.
Definition setLastSyncResourceVersion (v : string) r : Reflector A :=
  {| lastSyncResourceVersion := v; isLastSyncResourceVersionUnavailable := isLastSyncResourceVersionUnavailable r;
     reflector_phase := reflector_phase r |}.

(** [ListAndWatch] is called, by the loop of [Run]. *)
Definition ListAndWatch r : option (Reflector A) :=
  match reflector_phase r with
  | Waiting => Some (set_phase (Listing (relistResourceVersion r) false) r)
  | _ => None
  end.

(** The answer to [pager.List]: an expired one has it list once more, with what
    [relistResourceVersion] is then; after another error it returns. *)
Definition list_answered (a : list_answer A) r : option (Reflector A) :=
  match reflector_phase r, a with
  | Listing _ _, ListOk items rv => Some (set_phase (Listed items rv) (setIsLastSyncResourceVersionUnavailable false r))
  | Listing _ false, ListErr true =>
    let r := setIsLastSyncResourceVersionUnavailable true r in Some (set_phase (Listing (relistResourceVersion r) true) r)
  | Listing _ _, ListErr _ => Some (set_phase Waiting r)
  | _, _ => None
  end.

(** [r.syncWith(items, resourceVersion)] *)
Definition syncWith store (knownKeys : list string) (f : DeltaFIFO A) r : option (DeltaFIFO A * Reflector A) :=
  match reflector_phase r with
  | Listed items rv => Some (Replace meta store knownKeys items f, set_phase (WatchStarts rv) (setLastSyncResourceVersion rv r))
  | _ => None
  end.

(** The answer to [r.listerWatcher.Watch(options)] *)
Definition watch_answered (a : watch_answer) r : option (Reflector A) :=
  match reflector_phase r, a with
  | WatchStarts rv, WatchOk => Some (set_phase (Watching rv 0) r)
  | WatchStarts rv, WatchErr true => Some r
  | WatchStarts rv, WatchErr false => Some (set_phase Waiting r)
  | _, _ => None
  end.

(** One turn of the loop of [watchHandler], and where [ListAndWatch] goes when
    it returns: after an error other than too many requests it returns, too. *)
Definition watchHandler store (e : watch_event A) (f : DeltaFIFO A) r : option (DeltaFIFO A * Reflector A) :=
  match reflector_phase r with
  | Watching rv eventCount =>
    let next rv f := Some (f, set_phase (Watching rv (S eventCount)) (setLastSyncResourceVersion rv r)) in
    match e with
    | WatchAdded obj => next (ObjectMeta_ResourceVersion (meta obj)) (fifo_Add meta obj f)
    | WatchModified obj => next (ObjectMeta_ResourceVersion (meta obj)) (fifo_Update meta obj f)
    | WatchDeleted obj => next (ObjectMeta_ResourceVersion (meta obj)) (fifo_Delete meta store obj f)
    | WatchBookmark rv => next rv f
    | WatchError true => Some (f, set_phase (WatchStarts rv) r)
    | WatchError false => Some (f, set_phase Waiting r)
    | WatchClosed short =>
      if short && bool_decide (eventCount = 0) then Some (f, set_phase Waiting r) else Some (f, set_phase (WatchStarts rv) r)
    end
  | _ => None
  end.

(** ** The processing loop *)

(** One turn of the loop of [s.HandleDeltas(obj)]: the cache, and what is
    distributed, with whether it is a resync. *)
Definition HandleDelta store (d : Delta A) : gmap string A * (informer_notification A * bool) :=
  match d with
  | Upsert t obj =>
    let key := key_of meta obj in
    match store !! key with
    | Some old =>
      let isSync :=
        match t with
        | Sync => true
        | Replaced => bool_decide (ObjectMeta_ResourceVersion (meta obj) = ObjectMeta_ResourceVersion (meta old))
        | _ => false
        end in
      (<[key := obj]> store, (updateNotification old obj, isSync))
    | None => (<[key := obj]> store, (addNotification obj, false))
    end
  | Deleted o => (delete (KeyOf_deleted meta o) store, (deleteNotification o, false))
  end.

(** [listener.add(notification)], as [pop] takes it *)
Definition listener_add (n : informer_notification A) l : processorListener A :=
  {| listener_handling := listener_handling l;
     listener_notification := match listener_notification l with None => Some n | Some n' => Some n' end;
     listener_pendingNotifications :=
       match listener_notification l with
       | None => listener_pendingNotifications l
       | Some _ => listener_pendingNotifications l ++ [n]
       end;
     listener_requestedResyncPeriod := listener_requestedResyncPeriod l; listener_resyncPeriod := listener_resyncPeriod l;
     listener_nextResync := listener_nextResync l; listener_syncing := listener_syncing l |}.

(** [p.distribute(obj, sync)] *)
Definition distribute (obj : informer_notification A) (sync : bool) (listeners : list (processorListener A)) :
    list (processorListener A) :=
  (λ l, if sync && negb (listener_syncing l) then l else listener_add obj l) <$> listeners.

(** [s.HandleDeltas(obj)] *)
Fixpoint HandleDeltas (deltas : list (Delta A)) store (listeners : list (processorListener A)) :
    gmap string A * list (processorListener A) :=
  match deltas with
  | [] => (store, listeners)
  | d :: deltas =>
    let '(store, (obj, sync)) := HandleDelta store d in HandleDeltas deltas store (distribute obj sync listeners)
  end.

(** ** Listeners *)

(** [determineResyncPeriod(desired, check)] *)
Definition determineResyncPeriod (desired check : Z) : Z :=
  if bool_decide (desired = 0)%Z then desired
  else if bool_decide (check = 0)%Z then 0%Z
  else if bool_decide (desired < check)%Z then check
  else desired.

(** [newProcessListener(handler, requestedResyncPeriod, resyncPeriod, now, bufferSize)];
    [addListenerLocked] makes it a syncing one. *)
Definition newProcessListener (requestedResyncPeriod resyncPeriod now : Z) : processorListener A :=
  {| listener_handling := None; listener_notification := None; listener_pendingNotifications := [];
     listener_requestedResyncPeriod := requestedResyncPeriod; listener_resyncPeriod := resyncPeriod;
     listener_nextResync := (now + resyncPeriod)%Z; listener_syncing := true |}.

(** [p.resyncCheckPeriodChanged(resyncCheckPeriod)], with [setResyncPeriod] *)
Definition resyncCheckPeriodChanged (resyncCheckPeriod : Z) (listeners : list (processorListener A)) : list (processorListener A) :=
  (λ l, {| listener_handling := listener_handling l; listener_notification := listener_notification l;
     listener_pendingNotifications := listener_pendingNotifications l;
     listener_requestedResyncPeriod := listener_requestedResyncPeriod l;
     listener_resyncPeriod := determineResyncPeriod (listener_requestedResyncPeriod l) resyncCheckPeriod;
     listener_nextResync := listener_nextResync l; listener_syncing := listener_syncing l |}) <$> listeners.

(** [listener.shouldResync(now)], and [p.shouldResync()] with [determineNextResync] *)
Definition listener_shouldResync (now : Z) l : bool :=
  bool_decide (listener_resyncPeriod l ≠ 0)%Z && bool_decide (listener_nextResync l ≤ now)%Z.
Definition shouldResync (now : Z) (listeners : list (processorListener A)) : bool * list (processorListener A) :=
  (existsb (listener_shouldResync now) listeners,
   (λ l, let b := listener_shouldResync now l in
     {| listener_handling := listener_handling l; listener_notification := listener_notification l;
        listener_pendingNotifications := listener_pendingNotifications l;
        listener_requestedResyncPeriod := listener_requestedResyncPeriod l; listener_resyncPeriod := listener_resyncPeriod l;
        listener_nextResync := if b then (now + listener_resyncPeriod l)%Z else listener_nextResync l; listener_syncing := b |}) <$> listeners).

(** The send to [nextCh] in [pop], which [run] receives to call the handler *)
Definition listener_pop l : option (informer_notification A * processorListener A) :=
  match listener_handling l, listener_notification l with
  | None, Some n => Some (n,
      {| listener_handling := Some n; listener_notification := head (listener_pendingNotifications l);
         listener_pendingNotifications := tail (listener_pendingNotifications l);
         listener_requestedResyncPeriod := listener_requestedResyncPeriod l; listener_resyncPeriod := listener_resyncPeriod l;
         listener_nextResync := listener_nextResync l; listener_syncing := listener_syncing l |})
  | _, _ => None
  end.

(** The handler returns to [run]. *)
Definition listener_returned l : option (processorListener A) :=
  match listener_handling l with
  | None => None
  | Some _ => Some
      {| listener_handling := None; listener_notification := listener_notification l;
         listener_pendingNotifications := listener_pendingNotifications l;
         listener_requestedResyncPeriod := listener_requestedResyncPeriod l; listener_resyncPeriod := listener_resyncPeriod l;
         listener_nextResync := listener_nextResync l; listener_syncing := listener_syncing l |}
  end.

(** ** The informer *)

(** [NewSharedIndexInformer(lw, exampleObject, defaultEventHandlerResyncPeriod, indexers)];
    the queue is the one that [Run] makes. *)
Definition NewSharedIndexInformer (resyncPeriod : Z) : sharedIndexInformer A :=
  {| informer_indexer := ∅; informer_fifo := NewDeltaFIFOWithOptions true; informer_listeners := [];
     informer_resyncCheckPeriod := resyncPeriod; informer_started := false;
     informer_reflector := {| lastSyncResourceVersion := ""; isLastSyncResourceVersionUnavailable := false; reflector_phase := Waiting |} |}.

Definition set_listeners (ls : list (processorListener A)) s : sharedIndexInformer A :=
  {| informer_indexer := informer_indexer s; informer_fifo := informer_fifo s; informer_listeners := ls;
     informer_resyncCheckPeriod := informer_resyncCheckPeriod s; informer_started := informer_started s;
     informer_reflector := informer_reflector s |}.
Definition set_reflector (r : Reflector A) s : sharedIndexInformer A :=
  {| informer_indexer := informer_indexer s; informer_fifo := informer_fifo s; informer_listeners := informer_listeners s;
     informer_resyncCheckPeriod := informer_resyncCheckPeriod s; informer_started := informer_started s; informer_reflector := r |}.
Definition set_fifo (f : DeltaFIFO A) s : sharedIndexInformer A :=
  {| informer_indexer := informer_indexer s; informer_fifo := f; informer_listeners := informer_listeners s;
     informer_resyncCheckPeriod := informer_resyncCheckPeriod s; informer_started := informer_started s;
     informer_reflector := informer_reflector s |}.
Definition set_indexer store s : sharedIndexInformer A :=
  {| informer_indexer := store; informer_fifo := informer_fifo s; informer_listeners := informer_listeners s;
     informer_resyncCheckPeriod := informer_resyncCheckPeriod s; informer_started := informer_started s;
     informer_reflector := informer_reflector s |}.
Definition set_resyncCheckPeriod (p : Z) s : sharedIndexInformer A :=
  {| informer_indexer := informer_indexer s; informer_fifo := informer_fifo s; informer_listeners := informer_listeners s;
     informer_resyncCheckPeriod := p; informer_started := informer_started s; informer_reflector := informer_reflector s |}.
Definition set_started s : sharedIndexInformer A :=
  {| informer_indexer := informer_indexer s; informer_fifo := informer_fifo s; informer_listeners := informer_listeners s;
     informer_resyncCheckPeriod := informer_resyncCheckPeriod s; informer_started := true; informer_reflector := informer_reflector s |}.

Definition minimumResyncPeriod : Z := 1000000000.

(** [s.AddEventHandlerWithResyncPeriod(handler, resyncPeriod)] on an informer
    that has not stopped; [items] is what [s.indexer.List()] returns. *)
Definition AddEventHandlerWithResyncPeriod (resyncPeriod now : Z) (items : list A) s : sharedIndexInformer A :=
  let '(resyncPeriod, s) :=
    if bool_decide (0 < resyncPeriod)%Z then
      let resyncPeriod := if bool_decide (resyncPeriod < minimumResyncPeriod)%Z then minimumResyncPeriod else resyncPeriod in
      if bool_decide (resyncPeriod < informer_resyncCheckPeriod s)%Z then
        if informer_started s then (informer_resyncCheckPeriod s, s)
        else (resyncPeriod, set_listeners (resyncCheckPeriodChanged resyncPeriod (informer_listeners s)) (set_resyncCheckPeriod resyncPeriod s))
      else (resyncPeriod, s)
    else (resyncPeriod, s) in
  let listener := newProcessListener resyncPeriod (determineResyncPeriod resyncPeriod (informer_resyncCheckPeriod s)) now in
  if informer_started s
  then set_listeners (informer_listeners s ++ [foldl (λ l item, listener_add (addNotification item) l) listener items]) s
  else set_listeners (informer_listeners s ++ [listener]) s.

(** [s.HasSynced()] *)
Definition HasSynced s : bool := informer_started s && fifo_HasSynced (informer_fifo s).
End informer.
