(* ===== verification/SharedInformerSpec.v ===== *)
(** An informer and the API server that it lists from and watches: the steps of
    both, what the server promises, and what is invariant. *)
From S2P Require Import Prelude GoStrings Types Conditions RunTypes Listers QueueSpec DeltaFIFO SharedInformer.

(** ** The API server

    The changes of the objects that the informer selects, in their order: an
    object is written, or it is removed with its last state. After the first
    [n] of them the server is at its version [n]. *)
Inductive change (A : Type) : Type := Put (obj : A) | Remove (obj : A).
Arguments Put {A}.
Arguments Remove {A}.

(** The resource versions, which clients must not look into: how the server
    reads them. Several may be of one version, as other objects change, too. *)
Class Versions := {
  reads : string → option nat;
  reads_none : reads "" = None ∧ reads "0" = None;
  reads_all n : ∃ rv, reads rv = Some n
}.

Section world.
Context {A : Type} (meta : A → ObjectMeta) {V : Versions}.
Implicit Types (h : list (change A)) (s : sharedIndexInformer A).

Definition change_object (c : change A) : A := match c with Put obj => obj | Remove obj => obj end.
Definition apply_change (m : gmap string A) (c : change A) : gmap string A :=
  match c with Put obj => <[key_of meta obj := obj]> m | Remove obj => delete (key_of meta obj) m end.
Definition objects_of h : gmap string A := foldl apply_change ∅ h.
Definition snapshot h (n : nat) : gmap string A := objects_of (take n h).

(** The server numbers its changes and removes what it has. *)
Definition may_change h (c : change A) : Prop :=
  reads (ObjectMeta_ResourceVersion (meta (change_object c))) = Some (S (length h)) ∧
  match c with Put _ => True | Remove obj => is_Some (objects_of h !! key_of meta obj) end.

(** The event of the change after version [n] *)
Definition event_after h (n : nat) : option (watch_event A) :=
  c ← h !! n;
  Some (match c with
        | Put obj => if snapshot h n !! key_of meta obj then WatchModified obj else WatchAdded obj
        | Remove obj => WatchDeleted obj
        end).

(** A list is at least as fresh as the version asked for; without one it is the
    most recent, and for "0" it is any. *)
Definition lists h (asked : string) (items : list A) (resourceVersion : string) : Prop :=
  ∃ n, n ≤ length h ∧ reads resourceVersion = Some n ∧ items ≡ₚ (map_to_list (snapshot h n)).*2 ∧
    (asked = "" → n = length h) ∧ ∀ m, reads asked = Some m → m ≤ n.

(** ** Steps *)
Inductive informer_event : Type :=
  | ServerChanges (c : change A)
  | Runs
  | ListStarts
  | ListAnswered (a : list_answer A)
  | Syncs (knownKeys : list string)
  | WatchAnswered (a : watch_answer)
  | Receives (e : watch_event A)
  | Resyncs (now : Z) (knownKeys : list string)
  | Pops
  | HandlerAdded (resyncPeriod now : Z) (items : list A)
  (** the handler of a listener is called, and returns *)
  | Handles (i : nat) (n : informer_notification A)
  | HandlerReturns (i : nat).

Record world := { history : list (change A); informer : sharedIndexInformer A }.

(** What the informer does at a step: [None] is a step that is not possible now.
    A resync is not tied to the watches, whose goroutine may be late to stop. *)
Definition informer_do (e : informer_event) (w : world) : option world :=
  let s := informer w in
  let at_ s := {| history := history w; informer := s |} in
  let reflects (r : option (Reflector A)) := if informer_started s then (λ r, at_ (set_reflector r s)) <$> r else None in
  let queues (fr : option (DeltaFIFO A * Reflector A)) :=
    if informer_started s then (λ '(f, r), at_ (set_fifo f (set_reflector r s))) <$> fr else None in
  match e with
  | ServerChanges c => Some {| history := history w ++ [c]; informer := s |}
  | Runs => if informer_started s then None else Some (at_ (set_started s))
  | ListStarts => reflects (ListAndWatch (informer_reflector s))
  | ListAnswered a => reflects (list_answered a (informer_reflector s))
  | Syncs knownKeys => queues (syncWith meta (informer_indexer s) knownKeys (informer_fifo s) (informer_reflector s))
  | WatchAnswered a => reflects (watch_answered a (informer_reflector s))
  | Receives e => queues (watchHandler meta (informer_indexer s) e (informer_fifo s) (informer_reflector s))
  | Resyncs now knownKeys =>
    if informer_started s && bool_decide (informer_resyncCheckPeriod s ≠ 0)%Z then
      let '(needed, listeners) := shouldResync now (informer_listeners s) in
      let s := set_listeners listeners s in
      Some (at_ (if needed then set_fifo (Resync meta (informer_indexer s) knownKeys (informer_fifo s)) s else s))
    else None
  | Pops =>
    if informer_started s then
      '(deltas, f) ← Pop (informer_fifo s);
      let '(store, listeners) := HandleDeltas meta deltas (informer_indexer s) (informer_listeners s) in
      Some (at_ (set_indexer store (set_listeners listeners (set_fifo f s))))
    else None
  | HandlerAdded resyncPeriod now items => Some (at_ (AddEventHandlerWithResyncPeriod resyncPeriod now items s))
  | Handles i n =>
    if informer_started s then
      l ← informer_listeners s !! i;
      '(_, l) ← listener_pop l;
      Some (at_ (set_listeners (<[i := l]> (informer_listeners s)) s))
    else None
  | HandlerReturns i =>
    l ← informer_listeners s !! i;
    l ← listener_returned l;
    Some (at_ (set_listeners (<[i := l]> (informer_listeners s)) s))
  end.

(** What the server may answer; a range over the cache, in any order; and the
    notification that the handler is called with. *)
Definition permitted (e : informer_event) (w : world) : Prop :=
  let h := history w in let s := informer w in
  match e with
  | ServerChanges c => may_change h c
  | ListAnswered (ListOk items rv) =>
    match reflector_phase (informer_reflector s) with Listing asked _ => lists h asked items rv | _ => False end
  | Syncs knownKeys | Resyncs _ knownKeys => knownKeys ≡ₚ elements (dom (informer_indexer s))
  | Receives e =>
    match reflector_phase (informer_reflector s) with
    | Watching rv _ =>
      match e with
      | WatchAdded _ | WatchModified _ | WatchDeleted _ => ∃ n, reads rv = Some n ∧ event_after h n = Some e
      | WatchBookmark rv' => reads rv' = reads rv
      | WatchError _ | WatchClosed _ => True
      end
    | _ => False
    end
  | HandlerAdded _ _ items => items ≡ₚ (map_to_list (informer_indexer s)).*2
  | Handles i n => listener_notification <$> informer_listeners s !! i = Some (Some n)
  | _ => True
  end.

Definition informer_step (w : world) (e : informer_event) (w' : world) : Prop := permitted e w ∧ informer_do e w = Some w'.
Definition informer_execution : world → list informer_event → world → Prop := execution informer_step.

(** An informer that is not started, and a server without objects *)
Definition initial (resyncPeriod : Z) : world := {| history := []; informer := NewSharedIndexInformer resyncPeriod |}.

(** ** The server *)
Lemma snapshot_app h h' n : n ≤ length h → snapshot (h ++ h') n = snapshot h n.
Proof. intros Hn. unfold snapshot. by rewrite take_app_le. Qed.

Lemma snapshot_S h n c : h !! n = Some c → snapshot h (S n) = apply_change (snapshot h n) c.
Proof. intros Hc. unfold snapshot, objects_of. by rewrite (take_S_r _ _ _ Hc), foldl_app. Qed.

Lemma snapshot_all h : snapshot h (length h) = objects_of h.
Proof. unfold snapshot. by rewrite firstn_all. Qed.

(** The objects that the server has had, and that it numbered them *)
Definition of_history h (obj : A) : Prop := ∃ i c, h !! i = Some c ∧ change_object c = obj.
Definition numbered h : Prop := ∀ i c, h !! i = Some c → reads (ObjectMeta_ResourceVersion (meta (change_object c))) = Some (S i).

Lemma of_history_app h h' obj : of_history h obj → of_history (h ++ h') obj.
Proof. intros (i & c & Hi & Hc). exists i, c. split; [|done]. by apply lookup_app_l_Some. Qed.

(** An object of the server is known by its resource version. *)
Lemma same_version h obj obj' :
  numbered h → of_history h obj → of_history h obj' →
  ObjectMeta_ResourceVersion (meta obj) = ObjectMeta_ResourceVersion (meta obj') → obj = obj'.
Proof.
  intros Hnum (i & c & Hi & <-) (j & c' & Hj & <-) Hrv. pose proof (Hnum _ _ Hi) as Hri. pose proof (Hnum _ _ Hj) as Hrj.
  rewrite Hrv in Hri. congruence.
Qed.

Lemma objects_of_spec h k obj : objects_of h !! k = Some obj → of_history h obj ∧ key_of meta obj = k.
Proof.
  unfold objects_of. induction h as [|c h IH] using rev_ind; [done|]. rewrite foldl_app. simpl. destruct c as [o|o]; simpl.
  - intros [[<- <-]|[_ Hin]]%lookup_insert_Some.
    + split; [|done]. exists (length h), (Put o). split; [|done]. by rewrite lookup_app_r, Nat.sub_diag.
    + destruct (IH Hin) as [? ?]. split; [by apply of_history_app|done].
  - intros [_ Hin]%lookup_delete_Some. destruct (IH Hin) as [? ?]. split; [by apply of_history_app|done].
Qed.

Lemma snapshot_spec h n k obj : snapshot h n !! k = Some obj → of_history h obj ∧ key_of meta obj = k.
Proof.
  intros Ho. rewrite <-(take_drop n h). destruct (objects_of_spec (take n h) k obj Ho) as [H ?]. split; [|done]. by apply of_history_app.
Qed.

(** What a list of the server has *)
Lemma listed_index h n items :
  items ≡ₚ (map_to_list (snapshot h n)).*2 → NoDup (key_of meta <$> items) ∧ index_by meta items = snapshot h n.
Proof.
  intros Hitems.
  assert (key_of meta <$> (map_to_list (snapshot h n)).*2 = (map_to_list (snapshot h n)).*1) as Hkeys.
  { rewrite <-list_fmap_compose. apply list_fmap_ext. intros i [k o] Hi. simpl.
    apply list_elem_of_lookup_2, elem_of_map_to_list, snapshot_spec in Hi. tauto. }
  assert (NoDup (key_of meta <$> items)) as Hnd by (rewrite Hitems, Hkeys; apply NoDup_fst_map_to_list). split; [done|].
  apply map_eq. intros k. apply option_eq. intros o. rewrite index_by_elem by done. rewrite Hitems, list_elem_of_fmap. split.
  - intros [([k' o'] & -> & Hin) <-]. apply elem_of_map_to_list in Hin. simpl. by destruct (snapshot_spec _ _ _ _ Hin) as [_ ->].
  - intros Hin. destruct (snapshot_spec _ _ _ _ Hin) as [_ Hk]. split; [|done]. exists (k, o). by rewrite elem_of_map_to_list.
Qed.

(** ** The deltas and the cache *)
Lemma HandleDelta_store store d :
  (HandleDelta meta store d).1 = match effect d with Some obj => <[KeyOf meta d := obj]> store | None => delete (KeyOf meta d) store end.
Proof. destruct d as [t obj|o]; simpl; [|done]. by destruct (store !! key_of meta obj). Qed.

Lemma HandleDeltas_cons d ds store listeners :
  HandleDeltas meta (d :: ds) store listeners =
    HandleDeltas meta ds (HandleDelta meta store d).1
      (distribute (HandleDelta meta store d).2.1 (HandleDelta meta store d).2.2 listeners).
Proof. simpl. by destruct (HandleDelta meta store d) as [? [? ?]]. Qed.

Lemma HandleDeltas_store ds store listeners id k :
  Forall (λ d, KeyOf meta d = id) ds →
  (HandleDeltas meta ds store listeners).1 !! k =
    if bool_decide (k = id) then match last ds with Some d => effect d | None => store !! k end else store !! k.
Proof.
  intros Hds. revert store listeners. induction Hds as [|d ds Hd _ IH]; intros store listeners; [by case_bool_decide|].
  rewrite HandleDeltas_cons, IH, HandleDelta_store, Hd. case_bool_decide as Hk.
  - subst k. rewrite last_cons. destruct (last ds); [done|]. destruct (effect d); by rewrite ?lookup_insert_eq, ?lookup_delete_eq.
  - destruct (effect d); by rewrite ?lookup_insert_ne, ?lookup_delete_ne by done.
Qed.

(** Popping does not change what the cache is going to have. *)
Lemma view_Pop store listeners f ds f' k :
  wf_fifo meta f → Pop f = Some (ds, f') →
  view (HandleDeltas meta ds store listeners).1 f' k = view store f k.
Proof.
  intros Hwf Hpop. pose proof (Pop_spec meta f Hwf) as Hspec. destruct (fifo_queue f) as [|id queue] eqn:Hq; [congruence|].
  destruct Hspec as (ds' & Hds & Hp). rewrite Hpop in Hp. injection Hp as <- ->.
  pose proof (wf_fifo_keys _ _ Hwf _ _ Hds) as Hkeys. pose proof (wf_fifo_nonempty _ _ Hwf _ _ Hds) as Hne.
  unfold view at 1. simpl. rewrite (HandleDeltas_store _ _ _ _ _ Hkeys). case_bool_decide as Hk.
  - subst k. rewrite lookup_delete_eq. unfold view. rewrite Hds. destruct (last ds) eqn:Hl; [done|]. by apply last_None in Hl.
  - rewrite lookup_delete_ne by done. unfold view. by destruct (fifo_items f !! k) as [?|].
Qed.
End world.
