(* ===== verification/SharedInformerInv.v ===== *)
(** The invariant of an informer: where its objects come from, that a resync is
    of what the cache has, and what the reflector knows of the server. *)
From S2P Require Import Prelude GoStrings Types Conditions RunTypes Listers QueueSpec DeltaFIFO SharedInformer SharedInformerSpec.

Section invariant.
Context {A : Type} (meta : A → ObjectMeta) {V : Versions}.
Implicit Types (h : list (change A)) (s : sharedIndexInformer A) (store : gmap string A) (f : DeltaFIFO A) (obj : A).

(** The object of a delta *)
Definition delta_object (d : Delta A) : option A :=
  match d with Upsert _ obj => Some obj | Deleted (FinalState obj) => Some obj | Deleted (FinalStateUnknown _ obj) => obj end.

(** ** The queue *)
Record fifo_inv h store f : Prop := {
  fifo_wf : wf_fifo meta f;
  fifo_emits : fifo_emitDeltaTypeReplaced f = true;
  fifo_objects d obj : queued f d → delta_object d = Some obj → of_history h obj;
  fifo_syncs k ds i obj : fifo_items f !! k = Some ds → ds !! i = Some (Upsert Sync obj) → i = 0 ∧ store !! k = Some obj
}.

(** What may be queued: objects of the server, and for a resync what the cache
    has of a key without deltas. *)
Definition queueable h store f (d : Delta A) : Prop :=
  (∀ obj, delta_object d = Some obj → of_history h obj) ∧
  ∀ obj, d = Upsert Sync obj → store !! key_of meta obj = Some obj ∧ fifo_items f !! key_of meta obj = None.

Lemma dedup_lookup_sync ds d i obj :
  d ≠ Upsert Sync obj → dedupDeltas (ds ++ [d]) !! i = Some (Upsert Sync obj) → ds !! i = Some (Upsert Sync obj).
Proof.
  intros Hd. destruct (dedup_snoc ds d) as [->|(ds' & b & o & o' & -> & -> & -> & [-> | ->])].
  1: intros [?|[_ [_ ?]%list_lookup_singleton_Some]]%lookup_app_Some; [done|congruence].
  all: intros [?|[_ [_ ?]%list_lookup_singleton_Some]]%lookup_app_Some; [by apply lookup_app_l_Some|congruence].
Qed.

Lemma fifo_inv_queueAction h store f d : fifo_inv h store f → queueable h store f d → fifo_inv h store (queueActionLocked meta d f).
Proof.
  intros [Hwf Hemit Hobjs Hsync] [Hhist Hres]. split; [by apply wf_queueAction|done| |].
  - intros x obj [Hx| ->]%queued_queueAction; [by eapply Hobjs|apply Hhist].
  - intros k ds i obj. rewrite queueAction_items. case_bool_decide as Hk; [|apply Hsync]. intros [= <-].
    destruct d as [t o|o]; [destruct (decide (t = Sync)) as [->|Ht]|].
    + destruct (Hres o eq_refl) as [Hst Hnone]. simpl in Hk. subst k. rewrite Hnone. simpl.
      intros [-> [= ->]]%list_lookup_singleton_Some. done.
    + intros Hi%dedup_lookup_sync; [|congruence]. destruct (fifo_items f !! k) as [ds|] eqn:Hds; [by eapply Hsync|done].
    + intros Hi%dedup_lookup_sync; [|done]. destruct (fifo_items f !! k) as [ds|] eqn:Hds; [by eapply Hsync|done].
Qed.

Lemma fifo_inv_set_populated h store n f : fifo_inv h store f → fifo_inv h store (set_populated n f).
Proof. intros [? ? ? ?]. split; [by apply wf_set_populated|done..]. Qed.

Lemma fifo_inv_app h h' store f : fifo_inv h store f → fifo_inv (h ++ h') store f.
Proof. intros [? ? Ho ?]. split; [done..| |done]. intros d obj Hd Hobj. eapply of_history_app, Ho; done. Qed.

(** Deltas without a resync *)
Lemma fifo_inv_queue_all h store ds f :
  Forall (λ d, ∀ obj, (delta_object d = Some obj → of_history h obj) ∧ d ≠ Upsert Sync obj) ds →
  fifo_inv h store f → fifo_inv h store (queue_all meta ds f).
Proof.
  intros Hds. apply (fold_queueAction meta _ _ _ _) with (2 := Hds). intros d g Hd Hg. apply fifo_inv_queueAction; [done|]. split.
  - intros obj. apply Hd.
  - intros obj ->. by destruct (proj2 (Hd obj)).
Qed.

Lemma fifo_inv_Replace h store ks objs f :
  (∀ k obj, store !! k = Some obj → of_history h obj) → Forall (of_history h) objs → fifo_inv h store f →
  fifo_inv h store (Replace meta store ks objs f).
Proof.
  intros Hstore Hobjs Hf. rewrite Replace_queues. set (g := queue_all _ _ f). enough (fifo_inv h store g).
  { destruct (fifo_populated f); [done|by apply fifo_inv_set_populated]. }
  apply fifo_inv_queue_all; [|done]. unfold replacing, replaced. rewrite (fifo_emits _ _ _ Hf).
  apply Forall_app. split; rewrite Forall_forall; intros d.
  - intros (o & -> & Ho)%list_elem_of_fmap obj. rewrite Forall_forall in Hobjs. split; [|done]. intros [= <-]. by apply Hobjs.
  - intros (k & -> & _)%removed_elem obj. split; [|done]. apply Hstore.
Qed.

Lemma fifo_inv_Resync h store ks f :
  (∀ k obj, store !! k = Some obj → of_history h obj ∧ key_of meta obj = k) → fifo_inv h store f →
  fifo_inv h store (Resync meta store ks f).
Proof.
  intros Hstore. unfold Resync. revert f. induction ks as [|k ks IH]; intros f Hf; [done|]. simpl. apply IH.
  unfold syncKeyLocked. destruct (store !! k) as [obj|] eqn:Hobj; [|done]. destruct (Hstore _ _ Hobj) as [Hhist Hk].
  destruct (fifo_items f !! key_of meta obj) as [[|d ds]|] eqn:Hi; [by destruct (wf_fifo_nonempty _ _ (fifo_wf _ _ _ Hf) _ _ Hi)|done|].
  apply fifo_inv_queueAction; [done|]. split; [by intros ? [= <-]|]. intros ? [= <-]. by rewrite Hk, Hobj, <-Hk.
Qed.

(** Popping, with the deltas that are handed to the cache *)
Lemma fifo_inv_Pop h store listeners f ds f' :
  fifo_inv h store f → Pop f = Some (ds, f') → fifo_inv h (HandleDeltas meta ds store listeners).1 f'.
Proof.
  intros [Hwf Hemit Hobjs Hsync] Hpop. pose proof (wf_Pop _ _ _ _ Hwf Hpop) as Hwf'. pose proof (Pop_spec meta f Hwf) as Hspec.
  destruct (fifo_queue f) as [|id queue] eqn:Hq; [congruence|]. destruct Hspec as (ds' & Hds & Hp). rewrite Hpop in Hp.
  injection Hp as <- ->. pose proof (wf_fifo_keys _ _ Hwf _ _ Hds) as Hkeys. split; [done..| |]; simpl.
  - intros d obj (k & ds0 & Hin & Hd) Hobj. cbn in Hin. apply lookup_delete_Some in Hin as [_ Hk]. eapply Hobjs; [by exists k, ds0|done].
  - intros k ds0 i obj [Hne Hk]%lookup_delete_Some Hi. rewrite (HandleDeltas_store _ _ _ _ _ _ Hkeys).
    rewrite bool_decide_false by done. by eapply Hsync.
Qed.

(** What is in the cache afterwards *)
Lemma store_Pop h store listeners f ds f' k obj :
  fifo_inv h store f → Pop f = Some (ds, f') → (∀ k obj, store !! k = Some obj → of_history h obj ∧ key_of meta obj = k) →
  (HandleDeltas meta ds store listeners).1 !! k = Some obj → of_history h obj ∧ key_of meta obj = k.
Proof.
  intros [Hwf _ Hobjs _] Hpop Hstore. pose proof (Pop_spec meta f Hwf) as Hspec.
  destruct (fifo_queue f) as [|id queue] eqn:Hq; [congruence|]. destruct Hspec as (ds' & Hds & Hp). rewrite Hpop in Hp.
  injection Hp as <- ->. pose proof (wf_fifo_keys _ _ Hwf _ _ Hds) as Hkeys. rewrite (HandleDeltas_store _ _ _ _ _ _ Hkeys).
  case_bool_decide; [|apply Hstore]. subst k. destruct (last ds) as [d|] eqn:Hl; [|apply Hstore].
  apply last_Some_elem_of in Hl. rewrite Forall_forall in Hkeys. specialize (Hkeys _ Hl).
  destruct d as [t o|o]; [|done]. intros [= <-]. split; [|done]. eapply Hobjs; [by exists id, ds|done].
Qed.

(** ** Listeners *)

(** What a listener has not called its handler with *)
Definition buffered (l : processorListener A) : list (informer_notification A) :=
  match listener_notification l with None => [] | Some n => [n] end ++ listener_pendingNotifications l.

(** The buffer is used only behind the notification that [pop] holds. *)
Definition wf_listener (l : processorListener A) : Prop := listener_notification l = None → listener_pendingNotifications l = [].

Lemma listener_add_buffered n l : wf_listener l → wf_listener (listener_add n l) ∧ buffered (listener_add n l) = buffered l ++ [n].
Proof.
  intros Hwf. unfold listener_add, buffered, wf_listener. simpl. destruct (listener_notification l) eqn:Hn; [done|].
  by rewrite (Hwf Hn).
Qed.

Lemma listener_pop_buffered l n l' : wf_listener l → listener_pop l = Some (n, l') → wf_listener l' ∧ buffered l = n :: buffered l'.
Proof.
  unfold listener_pop, buffered, wf_listener. intros Hwf. destruct (listener_handling l); [done|].
  destruct (listener_notification l) as [n0|]; [|done]. intros [= <- <-]. simpl. by destruct (listener_pendingNotifications l).
Qed.

Lemma listeners_add ns l :
  wf_listener l → let l' := foldl (λ l n, listener_add n l) l ns in wf_listener l' ∧ buffered l' = buffered l ++ ns.
Proof.
  revert l. induction ns as [|n ns IH]; intros l Hwf; simpl; [by rewrite app_nil_r|].
  destruct (listener_add_buffered n l Hwf) as [Hwf' Hb]. destruct (IH _ Hwf') as [? Hb']. split; [done|].
  by rewrite Hb', Hb, <-app_assoc.
Qed.

(** ** The invariant *)
Definition is_version h (rv : string) : Prop := ∃ n, reads rv = Some n ∧ n ≤ length h.

Definition phase_ok h (r : Reflector A) : Prop :=
  match reflector_phase r with
  | Listed items rv => ∃ n, reads rv = Some n ∧ n ≤ length h ∧ items ≡ₚ (map_to_list (snapshot meta h n)).*2
  | WatchStarts rv | Watching rv _ => rv = lastSyncResourceVersion r ∧ is_version h rv
  | _ => True
  end.

Record informer_inv (w : world (A := A)) : Prop := {
  inv_numbered : numbered meta (history w);
  inv_fifo : fifo_inv (history w) (informer_indexer (informer w)) (informer_fifo (informer w));
  inv_store k obj : informer_indexer (informer w) !! k = Some obj → of_history (history w) obj ∧ key_of meta obj = k;
  inv_last : lastSyncResourceVersion (informer_reflector (informer w)) = "" ∨
    is_version (history w) (lastSyncResourceVersion (informer_reflector (informer w)));
  inv_phase : phase_ok (history w) (informer_reflector (informer w));
  inv_unstarted : informer_started (informer w) = false →
    informer_indexer (informer w) = ∅ ∧ informer_fifo (informer w) = NewDeltaFIFOWithOptions true ∧
    reflector_phase (informer_reflector (informer w)) = Waiting ∧ lastSyncResourceVersion (informer_reflector (informer w)) = "";
  inv_listeners : Forall wf_listener (informer_listeners (informer w))
}.

Lemma is_version_app h h' rv : is_version h rv → is_version (h ++ h') rv.
Proof. intros (n & ? & ?). exists n. rewrite length_app. split; [done|lia]. Qed.

Lemma informer_inv_initial p : informer_inv (initial p).
Proof.
  split; simpl; try done; [|by left]. split; simpl; [|done| |done].
  - split; simpl; [apply NoDup_nil_2| |done..]. intros k. rewrite lookup_empty, elem_of_nil. split; [done|]. by intros [? ?].
  - by intros d obj (k & ds & ? & _).
Qed.

(** What adding a handler does *)
Lemma AddEventHandler_spec p now items s :
  Forall wf_listener (informer_listeners s) →
  let s' := AddEventHandlerWithResyncPeriod p now items s in
  informer_indexer s' = informer_indexer s ∧ informer_fifo s' = informer_fifo s ∧ informer_started s' = informer_started s ∧
  informer_reflector s' = informer_reflector s ∧ Forall wf_listener (informer_listeners s') ∧
  buffered <$> informer_listeners s' =
    (buffered <$> informer_listeners s) ++ [if informer_started s then addNotification <$> items else []].
Proof.
  intros Hwf. cbv zeta. unfold AddEventHandlerWithResyncPeriod.
  set (q := if bool_decide (0 < p)%Z then _ else _). assert (∃ p' s', q = (p', s') ∧ informer_indexer s' = informer_indexer s ∧
    informer_fifo s' = informer_fifo s ∧ informer_started s' = informer_started s ∧ informer_reflector s' = informer_reflector s ∧
    Forall wf_listener (informer_listeners s') ∧ buffered <$> informer_listeners s' = buffered <$> informer_listeners s)
    as (p' & s' & -> & <- & <- & <- & <- & Hwf' & <-).
  { unfold q. repeat case_bool_decide; try destruct (informer_started s) eqn:Hst; eexists _, _; split_and!; try done.
    all: cbn; unfold resyncCheckPeriodChanged; first [rewrite <-list_fmap_compose; by apply list_fmap_ext|apply Forall_fmap; exact Hwf]. }
  set (l := newProcessListener _ _ _). assert (wf_listener l ∧ buffered l = []) as [Hl Hb] by done.
  assert (foldl (λ (l : processorListener A) item, listener_add (addNotification item) l) l items =
    foldl (λ l n, listener_add n l) l (addNotification <$> items)) as Hfold.
  { generalize l. clear. induction items as [|o items IH]; intros l; [done|]. simpl. apply IH. }
  destruct (listeners_add (addNotification <$> items) l Hl) as [Hl' Hb'].
  destruct (informer_started s') eqn:Hst; simpl; split_and!; try done; rewrite ?fmap_app; try (apply Forall_app; split; [done|]).
  all: rewrite ?Forall_singleton, ?Hfold; try done. simpl. by rewrite Hb', Hb.
Qed.

Lemma inv_change h s f r ls :
  informer_inv {| history := h; informer := s |} → informer_started s = true →
  fifo_inv h (informer_indexer s) f → (lastSyncResourceVersion r = "" ∨ is_version h (lastSyncResourceVersion r)) → phase_ok h r →
  Forall wf_listener ls →
  informer_inv {| history := h; informer := set_listeners ls (set_fifo f (set_reflector r s)) |}.
Proof. intros [? ? ? ? ? ? ?] Hst Hf Hl Hp Hls. simpl in *. split; simpl; try done. congruence. Qed.

(** An event of the watch is of the next change, and brings its version. *)
Lemma event_after_spec h n e :
  numbered meta h → event_after meta h n = Some e →
  ∃ c, h !! n = Some c ∧
    match e with
    | WatchAdded obj | WatchModified obj => c = Put obj
    | WatchDeleted obj => c = Remove obj
    | _ => False
    end ∧ of_history h (change_object c) ∧
    reads (ObjectMeta_ResourceVersion (meta (change_object c))) = Some (S n) ∧ S n ≤ length h.
Proof.
  intros Hnum. unfold event_after. destruct (h !! n) as [c|] eqn:Hc; [|done]. simpl. intros [= <-]. exists c. split; [done|].
  assert (of_history h (change_object c) ∧ reads (ObjectMeta_ResourceVersion (meta (change_object c))) = Some (S n) ∧ S n ≤ length h).
  { split_and!; [by exists n, c|by apply Hnum|by apply lookup_lt_Some in Hc]. }
  destruct c; [by destruct (snapshot meta h n !! _)|done].
Qed.

Lemma fifo_inv_Upsert h store f t obj :
  fifo_inv h store f → of_history h obj → t ≠ Sync → fifo_inv h store (queueActionLocked meta (Upsert t obj) f).
Proof. intros Hf Ho Ht. apply fifo_inv_queueAction; [done|]. split; [by intros ? [= <-]|]. by intros ? [= ->]. Qed.

Lemma fifo_inv_Delete h store f obj :
  fifo_inv h store f → of_history h obj → fifo_inv h store (fifo_Delete meta store obj f).
Proof.
  intros Hf Ho. unfold fifo_Delete. simpl. set (g := set_populated _ f).
  assert (fifo_inv h store g) by by apply fifo_inv_set_populated.
  assert (fifo_inv h store (queueActionLocked meta (Deleted (FinalState obj)) g)).
  { apply fifo_inv_queueAction; [done|]. split; [by intros ? [= <-]|done]. }
  by destruct (store !! key_of meta obj), (fifo_items f !! key_of meta obj).
Qed.

(** What the turns of the reflector keep *)
Lemma watchHandler_inv h s e f r :
  informer_inv {| history := h; informer := s |} → permitted meta (Receives e) {| history := h; informer := s |} →
  watchHandler meta (informer_indexer s) e (informer_fifo s) (informer_reflector s) = Some (f, r) →
  fifo_inv h (informer_indexer s) f ∧ (lastSyncResourceVersion r = "" ∨ is_version h (lastSyncResourceVersion r)) ∧ phase_ok h r.
Proof.
  intros Hinv Hperm. pose proof (inv_numbered _ Hinv) as Hnum. pose proof (inv_fifo _ Hinv) as Hf. pose proof (inv_last _ Hinv) as Hl.
  pose proof (inv_phase _ Hinv) as Hp. unfold watchHandler, phase_ok in *. simpl in *.
  destruct (reflector_phase (informer_reflector s)) as [| | | |rv n]; [done..|]. destruct Hp as [-> Hv].
  assert (∀ rv' f', is_version h rv' → fifo_inv h (informer_indexer s) f' →
    Some (f', set_phase (Watching rv' (S n)) (setLastSyncResourceVersion rv' (informer_reflector s))) = Some (f, r) →
    fifo_inv h (informer_indexer s) f ∧ (lastSyncResourceVersion r = "" ∨ is_version h (lastSyncResourceVersion r)) ∧ phase_ok h r) as Hnext.
  { intros rv' f' Hv' Hf' [= <- <-]. split_and!; [done|by right|done]. }
  destruct e as [o|o|o|rv'|b|b].
  1-3: destruct Hperm as (m & _ & Hev); apply event_after_spec in Hev as (c & Hc & Hco & Hh & Hrd & Hle); [|done]; subst c; simpl in *;
    apply Hnext; [by exists (S m)|].
  - apply fifo_inv_Upsert; [by apply fifo_inv_set_populated|done..].
  - apply fifo_inv_Upsert; [by apply fifo_inv_set_populated|done..].
  - by apply fifo_inv_Delete.
  - apply Hnext; [|done]. destruct Hv as (m & Hm & ?). exists m. by rewrite Hperm.
  - destruct b; intros [= <- <-]; by split_and!.
  - destruct (b && _); intros [= <- <-]; by split_and!.
Qed.

Lemma syncWith_inv h s ks f r :
  informer_inv {| history := h; informer := s |} →
  syncWith meta (informer_indexer s) ks (informer_fifo s) (informer_reflector s) = Some (f, r) →
  fifo_inv h (informer_indexer s) f ∧ (lastSyncResourceVersion r = "" ∨ is_version h (lastSyncResourceVersion r)) ∧ phase_ok h r.
Proof.
  intros Hinv. pose proof (inv_fifo _ Hinv) as Hf. pose proof (inv_phase _ Hinv) as Hp. unfold syncWith, phase_ok in *. simpl in *.
  destruct (reflector_phase (informer_reflector s)) as [| |items rv| |]; try done. destruct Hp as (n & Hn & Hle & Hitems).
  intros [= <- <-]. assert (is_version h rv) as Hv by by exists n. split_and!; [|by right|by split].
  apply fifo_inv_Replace; [intros k o Ho; by eapply (inv_store _ Hinv)| |done].
  rewrite Hitems. apply Forall_forall. intros o ([k o'] & -> & Ho)%list_elem_of_fmap. apply elem_of_map_to_list in Ho. by eapply snapshot_spec.
Qed.

Lemma reflector_inv h s r r' :
  informer_inv {| history := h; informer := s |} → r = informer_reflector s →
  (∃ a, watch_answered a r = Some r') ∨ ListAndWatch r = Some r' ∨
    (∃ a, permitted meta (ListAnswered a) {| history := h; informer := s |} ∧ list_answered a r = Some r') →
  (lastSyncResourceVersion r' = "" ∨ is_version h (lastSyncResourceVersion r')) ∧ phase_ok h r'.
Proof.
  intros Hinv ->. pose proof (inv_last _ Hinv) as Hl. pose proof (inv_phase _ Hinv) as Hp.
  unfold watch_answered, ListAndWatch, list_answered, phase_ok in *. simpl in *.
  intros [[a Ha]|[Ha|[a [Hperm Ha]]]]; destruct (reflector_phase (informer_reflector s)) as [|asked again|items rv|rv|rv c] eqn:Hphase;
    try done; repeat (case_match; simplify_eq/=); try done.
  all: split; [done|]; rewrite ?Hphase; try done; destruct Hperm as (n & ? & ? & ? & _); by exists n.
Qed.

Lemma wf_HandleDeltas ds store ls : Forall wf_listener ls → Forall wf_listener (HandleDeltas meta ds store ls).2.
Proof.
  revert store ls. induction ds as [|d ds IH]; intros store ls Hls; [done|]. rewrite HandleDeltas_cons. apply IH.
  unfold distribute. rewrite Forall_fmap. eapply Forall_impl; [done|]. intros l Hl. simpl.
  destruct (_ && _); [done|]. by apply listener_add_buffered.
Qed.

Lemma wf_insert_listener i l (ls : list (processorListener A)) :
  Forall wf_listener ls → wf_listener l → Forall wf_listener (<[i := l]> ls).
Proof. intros. by apply Forall_insert. Qed.

Lemma informer_inv_step w e w' : informer_inv w → informer_step meta w e w' → informer_inv w'.
Proof.
  destruct w as [h s]. intros Hinv [Hperm Hdo]. pose proof (inv_listeners _ Hinv) as Hls. pose proof Hinv as [Hnum Hf Hst Hl Hp Hun _].
  simpl in Hnum, Hf, Hst, Hl, Hp, Hun, Hls. destruct e as [c| | |a|ks|a|e|now ks| |p now items|i n|i]; simpl in Hdo.
  - injection Hdo as <-. simpl in Hperm. destruct Hperm as [Hrv _]. split; simpl; try done.
    + intros i c'. intros [Hi|[Hlt Hi]]%lookup_app_Some; [by apply Hnum|]. apply list_lookup_singleton_Some in Hi as [Hi <-].
      rewrite Hrv. f_equal. lia.
    + by apply fifo_inv_app.
    + intros k o Ho. destruct (Hst _ _ Ho). split; [by apply of_history_app|done].
    + destruct Hl as [?|?]; [by left|right]. by apply is_version_app.
    + unfold phase_ok in *. destruct (reflector_phase _) as [| |items rv|rv|rv ?]; try done; [|by destruct Hp; split; [|apply is_version_app]..].
      destruct Hp as (n & ? & ? & Hitems). exists n. rewrite length_app, snapshot_app by done. split_and!; [done|lia|done].
  - destruct (informer_started s) eqn:Hs; [done|]. injection Hdo as <-. by split.
  - destruct (informer_started s) eqn:Hs; [|done]. destruct (ListAndWatch _) as [r|] eqn:Hr; [|done]. injection Hdo as <-.
    destruct (reflector_inv h s _ r Hinv eq_refl) as [? ?]; [by right; left|]. by apply (inv_change h s (informer_fifo s) r (informer_listeners s)).
  - destruct (informer_started s) eqn:Hs; [|done]. destruct (list_answered _ _) as [r|] eqn:Hr; [|done]. injection Hdo as <-.
    destruct (reflector_inv h s _ r Hinv eq_refl) as [? ?]; [by right; right; exists a|]. by apply (inv_change h s (informer_fifo s) r (informer_listeners s)).
  - destruct (informer_started s) eqn:Hs; [|done]. destruct (syncWith _ _ _ _ _) as [[f r]|] eqn:Hr; [|done]. injection Hdo as <-.
    destruct (syncWith_inv _ _ _ _ _ Hinv Hr) as (? & ? & ?). by apply (inv_change h s f r (informer_listeners s)).
  - destruct (informer_started s) eqn:Hs; [|done]. destruct (watch_answered _ _) as [r|] eqn:Hr; [|done]. injection Hdo as <-.
    destruct (reflector_inv h s _ r Hinv eq_refl) as [? ?]; [by left; exists a|]. by apply (inv_change h s (informer_fifo s) r (informer_listeners s)).
  - destruct (informer_started s) eqn:Hs; [|done]. destruct (watchHandler _ _ _ _ _) as [[f r]|] eqn:Hr; [|done]. injection Hdo as <-.
    destruct (watchHandler_inv _ _ _ _ _ Hinv Hperm Hr) as (? & ? & ?). by apply (inv_change h s f r (informer_listeners s)).
  - destruct (informer_started s) eqn:Hs; [|done]. simpl in Hdo. case_bool_decide; [|done].
    set (ls := (λ l, _) <$> informer_listeners s) in Hdo. assert (Forall wf_listener ls) as Hls'.
    { unfold ls. rewrite Forall_fmap. exact Hls. }
    assert (w' = {| history := h; informer := set_listeners ls (set_fifo (if existsb (listener_shouldResync now) (informer_listeners s)
      then Resync meta (informer_indexer s) ks (informer_fifo s) else informer_fifo s) (set_reflector (informer_reflector s) s)) |}) as ->.
    { destruct (existsb _ _); by injection Hdo as <-. }
    apply inv_change; try done. destruct (existsb _ _); [|done]. by apply fifo_inv_Resync.
  - destruct (informer_started s) eqn:Hs; [|done]. destruct (Pop (informer_fifo s)) as [[ds f]|] eqn:Hpop; [|done]. simpl in Hdo.
    destruct (HandleDeltas _ _ _ _) as [store ls] eqn:Hd. injection Hdo as <-.
    pose proof (fifo_inv_Pop _ _ (informer_listeners s) _ _ _ Hf Hpop) as Hf'. pose proof (wf_HandleDeltas ds (informer_indexer s) _ Hls) as Hls'.
    pose proof (λ k o, store_Pop _ _ (informer_listeners s) _ _ _ k o Hf Hpop Hst) as Hst'. rewrite Hd in Hf', Hls', Hst'.
    split; simpl; try done. congruence.
  - injection Hdo as <-. destruct (AddEventHandler_spec p now items s Hls) as (H1 & H2 & H3 & H4 & H5 & _).
    split; simpl; by rewrite ?H1, ?H2, ?H3, ?H4.
  - destruct (informer_started s) eqn:Hs; [|done]. destruct (informer_listeners s !! i) as [l|] eqn:Hi; [|done]. simpl in Hdo.
    destruct (listener_pop l) as [[n' l']|] eqn:Hpop; [|done]. injection Hdo as <-.
    assert (wf_listener l) as Hl1 by by eapply Forall_lookup_1. destruct (listener_pop_buffered _ _ _ Hl1 Hpop) as [Hl' _].
    split; simpl; try done; [congruence|by apply wf_insert_listener].
  - destruct (informer_listeners s !! i) as [l|] eqn:Hi; [|done]. simpl in Hdo.
    destruct (listener_returned l) as [l'|] eqn:Hret; [|done]. injection Hdo as <-.
    assert (wf_listener l) as Hl1 by by eapply Forall_lookup_1. unfold listener_returned in Hret.
    destruct (listener_handling l); [|done]. injection Hret as <-. split; simpl; try done. by apply wf_insert_listener.
Qed.

Lemma informer_inv_reached p es w : informer_execution meta (initial p) es w → informer_inv w.
Proof.
  intros Hes. eapply execution_invariant; [|exact Hes|apply informer_inv_initial]. intros. by eapply informer_inv_step.
Qed.
End invariant.
