(* ===== verification/SharedInformerTheorems.v ===== *)
(** The properties of an informer: its handlers are told all changes of its
    cache, the cache follows the API server, and it comes to have what the
    server has. *)
From S2P Require Import Prelude GoStrings Types Conditions RunTypes Listers QueueSpec DeltaFIFO SharedInformer SharedInformerSpec SharedInformerInv.

Section theorems.
Context {A : Type} (meta : A → ObjectMeta) {V : Versions}.
Implicit Types (h : list (change A)) (s : sharedIndexInformer A) (store : gmap string A) (f : DeltaFIFO A) (obj : A).

(** ** Notifications *)

(** What a client makes of a notification that keeps a copy of the cache *)
Definition apply_notification (m : gmap string A) (n : informer_notification A) : gmap string A :=
  match n with
  | addNotification obj | updateNotification _ obj => <[key_of meta obj := obj]> m
  | deleteNotification o => delete (KeyOf_deleted meta o) m
  end.
Definition replay (ns : list (informer_notification A)) : gmap string A := foldl apply_notification ∅ ns.

(** The notifications that the handler of a listener was called with *)
Definition delivered (i : nat) (es : list (informer_event (A := A))) : list (informer_notification A) :=
  omap (λ e, match e with Handles j n => if decide (i = j) then Some n else None | _ => None end) es.

Lemma replay_snoc ns n : replay (ns ++ [n]) = apply_notification (replay ns) n.
Proof. unfold replay. by rewrite foldl_app. Qed.

Lemma HandleDelta_replay h store d l ns :
  (∀ k obj, store !! k = Some obj → of_history h obj) → (∀ obj, delta_object d = Some obj → of_history h obj) → numbered meta h →
  (∀ obj, d = Upsert Sync obj → store !! key_of meta obj = Some obj) → wf_listener l → replay (ns ++ buffered l) = store →
  let '(store', (n, sync)) := HandleDelta meta store d in
  let l' := if sync && negb (listener_syncing l) then l else listener_add n l in
  wf_listener l' ∧ replay (ns ++ buffered l') = store'.
Proof.
  intros Hst Hd Hnum Hsync Hwf Hr. destruct (HandleDelta meta store d) as [store' [n sync]] eqn:Hdelta. cbv zeta.
  assert (apply_notification store n = store' ∧ (sync = true → store' = store)) as [Happ Hsame].
  { destruct d as [t o|o]; simpl in Hdelta; [|injection Hdelta as <- <- <-; done].
    destruct (store !! key_of meta o) as [old|] eqn:Hold; injection Hdelta as <- <- <-; [|done]. split; [done|]. intros Hs.
    apply insert_id. destruct t; try done; [|by apply Hsync].
    apply bool_decide_eq_true in Hs. rewrite Hold. f_equal. eapply same_version; [exact Hnum|by eapply Hst|by apply Hd|done]. }
  destruct (sync && negb (listener_syncing l)) eqn:Hskip.
  - apply andb_true_iff in Hskip as [Hs _]. by rewrite Hsame.
  - destruct (listener_add_buffered n l Hwf) as [Hwf' ->]. split; [done|]. by rewrite app_assoc, replay_snoc, Hr.
Qed.

Lemma HandleDeltas_replay h ds store ls i l ns :
  (∀ k obj, store !! k = Some obj → of_history h obj) → (∀ d obj, d ∈ ds → delta_object d = Some obj → of_history h obj) → numbered meta h →
  (∀ j obj, ds !! j = Some (Upsert Sync obj) → j = 0 ∧ store !! key_of meta obj = Some obj) →
  ls !! i = Some l → wf_listener l → replay (ns ++ buffered l) = store →
  ∃ l', (HandleDeltas meta ds store ls).2 !! i = Some l' ∧ replay (ns ++ buffered l') = (HandleDeltas meta ds store ls).1.
Proof.
  intros Hst Hds Hnum Hsync. revert store ls l Hst Hsync. induction ds as [|d ds IH]; intros store ls l Hst Hsync Hi Hwf Hr; [by exists l|].
  rewrite HandleDeltas_cons. pose proof (HandleDelta_replay h store d l ns Hst (λ obj, Hds d obj (list_elem_of_here _ _)) Hnum) as Hone.
  pose proof (HandleDelta_store meta store d) as Hstore.
  destruct (HandleDelta meta store d) as [store' [n sync]]. cbn [fst snd] in *.
  destruct Hone as [Hwf' Hr']; [|done..|]. { intros obj ->. by destruct (Hsync 0 obj eq_refl). }
  apply (IH (λ d' obj Hd', Hds d' obj (list_elem_of_further _ _ _ Hd')) store' _ (if sync && negb (listener_syncing l) then l else listener_add n l)).
  - intros k obj. rewrite Hstore. destruct (effect d) as [o|] eqn:Ho.
    + intros [[_ <-]|[_ ?]]%lookup_insert_Some; [|by eapply Hst]. apply (Hds d); [left|]. destruct d; simpl in *; congruence.
    + intros [_ ?]%lookup_delete_Some. by eapply Hst.
  - intros j obj Hj. destruct (Hsync (S j) obj Hj) as [? _]. done.
  - unfold distribute. by rewrite list_lookup_fmap, Hi.
  - done.
  - done.
Qed.

Lemma HandleDeltas_length ds store ls : length (HandleDeltas meta ds store ls).2 = length ls.
Proof.
  revert store ls. induction ds as [|d ds IH]; intros store ls; [done|]. rewrite HandleDeltas_cons, IH. apply length_fmap.
Qed.

(** Listeners are not removed. *)
Lemma listeners_stay w e w' :
  informer_inv meta w → informer_step meta w e w' → length (informer_listeners (informer w)) ≤ length (informer_listeners (informer w')).
Proof.
  destruct w as [h s]. intros Hinv [_ Hdo]. pose proof (inv_listeners _ _ Hinv) as Hls. simpl in Hls.
  destruct e as [c| | |a|ks|a|e|now ks| |p now items|j n|j]; simpl in Hdo.
  1-7: try destruct (informer_started s); try done;
    try (match type of Hdo with option_map _ ?x = _ => destruct x as [x'|]; [|done] end);
    try (match type of Hdo with fmap _ ?x = _ => destruct x as [x'|]; [|done] end); try destruct x' as [? ?]; simpl in Hdo;
    by injection Hdo as <-.
  - destruct (informer_started s && _); [|done]; injection Hdo as <-;
      (destruct (existsb _ _); simpl; by rewrite length_fmap).
  - destruct (informer_started s); [|done]. destruct (Pop (informer_fifo s)) as [[ds f]|]; [|done]. simpl in Hdo.
    pose proof (HandleDeltas_length ds (informer_indexer s) (informer_listeners s)) as Hlen.
    destruct (HandleDeltas _ _ _ _) as [store ls]. injection Hdo as <-. simpl in *. lia.
  - injection Hdo as <-. destruct (AddEventHandler_spec p now items s Hls) as (_ & _ & _ & _ & _ & Hb).
    apply (f_equal length) in Hb. rewrite length_app, !length_fmap in Hb. simpl in *. lia.
  - destruct (informer_started s); [|done]. destruct (informer_listeners s !! j) as [l|]; [|done]. simpl in Hdo.
    destruct (listener_pop l) as [[? ?]|]; [|done]. injection Hdo as <-. simpl. by rewrite length_insert.
  - destruct (informer_listeners s !! j) as [l|]; [|done]. simpl in Hdo.
    destruct (listener_returned l); [|done]. injection Hdo as <-. simpl. by rewrite length_insert.
Qed.

(** The notifications that a handler is added with *)
Lemma replay_listed store items :
  (∀ k obj, store !! k = Some obj → key_of meta obj = k) → items ≡ₚ (map_to_list store).*2 →
  replay (addNotification <$> items) = store.
Proof.
  intros Hkeyed Hitems. apply map_eq. intros k. apply option_eq. intros o.
  assert (o ∈ items ∧ key_of meta o = k ↔ store !! k = Some o) as <-.
  { rewrite Hitems, list_elem_of_fmap. split.
    - intros [([k' o'] & -> & Hin) <-]. apply elem_of_map_to_list in Hin. simpl. by rewrite (Hkeyed _ _ Hin).
    - intros Ho. split; [exists (k, o); by rewrite elem_of_map_to_list|by apply Hkeyed]. }
  assert (NoDup (key_of meta <$> items)) as Hnd.
  { assert (key_of meta <$> (map_to_list store).*2 = (map_to_list store).*1) as Hkeys.
    { rewrite <-list_fmap_compose. apply list_fmap_ext. intros i [k' o'] Hi. simpl.
      apply list_elem_of_lookup_2, elem_of_map_to_list in Hi. by apply Hkeyed. }
    rewrite Hitems, Hkeys. apply NoDup_fst_map_to_list. }
  clear Hitems Hkeyed. unfold replay. induction items as [|o' items IH] using rev_ind; simpl.
  { rewrite lookup_empty, elem_of_nil. naive_solver. }
  rewrite fmap_app, foldl_app. simpl. rewrite fmap_app in Hnd. apply NoDup_app in Hnd as (Hnd & Hnew & _). rewrite lookup_insert_Some, IH by done.
  rewrite elem_of_app, list_elem_of_singleton. split; [naive_solver|]. intros [[Hin| ->] <-]; [right|by left].
  split; [|done]. intros Heq. apply (Hnew (key_of meta o)); [by apply list_elem_of_fmap_2|]. simpl. rewrite <-Heq. left.
Qed.

(** What a step does to a listener's notifications, as long as its buffers are
    as before or it pops one *)
Definition told (i : nat) (es : list (informer_event (A := A))) (w : world (A := A)) : Prop :=
  match informer_listeners (informer w) !! i with
  | Some l => replay (delivered i es ++ buffered l) = informer_indexer (informer w)
  | None => delivered i es = []
  end.

Lemma delivered_app i es es' : delivered i (es ++ es') = delivered i es ++ delivered i es'.
Proof. unfold delivered. apply omap_app. Qed.

Lemma told_same i es e w w' :
  told i es w → delivered i [e] = [] → informer_indexer (informer w') = informer_indexer (informer w) →
  buffered <$> informer_listeners (informer w') !! i = buffered <$> informer_listeners (informer w) !! i → told i (es ++ [e]) w'.
Proof.
  unfold told. rewrite delivered_app. intros Ht -> -> Hb. rewrite app_nil_r.
  destruct (informer_listeners (informer w) !! i), (informer_listeners (informer w') !! i); simplify_eq/=; [|done]. by rewrite Hb.
Qed.

Lemma told_step p i es e w w' :
  informer_execution meta (initial p) es w → informer_step meta w e w' → told i es w → told i (es ++ [e]) w'.
Proof.
  intros Hes [Hperm Hdo] Ht. pose proof (informer_inv_reached _ _ _ _ Hes) as Hinv. destruct w as [h s].
  pose proof (inv_listeners _ _ Hinv) as Hls. simpl in Hls. destruct e as [c| | |a|ks|a|e|now ks| |p' now items|j n|j]; simpl in Hdo.
  1-7: try destruct (informer_started s) eqn:Hs; try done;
    try (match type of Hdo with option_map _ ?x = _ => destruct x as [x'|]; [|done] end);
    try (match type of Hdo with fmap _ ?x = _ => destruct x as [x'|]; [|done] end); try destruct x' as [? ?]; simpl in Hdo;
    injection Hdo as <-; by eapply told_same.
  - assert (informer_indexer (informer w') = informer_indexer s ∧
      ∃ g, (∀ l, buffered (g l) = buffered l) ∧ informer_listeners (informer w') = g <$> informer_listeners s) as (Hst & g & Hg & Hl).
    { destruct (informer_started s && _); [|done]; injection Hdo as <-.
      all: destruct (existsb _ _); (split_and!; [done..|]; eexists; split; [|done]; done). }
    apply (told_same i es _ {| history := h; informer := s |}); [done..|]. cbn. rewrite Hl, list_lookup_fmap.
    destruct (informer_listeners s !! i); simpl; [by rewrite Hg|done].
  - destruct (informer_started s) eqn:Hs; [|done]. destruct (Pop (informer_fifo s)) as [[ds f]|] eqn:Hpop; [|done]. simpl in Hdo.
    destruct (HandleDeltas meta ds (informer_indexer s) (informer_listeners s)) as [store ls] eqn:Hd. injection Hdo as <-.
    unfold told in *. rewrite delivered_app, app_nil_r. simpl in *.
    pose proof (HandleDeltas_length ds (informer_indexer s) (informer_listeners s)) as Hlen. rewrite Hd in Hlen. simpl in Hlen.
    destruct (informer_listeners s !! i) as [l|] eqn:Hi.
    + destruct (inv_fifo _ _ Hinv) as [Hwf _ Hobjs Hsync]. simpl in *. pose proof (Pop_spec _ _ Hwf) as Hspec.
      destruct (fifo_queue (informer_fifo s)) as [|id queue]; [congruence|]. destruct Hspec as (ds' & Hds & Hp). rewrite Hpop in Hp.
      injection Hp as <- ->. pose proof (wf_fifo_keys _ _ Hwf _ _ Hds) as Hkeys.
      destruct (HandleDeltas_replay h ds (informer_indexer s) (informer_listeners s) i l (delivered i es)) as (l' & Hi' & Hr').
      * intros k o Ho. by eapply (inv_store _ _ Hinv).
      * intros d o Hin. apply Hobjs. by exists id, ds.
      * apply (inv_numbered _ _ Hinv).
      * intros j o Hj. rewrite Forall_lookup in Hkeys. specialize (Hkeys _ _ Hj). simpl in Hkeys. rewrite Hkeys. by eapply Hsync.
      * done.
      * by eapply Forall_lookup_1.
      * done.
      * rewrite Hd in Hi', Hr'. simpl in *. by rewrite Hi'.
    + apply lookup_ge_None in Hi. rewrite (proj2 (lookup_ge_None ls i)) by lia. done.
  - injection Hdo as <-. destruct (AddEventHandler_spec p' now items s Hls) as (H1 & _ & _ & _ & _ & Hb). simpl in Hperm.
    set (s' := AddEventHandlerWithResyncPeriod p' now items s) in *. unfold told in *. rewrite delivered_app, app_nil_r. simpl in *. rewrite H1.
    assert (buffered <$> informer_listeners s' !! i =
      ((buffered <$> informer_listeners s) ++ [if informer_started s then addNotification <$> items else []]) !! i) as Hbi
      by by rewrite <-Hb, list_lookup_fmap.
    destruct (informer_listeners s !! i) as [l|] eqn:Hi.
    + rewrite lookup_app_l, list_lookup_fmap, Hi in Hbi by (rewrite length_fmap; by eapply lookup_lt_Some).
      destruct (informer_listeners s' !! i) as [l'|]; simpl in Hbi; [|done]. injection Hbi as ->. done.
    + rewrite Ht. destruct (informer_listeners s' !! i) as [l'|]; [|done]. simpl in Hbi. symmetry in Hbi.
      apply lookup_app_Some in Hbi as [Hbi|[_ Hbi]]; [by rewrite list_lookup_fmap, Hi in Hbi|].
      apply list_lookup_singleton_Some in Hbi as [_ <-]. simpl. destruct (informer_started s) eqn:Hs.
      * apply replay_listed; [|done]. intros k o Ho. by eapply (inv_store _ _ Hinv).
      * destruct (inv_unstarted _ _ Hinv Hs) as [Hempty _]. simpl in Hempty. by rewrite Hempty.
  - destruct (informer_started s) eqn:Hs; [|done]. destruct (informer_listeners s !! j) as [l|] eqn:Hj; [|done]. simpl in Hdo, Hperm.
    destruct (listener_pop l) as [[n' l']|] eqn:Hpop; [|done]. injection Hdo as <-.
    assert (wf_listener l) as Hl1 by by eapply Forall_lookup_1. destruct (listener_pop_buffered _ _ _ Hl1 Hpop) as [_ Hb].
    assert (n' = n) as ->. { rewrite Hj in Hperm. unfold listener_pop in Hpop. repeat case_match; simplify_eq/=; done. }
    unfold told in *. rewrite delivered_app. simpl in *. destruct (decide (i = j)) as [->|Hne]; simpl.
    + rewrite list_lookup_insert_eq by (by eapply lookup_lt_Some). rewrite Hj, Hb in Ht. by rewrite <-app_assoc.
    + rewrite list_lookup_insert_ne, app_nil_r by done. done.
  - destruct (informer_listeners s !! j) as [l|] eqn:Hj; [|done]. simpl in Hdo.
    destruct (listener_returned l) as [l'|] eqn:Hret; [|done]. injection Hdo as <-.
    apply (told_same i es _ {| history := h; informer := s |}); [done..|]. cbn. unfold listener_returned in Hret.
    destruct (listener_handling l); [|done]. injection Hret as <-. destruct (decide (i = j)) as [->|Hne].
    + rewrite list_lookup_insert_eq by (by eapply lookup_lt_Some). by rewrite Hj.
    + by rewrite list_lookup_insert_ne.
Qed.

Lemma told_reached p i es w : informer_execution meta (initial p) es w → told i es w.
Proof.
  intros Hes. enough (informer_execution meta (initial p) es w ∧ told i es w) by tauto. revert es w Hes.
  apply execution_snoc_ind; [split; [apply execution_nil|done]|]. intros es w e w' Hes [_ Ht] Hstep.
  split; [by eapply execution_snoc|]. by eapply told_step.
Qed.

(** C12: The handlers of an informer are told everything: at any time, a client
    that keeps a copy of the cache from the notifications that its handler was
    called with, and those that its listener has still to call it with, has
    what is in the cache; whether the handler was added before the informer
    ran or later. *)
Theorem handlers_told_all p es w i l :
  informer_execution meta (initial p) es w → informer_listeners (informer w) !! i = Some l →
  replay (delivered i es ++ buffered l) = informer_indexer (informer w).
Proof. intros Hes Hi. pose proof (told_reached _ i _ _ Hes) as Ht. unfold told in Ht. by rewrite Hi in Ht. Qed.

(** ** The cache follows the server *)

(** What the cache is going to have is what the server had at the version that
    the reflector has come to. *)
Definition tracked (w : world (A := A)) : Prop :=
  ∃ n, reads (lastSyncResourceVersion (informer_reflector (informer w))) = Some n ∧ n ≤ length (history w) ∧
    ∀ k, view (informer_indexer (informer w)) (informer_fifo (informer w)) k = snapshot meta (history w) n !! k.

(** A list has no ghosts: whatever is queued is known to the cache or in the
    list, or it is going to be deleted. *)
Definition no_ghosts (w : world (A := A)) : Prop :=
  match reflector_phase (informer_reflector (informer w)) with
  | Listed items _ => ∀ k, is_Some (view (informer_indexer (informer w)) (informer_fifo (informer w)) k) →
      is_Some (informer_indexer (informer w) !! k) ∨ k ∈ key_of meta <$> items
  | _ => True
  end.

Lemma view_Delete store obj f k :
  view store (fifo_Delete meta store obj f) k = if bool_decide (k = key_of meta obj) then None else view store f k.
Proof.
  unfold fifo_Delete. simpl.
  destruct (store !! key_of meta obj) eqn:Hs; [|destruct (fifo_items f !! key_of meta obj) eqn:Hi].
  1, 2: rewrite view_queueAction; done.
  rewrite view_set_populated. case_bool_decide; [|done]. subst k. unfold view. by rewrite Hi.
Qed.

Lemma lookup_apply_change (m : gmap string A) c k :
  apply_change meta m c !! k =
    if bool_decide (k = key_of meta (change_object c)) then match c with Put obj => Some obj | Remove _ => None end else m !! k.
Proof.
  destruct c; simpl; case_bool_decide; subst; by rewrite ?lookup_insert_eq, ?lookup_delete_eq, ?lookup_insert_ne, ?lookup_delete_ne by done.
Qed.

Lemma watch_tracked h s e f r :
  informer_inv meta {| history := h; informer := s |} → permitted meta (Receives e) {| history := h; informer := s |} →
  watchHandler meta (informer_indexer s) e (informer_fifo s) (informer_reflector s) = Some (f, r) →
  tracked {| history := h; informer := s |} → tracked {| history := h; informer := set_fifo f (set_reflector r s) |}.
Proof.
  intros Hinv Hperm Hdo (n & Hn & Hle & Hview). pose proof (inv_numbered _ _ Hinv) as Hnum. pose proof (inv_phase _ _ Hinv) as Hp.
  unfold watchHandler, phase_ok in *. simpl in *. destruct (reflector_phase (informer_reflector s)) as [| | | |rv m]; [done..|].
  destruct Hp as [-> Hv].
  assert (∀ c g, h !! n = Some c → reads (ObjectMeta_ResourceVersion (meta (change_object c))) = Some (S n) → S n ≤ length h →
    (∀ k, view (informer_indexer s) g k = apply_change meta (snapshot meta h n) c !! k) →
    Some (g, set_phase (Watching (ObjectMeta_ResourceVersion (meta (change_object c))) (S m))
      (setLastSyncResourceVersion (ObjectMeta_ResourceVersion (meta (change_object c))) (informer_reflector s))) = Some (f, r) →
    tracked {| history := h; informer := set_fifo f (set_reflector r s) |}) as Hnext.
  { intros c g Hc Hrd HSn Hg [= <- <-]. exists (S n). split_and!; [done..|]. intros k. by rewrite (snapshot_S _ _ _ _ Hc), <-Hg. }
  destruct e as [o|o|o|rv'|b|b].
  1-3: destruct Hperm as (n' & Hn' & Hev); assert (n' = n) as -> by congruence;
    destruct (event_after_spec meta _ _ _ Hnum Hev) as (c & Hc & Hco & Hh & Hrd & HSn); subst c; eapply (Hnext _ _ Hc Hrd HSn); [|exact Hdo];
    intros k; rewrite lookup_apply_change; simpl.
  - by rewrite <-Hview; unfold fifo_Add; rewrite view_queueAction.
  - by rewrite <-Hview; unfold fifo_Update; rewrite view_queueAction.
  - by rewrite <-Hview, view_Delete.
  - injection Hdo as <- <-. exists n. simpl. rewrite Hperm. by split_and!.
  - destruct b; injection Hdo as <- <-; by exists n.
  - destruct (b && _); injection Hdo as <- <-; by exists n.
Qed.

Lemma tracked_step w e w' :
  informer_inv meta w → tracked w → informer_step meta w e w' → (∀ ks, e ≠ Syncs ks) → tracked w'.
Proof.
  destruct w as [h s]. intros Hinv Ht [Hperm Hdo] Hns. pose proof Ht as (n & Hn & Hle & Hview). simpl in Hn, Hle, Hview.
  assert (∀ s', lastSyncResourceVersion (informer_reflector s') = lastSyncResourceVersion (informer_reflector s) →
    (∀ k, view (informer_indexer s') (informer_fifo s') k = view (informer_indexer s) (informer_fifo s) k) →
    tracked {| history := h; informer := s' |}) as Hsame.
  { intros s' Hl Hv. exists n. simpl. rewrite Hl. split_and!; [done..|]. intros k. by rewrite Hv. }
  destruct e as [c| | |a|ks|a|e|now ks| |p now items|i n'|i]; simpl in Hdo.
  - injection Hdo as <-. exists n. simpl. rewrite length_app. split_and!; [done|lia|]. intros k. by rewrite snapshot_app.
  - destruct (informer_started s); [done|]. injection Hdo as <-. by apply Hsame.
  - destruct (informer_started s); [|done]. unfold ListAndWatch in Hdo. destruct (reflector_phase _); try done. injection Hdo as <-. by apply Hsame.
  - destruct (informer_started s); [|done]. unfold list_answered in Hdo.
    destruct (reflector_phase _) as [|? []| | |], a as [|[]]; simplify_eq/=; by apply Hsame.
  - by destruct (Hns ks).
  - destruct (informer_started s); [|done]. unfold watch_answered in Hdo. destruct (reflector_phase _), a as [|[]]; simplify_eq/=; by apply Hsame.
  - destruct (informer_started s); [|done]. destruct (watchHandler _ _ _ _ _) as [[f r]|] eqn:Hw; [|done]. injection Hdo as <-.
    by eapply watch_tracked.
  - destruct (informer_started s && _); [|done]; injection Hdo as <-; apply Hsame;
      destruct (existsb _ _); try done; intros k; simpl;
      (apply view_Resync; [intros k0 o Ho; by eapply (inv_store _ _ Hinv)|intros k0 ds Hds; by eapply wf_fifo_nonempty, Hds; apply (fifo_wf _ _ _ _ (inv_fifo _ _ Hinv))]).
  - destruct (informer_started s); [|done]. destruct (Pop (informer_fifo s)) as [[ds f]|] eqn:Hpop; [|done]. simpl in Hdo.
    destruct (HandleDeltas _ _ _ _) as [store ls] eqn:Hd. injection Hdo as <-. apply Hsame; [done|]. intros k. simpl.
    rewrite <-(view_Pop meta (informer_indexer s) (informer_listeners s) (informer_fifo s) ds f k); [by rewrite Hd| |done].
    apply (fifo_wf _ _ _ _ (inv_fifo _ _ Hinv)).
  - injection Hdo as <-. destruct (AddEventHandler_spec p now items s (inv_listeners _ _ Hinv)) as (H1 & H2 & _ & H4 & _).
    apply Hsame; [by rewrite H4|by rewrite H1, H2].
  - destruct (informer_started s); [|done]. destruct (informer_listeners s !! i) as [l|]; [|done]. simpl in Hdo.
    destruct (listener_pop l) as [[? ?]|]; [|done]. injection Hdo as <-. by apply Hsame.
  - destruct (informer_listeners s !! i) as [l|]; [|done]. simpl in Hdo.
    destruct (listener_returned l); [|done]. injection Hdo as <-. by apply Hsame.
Qed.

Lemma synced_tracked w ks w' : informer_inv meta w → no_ghosts w → informer_step meta w (Syncs ks) w' → tracked w'.
Proof.
  destruct w as [h s]. intros Hinv Hng [Hperm Hdo]. simpl in *. destruct (informer_started s); [|done].
  pose proof (inv_phase _ _ Hinv) as Hp. unfold no_ghosts, phase_ok, syncWith in *. simpl in *.
  destruct (reflector_phase (informer_reflector s)) as [| |items rv| |]; try done. injection Hdo as <-.
  destruct Hp as (n & Hn & Hle & Hitems). destruct (listed_index _ _ _ _ Hitems) as [Hnd Hindex].
  exists n. split_and!; [done..|]. intros k. simpl. rewrite view_Replace by done. rewrite Hindex.
  destruct (snapshot meta h n !! k) eqn:Hk; [done|]. case_bool_decide as Hdom; [done|]. apply eq_None_not_Some. intros Hv.
  destruct (Hng k Hv) as [Hs|Hin]; [by apply Hdom, elem_of_dom|].
  apply list_elem_of_fmap in Hin as (o & -> & Ho). rewrite <-Hindex in Hk.
  assert (index_by meta items !! key_of meta o = Some o) by by apply index_by_elem. congruence.
Qed.

Lemma view_empty_queue h store f k : fifo_inv meta h store f → fifo_queue f = [] → view store f k = store !! k.
Proof.
  intros Hf Hq. unfold view. destruct (fifo_items f !! k) as [ds|] eqn:Hk; [|done].
  assert (k ∈ fifo_queue f) as Hin by (apply (wf_fifo_queue _ _ (fifo_wf _ _ _ _ Hf)); by eexists). rewrite Hq in Hin. by apply not_elem_of_nil in Hin.
Qed.

Lemma empty_queue_no_ghosts w : informer_inv meta w → fifo_queue (informer_fifo (informer w)) = [] → no_ghosts w.
Proof.
  intros Hinv Hq. unfold no_ghosts. destruct (reflector_phase _); try done. intros k Hv. left.
  by rewrite (view_empty_queue _ _ _ _ (inv_fifo _ _ Hinv) Hq) in Hv.
Qed.

Lemma tracked_exact w :
  informer_inv meta w → tracked w → fifo_queue (informer_fifo (informer w)) = [] →
  ∃ n, reads (lastSyncResourceVersion (informer_reflector (informer w))) = Some n ∧ n ≤ length (history w) ∧
    informer_indexer (informer w) = snapshot meta (history w) n.
Proof.
  intros Hinv (n & Hn & Hle & Hv) Hq. exists n. split_and!; [done..|]. apply map_eq. intros k.
  by rewrite <-Hv, (view_empty_queue _ _ _ _ (inv_fifo _ _ Hinv) Hq).
Qed.

(** C14: The cache follows the server: from a list on that has no ghosts, and
    through all that the watches bring until the next list, what the cache is
    going to have when it has seen all deltas is what the server had at the
    version that the reflector has come to, and it has exactly that whenever
    the queue is empty. *)
Theorem cache_follows_server p es1 w1 ks w2 es2 w :
  informer_execution meta (initial p) es1 w1 → no_ghosts w1 → informer_step meta w1 (Syncs ks) w2 →
  informer_execution meta w2 es2 w → (∀ ks', Syncs ks' ∉ es2) →
  ∃ n, reads (lastSyncResourceVersion (informer_reflector (informer w))) = Some n ∧ n ≤ length (history w) ∧
    (∀ k, view (informer_indexer (informer w)) (informer_fifo (informer w)) k = snapshot meta (history w) n !! k) ∧
    (fifo_queue (informer_fifo (informer w)) = [] → informer_indexer (informer w) = snapshot meta (history w) n).
Proof.
  intros Hes1 Hng Hs Hes2 Hno. pose proof (informer_inv_reached _ _ _ _ Hes1) as Hinv1.
  pose proof (synced_tracked _ _ _ Hinv1 Hng Hs) as Ht2. pose proof (informer_inv_step _ _ _ _ Hinv1 Hs) as Hinv2.
  assert (informer_inv meta w ∧ tracked w) as [Hinv Ht].
  { clear Hes1 Hs Hinv1 Hng. induction Hes2 as [w|w e w' es w'' Hstep _ IH]; [done|]. apply IH.
    - intros ks' Hin. apply (Hno ks'). by right.
    - eapply tracked_step; [done..|]. intros ks' ->. apply (Hno ks'). left.
    - by eapply informer_inv_step. }
  destruct Ht as (n & Hn & Hle & Hv). exists n. split_and!; [done..|]. intros Hq.
  destruct (tracked_exact w Hinv (ex_intro _ n (conj Hn (conj Hle Hv))) Hq) as (n' & Hn' & _ & ->). congruence.
Qed.
End theorems.
