(* ===== verification/SharedInformerSync.v ===== *)
(** When an informer has synced: its cache then has nothing older than its first
    list. *)
From S2P Require Import Prelude GoStrings Types Conditions RunTypes Listers QueueSpec DeltaFIFO SharedInformer SharedInformerSpec SharedInformerInv SharedInformerTheorems.

Section sync.
Context {A : Type} (meta : A → ObjectMeta) {V : Versions}.
Implicit Types (h : list (change A)) (s : sharedIndexInformer A) (store : gmap string A) (f : DeltaFIFO A) (obj : A).

(** ** The count of the first list *)

(** Before the first list is in the queue there is nothing in it; then the keys
    of the list are the first in the queue, and counted. *)
Definition counted (w : world (A := A)) : Prop :=
  let f := informer_fifo (informer w) in
  if fifo_populated f then fifo_initialPopulationCount f ≤ length (fifo_queue f)
  else f = NewDeltaFIFOWithOptions true ∧ informer_indexer (informer w) = ∅ ∧
    match reflector_phase (informer_reflector (informer w)) with WatchStarts _ | Watching _ _ => False | _ => True end.

Lemma queueAction_queue d f : ∃ ks, fifo_queue (queueActionLocked meta d f) = fifo_queue f ++ ks.
Proof. simpl. destruct (fifo_items f !! KeyOf meta d); [exists []; by rewrite app_nil_r|by eexists]. Qed.

Lemma queue_all_queue ds f :
  ∃ ks, fifo_queue (queue_all meta ds f) = fifo_queue f ++ ks.
Proof.
  unfold queue_all. induction ds as [|d ds [ks IH]] using rev_ind; [exists []; by rewrite app_nil_r|]. rewrite foldl_app. simpl foldl.
  destruct (queueAction_queue d (foldl (λ f d, queueActionLocked meta d f) f ds)) as [ks' ->]. rewrite IH, <-app_assoc. by eexists.
Qed.

Lemma queue_all_count ds f : fifo_initialPopulationCount (queue_all meta ds f) = fifo_initialPopulationCount f.
Proof. unfold queue_all. induction ds as [|d ds IH] using rev_ind; [done|]. by rewrite foldl_app. Qed.

(** The other calls queue deltas, and do not count. *)
Definition only_queues f f' : Prop :=
  fifo_initialPopulationCount f' = fifo_initialPopulationCount f ∧ fifo_populated f' = true ∧ ∃ ks, fifo_queue f' = fifo_queue f ++ ks.

Lemma only_queues_refl f : fifo_populated f = true → only_queues f f.
Proof. intros. split_and!; [done..|]. exists []. by rewrite app_nil_r. Qed.

Lemma only_queues_action d f f' : only_queues f f' → only_queues f (queueActionLocked meta d f').
Proof.
  intros (? & ? & ks & Hks). destruct (queueAction_queue d f') as [ks' Hks']. split_and!; [done..|].
  exists (ks ++ ks'). by rewrite Hks', Hks, <-app_assoc.
Qed.

Lemma only_queues_count f f' : only_queues f f' → fifo_initialPopulationCount f ≤ length (fifo_queue f) →
  fifo_initialPopulationCount f' ≤ length (fifo_queue f') ∧
  take (fifo_initialPopulationCount f') (fifo_queue f') = take (fifo_initialPopulationCount f) (fifo_queue f).
Proof. intros (-> & _ & ks & ->) Hc. rewrite length_app, take_app_le by done. split; [lia|done]. Qed.

Lemma Replace_only_queues store ks objs f : fifo_populated f = true → only_queues f (Replace meta store ks objs f).
Proof.
  intros Hp. rewrite Replace_queues, Hp. split_and!; [apply queue_all_count|by rewrite queue_all_populated|apply queue_all_queue].
Qed.

Lemma Resync_only_queues store ks f : fifo_populated f = true → only_queues f (Resync meta store ks f).
Proof.
  intros Hp. unfold Resync. induction ks as [|k ks IH] using rev_ind; [by apply only_queues_refl|]. rewrite foldl_app. simpl.
  unfold syncKeyLocked at 1. destruct (store !! k); [|done]. destruct (fifo_items _ !! _) as [[|]|]; [|done|]; by apply only_queues_action.
Qed.

Lemma watchHandler_only_queues store e f r f' r' :
  fifo_populated f = true → watchHandler meta store e f r = Some (f', r') → only_queues f f'.
Proof.
  intros Hp. unfold watchHandler. destruct (reflector_phase r) as [| | | |rv n]; [done..|].
  assert (only_queues f (set_populated (fifo_initialPopulationCount f) f)) as Hset by (split_and!; [done..|exists []; by rewrite app_nil_r]).
  assert (∀ d, only_queues f (queueActionLocked meta d (set_populated (fifo_initialPopulationCount f) f))) as Hact
    by (intros; by apply only_queues_action).
  destruct e as [o|o|o|rv'|b|b].
  - intros [= <- <-]. apply Hact.
  - intros [= <- <-]. apply Hact.
  - intros [= <- <-]. unfold fifo_Delete. simpl. destruct (store !! key_of meta o), (fifo_items f !! key_of meta o); apply Hact || apply Hset.
  - intros [= <- <-]. by apply only_queues_refl.
  - destruct b; intros [= <- <-]; by apply only_queues_refl.
  - destruct (b && _); intros [= <- <-]; by apply only_queues_refl.
Qed.

(** The first list *)
Lemma queue_all_new t objs f :
  NoDup (key_of meta <$> objs) → (∀ k, k ∈ key_of meta <$> objs → fifo_items f !! k = None) →
  fifo_queue (queue_all meta (Upsert t <$> objs) f) = fifo_queue f ++ (key_of meta <$> objs).
Proof.
  revert f. induction objs as [|o objs IH]; intros f Hnd Hnew; [by rewrite app_nil_r|]. apply NoDup_cons in Hnd as [Ho Hnd].
  rewrite !fmap_cons in *. unfold queue_all in *. simpl foldl. rewrite IH; [|done|].
  - simpl. rewrite (Hnew (key_of meta o)) by left. by rewrite <-app_assoc.
  - intros k Hk. rewrite queueAction_items. simpl. rewrite bool_decide_false by (by intros ->). apply Hnew. by right.
Qed.

Lemma Replace_first objs ks :
  NoDup (key_of meta <$> objs) → ks ≡ₚ elements (dom (∅ : gmap string A)) →
  let f := Replace meta ∅ ks objs (NewDeltaFIFOWithOptions true) in
  fifo_queue f = key_of meta <$> objs ∧ fifo_initialPopulationCount f = length (fifo_queue f) ∧ fifo_populated f = true ∧
  ∀ d, queued f d → ∃ obj, obj ∈ objs ∧ d = Upsert Replaced obj.
Proof.
  intros Hnd Hks. assert (ks = []) as -> by (apply Permutation_nil_r; rewrite Hks, dom_empty_L, elements_empty; done).
  cbv zeta. rewrite Replace_queues. simpl fifo_populated. cbv iota. unfold replacing, replaced. simpl fifo_emitDeltaTypeReplaced.
  cbv iota. unfold removed. rewrite filter_nil, fmap_nil, app_nil_r. simpl length. rewrite Nat.add_0_r.
  assert (fifo_queue (queue_all meta (Upsert Replaced <$> objs) (NewDeltaFIFOWithOptions true)) = key_of meta <$> objs) as Hq
    by by rewrite queue_all_new.
  split_and!; [done| |done|].
  - simpl. rewrite Hq. rewrite size_list_to_set by done. done.
  - intros d Hd. assert (queued (queue_all meta (Upsert Replaced <$> objs) (NewDeltaFIFOWithOptions true)) d) as Hd' by exact Hd. clear Hd.
    unfold queue_all in Hd'. induction objs as [|o objs IH] using rev_ind; [by destruct Hd' as (k & ds & ? & _)|].
    rewrite fmap_app, foldl_app in Hd'. simpl in Hd'. apply queued_queueAction in Hd' as [Hd'| ->]; [|exists o; set_solver].
    rewrite fmap_app in Hnd. apply NoDup_app in Hnd as (Hnd & _).
    destruct IH as (o' & ? & ->); [done| |done|]; [by rewrite queue_all_new|]. exists o'. set_solver.
Qed.

(** A step that is not of the reflector leaves its queue, or pops it. *)
Lemma counted_step w e w' : informer_inv meta w → counted w → informer_step meta w e w' → counted w'.
Proof.
  destruct w as [h s]. intros Hinv Hc [Hperm Hdo]. pose proof Hc as Hcw. unfold counted in Hc. simpl in Hc.
  assert (∀ s', informer_fifo s' = informer_fifo s → informer_indexer s' = informer_indexer s →
    (match reflector_phase (informer_reflector s) with WatchStarts _ | Watching _ _ => False | _ => True end →
     match reflector_phase (informer_reflector s') with WatchStarts _ | Watching _ _ => False | _ => True end) →
    counted {| history := h; informer := s' |}) as Hsame.
  { intros s' Hf Hi Hp. unfold counted. simpl. rewrite Hf, Hi. destruct (fifo_populated _); [done|]. naive_solver. }
  assert (∀ f' s', informer_fifo s' = f' → fifo_populated (informer_fifo s) = true → only_queues (informer_fifo s) f' →
    counted {| history := h; informer := s' |}) as Hqueues.
  { intros f' s' Hf Hpop Ho. unfold counted. simpl. rewrite Hf. rewrite (proj1 (proj2 Ho)). rewrite Hpop in Hc. by eapply only_queues_count. }
  destruct e as [c| | |a|ks|a|e|now ks| |p now items|i n'|i]; simpl in Hdo.
  - injection Hdo as <-. exact Hcw.
  - destruct (informer_started s); [done|]. injection Hdo as <-. by apply Hsame.
  - destruct (informer_started s); [|done]. unfold ListAndWatch in Hdo. destruct (reflector_phase _); try done. injection Hdo as <-. by apply Hsame.
  - destruct (informer_started s); [|done]. unfold list_answered in Hdo.
    destruct (reflector_phase _) as [|? []| | |], a as [|[]]; try done; injection Hdo as <-; by apply Hsame.
  - destruct (informer_started s); [|done]. unfold syncWith in Hdo. pose proof (inv_phase _ _ Hinv) as Hp. unfold phase_ok in Hp. simpl in Hp, Hperm.
    destruct (reflector_phase _) as [| |items rv| |]; try done. injection Hdo as <-. destruct (fifo_populated (informer_fifo s)) eqn:Hpop.
    + eapply Hqueues; [done..|]. by apply Replace_only_queues.
    + destruct Hc as (Hf & Hi & _). rewrite Hi in Hperm. destruct Hp as (n & _ & _ & Hitems). destruct (listed_index _ _ _ _ Hitems) as [Hnd _].
      unfold counted. simpl. rewrite Hf, Hi. destruct (Replace_first items ks Hnd Hperm) as (_ & Hcount & -> & _). lia.
  - destruct (informer_started s); [|done]. unfold watch_answered in Hdo. destruct (reflector_phase _), a as [|[]]; try done; injection Hdo as <-; by apply Hsame.
  - destruct (informer_started s); [|done]. destruct (watchHandler _ _ _ _ _) as [[f r]|] eqn:Hw; [|done]. injection Hdo as <-.
    destruct (fifo_populated (informer_fifo s)) eqn:Hpop; [eapply Hqueues; [done..|]; by eapply watchHandler_only_queues|].
    destruct Hc as (_ & _ & Hph). unfold watchHandler in Hw. by destruct (reflector_phase _).
  - destruct (informer_started s && _); [|done]. injection Hdo as <-. destruct (existsb _ _); [|by apply Hsame]. simpl in Hperm.
    destruct (fifo_populated (informer_fifo s)) eqn:Hpop; [eapply Hqueues; [done..|]; by apply Resync_only_queues|].
    destruct Hc as (_ & Hi & _). rewrite Hi, dom_empty_L, elements_empty in Hperm. apply Permutation_nil_r in Hperm as ->. by apply Hsame.
  - destruct (informer_started s); [|done]. pose proof (Pop_spec meta _ (fifo_wf _ _ _ _ (inv_fifo _ _ Hinv))) as Hspec. simpl in Hspec.
    destruct (fifo_queue (informer_fifo s)) as [|id queue] eqn:Hq; [by rewrite Hspec in Hdo|]. destruct Hspec as (ds & Hds & Hp). rewrite Hp in Hdo.
    simpl in Hdo. destruct (HandleDeltas _ _ _ _) as [store ls]. injection Hdo as <-. unfold counted. simpl in *. destruct (fifo_populated (informer_fifo s)).
    + lia.
    + destruct Hc as (Hf & _). by rewrite Hf in Hq.
  - injection Hdo as <-. destruct (AddEventHandler_spec p now items s (inv_listeners _ _ Hinv)) as (H1 & H2 & _ & H4 & _).
    apply Hsame; [done..|]. by rewrite H4.
  - destruct (informer_started s); [|done]. destruct (informer_listeners s !! i) as [l|]; [|done]. simpl in Hdo.
    destruct (listener_pop l) as [[? ?]|]; [|done]. injection Hdo as <-. by apply Hsame.
  - destruct (informer_listeners s !! i) as [l|]; [|done]. simpl in Hdo.
    destruct (listener_returned l); [|done]. injection Hdo as <-. by apply Hsame.
Qed.

Lemma counted_reached p es w : informer_execution meta (initial p) es w → counted w.
Proof.
  intros Hes. enough (informer_inv meta w ∧ counted w) by tauto.
  apply (execution_invariant _ (λ w, informer_inv meta w ∧ counted w) _ _ _) with (2 := Hes); [|split; [apply informer_inv_initial|done]].
  intros w0 e w0' [Hi Hc] Hs. split; [by eapply informer_inv_step|by eapply counted_step].
Qed.

(** ** Freshness *)

(** The server had this of a key at some version since [v0]. *)
Definition had h (v0 : nat) (k : string) (x : option A) : Prop := ∃ n, v0 ≤ n ≤ length h ∧ snapshot meta h n !! k = x.

Definition since h v0 (rv : string) : Prop := ∃ n, reads rv = Some n ∧ v0 ≤ n ≤ length h.

(** After the list of version [v0]: the deltas are of states since then, and so
    is the cache, but for the keys of the first list that are still queued. *)
Record fresh (v0 : nat) (w : world (A := A)) : Prop := {
  fresh_populated : fifo_populated (informer_fifo (informer w)) = true;
  fresh_queued d : queued (informer_fifo (informer w)) d → had (history w) v0 (KeyOf meta d) (effect d);
  fresh_store k : k ∉ take (fifo_initialPopulationCount (informer_fifo (informer w))) (fifo_queue (informer_fifo (informer w))) →
    had (history w) v0 k (informer_indexer (informer w) !! k);
  fresh_last : since (history w) v0 (lastSyncResourceVersion (informer_reflector (informer w)));
  fresh_phase : match reflector_phase (informer_reflector (informer w)) with
    | Listing asked _ => asked = "" ∨ since (history w) v0 asked
    | Listed _ rv => since (history w) v0 rv
    | _ => True
    end
}.

Lemma had_app h h' v0 k x : had h v0 k x → had (h ++ h') v0 k x.
Proof. intros (n & Hn & Hx). exists n. rewrite snapshot_app, length_app by lia. split; [lia|done]. Qed.

Lemma since_app h h' v0 rv : since h v0 rv → since (h ++ h') v0 rv.
Proof. intros (n & Hn & ?). exists n. rewrite length_app. split; [done|lia]. Qed.

(** Queueing more deltas *)
Lemma fresh_queues v0 h s f r :
  fresh v0 {| history := h; informer := s |} → counted {| history := h; informer := s |} → only_queues (informer_fifo s) f →
  (∀ d, queued f d → queued (informer_fifo s) d ∨ had h v0 (KeyOf meta d) (effect d)) →
  since h v0 (lastSyncResourceVersion r) →
  (match reflector_phase r with Listing asked _ => asked = "" ∨ since h v0 asked | Listed _ rv => since h v0 rv | _ => True end) →
  fresh v0 {| history := h; informer := set_fifo f (set_reflector r s) |}.
Proof.
  intros [Hp Hd Hs _ _] Hc Ho Hf Hl Hph. unfold counted in Hc. simpl in *. rewrite Hp in Hc. split; simpl; [by apply Ho| | |done|done].
  - intros d Hin. destruct (Hf d Hin); [by apply Hd|done].
  - intros k. rewrite (proj2 (only_queues_count _ _ Ho Hc)). apply Hs.
Qed.

Lemma fresh_list v0 h s a r :
  fresh v0 {| history := h; informer := s |} → permitted meta (ListAnswered a) {| history := h; informer := s |} →
  list_answered a (informer_reflector s) = Some r →
  since h v0 (lastSyncResourceVersion r) ∧
  match reflector_phase r with Listing asked _ => asked = "" ∨ since h v0 asked | Listed _ rv => since h v0 rv | _ => True end.
Proof.
  intros [_ _ _ Hl Hp] Hperm. unfold list_answered. simpl in *.
  destruct (reflector_phase (informer_reflector s)) as [|asked again|? ?|?|? ?], a as [objs rv|expired]; try done.
  - destruct again; intros [= <-]; (split; [done|]); simpl; destruct Hperm as (n & Hle & Hn & _ & Hall & Hmin); exists n; (split; [done|]);
    destruct Hl as (n0 & _ & ?); (destruct Hp as [->|(m & Hm & ?)]; [rewrite Hall by done; lia|]); specialize (Hmin m Hm); lia.
  - destruct again, expired; intros [= <-]; split; try done. by left.
Qed.

Lemma fresh_relist v0 h s r :
  fresh v0 {| history := h; informer := s |} → ListAndWatch (informer_reflector s) = Some r →
  since h v0 (lastSyncResourceVersion r) ∧
  match reflector_phase r with Listing asked _ => asked = "" ∨ since h v0 asked | Listed _ rv => since h v0 rv | _ => True end.
Proof.
  intros [_ _ _ Hl Hp]. unfold ListAndWatch. simpl in *. destruct (reflector_phase _); try done. intros [= <-]. split; [done|]. simpl.
  unfold relistResourceVersion. destruct (isLastSyncResourceVersionUnavailable _); [by left|]. right.
  rewrite bool_decide_false; [done|]. intros Hempty. rewrite Hempty in Hl. destruct Hl as (n & Hn & _). by rewrite (proj1 reads_none) in Hn.
Qed.

Lemma queued_queue_all ds f d : queued (queue_all meta ds f) d → queued f d ∨ d ∈ ds.
Proof.
  unfold queue_all. induction ds as [|d' ds IH] using rev_ind; [by left|]. rewrite foldl_app. simpl.
  intros [Hq| ->]%queued_queueAction; [|right; set_solver]. destruct (IH Hq); [by left|right; set_solver].
Qed.

(** What a list queues is of its version. *)
Lemma replacing_had h n store ks objs f d :
  objs ≡ₚ (map_to_list (snapshot meta h n)).*2 → n ≤ length h → fifo_emitDeltaTypeReplaced f = true →
  d ∈ replacing meta store ks objs f → had h n (KeyOf meta d) (effect d).
Proof.
  intros Hobjs Hle Hemit. destruct (listed_index _ _ _ _ Hobjs) as [Hnd Hindex]. unfold replacing, replaced. rewrite Hemit.
  rewrite elem_of_app, removed_elem, list_elem_of_fmap. intros [(o & -> & Ho)|(k & -> & _ & Hk)]; exists n; (split; [lia|]); simpl.
  - rewrite <-Hindex. by apply index_by_elem.
  - rewrite <-Hindex. apply eq_None_not_Some. intros [o [Ho Hko]%index_by_elem]; [|done]. apply Hk, elem_of_list_to_set.
    rewrite <-Hko. by apply list_elem_of_fmap_2.
Qed.

Lemma had_weaken h v0 n k x : v0 ≤ n → had h n k x → had h v0 k x.
Proof. intros Hle (m & ? & ?). exists m. split; [lia|done]. Qed.

Lemma fresh_sync v0 h s ks f r :
  informer_inv meta {| history := h; informer := s |} → fresh v0 {| history := h; informer := s |} →
  counted {| history := h; informer := s |} →
  syncWith meta (informer_indexer s) ks (informer_fifo s) (informer_reflector s) = Some (f, r) →
  fresh v0 {| history := h; informer := set_fifo f (set_reflector r s) |}.
Proof.
  intros Hinv Hfresh Hc Hdo. pose proof (inv_phase _ _ Hinv) as Hp. pose proof (fresh_phase _ _ Hfresh) as Hv. pose proof (fresh_populated _ _ Hfresh) as Hpop.
  unfold phase_ok, syncWith in *. simpl in *. destruct (reflector_phase (informer_reflector s)) as [| |items rv| |]; try done. injection Hdo as <- <-.
  destruct Hp as (n & Hn & Hle & Hitems). destruct Hv as (n' & Hn' & Hv). assert (n' = n) as -> by congruence.
  apply fresh_queues; [done|done|by apply Replace_only_queues| |by exists n|done].
  intros d. rewrite Replace_queues, Hpop. intros [?|Hd]%queued_queue_all; [by left|right]. apply (had_weaken _ _ n); [lia|].
  eapply replacing_had; [done|done|apply (fifo_emits _ _ _ _ (inv_fifo _ _ Hinv))|done].
Qed.

Lemma fresh_watch v0 h s e f r :
  informer_inv meta {| history := h; informer := s |} → fresh v0 {| history := h; informer := s |} →
  counted {| history := h; informer := s |} → permitted meta (Receives e) {| history := h; informer := s |} →
  watchHandler meta (informer_indexer s) e (informer_fifo s) (informer_reflector s) = Some (f, r) →
  fresh v0 {| history := h; informer := set_fifo f (set_reflector r s) |}.
Proof.
  intros Hinv Hfresh Hc Hperm Hdo. pose proof (inv_phase _ _ Hinv) as Hp. pose proof (fresh_last _ _ Hfresh) as Hv. pose proof (fresh_populated _ _ Hfresh) as Hpop.
  pose proof (watchHandler_only_queues _ _ _ _ _ _ Hpop Hdo) as Honly. simpl in Honly.
  enough ((∀ d, queued f d → queued (informer_fifo s) d ∨ had h v0 (KeyOf meta d) (effect d)) ∧
    since h v0 (lastSyncResourceVersion r) ∧ match reflector_phase r with Listing _ _ | Listed _ _ => False | _ => True end) as (Hd & Hl & Hph).
  { apply fresh_queues; [done..|]. by destruct (reflector_phase r). }
  unfold phase_ok, watchHandler in *. simpl in *. destruct (reflector_phase (informer_reflector s)) as [| | | |rv m]; try done.
  destruct Hp as [-> _]. destruct Hv as (n & Hn & Hv).
  assert (∀ x c, h !! n = Some c → S n ≤ length h → reads (ObjectMeta_ResourceVersion (meta (change_object c))) = Some (S n) →
    KeyOf meta x = key_of meta (change_object c) → effect x = match c with Put o => Some o | Remove _ => None end →
    had h v0 (KeyOf meta x) (effect x) ∧ since h v0 (ObjectMeta_ResourceVersion (meta (change_object c)))) as Hnew.
  { intros x c Hc' HSn Hrd Hk Heff. split; [|exists (S n); split; [done|lia]]. exists (S n). split; [lia|].
    by rewrite (snapshot_S _ _ _ _ Hc'), lookup_apply_change, Hk, bool_decide_true, Heff. }
  destruct e as [o|o|o|rv'|b|b].
  1-3: destruct Hperm as (n' & Hn' & Hev); assert (n' = n) as -> by congruence;
    destruct (event_after_spec meta _ _ _ (inv_numbered _ _ Hinv) Hev) as (c & Hc' & Hco & _ & Hrd & HSn); subst c; injection Hdo as <- <-.
  - destruct (Hnew (Upsert Added o) (Put o) Hc' HSn Hrd eq_refl eq_refl) as [? ?]. split_and!; [|done..].
    intros d [?| ->]%queued_queueAction; [by left|by right].
  - destruct (Hnew (Upsert Updated o) (Put o) Hc' HSn Hrd eq_refl eq_refl) as [? ?]. split_and!; [|done..].
    intros d [?| ->]%queued_queueAction; [by left|by right].
  - destruct (Hnew (Deleted (FinalState o)) (Remove o) Hc' HSn Hrd eq_refl eq_refl) as [? ?]. split_and!; [|done..].
    unfold fifo_Delete. simpl. intros d. destruct (informer_indexer s !! key_of meta o), (fifo_items (informer_fifo s) !! key_of meta o);
      try (intros [?| ->]%queued_queueAction; [by left|by right]). by left.
  - injection Hdo as <- <-. split_and!; [by left| |done]. simpl. exists n. by rewrite Hperm.
  - destruct b; injection Hdo as <- <-; split_and!; try (by left); try done; by exists n.
  - destruct (b && _); injection Hdo as <- <-; split_and!; try (by left); try done; by exists n.
Qed.

Lemma fresh_resync v0 h s ks ls :
  informer_inv meta {| history := h; informer := s |} → fresh v0 {| history := h; informer := s |} →
  counted {| history := h; informer := s |} →
  fresh v0 {| history := h; informer := set_fifo (Resync meta (informer_indexer s) ks (informer_fifo s)) (set_listeners ls s) |}.
Proof.
  intros Hinv Hfresh Hc. destruct s as [store f ls0 p st r]. simpl in *. pose proof (fresh_populated _ _ Hfresh) as Hpop. simpl in Hpop.
  pose proof (fresh_store _ _ Hfresh) as Hst. pose proof (inv_store _ _ Hinv) as Hstore. simpl in *.
  apply (fresh_queues v0 h {| informer_indexer := store; informer_fifo := f; informer_listeners := ls; informer_resyncCheckPeriod := p;
    informer_started := st; informer_reflector := r |}).
  - by destruct Hfresh; split.
  - exact Hc.
  - by apply Resync_only_queues.
  - assert (wf_fifo meta f) as Hwf by apply (fifo_wf _ _ _ _ (inv_fifo _ _ Hinv)).
    assert (∀ k, fifo_items f !! k = None → had h v0 k (store !! k)) as Hnew.
    { intros k Hk. apply Hst. intros Hin%elem_of_take. destruct Hin as (j & Hj & _). apply list_elem_of_lookup_2 in Hj.
      apply (wf_fifo_queue _ _ Hwf) in Hj as [? ?]. congruence. }
    cbn. unfold Resync. enough (∀ d, queued (foldl (syncKeyLocked meta store) f ks) d → queued f d ∨ had h v0 (KeyOf meta d) (effect d)) by done.
    enough ((∀ d, queued (foldl (syncKeyLocked meta store) f ks) d → queued f d ∨ had h v0 (KeyOf meta d) (effect d)) ∧
      (∀ k, fifo_items (foldl (syncKeyLocked meta store) f ks) !! k = None → fifo_items f !! k = None) ∧
      wf_fifo meta (foldl (syncKeyLocked meta store) f ks)) by tauto.
    induction ks as [|k ks (IH & IHn & IHwf)] using rev_ind; [split_and!; [by left|done..]|]. rewrite foldl_app. simpl. set (g := foldl _ f ks) in *.
    unfold syncKeyLocked. destruct (store !! k) as [o|] eqn:Hk; [|done]. destruct (Hstore _ _ Hk) as [_ Hko].
    destruct (fifo_items g !! key_of meta o) as [[|d0 ds0]|] eqn:Hi; [by destruct (wf_fifo_nonempty _ _ IHwf _ _ Hi)|done|]. split_and!.
    + intros d [?| ->]%queued_queueAction; [by apply IH|right]. simpl. rewrite Hko in *. rewrite <-Hk. by apply Hnew, IHn.
    + intros k0. rewrite queueAction_items. case_bool_decide; [done|apply IHn].
    + by apply wf_queueAction.
  - apply (fresh_last _ _ Hfresh).
  - apply (fresh_phase _ _ Hfresh).
Qed.

Lemma fresh_pop v0 h s ds f ls :
  informer_inv meta {| history := h; informer := s |} → fresh v0 {| history := h; informer := s |} →
  Pop (informer_fifo s) = Some (ds, f) →
  let r := HandleDeltas meta ds (informer_indexer s) (informer_listeners s) in
  fresh v0 {| history := h; informer := set_indexer r.1 (set_listeners ls (set_fifo f s)) |}.
Proof.
  intros Hinv [Hp Hd Hs Hl Hph] Hpop. cbv zeta. pose proof (fifo_wf _ _ _ _ (inv_fifo _ _ Hinv)) as Hwf. simpl in *.
  pose proof (Pop_spec meta _ Hwf) as Hspec. destruct (fifo_queue (informer_fifo s)) as [|id queue] eqn:Hq; [congruence|].
  destruct Hspec as (ds' & Hds & Hpop'). rewrite Hpop in Hpop'. injection Hpop' as <- ->.
  pose proof (wf_fifo_keys _ _ Hwf _ _ Hds) as Hkeys. pose proof (wf_fifo_nonempty _ _ Hwf _ _ Hds) as Hne.
  split; simpl; [done| | |done|done].
  - intros d (k & ds0 & Hin & Hd0). simpl in Hin. apply lookup_delete_Some in Hin as [_ Hin]. apply Hd. by exists k, ds0.
  - intros k Hk. rewrite (HandleDeltas_store _ _ _ _ _ _ Hkeys). case_bool_decide as Heq.
    + subst k. destruct (last ds) as [d|] eqn:Hlast; [|by apply last_None in Hlast]. apply last_Some_elem_of in Hlast.
      rewrite Forall_forall in Hkeys. rewrite <-(Hkeys _ Hlast). apply Hd. by exists id, ds.
    + apply Hs. destruct (fifo_initialPopulationCount (informer_fifo s)) as [|n]; [set_solver|]. simpl in *. rewrite ?Nat.sub_0_r in Hk. set_solver.
Qed.

Lemma fresh_other v0 h s s' :
  fresh v0 {| history := h; informer := s |} → informer_fifo s' = informer_fifo s → informer_indexer s' = informer_indexer s →
  since h v0 (lastSyncResourceVersion (informer_reflector s')) →
  (match reflector_phase (informer_reflector s') with Listing asked _ => asked = "" ∨ since h v0 asked | Listed _ rv => since h v0 rv | _ => True end) →
  fresh v0 {| history := h; informer := s' |}.
Proof. intros [? ? ? ? ?] Hf Hi Hl Hp. split; simpl in *; rewrite ?Hf, ?Hi; done. Qed.

Lemma fresh_step v0 w e w' : informer_inv meta w → counted w → fresh v0 w → informer_step meta w e w' → fresh v0 w'.
Proof.
  destruct w as [h s]. intros Hinv Hc Hfresh [Hperm Hdo]. pose proof Hfresh as [_ _ _ Hlast Hphase].
  assert (∀ s', informer_fifo s' = informer_fifo s → informer_indexer s' = informer_indexer s →
    informer_reflector s' = informer_reflector s → fresh v0 {| history := h; informer := s' |}) as Hsame.
  { intros s' Hf Hi Hr. by apply (fresh_other v0 h s); rewrite ?Hr. }
  destruct e as [c| | |a|ks|a|e|now ks| |p now items|i n'|i]; simpl in Hdo.
  - injection Hdo as <-. destruct Hfresh as [? Hd Hs Hl Hp]. split; simpl in *; [done|intros; by apply had_app, Hd|intros; by apply had_app, Hs|by apply since_app|].
    destruct (reflector_phase _); try done; [destruct Hp as [?|?]; [by left|right]|]; by apply since_app.
  - destruct (informer_started s); [done|]. injection Hdo as <-. by apply Hsame.
  - destruct (informer_started s); [|done]. destruct (ListAndWatch _) as [r|] eqn:Hr; [|done]. injection Hdo as <-.
    destruct (fresh_relist _ _ _ _ Hfresh Hr). by apply (fresh_other v0 h s).
  - destruct (informer_started s); [|done]. destruct (list_answered _ _) as [r|] eqn:Hr; [|done]. injection Hdo as <-.
    destruct (fresh_list _ _ _ _ _ Hfresh Hperm Hr). by apply (fresh_other v0 h s).
  - destruct (informer_started s); [|done]. destruct (syncWith _ _ _ _ _) as [[f r]|] eqn:Hr; [|done]. injection Hdo as <-. by eapply fresh_sync.
  - destruct (informer_started s); [|done]. unfold watch_answered in Hdo.
    destruct (reflector_phase (informer_reflector s)) eqn:Hph, a as [|[]]; try done; injection Hdo as <-; apply (fresh_other v0 h s); simpl; try done;
      by rewrite Hph.
  - destruct (informer_started s); [|done]. destruct (watchHandler _ _ _ _ _) as [[f r]|] eqn:Hr; [|done]. injection Hdo as <-. by eapply fresh_watch.
  - destruct (informer_started s && _); [|done]; injection Hdo as <-;
      (destruct (existsb _ _); [by apply fresh_resync|by apply Hsame]).
  - destruct (informer_started s); [|done]. destruct (Pop (informer_fifo s)) as [[ds f]|] eqn:Hpop; [|done]. simpl in Hdo.
    pose proof (λ ls, fresh_pop v0 h s ds f ls Hinv Hfresh Hpop) as Hf. simpl in Hf.
    destruct (HandleDeltas _ _ _ _) as [store ls]. injection Hdo as <-. apply Hf.
  - injection Hdo as <-. destruct (AddEventHandler_spec p now items s (inv_listeners _ _ Hinv)) as (H1 & H2 & _ & H4 & _). by apply Hsame.
  - destruct (informer_started s); [|done]. destruct (informer_listeners s !! i) as [l|]; [|done]. simpl in Hdo.
    destruct (listener_pop l) as [[? ?]|]; [|done]. injection Hdo as <-. by apply Hsame.
  - destruct (informer_listeners s !! i) as [l|]; [|done]. simpl in Hdo.
    destruct (listener_returned l); [|done]. injection Hdo as <-. by apply Hsame.
Qed.

(** The first list *)
Lemma fresh_first w ks w' items rv v0 :
  informer_inv meta w → counted w → fifo_populated (informer_fifo (informer w)) = false →
  reflector_phase (informer_reflector (informer w)) = Listed items rv → reads rv = Some v0 →
  informer_step meta w (Syncs ks) w' → fresh v0 w'.
Proof.
  destruct w as [h s]. intros Hinv Hc Hpop Hph Hv [Hperm Hdo]. unfold counted in Hc. simpl in *. rewrite Hpop in Hc. destruct Hc as (Hf & Hi & _).
  destruct (informer_started s); [|done]. unfold syncWith in Hdo. rewrite Hph in Hdo. injection Hdo as <-. rewrite Hi in Hperm.
  pose proof (inv_phase _ _ Hinv) as Hp. unfold phase_ok in Hp. simpl in Hp. rewrite Hph in Hp. destruct Hp as (n & Hn & Hle & Hitems).
  assert (n = v0) as -> by congruence. destruct (listed_index _ _ _ _ Hitems) as [Hnd Hindex].
  destruct (Replace_first items ks Hnd Hperm) as (Hq & Hcount & Hpop' & Hd). split; simpl; rewrite ?Hf, ?Hi.
  - done.
  - intros d (o & Ho & ->)%Hd. exists v0. split; [lia|]. simpl. rewrite <-Hindex. by apply index_by_elem.
  - intros k. rewrite Hcount, firstn_all, Hq. intros Hk. exists v0. split; [lia|]. rewrite lookup_empty, <-Hindex.
    apply eq_None_not_Some. intros [o [Ho <-]%index_by_elem]; [|done]. apply Hk. by apply list_elem_of_fmap_2.
  - exists v0. split; [done|lia].
  - done.
Qed.

(** C26: What [HasSynced] means: when an informer has synced, the cache has of each
    key what the server had of it at some version, and at none before that of
    the first list. *)
Theorem synced_since_first_list p es1 w1 items rv v0 ks w2 es2 w :
  informer_execution meta (initial p) es1 w1 → fifo_populated (informer_fifo (informer w1)) = false →
  reflector_phase (informer_reflector (informer w1)) = Listed items rv → reads rv = Some v0 →
  informer_step meta w1 (Syncs ks) w2 → informer_execution meta w2 es2 w → HasSynced (informer w) = true →
  ∀ k, ∃ n, v0 ≤ n ≤ length (history w) ∧ informer_indexer (informer w) !! k = snapshot meta (history w) n !! k.
Proof.
  intros Hes1 Hpop Hph Hv Hs Hes2 Hsynced k. pose proof (informer_inv_reached _ _ _ _ Hes1) as Hinv1. pose proof (counted_reached _ _ _ Hes1) as Hc1.
  pose proof (fresh_first _ _ _ _ _ _ Hinv1 Hc1 Hpop Hph Hv Hs) as Hf2.
  pose proof (informer_inv_step _ _ _ _ Hinv1 Hs) as Hinv2. pose proof (counted_step _ _ _ Hinv1 Hc1 Hs) as Hc2.
  assert (fresh v0 w) as Hf.
  { clear Hes1 Hs Hinv1 Hc1. induction Hes2 as [w|w e w' es w'' Hstep _ IH]; [done|]. apply IH; [done|by eapply fresh_step|by eapply informer_inv_step|by eapply counted_step]. }
  unfold HasSynced, fifo_HasSynced in Hsynced. apply andb_true_iff in Hsynced as [_ [_ Hcount]%andb_true_iff]. apply bool_decide_eq_true in Hcount.
  destruct (fresh_store _ _ Hf k) as (n & Hn & Hk); [|by exists n]. rewrite Hcount. apply not_elem_of_nil.
Qed.
End sync.
