(* ===== verification/SharedInformerProgress.v ===== *)
(** An informer comes to have what the server has, and to have told its handlers;
    an object that it never forgets; and from an object on the server to the
    keys of the controller. *)
From S2P Require Import Prelude GoStrings Types Conditions RunTypes Listers QueueSpec DeltaFIFO SharedInformer SharedInformerSpec SharedInformerInv.
From S2P Require Import SharedInformerTheorems SharedInformerSync.

Section progress.
Context {A : Type} (meta : A → ObjectMeta) {V : Versions}.
Implicit Types (h : list (change A)) (s : sharedIndexInformer A) (store : gmap string A) (f : DeltaFIFO A) (obj : A).

(** The steps of the informer and the answers of the server, without changes of
    the objects and without new handlers *)
Definition unprompted (e : informer_event (A := A)) : Prop :=
  match e with ServerChanges _ | HandlerAdded _ _ _ => False | _ => True end.

Definition own_execution (w : world (A := A)) (es : list (informer_event (A := A))) (w' : world (A := A)) : Prop :=
  informer_execution meta w es w' ∧ Forall unprompted es.

Lemma own_nil w : own_execution w [] w.
Proof. split; [apply execution_nil|done]. Qed.

Lemma own_one w e w' : informer_step meta w e w' → unprompted e → own_execution w [e] w'.
Proof. intros. split; [by apply execution_one|by apply Forall_singleton]. Qed.

Lemma own_app w es w' es' w'' : own_execution w es w' → own_execution w' es' w'' → own_execution w (es ++ es') w''.
Proof. intros [? ?] [? ?]. split; [by eapply execution_app|by apply Forall_app]. Qed.

Lemma own_inv w es w' : own_execution w es w' → informer_inv meta w → informer_inv meta w'.
Proof. intros [Hes _] Hinv. eapply execution_invariant; [|exact Hes|done]. intros. by eapply informer_inv_step. Qed.

Lemma own_counted w es w' : own_execution w es w' → informer_inv meta w → counted w → counted w'.
Proof.
  intros [Hes _] Hinv Hc. enough (informer_inv meta w' ∧ counted w') by tauto.
  apply (execution_invariant _ (λ w, informer_inv meta w ∧ counted w) _ _ _) with (2 := Hes); [|done].
  intros w0 e w0' [Hi Hc0] Hs. split; [by eapply informer_inv_step|by eapply counted_step].
Qed.

(** *** The queue *)
Lemma drains w :
  informer_inv meta w → informer_started (informer w) = true →
  ∃ es w', own_execution w es w' ∧ fifo_queue (informer_fifo (informer w')) = [] ∧ history w' = history w ∧
    informer_reflector (informer w') = informer_reflector (informer w) ∧ informer_started (informer w') = true ∧
    (∀ ks, Syncs ks ∉ es) ∧ fifo_populated (informer_fifo (informer w')) = fifo_populated (informer_fifo (informer w)).
Proof.
  remember (length (fifo_queue (informer_fifo (informer w)))) as n eqn:Hn. revert w Hn. induction n as [|n IH]; intros w Hn Hinv Hst.
  { exists [], w. split_and!; try done; [apply own_nil|by apply nil_length_inv|by intros ks ?%not_elem_of_nil]. }
  pose proof (Pop_spec meta _ (fifo_wf _ _ _ _ (inv_fifo _ _ Hinv))) as Hspec.
  destruct (fifo_queue (informer_fifo (informer w))) as [|id queue] eqn:Hq; [done|]. destruct Hspec as (ds & Hds & Hpop).
  destruct (HandleDeltas meta ds (informer_indexer (informer w)) (informer_listeners (informer w))) as [store ls] eqn:Hd.
  set (f := {| fifo_items := delete id (fifo_items (informer_fifo (informer w))); fifo_queue := queue |}) in Hpop.
  set (w1 := {| history := history w; informer := set_indexer store (set_listeners ls (set_fifo f (informer w))) |}).
  assert (informer_step meta w Pops w1) as Hstep.
  { split; [done|]. simpl. rewrite Hst, Hpop. simpl. by rewrite Hd. }
  destruct (IH w1) as (es & w' & Hes & Hq' & Hh & Hr & Hst' & Hno & Hpp); [simpl in *; lia|by eapply informer_inv_step|done|].
  exists ([Pops] ++ es), w'. split_and!; try done.
  - eapply own_app; [by apply own_one|done].
  - intros ks. rewrite elem_of_app, list_elem_of_singleton. intros [?|?]; [done|by eapply Hno].
Qed.

(** *** Listeners *)
Definition idle (l : processorListener A) : Prop := listener_handling l = None ∧ buffered l = [].

Definition listener_work (l : processorListener A) : nat :=
  2 * length (buffered l) + match listener_handling l with Some _ => 1 | None => 0 end.

Lemma listener_settles w i l :
  informer_inv meta w → informer_started (informer w) = true → informer_listeners (informer w) !! i = Some l →
  ∃ es l', own_execution w es {| history := history w; informer := set_listeners (<[i := l']> (informer_listeners (informer w))) (informer w) |} ∧
    idle l'.
Proof.
  remember (listener_work l) as n eqn:Hn. revert w l Hn. induction (lt_wf n) as [n _ IH]. intros w l Hn Hinv Hst Hi.
  pose proof (inv_listeners _ _ Hinv) as Hls. assert (wf_listener l) as Hwf by by eapply Forall_lookup_1.
  assert (∀ e l1, informer_step meta w e {| history := history w; informer := set_listeners (<[i := l1]> (informer_listeners (informer w))) (informer w) |} →
    unprompted e → listener_work l1 < n →
    ∃ es l', own_execution w es {| history := history w; informer := set_listeners (<[i := l']> (informer_listeners (informer w))) (informer w) |} ∧ idle l')
    as Hgo.
  { intros e l1 Hstep Hun Hlt. set (w1 := {| history := history w; informer := _ |}) in Hstep.
    destruct (IH _ Hlt w1 l1 eq_refl) as (es & l' & Hes & Hidle); [by eapply informer_inv_step|done| |].
    - simpl. apply list_lookup_insert_eq. by eapply lookup_lt_Some.
    - exists ([e] ++ es), l'. split; [|done]. eapply own_app; [by apply own_one|]. simpl in Hes. by rewrite list_insert_insert_eq in Hes. }
  destruct (listener_handling l) as [n0|] eqn:Hh.
  - apply (Hgo (HandlerReturns i) {| listener_handling := None; listener_notification := listener_notification l;
      listener_pendingNotifications := listener_pendingNotifications l; listener_requestedResyncPeriod := listener_requestedResyncPeriod l;
      listener_resyncPeriod := listener_resyncPeriod l; listener_nextResync := listener_nextResync l; listener_syncing := listener_syncing l |}).
    + split; [done|]. simpl. rewrite Hi. simpl. unfold listener_returned. by rewrite Hh.
    + done.
    + subst n. unfold listener_work. rewrite Hh. unfold buffered. simpl. lia.
  - destruct (listener_notification l) as [n0|] eqn:Hnot.
    + destruct (listener_pop l) as [[n1 l1]|] eqn:Hpop; [|by unfold listener_pop in Hpop; rewrite Hh, Hnot in Hpop].
      assert (n1 = n0 ∧ listener_handling l1 = Some n0) as [-> Hh1].
      { unfold listener_pop in Hpop. rewrite Hh, Hnot in Hpop. by injection Hpop as <- <-. }
      destruct (listener_pop_buffered _ _ _ Hwf Hpop) as [_ Hb]. apply (Hgo (Handles i n0) l1); [|done|].
      * split; [simpl; by rewrite Hi, <-Hnot|]. simpl. by rewrite Hst, Hi; simpl; rewrite Hpop.
      * subst n. unfold listener_work. rewrite Hh, Hh1, Hb. simpl. lia.
    + exists [], l. split; [|by split; [|unfold buffered; rewrite Hnot, (Hwf Hnot)]]. rewrite list_insert_id by done.
      destruct w as [h [? ? ? ? ? ?]]. apply own_nil.
Qed.

Lemma listeners_settle w :
  informer_inv meta w → informer_started (informer w) = true →
  ∃ es ls, own_execution w es {| history := history w; informer := set_listeners ls (informer w) |} ∧ Forall idle ls.
Proof.
  intros Hinv Hst.
  enough (∀ n, n ≤ length (informer_listeners (informer w)) → ∃ es ls,
    own_execution w es {| history := history w; informer := set_listeners ls (informer w) |} ∧
    length ls = length (informer_listeners (informer w)) ∧ Forall idle (take n ls)) as H.
  { destruct (H _ (le_n _)) as (es & ls & Hes & Hlen & Hidle). exists es, ls. split; [done|]. by rewrite <-Hlen, firstn_all in Hidle. }
  induction n as [|n IH]; intros Hle.
  - exists [], (informer_listeners (informer w)). split_and!; [|done|done]. destruct w as [h [? ? ? ? ? ?]]. apply own_nil.
  - destruct IH as (es & ls & Hes & Hlen & Hidle); [lia|]. destruct (lookup_lt_is_Some_2 ls n) as [l Hl]; [lia|].
    set (w1 := {| history := history w; informer := set_listeners ls (informer w) |}) in Hes.
    destruct (listener_settles w1 n l) as (es' & l' & Hes' & Hidle'); [by eapply own_inv|done|done|].
    exists (es ++ es'), (<[n := l']> ls). split_and!.
    + eapply own_app; [exact Hes|exact Hes'].
    + by rewrite length_insert.
    + rewrite (take_S_r _ _ l') by (apply list_lookup_insert_eq; lia). apply Forall_app. split; [|by apply Forall_singleton].
      by rewrite take_insert_ge by lia.
Qed.

(** *** The reflector *)
Lemma own_tracked w es w' :
  own_execution w es w' → informer_inv meta w → tracked meta w → (∀ ks, Syncs ks ∉ es) → tracked meta w'.
Proof.
  intros [Hes _]. induction Hes as [w|w e w' es w'' Hstep _ IH]; intros Hinv Ht Hno; [done|]. apply IH.
  - by eapply informer_inv_step.
  - eapply tracked_step; [done..|]. intros ks ->. apply (Hno ks). left.
  - intros ks Hin. apply (Hno ks). by right.
Qed.

(** The server can have it start over. *)
Lemma starts_over w :
  ∃ es w', own_execution w es w' ∧ informer_started (informer w') = true ∧ history w' = history w ∧
    reflector_phase (informer_reflector (informer w')) = Waiting.
Proof.
  assert (∀ w, informer_started (informer w) = true → ∃ es w', own_execution w es w' ∧ informer_started (informer w') = true ∧
    history w' = history w ∧ reflector_phase (informer_reflector (informer w')) = Waiting) as Hstarted.
  { clear w. intros [h [store f ls p st [last un ph]]]. simpl. intros ->. destruct ph as [|asked again|items rv|rv|rv n].
    - by eexists [], _; split; [apply own_nil|].
    - exists [ListAnswered (ListErr false)]. destruct again; eexists; (split; [by apply own_one|done]).
    - eexists ([Syncs (elements (dom store))] ++ [WatchAnswered (WatchErr false)]), _.
      split; [eapply own_app; [apply own_one; [split; [cbn; reflexivity|cbn; reflexivity]|done]|by apply own_one]|done].
    - eexists [WatchAnswered (WatchErr false)], _. split; [by apply own_one|done].
    - eexists [Receives (WatchError false)], _. split; [by apply own_one|done]. }
  destruct (informer_started (informer w)) eqn:Hst; [by apply Hstarted|].
  destruct (Hstarted {| history := history w; informer := SharedInformer.set_started (informer w) |}) as (es & w' & Hes & ?); [done|].
  exists ([Runs] ++ es), w'. split; [|done]. eapply own_app; [|done]. apply own_one; [|done]. split; [done|]. simpl. by rewrite Hst.
Qed.

(** A list of all there is answers what the reflector asks for. *)
Lemma relist_covered w m :
  informer_inv meta w → reads (relistResourceVersion (informer_reflector (informer w))) = Some m → m ≤ length (history w).
Proof.
  intros Hinv. destruct reads_none as [Hn Hz]. unfold relistResourceVersion. destruct (isLastSyncResourceVersionUnavailable _); [by rewrite Hn|].
  case_bool_decide; [by rewrite Hz|]. destruct (inv_last _ _ Hinv) as [?|(m' & Hm' & Hle)]; [done|]. congruence.
Qed.

(** A list of what the server has, with nothing in the queue: the cache is
    going to have just that. *)
Lemma lists_all w :
  informer_inv meta w → informer_started (informer w) = true → fifo_queue (informer_fifo (informer w)) = [] →
  reflector_phase (informer_reflector (informer w)) = Waiting →
  ∃ es w', own_execution w es w' ∧ history w' = history w ∧ informer_started (informer w') = true ∧
    fifo_populated (informer_fifo (informer w')) = true ∧ tracked meta w' ∧
    reads (lastSyncResourceVersion (informer_reflector (informer w'))) = Some (length (history w)).
Proof.
  intros Hinv Hst Hq Hph. destruct (reads_all (length (history w))) as [rv Hrv].
  set (items := (map_to_list (snapshot meta (history w) (length (history w)))).*2). set (r := informer_reflector (informer w)).
  set (at_ s := {| history := history w; informer := s |}).
  set (r3 := set_phase (Listed items rv) (setIsLastSyncResourceVersionUnavailable false (set_phase (Listing (relistResourceVersion r) false) r))).
  set (w3 := at_ (set_reflector r3 (informer w))).
  assert (own_execution w ([ListStarts] ++ [ListAnswered (ListOk items rv)]) w3) as H3.
  { eapply (own_app _ _ (at_ (set_reflector (set_phase (Listing (relistResourceVersion r) false) r) (informer w)))); apply own_one; try done; split; try done.
    - simpl. unfold ListAndWatch. by rewrite Hst, Hph.
    - exists (length (history w)). split_and!; [done|done|done|done|]. intros m Hm. exact (relist_covered w m Hinv Hm).
    - simpl. by rewrite Hst. }
  pose proof (own_inv _ _ _ H3 Hinv) as Hinv3.
  set (f4 := Replace meta (informer_indexer (informer w)) (elements (dom (informer_indexer (informer w)))) items (informer_fifo (informer w))).
  set (w4 := at_ (set_fifo f4 (set_reflector (set_phase (WatchStarts rv) (setLastSyncResourceVersion rv r3)) (informer w)))).
  assert (informer_step meta w3 (Syncs (elements (dom (informer_indexer (informer w))))) w4) as H4.
  { split; [simpl; reflexivity|]. simpl. by rewrite Hst. }
  eexists _, w4. split_and!; [eapply own_app; [exact H3|by apply own_one]|done|exact Hst| | |exact Hrv].
  - subst w4 f4. simpl. rewrite Replace_queues. destruct (fifo_populated (informer_fifo (informer w))) eqn:Hp; [by rewrite queue_all_populated|done].
  - eapply synced_tracked; [exact Hinv3| |exact H4]. by apply (empty_queue_no_ghosts meta w3).
Qed.

Lemma catches_up w :
  informer_inv meta w → counted w →
  ∃ es w', own_execution w es w' ∧ history w' = history w ∧ informer_indexer (informer w') = objects_of meta (history w) ∧
    HasSynced (informer w') = true ∧ Forall idle (informer_listeners (informer w')).
Proof.
  intros Hinv Hc.
  destruct (starts_over w) as (es1 & w1 & H1 & Hst1 & Hh1 & Hph1).
  destruct (drains w1) as (es2 & w2 & H2 & Hq2 & Hh2 & Hr2 & Hst2 & _); [by eapply own_inv|done|]. pose proof (own_app _ _ _ _ _ H1 H2) as H12.
  destruct (lists_all w2) as (es3 & w3 & H3 & Hh3 & Hst3 & Hp3 & Ht3 & Hn3); [by eapply own_inv|done|done|by rewrite Hr2|].
  pose proof (own_app _ _ _ _ _ H12 H3) as H13.
  destruct (drains w3) as (es4 & w4 & H4 & Hq4 & Hh4 & Hr4 & Hst4 & Hno4 & Hp4); [by eapply own_inv|done|].
  pose proof (own_app _ _ _ _ _ H13 H4) as H14. pose proof (own_inv _ _ _ H14 Hinv) as Hinv4.
  assert (tracked meta w4) as Ht4 by (eapply own_tracked; [exact H4|by eapply own_inv|done|done]).
  destruct (tracked_exact meta w4 Hinv4 Ht4 Hq4) as (n & Hn & _ & Hexact).
  assert (n = length (history w)) as -> by congruence.
  pose proof (own_counted _ _ _ H14 Hinv Hc) as Hc4. unfold counted in Hc4. rewrite Hp4, Hp3, Hq4 in Hc4. simpl in Hc4.
  destruct (listeners_settle w4 Hinv4 Hst4) as (es5 & ls & H5 & Hidle). 
  eexists _, _. split_and!; [exact (own_app _ _ _ _ _ H14 H5)| | | |exact Hidle]; simpl.
  - congruence.
  - rewrite Hexact, <-snapshot_all. congruence.
  - unfold HasSynced, fifo_HasSynced. simpl. rewrite Hst4, Hp4, Hp3. apply bool_decide_eq_true. lia.
Qed.

Lemma own_listeners w es w' i :
  own_execution w es w' → informer_inv meta w → is_Some (informer_listeners (informer w) !! i) → is_Some (informer_listeners (informer w') !! i).
Proof.
  intros [Hes _]. induction Hes as [w|w e w' es w'' Hstep _ IH]; intros Hinv Hi; [done|]. apply IH; [by eapply informer_inv_step|].
  apply lookup_lt_is_Some in Hi. apply lookup_lt_is_Some. pose proof (listeners_stay _ _ _ _ Hinv Hstep). lia.
Qed.

(** C25: An informer can always catch up: from any state that is reached, with
    no change on the server but the answers of it, and steps of the informer's
    own goroutines, it comes to have in its cache just what the server has, to
    have synced, and all its listeners to have called their handlers with all
    there is and the handlers to have returned. *)
Theorem informer_catches_up p es w :
  informer_execution meta (initial p) es w →
  ∃ es' w', informer_execution meta w es' w' ∧ Forall unprompted es' ∧ history w' = history w ∧
    informer_indexer (informer w') = objects_of meta (history w) ∧ HasSynced (informer w') = true ∧
    Forall idle (informer_listeners (informer w')).
Proof.
  intros Hes. destruct (catches_up w) as (es' & w' & [Hes' Hun] & H); [by eapply informer_inv_reached|by eapply counted_reached|].
  by exists es', w'.
Qed.
End progress.
