(* ===== verification/SharedInformerExample.v ===== *)
(** Executions of an informer: one with changes, a resync, a lost watch and a
    second list, and one after which an object is never forgotten. *)
From S2P Require Import DeltaFIFO SharedInformer SharedInformerSpec SharedInformerInv SharedInformerTheorems SharedInformerSync SharedInformerProgress.
From S2P Require Import Prelude GoStrings Types Conditions RunTypes Listers QueueSpec.
From Stdlib Require Import Ascii.

(** ** Runs *)
Section run.
Context {A : Type} `{EqDecision A} (meta : A → ObjectMeta) {V : Versions}.
Implicit Types (w : world (A := A)) (e : informer_event (A := A)).

#[local] Instance watch_event_EqDecision : EqDecision (watch_event A).
Proof. solve_decision. Defined.
#[local] Instance informer_notification_EqDecision : EqDecision (informer_notification A).
Proof. pose proof (_ : EqDecision A). assert (EqDecision (deleted A)) by solve_decision. solve_decision. Defined.

(** A check that the server may answer so, and that ranges are in the order of
    the map *)
Definition permits e w : bool :=
  let h := history w in let s := informer w in
  match e with
  | ServerChanges c =>
    bool_decide (reads (ObjectMeta_ResourceVersion (meta (change_object c))) = Some (S (length h))) &&
    match c with Put _ => true | Remove obj => bool_decide (is_Some (objects_of meta h !! key_of meta obj)) end
  | ListAnswered (ListOk items rv) =>
    match reflector_phase (informer_reflector s), reads rv with
    | Listing asked _, Some n =>
      bool_decide (n ≤ length h) && bool_decide (items = (map_to_list (snapshot meta h n)).*2) &&
      (bool_decide (asked ≠ "") || bool_decide (n = length h)) &&
      match reads asked with Some m => bool_decide (m ≤ n) | None => true end
    | _, _ => false
    end
  | Syncs knownKeys | Resyncs _ knownKeys => bool_decide (knownKeys = elements (dom (informer_indexer s)))
  | Receives e =>
    match reflector_phase (informer_reflector s) with
    | Watching rv _ =>
      match e with
      | WatchAdded _ | WatchModified _ | WatchDeleted _ =>
        match reads rv with Some n => bool_decide (event_after meta h n = Some e) | None => false end
      | WatchBookmark rv' => bool_decide (reads rv' = reads rv)
      | WatchError _ | WatchClosed _ => true
      end
    | _ => false
    end
  | HandlerAdded _ _ items => bool_decide (items = (map_to_list (informer_indexer s)).*2)
  | Handles i n => bool_decide (listener_notification <$> informer_listeners s !! i = Some (Some n))
  | _ => true
  end.

Lemma permits_permitted e w : permits e w = true → permitted meta e w.
Proof.
  destruct e as [c| | |[items rv|b]|ks|a|e|now ks| |p now items|i n|i]; simpl; try done.
  - intros [Hrv%bool_decide_eq_true Hc]%andb_true_iff. split; [done|]. destruct c; [done|]. by apply bool_decide_eq_true in Hc.
  - destruct (reflector_phase _) as [|asked again| | |]; try done. destruct (reads rv) as [n|] eqn:Hn; [|done].
    rewrite !andb_true_iff, orb_true_iff, !bool_decide_eq_true. intros [[[Hle ->] Hnew] Hasked]. exists n. split_and!; try done.
    + by destruct Hnew.
    + intros m Hm. rewrite Hm in Hasked. by apply bool_decide_eq_true in Hasked.
  - by intros ->%bool_decide_eq_true.
  - destruct (reflector_phase _) as [| | | |rv n]; try done.
    destruct e; try done; try (by intros ?%bool_decide_eq_true); (destruct (reads rv) as [m|]; [|done]); intros ?%bool_decide_eq_true; by exists m.
  - by intros ->%bool_decide_eq_true.
  - by intros ->%bool_decide_eq_true.
  - by intros ?%bool_decide_eq_true.
Qed.

(** What happens in a list of events, if each may *)
Fixpoint informer_all w (es : list (informer_event (A := A))) : option (world (A := A)) :=
  match es with
  | [] => Some w
  | e :: es => if permits e w then w ← informer_do meta e w; informer_all w es else None
  end.

Lemma informer_all_execution w es w' : informer_all w es = Some w' → informer_execution meta w es w'.
Proof.
  revert w. induction es as [|e es IH]; intros w Hr; simpl in *; [injection Hr as <-; apply execution_nil|].
  destruct (permits e w) eqn:Hp; [|done]. destruct (informer_do meta e w) as [w1|] eqn:Hdo; [|done]. simpl in Hr.
  eapply execution_step; [split; [by apply permits_permitted|done]|by apply IH].
Qed.
End run.

(** Resource versions in unary *)
Definition ones (n : nat) : string := Nat.iter n (String "1"%char) "".
Definition reads_unary (rv : string) : option nat :=
  if bool_decide (rv = "" ∨ rv = "0") then None else if bool_decide (rv = "00") then Some 0 else Some (String.length rv).

Lemma length_ones n : String.length (ones n) = n.
Proof. induction n as [|n IH]; [done|]. simpl. by rewrite IH. Qed.

#[export] Instance unary : Versions.
Proof.
  refine {| reads := reads_unary |}; [done|]. intros [|n]; [by exists "00"|]. exists (ones (S n)). unfold reads_unary.
  rewrite bool_decide_false by (by intros [|]). rewrite bool_decide_false by done. by rewrite length_ones.
Defined.

(** Objects with a name and a resource version *)
Definition sample_meta (o : string * string) : ObjectMeta := {|
  ObjectMeta_Name := o.1; ObjectMeta_Namespace := "ns"; ObjectMeta_UID := o.1; ObjectMeta_ResourceVersion := o.2;
  ObjectMeta_Generation := 0; ObjectMeta_CreationTimestamp := 0%Z; ObjectMeta_DeletionTimestamp := None; ObjectMeta_Labels := None;
  ObjectMeta_Annotations := None; ObjectMeta_OwnerReferences := []; ObjectMeta_Other := JObj [] |}.

Abbreviation sample_event := (informer_event (A := string * string)).
Definition sample_result (es : list sample_event) : world (A := string * string) :=
  default (initial 0) (informer_all sample_meta (initial 0) es).

(** An object is listed; then the watch brings changes, and another handler is
    added. *)
Definition before_list : list sample_event :=
  [HandlerAdded 0 0 []; ServerChanges (Put ("a", "1")); Runs; ListStarts; ListAnswered (ListOk [("a", "1")] "1")].
Definition after_list : list sample_event :=
  [WatchAnswered WatchOk; ServerChanges (Put ("b", "11")); ServerChanges (Put ("a", "111")); Receives (WatchAdded ("b", "11")); Pops;
   Handles 0 (addNotification ("a", "1")); Receives (WatchModified ("a", "111")); Pops; HandlerReturns 0; ServerChanges (Remove ("b", "1111"));
   Receives (WatchDeleted ("b", "1111")); Pops; HandlerAdded 0 0 [("a", "111"); ("b", "11")]].
Definition follows : list sample_event := before_list ++ [Syncs []] ++ after_list.

(** The second handler hears of the object that the watch brought, as the first. *)
Lemma handlers_told_all_witness :
  replay sample_meta (delivered 0 follows ++ [addNotification ("b", "11"); updateNotification ("a", "1") ("a", "111")]) =
    informer_indexer (informer (sample_result follows)) ∧
  informer_indexer (informer (sample_result follows)) !! "ns/a" = Some ("a", "111").
Proof.
  split; [|vm_compute; reflexivity].
  etrans; [|apply (handlers_told_all sample_meta 0 follows (sample_result follows) 0 (default (newProcessListener 0 0 0)
    (informer_listeners (informer (sample_result follows)) !! 0)))].
  - vm_compute. reflexivity.
  - apply informer_all_execution. vm_compute. reflexivity.
  - vm_compute. reflexivity.
Defined.

(** At the end the removal of an object is queued: it is still in the cache. *)
Lemma cache_follows_server_witness :
  ∃ n, reads "1111" = Some n ∧ n ≤ 4 ∧
    (∀ k, view (informer_indexer (informer (sample_result follows))) (informer_fifo (informer (sample_result follows))) k =
      snapshot sample_meta (history (sample_result follows)) n !! k) ∧
    (["ns/b"] = [] → informer_indexer (informer (sample_result follows)) = snapshot sample_meta (history (sample_result follows)) n).
Proof.
  apply (cache_follows_server sample_meta 0 before_list (sample_result before_list) [] (sample_result (before_list ++ [Syncs []])) after_list
    (sample_result follows)).
  - apply informer_all_execution. vm_compute. reflexivity.
  - apply (empty_queue_no_ghosts sample_meta (sample_result before_list)); [|reflexivity]. apply (informer_inv_reached sample_meta 0 before_list). apply informer_all_execution.
    vm_compute. reflexivity.
  - split; [apply permits_permitted|]; vm_compute; reflexivity.
  - apply informer_all_execution. vm_compute. reflexivity.
  - intros ks. unfold after_list. set_solver.
Defined.

(** The first list has the object that is popped first. *)
Definition one_popped : list sample_event := [WatchAnswered WatchOk; ServerChanges (Put ("a", "11")); Pops].

Lemma synced_since_first_list_witness :
  HasSynced (informer (sample_result (before_list ++ [Syncs []] ++ one_popped))) = true ∧
  ∃ n, 1 ≤ n ≤ 2 ∧ informer_indexer (informer (sample_result (before_list ++ [Syncs []] ++ one_popped))) !! "ns/a" =
    snapshot sample_meta [Put ("a", "1"); Put ("a", "11")] n !! "ns/a".
Proof.
  split; [vm_compute; reflexivity|].
  apply (synced_since_first_list sample_meta 0 before_list (sample_result before_list) [("a", "1")] "1" 1 []
    (sample_result (before_list ++ [Syncs []])) one_popped (sample_result (before_list ++ [Syncs []] ++ one_popped))).
  - apply informer_all_execution. vm_compute. reflexivity.
  - vm_compute. reflexivity.
  - vm_compute. reflexivity.
  - vm_compute. reflexivity.
  - split; [apply permits_permitted|]; vm_compute; reflexivity.
  - apply informer_all_execution. vm_compute. reflexivity.
  - vm_compute. reflexivity.
Defined.

Lemma informer_catches_up_witness :
  ∃ es' w', informer_execution sample_meta (sample_result follows) es' w' ∧ Forall unprompted es' ∧
    history w' = history (sample_result follows) ∧
    informer_indexer (informer w') = objects_of sample_meta (history (sample_result follows)) ∧ HasSynced (informer w') = true ∧
    Forall idle (informer_listeners (informer w')).
Proof.
  apply (informer_catches_up sample_meta 0 follows). apply informer_all_execution. vm_compute. reflexivity.
Defined.

(** ** An object that is never forgotten

    The watch brings an object, and is lost before the processing loop has
    taken it from the queue. The object is removed, and the next list is
    without it: [Replace] queues deletions only for the keys of the cache, which
    does not have the object yet. Then the loop adds it to the cache. The
    informer has seen all changes, and its queue is empty. *)
Definition forgets : list sample_event :=
  [Runs; ListStarts; ListAnswered (ListOk [] "00"); Syncs []; WatchAnswered WatchOk; ServerChanges (Put ("a", "1")); Receives (WatchAdded ("a", "1"));
   ServerChanges (Remove ("a", "11")); Receives (WatchError false); ListStarts; ListAnswered (ListOk [] "11"); Syncs []; WatchAnswered WatchOk; Pops].

Example ghost_stays :
  let w := sample_result forgets in
  informer_execution sample_meta (initial 0) forgets w ∧ HasSynced (informer w) = true ∧ fifo_queue (informer_fifo (informer w)) = [] ∧
  reads (lastSyncResourceVersion (informer_reflector (informer w))) = Some (length (history w)) ∧
  objects_of sample_meta (history w) !! "ns/a" = None ∧ informer_indexer (informer w) !! "ns/a" = Some ("a", "1").
Proof. intros w. split; [apply informer_all_execution; vm_compute; reflexivity|]. split_and!; vm_compute; reflexivity. Qed.
