(* ===== verification/InformerListers.v ===== *)
(** The lister of TaskGroups on the cache of their informer, against what the
    API server has. *)
From S2P Require Import Prelude GoStrings Types Conditions RunTypes Listers QueueSpec.
From S2P Require Import DeltaFIFO SharedInformer SharedInformerSpec SharedInformerInv SharedInformerSync SharedInformerProgress SharedInformerExample.
From Stdlib Require Import Ascii.

(** A reading of a cache: its objects, in the order of a range over the map *)
Definition reading_of {A} (cache : gmap string A) (s : Indexer A) : Prop := Indexer_objects s ≡ₚ (map_to_list cache).*2.

(** What the lister is to return *)
Definition the_TaskGroup (objects : gmap string TaskGroup) (namespace name : string) : fallible TaskGroup :=
  match objects !! (namespace +:+ "/" +:+ name) with
  | None => inl (NewNotFound "taskgroup.custom.tekton.dev" name)
  | Some tg => inr tg
  end.

Lemma reading_keys cache (s : Indexer TaskGroup) :
  (∀ k tg, cache !! k = Some tg → key_of TaskGroup_ObjectMeta tg = k) → reading_of cache s →
  NoDup (key_of TaskGroup_ObjectMeta <$> Indexer_objects s) ∧
  ∀ k tg, cache !! k = Some tg ↔ tg ∈ Indexer_objects s ∧ key_of TaskGroup_ObjectMeta tg = k.
Proof.
  intros Hkeyed Hs. assert (key_of TaskGroup_ObjectMeta <$> (map_to_list cache).*2 = (map_to_list cache).*1) as Hkeys.
  { rewrite <-list_fmap_compose. apply list_fmap_ext. intros i [k tg] Hi. apply list_elem_of_lookup_2, elem_of_map_to_list in Hi. by apply Hkeyed. }
  split; [rewrite Hs, Hkeys; apply NoDup_fst_map_to_list|]. intros k tg. rewrite Hs, list_elem_of_fmap. split.
  - intros Hk. split; [exists (k, tg); by rewrite elem_of_map_to_list|by apply Hkeyed].
  - intros [([k' tg'] & -> & Hin) <-]. apply elem_of_map_to_list in Hin. simpl. by rewrite (Hkeyed _ _ Hin).
Qed.

Lemma lister_on_cache cache (s : Indexer TaskGroup) ns name :
  (∀ k tg, cache !! k = Some tg → key_of TaskGroup_ObjectMeta tg = k) → reading_of cache s →
  taskGroupNamespaceLister_Get (taskGroupLister_TaskGroups (NewTaskGroupLister s) ns) name = the_TaskGroup cache ns name.
Proof.
  intros Hkeyed Hs. destruct (reading_keys _ _ Hkeyed Hs) as [Hnd Hin]. unfold taskGroupNamespaceLister_Get, GetByKey, the_TaskGroup. cbn.
  set (k := ns +:+ _). pose proof (head_filter_NoDup (key_of TaskGroup_ObjectMeta) k (Indexer_objects s)) as Hhead.
  destruct (cache !! k) as [tg|] eqn:Hk.
  - apply Hin, Hhead in Hk; [|done]. unfold key_of in Hk. by rewrite Hk.
  - unfold key_of in Hhead. destruct (head _) as [tg|]; [|done]. destruct (proj1 (Hhead tg Hnd) eq_refl) as [? Htg].
    assert (cache !! k = Some tg) by by apply Hin. congruence.
Qed.

(** C13: From the API server to the lister: whatever has happened to the informer
    of TaskGroups, it can, with no change on the server, come to a state from
    which on the lister, however it reads the cache, gets of each namespace
    and name the TaskGroup that is on the server, or fails with a not-found
    error if there is none, and lists exactly those on the server that are in
    the namespace and match the selector. *)
Theorem lister_catches_up `{Versions} p es w :
  informer_execution TaskGroup_ObjectMeta (initial p) es w →
  let objects := objects_of TaskGroup_ObjectMeta (history w) in
  ∃ es' w', informer_execution TaskGroup_ObjectMeta w es' w' ∧ Forall unprompted es' ∧ history w' = history w ∧
    ∀ s, reading_of (informer_indexer (informer w')) s →
      (∀ ns name, taskGroupNamespaceLister_Get (taskGroupLister_TaskGroups (NewTaskGroupLister s) ns) name = the_TaskGroup objects ns name) ∧
      ∀ ns selector, taskGroupNamespaceLister_List (taskGroupLister_TaskGroups (NewTaskGroupLister s) ns) selector ≡ₚ
        filter (selected TaskGroup_ObjectMeta ns selector) (map_to_list objects).*2.
Proof.
  intros Hes objects. pose proof (informer_inv_reached _ _ _ _ Hes) as Hinv.
  destruct (catches_up _ w Hinv (counted_reached _ _ _ _ Hes)) as (es' & w' & Hown & Hh & Hstore & _). pose proof (own_inv _ _ _ _ Hown Hinv) as Hinv'.
  destruct Hown as [Hes' Hun]. exists es', w'. split_and!; [done..|]. intros s Hs. fold objects in Hstore. rewrite Hstore in Hs. split.
  - intros ns name. apply lister_on_cache; [|done]. intros k tg Hk. rewrite <-Hstore in Hk. by eapply (inv_store _ _ Hinv').
  - intros ns selector. unfold taskGroupNamespaceLister_List. cbn. rewrite ListAllByNamespace_selected. by rewrite Hs.
Qed.

(** Two TaskGroups are created, and one is removed; the informer does not run. *)
Definition sample_TaskGroup (name resourceVersion : string) : TaskGroup :=
  {| TaskGroup_ObjectMeta := sample_meta (name, resourceVersion); TaskGroup_Spec := V1alpha1.zero_TaskGroupSpec |}.
Definition changed : world (A := TaskGroup) :=
  {| history := [Put (sample_TaskGroup "a" "1"); Put (sample_TaskGroup "b" "11"); Remove (sample_TaskGroup "a" "111")];
     informer := NewSharedIndexInformer 0 |}.

Lemma changed_reached :
  informer_execution TaskGroup_ObjectMeta (initial 0) (ServerChanges <$> history changed) changed.
Proof.
  eapply execution_step; [split; [by split; [vm_compute|]|reflexivity]|]. eapply execution_step; [split; [by split; [vm_compute|]|reflexivity]|].
  eapply execution_step; [split; [split; [by vm_compute|]|reflexivity]|]; [by apply (bool_decide_unpack _)|]. apply execution_nil.
Qed.

Lemma lister_catches_up_witness :
  ∃ es' w', informer_execution TaskGroup_ObjectMeta changed es' w' ∧ Forall unprompted es' ∧ history w' = history changed ∧
    ∀ s, reading_of (informer_indexer (informer w')) s →
      (∀ ns name, taskGroupNamespaceLister_Get (taskGroupLister_TaskGroups (NewTaskGroupLister s) ns) name =
        the_TaskGroup (objects_of TaskGroup_ObjectMeta (history changed)) ns name) ∧
      ∀ ns selector, taskGroupNamespaceLister_List (taskGroupLister_TaskGroups (NewTaskGroupLister s) ns) selector ≡ₚ
        filter (selected TaskGroup_ObjectMeta ns selector) (map_to_list (objects_of TaskGroup_ObjectMeta (history changed))).*2.
Proof. apply (lister_catches_up 0 (ServerChanges <$> history changed)). exact changed_reached. Defined.
