(* ===== verification/System.v ===== *)
(** The controller as a whole: the informer of Runs and its handler, the work
    queue and the workers, from the API server to the requests of the
    reconciler. *)
From S2P Require Import DeltaFIFO SharedInformer SharedInformerSpec SharedInformerInv SharedInformerTheorems SharedInformerSync SharedInformerProgress.
From S2P Require Import SharedInformerExample.
From S2P Require Import Prelude GoStrings FieldErrors Types Substitution StepMerge Resolve Validation Conditions RunTypes.
From S2P Require Import Listers Cluster Reconciler RunReconciler Wiring QueueSpec WorkQueue RateLimiter DelayingQueue TwoLaneQueue.
From S2P Require Import ControllerRun ReconcilerExample ReconcilerSpec ReconcileKind RunReconcilerSpec RunReconcilerTheorems ControllerProgress.
From Stdlib Require Import Ascii.

(** ** Between the components *)

(** What [processorListener.run] calls the handler with *)
Definition deleted_object (d : deleted Run) : object :=
  match d with
  | FinalState r => RunObject r
  | FinalStateUnknown key o => DeletedFinalStateUnknown key (from_option RunObject NilObject o)
  end.
Definition listener_run (n : informer_notification Run) : notification :=
  match n with
  | updateNotification oldObj newObj => OnUpdate (RunObject oldObj) (RunObject newObj)
  | addNotification newObj => OnAdd (RunObject newObj)
  | deleteNotification oldObj => OnDelete (deleted_object oldObj)
  end.

(** [func (s runNamespaceLister) Get(name string)] on the cache of the informer,
    and a cluster in which the lister of Runs is on that cache *)
Definition runNamespaceLister_Get (cache : gmap string Run) (namespace name : string) : fallible Run :=
  match cache !! (namespace +:+ "/" +:+ name) with
  | None => inl (NewNotFound "run.tekton.dev" name)
  | Some r => inr r
  end.
Definition on_cache (cache : gmap string Run) (CL : Cluster) : Cluster :=
  {| now := now; TaskGroups_Get := TaskGroups_Get; Tasks_Get := Tasks_Get; ClusterTasks_Get := ClusterTasks_Get;
     Bundles_Get := Bundles_Get; EnableTektonOCIBundles := EnableTektonOCIBundles; DefaultCloudEventsSink := DefaultCloudEventsSink;
     TaskRuns_cache := TaskRuns_cache; Runs_lister_Get _ := runNamespaceLister_Get cache; TaskRuns_Create := TaskRuns_Create;
     TaskRuns_Patch := TaskRuns_Patch; Runs_Patch := Runs_Patch; rand_String := rand_String; decode_status := decode_status;
     encode_status := encode_status; decode_TaskGroupSpec := decode_TaskGroupSpec; GoSyntax := GoSyntax |}.

(** That only changes what the lister of Runs finds. *)
Lemma uses_fetched_on_cache `{MapOrder} cache (CL : Cluster) r i steps used used' :
  uses_fetched (CL := on_cache cache CL) r i steps used used' → uses_fetched (CL := CL) r i steps used used'.
Proof. induction 1; [apply uses_fetched_nil|by apply uses_fetched_own|by eapply uses_fetched_use]. Qed.

Lemma ready_on_cache `{MapOrder} `{ContainerMerge} cache (CL : Cluster) r tg :
  ready (CL := CL) r tg → ready (CL := on_cache cache CL) r tg.
Proof. intros [? ? ? ? Hres ?]. split; try done. intros used Hu. by eapply Hres, uses_fetched_on_cache. Qed.

Section system.
Context {MO : MapOrder} {CM : ContainerMerge} {TB : TokenBucket} {V : Versions}.
Context (runLister : string → string → fallible Run).

Abbreviation informer := SharedInformerSpec.informer.

(** What the handler of Runs does to the work queue, with the keys that
    [NewController] gives for a notification *)
Definition enqueued (keys : list NamespacedName) (c : Impl) : Impl :=
  {| workQueue := foldl (λ q key, EnqueueKey key q) (workQueue c) keys; workers := workers c |}.

(** ** The system

    The informer and the controller go on independently, but for the calls of
    the handler that the controller has added as the listener [i]. A handler's
    call is one step with its start, as it only adds keys to the queue. What
    else adds keys, as the informer of TaskRuns does, is a step of the
    controller. *)
Record system := { runs : world (A := Run); controller : Impl }.

Inductive system_event : Type := OfInformer (e : informer_event (A := Run)) | OfController (e : run_event).

Definition handler_keys (i : nat) (e : informer_event (A := Run)) : list NamespacedName :=
  match e with
  | Handles j n => if decide (i = j) then NewController runLister runInformer (listener_run n) else []
  | _ => []
  end.

Inductive system_step (i : nat) : system → system_event → system → Prop :=
  | informer_moves e w s :
    informer_step Run_ObjectMeta (runs s) e w →
    system_step i s (OfInformer e) {| runs := w; controller := enqueued (handler_keys i e) (controller s) |}
  | controller_moves e c s :
    run_step (controller s) e c → system_step i s (OfController e) {| runs := runs s; controller := c |}.

Definition system_execution (i : nat) : system → list system_event → system → Prop := execution (system_step i).

(** Before anything runs *)
Definition starting (resyncPeriod clock : Z) (rl : RateLimiter NamespacedName) (threadiness : nat) : system :=
  {| runs := initial resyncPeriod; controller := RunContext clock rl threadiness |}.

(** The steps that need nobody else: of the informer without a change on the API
    server, with what the handler adds for it, and of the controller alone. Only
    the handler adds a key. *)
Inductive system_own (i : nat) : system → system_event → system → Prop :=
  | informer_own e w s :
    informer_step Run_ObjectMeta (runs s) e w → unprompted e →
    system_own i s (OfInformer e) {| runs := w; controller := enqueued (handler_keys i e) (controller s) |}
  | controller_own e c s :
    own_step (controller s) e c → system_own i s (OfController e) {| runs := runs s; controller := c |}.

Definition own_system_execution (i : nat) : system → list system_event → system → Prop := execution (system_own i).

Lemma own_system_run i s es s' : own_system_execution i s es s' → system_execution i s es s'.
Proof.
  induction 1 as [s|s e s1 es s' Hs _ IH]; [apply execution_nil|]. eapply execution_step; [|exact IH].
  destruct Hs; [by apply informer_moves|by apply controller_moves, own_run_step].
Qed.

(** *** What the components see *)
Definition informer_events (es : list system_event) : list (informer_event (A := Run)) :=
  omap (λ e, match e with OfInformer e => Some e | OfController _ => None end) es.
Definition controller_event (i : nat) (e : system_event) : list run_event :=
  match e with OfInformer e => (λ key, OfQueue (Added key)) <$> handler_keys i e | OfController e => [e] end.
Definition controller_events (i : nat) (es : list system_event) : list run_event := es ≫= controller_event i.

Lemma controller_events_app i es es' : controller_events i (es ++ es') = controller_events i es ++ controller_events i es'.
Proof. apply bind_app. Qed.

Lemma enqueued_execution keys c : run_execution c ((λ key, OfQueue (Added key)) <$> keys) (enqueued keys c).
Proof.
  revert c. induction keys as [|key keys IH]; intros c; [destruct c; apply execution_nil|]. eapply execution_step.
  - apply (others_do (Added key) (EnqueueKey key (workQueue c))); [done|]. apply two_fast, lane_Add.
  - exact (IH {| workQueue := EnqueueKey key (workQueue c); workers := workers c |}).
Qed.

Lemma system_projects i s es s' :
  system_execution i s es s' →
  informer_execution Run_ObjectMeta (runs s) (informer_events es) (runs s') ∧
  run_execution (controller s) (controller_events i es) (controller s').
Proof.
  induction 1 as [s|s e s1 es s' Hstep _ [IH1 IH2]]; [split; apply execution_nil|]. destruct Hstep as [e w s Hw|e c s Hc]; cbn in *; split.
  - by eapply execution_step.
  - eapply execution_app; [apply enqueued_execution|exact IH2].
  - done.
  - by eapply execution_step.
Qed.

Lemma informer_lifts i s es w :
  informer_execution Run_ObjectMeta (runs s) es w → Forall unprompted es →
  ∃ c, own_system_execution i s (OfInformer <$> es) {| runs := w; controller := c |}.
Proof.
  destruct s as [w0 c0]. simpl. intros Hes. revert c0. induction Hes as [w|w e w1 es w' Hstep _ IH]; intros c0 Hun; [exists c0; apply execution_nil|].
  apply Forall_cons in Hun as [He Hun]. destruct (IH (enqueued (handler_keys i e) c0) Hun) as [c Hc]. exists c. eapply execution_step; [|exact Hc].
  exact (informer_own i e w1 {| runs := w; controller := c0 |} Hstep He).
Qed.

Lemma controller_own_lifts i s es c :
  own_run_execution (controller s) es c → own_system_execution i s (OfController <$> es) {| runs := runs s; controller := c |}.
Proof.
  destruct s as [w0 c0]. simpl. induction 1 as [c|c e c1 es c' Hstep _ IH]; [apply execution_nil|].
  eapply execution_step; [|exact IH]. exact (controller_own i e c1 {| runs := w0; controller := c |} Hstep).
Qed.

Lemma controller_lifts i s es c :
  run_execution (controller s) es c → system_execution i s (OfController <$> es) {| runs := runs s; controller := c |}.
Proof.
  destruct s as [w0 c0]. simpl. induction 1 as [c|c e c1 es c' Hstep _ IH]; [apply execution_nil|].
  eapply execution_step; [|exact IH]. exact (controller_moves i e c1 {| runs := w0; controller := c |} Hstep).
Qed.

(** Adding keys does not close the queue, and hands none out. *)
Lemma informer_only_adds i es : controller_events i (OfInformer <$> es) = (λ key, OfQueue (Added key)) <$> (es ≫= handler_keys i).
Proof. induction es as [|e es IH]; [done|]. cbn. unfold controller_events in *. by rewrite IH, fmap_app. Qed.

Lemma adds_queue_events keys : queue_events ((λ key, OfQueue (Added key)) <$> keys) = Added <$> keys.
Proof. unfold queue_events. induction keys as [|key keys IH]; [done|]. simpl. f_equal. exact IH. Qed.

Lemma controller_events_cons i e es : controller_events i (e :: es) = controller_event i e ++ controller_events i es.
Proof. done. Qed.

Lemma not_handed i es es1 es2 x es3 key :
  Got key ∉ queue_events (controller_events i es) → es ++ (OfInformer <$> es1) = es2 ++ x :: es3 →
  Got key ∉ queue_events (controller_events i es3).
Proof.
  intros Hno Hsplit Hin. assert (Got key ∈ queue_events (controller_events i (es ++ (OfInformer <$> es1)))) as Hall.
  { rewrite Hsplit, controller_events_app, controller_events_cons, !queue_events_app, !elem_of_app. by right; right. }
  rewrite controller_events_app, queue_events_app, informer_only_adds, adds_queue_events, elem_of_app in Hall.
  destruct Hall as [?|Hall]; [done|]. by apply list_elem_of_fmap in Hall as (? & ? & _).
Qed.

Lemma adds_open c keys c' : wf_run c → run_execution c ((λ key, OfQueue (Added key)) <$> keys) c' → is_open c → is_open c'.
Proof.
  intros Hwf Hes Hopen. unfold is_open in *. destruct (closed (two_lane_abs (workQueue c'))) eqn:Hc; [exfalso|done].
  destruct (run_abstract _ _ _ Hwf Hes) as [_ Habs]. pose proof (abstract_closes _ _ _ Habs Hopen Hc) as Hin.
  rewrite adds_queue_events in Hin. by apply list_elem_of_fmap in Hin as (? & ? & _).
Qed.

(** *** Which notification brought an object *)
Lemma replay_told (ns : list (informer_notification Run)) k r :
  replay Run_ObjectMeta ns !! k = Some r → ∃ n, n ∈ ns ∧ subject (listener_run n) = RunObject r.
Proof.
  induction ns as [|n ns IH] using rev_ind; [done|]. rewrite replay_snoc.
  assert (replay Run_ObjectMeta ns !! k = Some r → ∃ n', n' ∈ ns ++ [n] ∧ subject (listener_run n') = RunObject r) as Hold.
  { intros (n' & Hin & ?)%IH. exists n'. split; [set_solver|done]. }
  destruct n as [o|old o|o]; simpl; [| |by intros [_ ?]%lookup_delete_Some; apply Hold];
    (intros [[_ ->]|[_ ?]]%lookup_insert_Some; [eexists; split; [by apply elem_of_app; right; left|done]|by apply Hold]).
Qed.

Lemma delivered_split i es n :
  n ∈ delivered i (informer_events es) → ∃ es1 es2, es = es1 ++ OfInformer (Handles i n) :: es2.
Proof.
  unfold delivered, informer_events. intros (e & He & Hn)%list_elem_of_omap. apply list_elem_of_omap in He as (x & Hx & He).
  destruct x as [x|]; [|done]. injection He as ->. destruct e; try done. case_decide; [|done]. injection Hn as ->. subst.
  apply list_elem_of_split in Hx as (es1 & es2 & ->). by exists es1, es2.
Qed.

(** ** From the API server to the TaskRun *)

(** A Run for which a reconciliation in this cluster creates a TaskRun: it is of a
    TaskGroup that is found, valid and resolvable, is not being deleted, not
    done with its generation, and has no TaskRun. *)
Record awaits_TaskRun (CL : Cluster) (RS : RunServer) (r : Run) (tg : TaskGroup) : Prop := {
  awaits_namespace : namespace_name (ObjectMeta_Namespace (Run_ObjectMeta r));
  awaits_name : "/"%char ∉ String.list_ascii_of_string (ObjectMeta_Name (Run_ObjectMeta r));
  awaits_leader : IsLeaderFor (ObjectMeta_Namespace (Run_ObjectMeta r)) (ObjectMeta_Name (Run_ObjectMeta r)) = true;
  awaits_conditions : wf_conditions (RunStatus_Conditions (Run_Status r));
  awaits_ready : ready (CL := CL) (Run_SetDefaults r) tg;
  awaits_responsible : responsible r = true;
  awaits_live : reconcileMethodFor r = true;
  awaits_not_done : ¬ (observed r ∧ Run_IsDone r = true);
  awaits_none : TaskGroupRunStatus_TaskRun (DecodeExtraFields (CL := CL) (Run_Status r) zero_TaskGroupRunStatus).1 = None
}.

Lemma awaits_on_cache cache (CL : Cluster) (RS : RunServer) r tg : awaits_TaskRun CL RS r tg → awaits_TaskRun (on_cache cache CL) RS r tg.
Proof. intros []. split; try done. by apply ready_on_cache. Qed.

Lemma awaits_gets (CL : Cluster) (RS : RunServer) cache start r tg :
  let key := (ObjectMeta_Namespace (Run_ObjectMeta r), ObjectMeta_Name (Run_ObjectMeta r)) in
  awaits_TaskRun CL RS r tg → cache !! key_of Run_ObjectMeta r = Some r →
  gets (CL := on_cache cache CL) (safeKey key) start key.1 key.2 r.
Proof.
  intros key Hr Hin. pose proof (awaits_namespace _ _ _ _ Hr) as [Hne Hslash]. split; [|apply Hr| |done|done].
  - apply safeKey_split; [done|apply Hr].
  - cbn. unfold runNamespaceLister_Get. unfold key_of in Hin. destruct (ObjectMeta_Namespace (Run_ObjectMeta r)) as [|c ns] eqn:He; [done|].
    unfold MetaNamespaceKeyFunc in Hin. rewrite He in Hin. rewrite bool_decide_true in Hin by (simpl; lia). by rewrite Hin.
Qed.

(** C7: From the API server to the TaskRun: when a Run of a TaskGroup is on the
    server and no worker has been handed its key yet, the controller can, with
    no change of the Runs and with no key added but by its handler, come to list
    it and tell the handler of it, and by steps of its queue and its workers to
    a reconciliation, with the cache of the informer as it is, that asks the API
    server for exactly one TaskRun; whatever has happened before to the
    informer, the queue and the workers, in whatever order, while the queue is
    open. *)
Theorem every_Run_gets_TaskRun (CL : Cluster) (RS : RunServer) start i p clock rl threadiness es s l r tg :
  let key := (ObjectMeta_Namespace (Run_ObjectMeta r), ObjectMeta_Name (Run_ObjectMeta r)) in
  let objects := objects_of Run_ObjectMeta (history (runs s)) in
  system_execution i (starting p clock rl threadiness) es s →
  informer_listeners (informer (runs s)) !! i = Some l → threadiness ≠ 0 → is_open (controller s) →
  Got key ∉ queue_events (controller_events i es) →
  objects !! key_of Run_ObjectMeta r = Some r → awaits_TaskRun CL RS r tg →
  ∃ es' s' j err effects tr, own_system_execution i s es' s' ∧
    OfController (Reconciled j key err effects) ∈ es' ∧
    @reconcilerImpl_Reconcile MO CM (on_cache (informer_indexer (informer (runs s'))) CL) RS (safeKey key) start = (err, effects) ∧
    creations effects = [(key.1, tr)].
Proof.
  intros key objects Hes Hl Hn Hopen Hno Hr Hawaits. destruct (system_projects _ _ _ _ Hes) as [Hinf Hctl].
  pose proof (informer_inv_reached _ _ _ _ Hinf) as Hinv. pose proof (counted_reached _ _ _ _ Hinf) as Hc.
  destruct (catches_up _ (runs s) Hinv Hc) as (es1 & w1 & Hes1 & Hh1 & Hstore1 & _ & Hidle).
  destruct (own_listeners _ _ _ _ i Hes1 Hinv (mk_is_Some _ _ Hl)) as [l1 Hl1]. destruct Hes1 as [Hes1 Hun1].
  destruct (informer_lifts i s es1 w1 Hes1 Hun1) as [c1 Hown1]. pose proof (own_system_run _ _ _ _ Hown1) as Hsys1. pose proof (execution_app _ _ _ _ _ _ Hes Hsys1) as Hes01.
  destruct (system_projects _ _ _ _ Hes01) as [Hinf01 Hctl01]. destruct (system_projects _ _ _ _ Hsys1) as [_ Hctl1]. simpl in Hctl1.
  assert (buffered l1 = []) as Hb by apply (Forall_lookup_1 _ _ _ _ Hidle Hl1).
  pose proof (told_reached _ _ i _ _ Hinf01) as Htold. unfold told in Htold. simpl in Htold. rewrite Hl1, Hb, app_nil_r, Hstore1 in Htold.
  fold objects in Htold. pose proof Hr as Hr'. rewrite <-Htold in Hr'.
  apply replay_told in Hr' as (n & Hin & Hsub). apply delivered_split in Hin as (es2 & es3 & Hsplit).
  pose proof (not_handed _ _ _ _ _ _ _ Hno Hsplit) as Hno3.
  rewrite Hsplit, controller_events_app, controller_events_cons in Hctl01. cbn [controller_event handler_keys] in Hctl01.
  rewrite decide_True in Hctl01 by done.
  assert (is_open c1) as Hopen1.
  { rewrite informer_only_adds in Hctl1. eapply adds_open; [|exact Hctl1|done]. apply (run_abstract _ _ _ (wf_RunContext _ _ _) Hctl). }
  pose proof (awaits_on_cache objects _ _ _ _ Hawaits) as Hon.
  destruct (notified_Run_gets_TaskRun (on_cache objects CL) RS start clock rl threadiness _ runLister _ _ c1 _ _ r tg Hctl01 Hn Hopen1 Hno3 Hsub
    (awaits_gets CL RS objects start r tg Hawaits Hr)) as (es4 & c4 & j & err & effects & tr & Hes4 & Hrec & Heq & Htr); try apply Hon.
  exists ((OfInformer <$> es1) ++ (OfController <$> es4)), {| runs := w1; controller := c4 |}, j, err, effects, tr. split_and!.
  - eapply execution_app; [exact Hown1|]. exact (controller_own_lifts i {| runs := w1; controller := c1 |} _ _ Hes4).
  - apply elem_of_app. right. by apply list_elem_of_fmap_2.
  - simpl. rewrite Hstore1. exact Heq.
  - exact Htr.
Qed.
End system.

(** ** Witness *)
Section witness.
#[local] Existing Instance canonical_order.
#[local] Existing Instance image_merge.
#[local] Existing Instance no_bucket.

(** The controller adds its handler and runs the informer, a Run is created on
    the server, and a worker starts with the key of another. *)
Definition informer_part : list (informer_event (A := Run)) := [HandlerAdded 0 0 []; Runs; ServerChanges (Put Sample.new_run)].
Definition controller_part : list run_action := Others (CallAdd ("ns", "other")) :: hand_on ++ [works 0].
Definition created : world (A := Run) := default (initial 0) (w ← informer_do Run_ObjectMeta (HandlerAdded 0 0 []) (initial 0);
  w ← informer_do Run_ObjectMeta Runs w; informer_do Run_ObjectMeta (ServerChanges (Put Sample.new_run)) w).

Lemma awaits_new : awaits_TaskRun Sample.stale ServerSample.accepting Sample.new_run Sample.group.
Proof.
  split; [|by apply (bool_decide_unpack _)|reflexivity|apply NoDup_nil_2|exact ServerSample.ready_new|reflexivity..| |reflexivity].
  - split; [done|]. by apply (bool_decide_unpack _).
  - intros [_ H]. vm_compute in H. discriminate H.
Qed.

Lemma every_Run_gets_TaskRun_witness :
  let s := {| runs := created; controller := result_of controller_part |} in
  ∃ es' s' j err effects tr, own_system_execution (λ _ _, inr Sample.new_run) 0 s es' s' ∧
    OfController (Reconciled j run_key err effects) ∈ es' ∧
    @reconcilerImpl_Reconcile canonical_order image_merge (on_cache (SharedInformer.informer_indexer (SharedInformerSpec.informer (runs s'))) Sample.stale)
      ServerSample.accepting (safeKey run_key) 0 = (err, effects) ∧
    creations effects = [("ns", tr)].
Proof.
  intros s.
  apply (every_Run_gets_TaskRun (λ _ _, inr Sample.new_run) Sample.stale ServerSample.accepting 0 0 0 0 limiter 2
    ((OfInformer <$> informer_part) ++ (OfController <$> events_of controller_part)) s (newProcessListener 0 0 0) Sample.new_run Sample.group).
  - eapply execution_app; [|apply (controller_lifts _ _ {| runs := created; controller := two_workers |}), (run_all_execution _ controller_part); vm_compute; reflexivity].
    eapply execution_step; [apply informer_moves; split; [apply Permutation_refl|reflexivity]|].
    eapply execution_step; [apply informer_moves; split; [exact I|reflexivity]|].
    eapply execution_step; [apply informer_moves; split; [split; [reflexivity|exact I]|reflexivity]|]. apply execution_nil.
  - vm_compute. reflexivity.
  - discriminate.
  - vm_compute. reflexivity.
  - apply (bool_decide_unpack _). vm_compute. exact I.
  - vm_compute. reflexivity.
  - exact awaits_new.
Defined.
End witness.
