(* ===== verification/Buckets.v ===== *)
(** knative's hash package and reconciler/leader.go: the buckets that the keys
    are divided into for the election of leaders, by consistent hashing, and
    which keys a replica leads. *)
From S2P Require Import Prelude GoStrings Wiring.
From stdpp Require Import sorting.
From Stdlib Require Import Ascii.

(** ** hash.go *)

(** [fnv.New64a()]: the 64-bit FNV-1a hash of Go's hash/fnv. *)
Definition offset64 : Z := 14695981039346656037.
Definition prime64 : Z := 1099511628211.

(** [computeHash(n []byte, h hash.Hash64) uint64] *)
Fixpoint computeHash_from (h : Z) (n : string) : Z :=
  match n with
  | EmptyString => h
  | String c n => computeHash_from (Z.lxor h (Z.of_nat (nat_of_ascii c)) * prime64 mod 2 ^ 64)%Z n
  end.
Definition computeHash (n : string) : Z := computeHash_from offset64 n.

(** [strconv.FormatUint(h, 16)], of at most sixteen digits *)
Fixpoint hex_digits (digits : nat) (h : Z) (rest : string) : string :=
  match digits with
  | O => rest
  | S digits =>
    let rest := String (hex_digit (Z.to_nat (h mod 16))) rest in
    if bool_decide (h < 16)%Z then rest else hex_digits digits (h / 16) rest
  end.
Definition FormatUint16 (h : Z) : string := hex_digits 16 h "".

Definition startSalt : string := "start-angle-salt".
Definition stepSalt : string := "step-angle-salt".
Definition universe : Z := 2048.

(** [type hashData struct] *)
Record hashData := {
  nameLookup : gmap Z string;
  hashPool : list Z;
  hash_start : Z;
  hash_step : Z
}.

(** The slot of a name: while it is taken, the hash is appended to the text as
    salt; [fuel] bounds the number of collisions. *)
Fixpoint free_slot (fuel : nat) (buf : string) (lookup : gmap Z string) : option Z :=
  let h := computeHash buf in
  let hs := (h mod universe)%Z in
  match lookup !! hs, fuel with
  | None, _ => Some hs
  | Some _, O => None
  | Some _, S fuel => free_slot fuel (buf +:+ FormatUint16 h) lookup
  end.

Fixpoint build_slots (fuel : nat) (target : string) (from : list string) (lookup : gmap Z string) (pool : list Z) :
    option (gmap Z string * list Z) :=
  match from with
  | [] => Some (lookup, pool)
  | f :: from =>
    hs ← free_slot fuel (f +:+ target) lookup;
    build_slots fuel target from (<[hs := f]> lookup) (pool ++ [hs])
  end.

(** [func buildHashes(in sets.String, target string) *hashData] *)
Definition buildHashes (fuel : nat) (names : gset string) (target : string) : option hashData :=
  '(lookup, pool) ← build_slots fuel target (merge_sort String.le (elements names)) ∅ [];
  Some {| nameLookup := lookup; hashPool := merge_sort Z.le pool;
          hash_start := (computeHash (target +:+ startSalt) mod universe)%Z;
          hash_step := (computeHash (target +:+ stepSalt) mod universe)%Z |}.

(** [sort.Search(hpl, func(i) bool { return hashPool[i] >= angle })], wrapped around *)
Fixpoint search (pool : list Z) (angle : Z) : nat :=
  match pool with
  | [] => 0
  | h :: pool => if bool_decide (angle ≤ h)%Z then 0 else S (search pool angle)
  end.
Definition root_of (pool : list Z) (angle : Z) : nat :=
  let root := search pool angle in if bool_decide (root = length pool) then 0 else root.

(** The next index that is not selected; there is one while not all are. *)
Fixpoint next_free (steps : nat) (hpl : nat) (selection : gset nat) (root : nat) : nat :=
  match steps with
  | O => root
  | S steps =>
    if bool_decide (root ∈ selection)
    then next_free steps hpl selection (if bool_decide (S root = hpl) then 0 else S root)
    else root
  end.

Fixpoint select (n : nat) (pool : list Z) (step : Z) (selection : gset nat) (angle : Z) : gset nat :=
  match n with
  | O => selection
  | S n =>
    let root := next_free (length pool) (length pool) selection (root_of pool angle) in
    select n pool step ({[root]} ∪ selection) ((angle + step) mod universe)%Z
  end.

(** [hd.nameForHIndex(hi)], which panics for an index outside of the pool, and
    [hd.fromIndexSet(s)] *)
Definition nameForHIndex (hd : hashData) (hi : nat) : outcome string :=
  match hashPool hd !! hi with Some h => Returns (default "" (nameLookup hd !! h)) | None => Panics end.
Definition fromIndexSet (hd : hashData) (s : gset nat) : outcome (gset string) :=
  foldr (λ v ret, match nameForHIndex hd v, ret with Returns name, Returns ret => Returns ({[name]} ∪ ret) | _, _ => Panics end)
    (Returns ∅) (elements s).

(** [func ChooseSubset(from sets.String, n int, target string) sets.String], or
    [None] when the fuel does not suffice for the slots *)
Definition ChooseSubset (fuel : nat) (from : gset string) (n : nat) (target : string) : option (outcome (gset string)) :=
  if bool_decide (size from ≤ n) then Some (Returns from)
  else
    hd ← buildHashes fuel from target;
    Some (fromIndexSet hd (select n (hashPool hd) (hash_step hd) ∅ (hash_start hd))).

(** ** bucketer.go *)

(** [func (bs *BucketSet) Owner(key string) string]: the cache holds what was
    computed before; [l.UnsortedList()[0]] panics for an empty set. *)
Definition Owner (fuel : nat) (buckets : gset string) (key : string) : option (outcome string) :=
  l ← ChooseSubset fuel buckets 1 key;
  Some (match l with Returns l => match elements l with [] => Panics | name :: _ => Returns name end | Panics => Panics end).

(** The buckets: [UniversalBucket()], and the [Bucket] of a [BucketSet]. *)
Inductive Bucket : Type :=
  | UniversalBucket
  | SetBucket (name : string) (buckets : gset string).

(** [Name()] and [Has(nn)], which does not panic for a bucket of its set
    ([Owner_returns]) *)
Definition Bucket_Name (b : Bucket) : string := match b with UniversalBucket => "" | SetBucket name _ => name end.
Definition Bucket_Has (fuel : nat) (b : Bucket) (nn : NamespacedName) : bool :=
  match b with
  | UniversalBucket => true
  | SetBucket name buckets =>
    match Owner fuel buckets (NamespacedName_String nn) with Some (Returns owner) => bool_decide (owner = name) | _ => false end
  end.

(** [func (bs *BucketSet) Buckets() []reconciler.Bucket] *)
Definition Buckets (buckets : gset string) : list Bucket := (λ n, SetBucket n buckets) <$> merge_sort String.le (elements buckets).

(** ** leader.go *)

(** [type LeaderAwareFuncs struct]: the buckets it leads, by their names *)
Definition LeaderAwareFuncs : Type := gmap string Bucket.

(** [func (laf *LeaderAwareFuncs) IsLeaderFor(key) bool]: the order of the map
    does not matter. *)
Definition LeaderAware_IsLeaderFor (fuel : nat) (laf : LeaderAwareFuncs) (key : NamespacedName) : bool :=
  existsb (λ bkt, Bucket_Has fuel bkt.2 key) (map_to_list laf).

(** [Promote(b, enq)]: what it leads then, and the keys it asks [enq] for, with
    the bucket; [PromoteFunc] is called only with a function to enqueue. *)
Definition Promote (b : Bucket) (laf : LeaderAwareFuncs) : LeaderAwareFuncs := <[Bucket_Name b := b]> laf.

(** [func (laf *LeaderAwareFuncs) Demote(b Bucket)]: no [DemoteFunc] is set. *)
Definition Demote (b : Bucket) (laf : LeaderAwareFuncs) : LeaderAwareFuncs := delete (Bucket_Name b) laf.

(** ** Lemmas *)
Lemma free_slot_free fuel buf lookup hs : free_slot fuel buf lookup = Some hs → lookup !! hs = None.
Proof.
  revert buf. induction fuel as [|fuel IH]; intros buf; simpl; destruct (lookup !! (computeHash buf mod universe)%Z) eqn:Hl; try done;
    try (by intros [= <-]). apply IH.
Qed.

(** More fuel does not change what is found. *)
Lemma free_slot_more fuel fuel' buf lookup hs :
  fuel ≤ fuel' → free_slot fuel buf lookup = Some hs → free_slot fuel' buf lookup = Some hs.
Proof.
  revert fuel' buf. induction fuel as [|fuel IH]; intros [|fuel'] buf Hle; try lia; simpl; [done| |];
    destruct (lookup !! _); try done. apply IH. lia.
Qed.

Lemma build_slots_more fuel fuel' target from lookup pool r :
  fuel ≤ fuel' → build_slots fuel target from lookup pool = Some r → build_slots fuel' target from lookup pool = Some r.
Proof.
  intros Hle. revert lookup pool. induction from as [|f from IH]; intros lookup pool; simpl; [done|].
  destruct (free_slot fuel _ lookup) as [hs|] eqn:Hfree; [|done]. rewrite (free_slot_more _ _ _ _ _ Hle Hfree). apply IH.
Qed.

Lemma Owner_more_fuel fuel fuel' buckets key r :
  fuel ≤ fuel' → Owner fuel buckets key = Some r → Owner fuel' buckets key = Some r.
Proof.
  intros Hle. unfold Owner, ChooseSubset, buildHashes. case_bool_decide; [done|].
  destruct (build_slots fuel key _ ∅ []) as [slots|] eqn:Hbuild; [|done]. by rewrite (build_slots_more _ _ _ _ _ _ _ Hle Hbuild).
Qed.

(** The pool has a slot of its own for each name. *)
Record slots (from : list string) (lookup : gmap Z string) (pool : list Z) : Prop := {
  slots_distinct : NoDup pool;
  slots_names : Forall2 (λ h f, lookup !! h = Some f) pool from
}.

Lemma build_slots_spec fuel target from lookup pool lookup' pool' done_ :
  build_slots fuel target from lookup pool = Some (lookup', pool') → slots done_ lookup pool → (∀ h, is_Some (lookup !! h) → h ∈ pool) →
  slots (done_ ++ from) lookup' pool'.
Proof.
  revert lookup pool done_. induction from as [|f from IH]; intros lookup pool done_; simpl.
  { intros [= <- <-] Hslots _. by rewrite app_nil_r. }
  destruct (free_slot fuel (f +:+ target) lookup) as [hs|] eqn:Hfree; [|done]. simpl. intros Hbuild [Hd Hn] Hin.
  apply free_slot_free in Hfree. replace (done_ ++ f :: from) with ((done_ ++ [f]) ++ from) by by rewrite <-(assoc_L (++)).
  assert (hs ∉ pool) as Hnew.
  { intros Hp. apply list_elem_of_lookup in Hp as [i Hi]. destruct (Forall2_lookup_l _ _ _ _ _ Hn Hi) as (f' & _ & Hf). congruence. }
  apply (IH _ _ _ Hbuild).
  - split.
    + apply NoDup_app. split_and!; [done| |apply NoDup_singleton]. intros h Hh. rewrite list_elem_of_singleton. by intros ->.
    + apply Forall2_app; [|apply Forall2_cons; split; [apply lookup_insert_eq|done]].
      apply Forall2_same_length_lookup in Hn as [Hlen Hn]. apply Forall2_same_length_lookup. split; [done|].
      intros i h g Hh Hg. rewrite lookup_insert_ne; [by eapply Hn|]. intros ->. by apply Hnew, list_elem_of_lookup_2 with i.
  - intros h. destruct (decide (h = hs)) as [->|Hne]; [intros _; apply elem_of_app; right; by left|].
    rewrite lookup_insert_ne by done. intros Hh. apply elem_of_app. left. by apply Hin.
Qed.

Record wf_hashData (names : gset string) (hd : hashData) : Prop := {
  wf_pool : NoDup (hashPool hd);
  wf_length : length (hashPool hd) = size names;
  wf_name h : h ∈ hashPool hd → ∃ f, nameLookup hd !! h = Some f ∧ f ∈ names;
  wf_injective h h' f : h ∈ hashPool hd → h' ∈ hashPool hd → nameLookup hd !! h = Some f → nameLookup hd !! h' = Some f → h = h'
}.

Lemma buildHashes_wf fuel names target hd : buildHashes fuel names target = Some hd → wf_hashData names hd.
Proof.
  unfold buildHashes. set (from := merge_sort String.le (elements names)).
  destruct (build_slots fuel target from ∅ []) as [[lookup pool]|] eqn:Hb; [|done]. simpl. intros [= <-].
  assert (slots from lookup pool) as [Hd Hn].
  { apply (build_slots_spec _ _ _ _ _ _ _ [] Hb); [by split; [constructor|]|]. intros h [f Hf]. by rewrite lookup_empty in Hf. }
  assert (NoDup from) as Hfrom by (unfold from; rewrite merge_sort_Permutation; apply NoDup_elements).
  assert (∀ h, h ∈ merge_sort Z.le pool ↔ h ∈ pool) as Hin by (intros h; by rewrite merge_sort_Permutation).
  pose proof (Forall2_same_length_lookup (λ h f, lookup !! h = Some f) pool from) as [Hn' _]. destruct (Hn' Hn) as [Hlen Hn''].
  split; cbn.
  - by rewrite merge_sort_Permutation.
  - rewrite (Permutation_length (merge_sort_Permutation Z.le pool)), Hlen. unfold from.
    by rewrite (Permutation_length (merge_sort_Permutation String.le _)).
  - intros h Hh. apply Hin in Hh. apply list_elem_of_lookup in Hh as [i Hi].
    destruct (Forall2_lookup_l _ _ _ _ _ Hn Hi) as (f & Hf & Hl). exists f. split; [done|].
    apply list_elem_of_lookup_2 in Hf. unfold from in Hf. by rewrite merge_sort_Permutation, elem_of_elements in Hf.
  - intros h h' f Hh Hh' Hf Hf'. apply Hin in Hh, Hh'. apply list_elem_of_lookup in Hh as [i Hi], Hh' as [j Hj].
    destruct (Forall2_lookup_l _ _ _ _ _ Hn Hi) as (g & Hg & Hl), (Forall2_lookup_l _ _ _ _ _ Hn Hj) as (g' & Hg' & Hl').
    assert (g = f) as -> by congruence. assert (g' = f) as -> by congruence.
    rewrite (NoDup_lookup _ _ _ _ Hfrom Hg Hg') in Hi. congruence.
Qed.

(** The search for a free index goes round once. *)
Lemma next_free_spec hpl selection steps root :
  root < hpl →
  next_free steps hpl selection root < hpl ∧
  ((next_free steps hpl selection root ∉ selection) ∨ ∀ k, k < steps → (root + k) mod hpl ∈ selection).
Proof.
  revert root. induction steps as [|steps IH]; intros root Hroot; simpl; [split; [done|right; lia]|].
  case_bool_decide as Hsel; [|by auto].
  assert (∀ k, (root + S k) mod hpl = ((if bool_decide (S root = hpl) then 0 else S root) + k) mod hpl) as Hshift.
  { intros k. case_bool_decide as Hend; [|f_equal; lia]. replace (root + S k) with (0 + k + 1 * hpl) by lia. by rewrite Nat.Div0.mod_add. }
  destruct (IH (if bool_decide (S root = hpl) then 0 else S root)) as [Hlt Hor]; [case_bool_decide; lia|]. split; [done|].
  destruct Hor as [Hfree|Hall]; [by left|right]. intros [|k] Hk; [by rewrite Nat.add_0_r, Nat.mod_small|]. rewrite Hshift. apply Hall. lia.
Qed.

Definition below (hpl : nat) (selection : gset nat) : Prop := ∀ i, i ∈ selection → i < hpl.

Lemma size_seq hpl : size (list_to_set (seq 0 hpl) : gset nat) = hpl.
Proof. rewrite size_list_to_set, length_seq; [done|apply NoDup_seq]. Qed.

Lemma below_size hpl selection : below hpl selection → size selection ≤ hpl.
Proof.
  intros Hb. assert (size selection ≤ size (list_to_set (seq 0 hpl) : gset nat)); [|by rewrite size_seq in *].
  apply subseteq_size. intros i Hi. apply elem_of_list_to_set, elem_of_seq. specialize (Hb i Hi). lia.
Qed.

Lemma next_free_free hpl selection root :
  root < hpl → size selection < hpl → (next_free hpl hpl selection root ∉ selection) ∧ next_free hpl hpl selection root < hpl.
Proof.
  intros Hroot Hsize. destruct (next_free_spec hpl selection hpl root Hroot) as [Hlt [Hfree|Hall]]; [done|exfalso].
  assert (size (list_to_set (seq 0 hpl) : gset nat) ≤ size selection); [|rewrite size_seq in *; lia].
  apply subseteq_size. intros i Hi%elem_of_list_to_set%elem_of_seq.
  assert ((root + (i + (hpl - root)) mod hpl) mod hpl = i) as <-; [|apply Hall, Nat.mod_upper_bound; lia].
  rewrite Nat.Div0.add_mod_idemp_r. replace (root + (i + (hpl - root))) with (i + 1 * hpl) by lia. rewrite Nat.Div0.mod_add, Nat.mod_small; lia.
Qed.

Lemma search_le pool angle : search pool angle ≤ length pool.
Proof. induction pool as [|h pool IH]; simpl; [done|]. case_bool_decide; lia. Qed.

Lemma root_of_lt pool angle : pool ≠ [] → root_of pool angle < length pool.
Proof.
  intros Hne. assert (0 < length pool) by (destruct pool; simpl; [done|lia]). unfold root_of. pose proof (search_le pool angle).
  case_bool_decide; lia.
Qed.

Lemma select_spec n pool step selection angle :
  pool ≠ [] → below (length pool) selection → size selection + n ≤ length pool →
  below (length pool) (select n pool step selection angle) ∧ size (select n pool step selection angle) = size selection + n.
Proof.
  intros Hne. revert selection angle. induction n as [|n IH]; intros selection angle Hb Hsize; simpl; [by auto|].
  destruct (next_free_free (length pool) selection (root_of pool angle)) as [Hfree Hlt]; [by apply root_of_lt|lia|].
  set (root := next_free _ _ _ _) in *.
  assert (size ({[root]} ∪ selection) = S (size selection)) as Hroot by (rewrite size_union, size_singleton; [lia|set_solver]).
  destruct (IH ({[root]} ∪ selection) ((angle + step) mod universe)%Z) as [Hb' Hsize'].
  - intros i [->%elem_of_singleton|Hi]%elem_of_union; [done|by apply Hb].
  - lia.
  - split; [done|]. lia.
Qed.

(** The name at an index of the pool. *)
Definition name_at (hd : hashData) (i : nat) : string := default "" (hashPool hd !! i ≫= (nameLookup hd !!.)).

Lemma fromIndexSet_names hd s :
  below (length (hashPool hd)) s → fromIndexSet hd s = Returns (list_to_set (name_at hd <$> elements s)).
Proof.
  intros Hb. unfold fromIndexSet. assert (∀ i, i ∈ elements s → i < length (hashPool hd)) as Hl by (intros i; rewrite elem_of_elements; apply Hb).
  clear Hb. induction (elements s) as [|i l IH]; [done|]. cbn [foldr fmap list_fmap list_to_set]. rewrite IH by (intros j Hj; apply Hl; by right).
  destruct (lookup_lt_is_Some_2 (hashPool hd) i) as [h Hh]; [apply Hl; left|]. unfold nameForHIndex, name_at. by rewrite Hh.
Qed.

Lemma name_at_spec names hd i :
  wf_hashData names hd → i < length (hashPool hd) →
  ∃ h, hashPool hd !! i = Some h ∧ nameLookup hd !! h = Some (name_at hd i) ∧ name_at hd i ∈ names.
Proof.
  intros Hwf Hi. destruct (lookup_lt_is_Some_2 (hashPool hd) i Hi) as [h Hh]. destruct (wf_name _ _ Hwf h) as (f & Hf & Hin); [by eapply list_elem_of_lookup_2|].
  exists h. unfold name_at. rewrite Hh. cbn. by rewrite Hf.
Qed.

Lemma name_at_inj names hd i j :
  wf_hashData names hd → i < length (hashPool hd) → j < length (hashPool hd) → name_at hd i = name_at hd j → i = j.
Proof.
  intros Hwf Hi Hj Heq. destruct (name_at_spec _ _ _ Hwf Hi) as (h & Hh & Hf & _), (name_at_spec _ _ _ Hwf Hj) as (h' & Hh' & Hf' & _).
  rewrite (wf_injective _ _ Hwf h h' (name_at hd i)) in Hh by (congruence || by eapply list_elem_of_lookup_2).
  by eapply NoDup_lookup; [apply (wf_pool _ _ Hwf)|..].
Qed.

Lemma fromIndexSet_spec names hd s :
  wf_hashData names hd → below (length (hashPool hd)) s → ∃ r, fromIndexSet hd s = Returns r ∧ r ⊆ names ∧ size r = size s.
Proof.
  intros Hwf Hb. eexists. split; [by apply fromIndexSet_names|]. split.
  - intros f (i & -> & Hi%elem_of_elements)%elem_of_list_to_set%list_elem_of_fmap. by destruct (name_at_spec _ _ _ Hwf (Hb i Hi)) as (_ & _ & _ & ?).
  - rewrite size_list_to_set, length_fmap; [done|]. apply NoDup_fmap_2_strong; [|apply NoDup_elements].
    intros i j Hi%elem_of_elements Hj%elem_of_elements. by apply (name_at_inj names); [|apply Hb..].
Qed.

(** What is chosen is a subset, of the size asked for if there are as many;
    nothing panics. *)
Lemma ChooseSubset_spec fuel from n target r :
  ChooseSubset fuel from n target = Some r → ∃ l, r = Returns l ∧ l ⊆ from ∧ size l = Nat.min n (size from).
Proof.
  unfold ChooseSubset. case_bool_decide as Hn; [intros [= <-]; exists from; split_and!; [done..|lia]|].
  destruct (buildHashes fuel from target) as [hd|] eqn:Hb; [|done]. simpl. intros [= <-]. apply buildHashes_wf in Hb as Hwf.
  destruct (select_spec n (hashPool hd) (hash_step hd) ∅ (hash_start hd)) as [Hbelow Hsize].
  - intros Hnil. pose proof (wf_length _ _ Hwf) as Hlen. rewrite Hnil in Hlen. simpl in Hlen. lia.
  - intros i Hi. set_solver.
  - rewrite size_empty, (wf_length _ _ Hwf). lia.
  - destruct (fromIndexSet_spec _ _ _ Hwf Hbelow) as (l & -> & Hsub & Hs). exists l. split_and!; [done..|]. rewrite Hs, Hsize, size_empty. lia.
Qed.

(** *** The owner on the ring *)

(** The slot that comes first from the start angle on, around the ring. *)
Definition successor (pool : list Z) (start h : Z) : Prop :=
  h ∈ pool ∧ ((start ≤ h ∧ ∀ h', h' ∈ pool → start ≤ h' → h ≤ h') ∨ ((∀ h', h' ∈ pool → h' < start) ∧ ∀ h', h' ∈ pool → h ≤ h'))%Z.

Lemma search_spec pool angle : Sorted Z.le pool →
  (∀ i h, i < search pool angle → pool !! i = Some h → (h < angle)%Z) ∧
  (∀ h, pool !! search pool angle = Some h → (angle ≤ h)%Z ∧ ∀ h', h' ∈ pool → (angle ≤ h')%Z → (h ≤ h')%Z).
Proof.
  intros Hs%Sorted_StronglySorted; [|apply _]. induction Hs as [|h0 pool _ [IH1 IH2] Hall]; [by split|]. simpl. case_bool_decide as Hle.
  - split; [lia|]. intros h [= <-]. split; [done|]. intros h' [->|Hin]%elem_of_cons _; [lia|]. rewrite Forall_forall in Hall. by apply Hall.
  - split.
    + intros [|i] h Hi Hh; simpl in Hh; [simplify_eq; lia|]. apply (IH1 i h); [lia|done].
    + intros h Hh. simpl in Hh. destruct (IH2 h Hh) as [? Hmin]. split; [done|]. intros h' [->|Hin]%elem_of_cons Hh'; [lia|by apply Hmin].
Qed.

Lemma root_of_successor pool angle h : Sorted Z.le pool → pool !! root_of pool angle = Some h → successor pool angle h.
Proof.
  intros Hs Hh. destruct (search_spec pool angle Hs) as [Hbefore Hat]. split; [by eapply list_elem_of_lookup_2|]. unfold root_of in Hh.
  case_bool_decide as Hend; [right|left; by apply Hat]. split.
  - intros h' [i Hi]%list_elem_of_lookup. apply (Hbefore i h'); [rewrite Hend; by eapply lookup_lt_Some|done].
  - intros h' Hin. apply Sorted_StronglySorted in Hs; [|apply _]. destruct Hs as [|h0 pool _ Hall]; [done|]. simpl in Hh. simplify_eq.
    rewrite Forall_forall in Hall. apply elem_of_cons in Hin as [->|Hin]; [done|by apply Hall].
Qed.

Lemma buildHashes_sorted fuel names target hd : buildHashes fuel names target = Some hd → Sorted Z.le (hashPool hd).
Proof. unfold buildHashes. destruct (build_slots _ _ _ _ _) as [[lookup pool]|]; [|done]. cbn. intros [= <-]. cbn. apply Sorted_merge_sort, _. Qed.

(** The owner of a key is the bucket of the slot that follows the start angle of
    the key. *)
Lemma Owner_on_ring fuel buckets key hd :
  1 < size buckets → buildHashes fuel buckets key = Some hd →
  ∃ h owner, Owner fuel buckets key = Some (Returns owner) ∧ successor (hashPool hd) (hash_start hd) h ∧
    nameLookup hd !! h = Some owner ∧ owner ∈ buckets.
Proof.
  intros Hmany Hhd. pose proof (buildHashes_wf _ _ _ _ Hhd) as Hwf. pose proof (wf_length _ _ Hwf) as Hlen.
  set (root := root_of (hashPool hd) (hash_start hd)).
  assert (hashPool hd ≠ []) as Hne by (intros Hnil; rewrite Hnil in Hlen; simpl in Hlen; lia).
  assert (root < length (hashPool hd)) as Hroot by by apply root_of_lt.
  destruct (name_at_spec _ _ _ Hwf Hroot) as (h & Hh & Hname & Hin). exists h, (name_at hd root). split_and!; [|by apply root_of_successor, Hh; eapply buildHashes_sorted|done..].
  unfold Owner, ChooseSubset. rewrite bool_decide_false by lia. rewrite Hhd. cbn [mbind option_bind select].
  assert (next_free (length (hashPool hd)) (length (hashPool hd)) ∅ root = root) as Hnext.
  { destruct (length (hashPool hd)); [done|]. simpl. by rewrite bool_decide_false by set_solver. }
  fold root. rewrite Hnext, (union_empty_r_L {[root]}), fromIndexSet_names, elements_singleton by set_solver.
  cbn [fmap list_fmap list_to_set]. by rewrite (union_empty_r_L _), elements_singleton.
Qed.

Lemma Owner_single fuel b key : Owner fuel {[b]} key = Some (Returns b).
Proof. unfold Owner, ChooseSubset. rewrite bool_decide_true by by rewrite size_singleton. simpl. by rewrite elements_singleton. Qed.

(** Of a set of buckets there is an owner: only the search for slots may not
    end, and it is not needed for the one bucket of the default configuration. *)
Lemma Owner_returns fuel buckets key r :
  buckets ≠ ∅ → Owner fuel buckets key = Some r → ∃ owner, r = Returns owner ∧ owner ∈ buckets.
Proof.
  intros Hne. unfold Owner. destruct (ChooseSubset fuel buckets 1 key) as [l|] eqn:Hl; [|done]. simpl. intros [= <-].
  destruct (ChooseSubset_spec _ _ _ _ _ Hl) as (l0 & -> & Hsub & Hsize).
  assert (size buckets ≠ 0) by by intros ?%size_empty_inv%leibniz_equiv. assert (size l0 = 1) as (owner & ->%leibniz_equiv)%size_1_elem_of by lia.
  rewrite elements_singleton. exists owner. split; [done|]. apply Hsub. set_solver.
Qed.

(** The replicas' part of the buckets of one set. *)
Lemma IsLeaderFor_spec fuel laf key :
  LeaderAware_IsLeaderFor fuel laf key = true ↔ ∃ n b, laf !! n = Some b ∧ Bucket_Has fuel b key = true.
Proof.
  unfold LeaderAware_IsLeaderFor. rewrite existsb_exists. split.
  - intros ([n b] & Hin & Hhas). exists n, b. split; [|done]. by apply elem_of_map_to_list, list_elem_of_In.
  - intros (n & b & Hn & Hhas). exists (n, b). split; [|done]. by apply list_elem_of_In, elem_of_map_to_list.
Qed.

Definition of_set (buckets : gset string) (laf : LeaderAwareFuncs) : Prop := ∀ n b, laf !! n = Some b → b = SetBucket n buckets.

Lemma IsLeaderFor_owner fuel buckets laf key owner :
  of_set buckets laf → Owner fuel buckets (NamespacedName_String key) = Some (Returns owner) →
  LeaderAware_IsLeaderFor fuel laf key = true ↔ is_Some (laf !! owner).
Proof.
  intros Hset Howner. rewrite IsLeaderFor_spec. split.
  - intros (n & b & Hn & Hhas). rewrite (Hset n b Hn) in Hhas. cbn in Hhas. rewrite Howner in Hhas. apply bool_decide_eq_true in Hhas as ->. by eexists.
  - intros [b Hn]. exists owner, b. split; [done|]. rewrite (Hset owner b Hn). cbn. rewrite Howner. by apply bool_decide_eq_true.
Qed.

(** C27: Each key has one leader: if each bucket of a set is led by one replica,
    then the owner of a key is one of the buckets, that of the slot which comes
    first from the start angle of the key on, around the ring of the slots,
    nothing panics, and exactly the replica that leads this bucket leads the
    key; provided that for more than one bucket the search for slots ends,
    which hashes on while it hits a slot that is taken. *)
Theorem one_leader_per_key fuel buckets (replicas : list LeaderAwareFuncs) nn :
  let key := NamespacedName_String nn in
  buckets ≠ ∅ → (1 < size buckets → is_Some (buildHashes fuel buckets key)) →
  Forall (of_set buckets) replicas →
  (∀ n, n ∈ buckets → ∃ i, i < length replicas ∧ ∀ j laf, replicas !! j = Some laf → is_Some (laf !! n) ↔ j = i) →
  ∃ owner, Owner fuel buckets key = Some (Returns owner) ∧ owner ∈ buckets ∧
    (1 < size buckets → ∃ hd h, buildHashes fuel buckets key = Some hd ∧
       successor (hashPool hd) (hash_start hd) h ∧ nameLookup hd !! h = Some owner) ∧
    ∃ i, i < length replicas ∧ ∀ j laf, replicas !! j = Some laf →
      LeaderAware_IsLeaderFor fuel laf nn = bool_decide (j = i) ∧ (j = i ↔ is_Some (laf !! owner)).
Proof.
  intros key Hne Hslots Hsets Hled. rewrite Forall_forall in Hsets.
  assert (∃ owner, Owner fuel buckets key = Some (Returns owner) ∧ owner ∈ buckets ∧
    (1 < size buckets → ∃ hd h, buildHashes fuel buckets key = Some hd ∧
       successor (hashPool hd) (hash_start hd) h ∧ nameLookup hd !! h = Some owner)) as (owner & Howner & Hin & Hring).
  { destruct (decide (1 < size buckets)) as [Hmany|Hone].
    - destruct (Hslots Hmany) as [hd Hhd]. destruct (Owner_on_ring _ _ _ _ Hmany Hhd) as (h & owner & ? & ? & ? & ?). exists owner. by eauto 7.
    - assert (size buckets ≠ 0) by by intros ?%size_empty_inv%leibniz_equiv.
      assert (size buckets = 1) as (b & ->%leibniz_equiv)%size_1_elem_of by lia. exists b. split_and!; [apply Owner_single|set_solver|done]. }
  exists owner. split_and!; [done..|]. destruct (Hled owner Hin) as (i & Hlt & Hi). exists i. split; [done|]. intros j laf Hj.
  pose proof (IsLeaderFor_owner fuel buckets laf nn owner (Hsets _ (list_elem_of_lookup_2 _ _ _ Hj)) Howner) as Hleads.
  specialize (Hi _ _ Hj). split; [|tauto]. apply eq_true_iff_eq. rewrite bool_decide_eq_true. tauto.
Qed.

(** Three buckets, and who owns some keys. *)
Definition sample_buckets : gset string := {["bucket-0"; "bucket-1"; "bucket-2"]}.

Example sample_owners :
  (λ key, Owner 8 sample_buckets key) <$> ["ns/run"; "ns/other"; "team/run-1"; "team/run-2"] =
  (λ n, Some (Returns n)) <$> ["bucket-1"; "bucket-2"; "bucket-0"; "bucket-1"].
Proof. vm_compute. reflexivity. Qed.

(** The test vectors of FNV-1a. *)
Example fnv_vectors : FormatUint16 <$> [computeHash ""; computeHash "a"; computeHash "foobar"] =
  ["cbf29ce484222325"; "af63dc4c8601ec8c"; "85944171f73967e8"].
Proof. vm_compute. reflexivity. Qed.

(** ** Witness *)
Definition sample_replicas : list LeaderAwareFuncs :=
  [Promote (SetBucket "bucket-2" sample_buckets) {["bucket-0" := SetBucket "bucket-0" sample_buckets]};
   {["bucket-1" := SetBucket "bucket-1" sample_buckets]}].

Lemma one_leader_per_key_witness :
  ∃ owner, Owner 8 sample_buckets "ns/run" = Some (Returns owner) ∧
    ∃ i, ∀ j laf, sample_replicas !! j = Some laf → LeaderAware_IsLeaderFor 8 laf ("ns", "run") = bool_decide (j = i).
Proof.
  destruct (one_leader_per_key 8 sample_buckets sample_replicas ("ns", "run")) as (owner & Howner & _ & _ & i & _ & Hi).
  - discriminate.
  - intros _. vm_compute. by eexists.
  - apply Forall_cons. split; [|apply Forall_singleton]; intros n b.
    + unfold Promote. by intros [[<- <-]|[_ [<- <-]%lookup_singleton_Some]]%lookup_insert_Some.
    + by intros [<- <-]%lookup_singleton_Some.
  - intros n. unfold sample_buckets. intros Hn. rewrite !elem_of_union in Hn. rewrite !elem_of_singleton in Hn.
    destruct Hn as [[->| ->]| ->]; [exists 0|exists 1|exists 0]; (split; [simpl; lia|]); intros [|[|j]] laf Hj; simpl in Hj; simplify_eq;
      (split; [|done || (intros _; vm_compute; by eexists)]); intros [b Hb]; vm_compute in Hb; done.
  - exists owner. split; [exact Howner|]. exists i. intros j laf Hj. apply (Hi j laf Hj).
Defined.
