(* ===== verification/LeaderElection.v ===== *)
(** The election of the replicas that reconcile: what a promotion does to the
    controller, and the electors of client-go and knative
    (tools/leaderelection/leaderelection.go, leaderelection/context.go), whose
    order of steps lets two replicas lead the same bucket. *)
From S2P Require Import Prelude GoStrings FieldErrors Types Substitution StepMerge Resolve Validation Conditions RunTypes.
From S2P Require Import Listers Cluster Reconciler RunReconciler Wiring QueueSpec WorkQueue RateLimiter DelayingQueue TwoLaneQueue.
From S2P Require Import ControllerRun ControllerProgress ReconcilerExample RunReconcilerSpec Buckets.

(** ** Promotion *)
Section promotion.
Context {MO : MapOrder} {CM : ContainerMerge} {TB : TokenBucket}.

Definition Run_key (r : Run) : NamespacedName := (ObjectMeta_Namespace (Run_ObjectMeta r), ObjectMeta_Name (Run_ObjectMeta r)).

(** [func (laf *LeaderAwareFuncs) Promote(b Bucket, enq ...) error] with the
    [PromoteFunc] of the generated reconciler: the replica leads the bucket, and
    with an [enq], which is [MaybeEnqueueBucketKey] of the controller, each Run
    of the lister is passed to it. Without an election [enq] is nil. *)
Definition Promote_call (fuel : nat) (enq : bool) (b : Bucket) (all : list Run) (laf : LeaderAwareFuncs)
    (q : twoLaneQueue NamespacedName) : LeaderAwareFuncs * twoLaneQueue NamespacedName :=
  (Promote b laf, if enq then foldl (λ q elt, MaybeEnqueueBucketKey (Bucket_Has fuel b) (Run_key elt) q) q all else q).

(** [BuildElector] without an elector in the context: [unopposedElector] promotes
    the bucket of all keys, with no [enq]. *)
Definition unopposedElector_Run (fuel : nat) (all : list Run) (laf : LeaderAwareFuncs) (q : twoLaneQueue NamespacedName) :=
  Promote_call fuel false UniversalBucket all laf q.

Lemma promoted_keys fuel b all q :
  foldl (λ q elt, MaybeEnqueueBucketKey (Bucket_Has fuel b) (Run_key elt) q) q all =
  foldl (λ q key, EnqueueSlowKey key q) q (PromoteFunc NewController_PromoteFilterFunc (Bucket_Has fuel b) all).
Proof.
  unfold PromoteFunc, NewController_PromoteFilterFunc. revert q. induction all as [|r all IH]; intros q; [done|].
  cbn [foldl map]. rewrite IH, filter_cons. unfold MaybeEnqueueBucketKey. fold (Run_key r). by case_match; [case_decide|case_decide].
Qed.

Lemma EnqueueSlowKeys_execution keys q ws :
  run_execution {| workQueue := q; workers := ws |} ((λ key, OfQueue (Added key)) <$> keys)
    {| workQueue := foldl (λ q key, EnqueueSlowKey key q) q keys; workers := ws |}.
Proof.
  revert q. induction keys as [|key keys IH]; intros q; [constructor|]. cbn. eapply execution_step; [|apply IH].
  apply (others_do (Added key) _ {| workQueue := q; workers := ws |}); [done|]. apply two_slow, lane_Add.
Qed.

Lemma EnqueueSlowKeys_fast keys q : fastLane (foldl (λ q key, EnqueueSlowKey key q) q keys) = fastLane q.
Proof. revert q. induction keys as [|key keys IH]; intros q; [done|]. cbn. by rewrite IH. Qed.

(** A promotion without an election changes only what the replica leads: all. *)
Lemma unopposed_leads_all fuel all laf q key :
  LeaderAware_IsLeaderFor fuel (unopposedElector_Run fuel all laf q).1 key = true ∧ (unopposedElector_Run fuel all laf q).2 = q.
Proof.
  split; [|done]. apply IsLeaderFor_spec. exists "", UniversalBucket. split; [apply lookup_insert_eq|done].
Qed.

(** C28: A replica that is promoted to the leader of a bucket leads the key of each
    Run in it that its lister has, and steps of the goroutines of its queue and
    of its workers alone, with no other addition than those of the promotion,
    can bring a worker to start with it and reconcile it, also when it had reconciled it
    before, or was handed it while another replica led. *)
Theorem promotion_reconciles_bucket CL RS start fuel clock rl threadiness es1 c b all laf r :
  run_execution (RunContext clock rl threadiness) es1 c → threadiness ≠ 0 → is_open c →
  r ∈ all → Bucket_Has fuel b (Run_key r) = true →
  let '(laf', q') := Promote_call fuel true b all laf (workQueue c) in
  LeaderAware_IsLeaderFor fuel laf' (Run_key r) = true ∧
  ∃ es c' i, own_run_execution {| workQueue := q'; workers := workers c |} es c' ∧
    turn_of CL RS start i (Run_key r) es.
Proof.
  intros Hes Hn Hopen Hin Hhas. unfold Promote_call. split.
  { apply IsLeaderFor_spec. exists (Bucket_Name b), b. split; [apply lookup_insert_eq|done]. }
  rewrite promoted_keys. set (keys := PromoteFunc _ _ _).
  assert (Run_key r ∈ keys) as (before & after & Hkeys)%list_elem_of_split.
  { unfold keys, PromoteFunc, NewController_PromoteFilterFunc. apply list_elem_of_filter. split; [done|].
    change (Run_key r ∈ Run_key <$> all). by apply list_elem_of_fmap_2. }
  pose proof (EnqueueSlowKeys_execution keys (workQueue c) (workers c)) as Hprom. rewrite Hkeys, fmap_app, fmap_cons in Hprom.
  assert (run_execution (RunContext clock rl threadiness) ((es1 ++ ((λ key, OfQueue (Added key)) <$> before)) ++
    OfQueue (Added (Run_key r)) :: ((λ key, OfQueue (Added key)) <$> after))
    {| workQueue := foldl (λ q key, EnqueueSlowKey key q) (workQueue c) keys; workers := workers c |}) as Hall.
  { rewrite <-(assoc_L (++)), Hkeys. eapply execution_app; [exact Hes|]. by destruct c. }
  apply serves_turn. eapply added_is_served; [exact Hall|done| |].
  - unfold is_open in *. cbn in *. by rewrite EnqueueSlowKeys_fast.
  - intros Hgot. unfold queue_events in Hgot. apply list_elem_of_omap in Hgot as (e & He & Hpart).
    apply list_elem_of_fmap in He as (key & -> & _). discriminate Hpart.
Qed.
End promotion.

(** ** The electors *)

(** Where the goroutine of [runUntilCancelled] is in [LeaderElector.Run]: in
    [acquire], in the loop of [renew], before its [release], and before the
    deferred [OnStoppedLeading]. *)
Inductive elector : Type := Acquiring | Renewing | BeforeRelease | BeforeStopped.

(** A replica: what it leads, its electors by bucket, and the goroutines of
    [OnStartedLeading] that have not run. *)
Record replica := {
  leads : LeaderAwareFuncs;
  electors : gmap string elector;
  starting : list Bucket
}.

(** The leases, by the names of their buckets, and the replicas. *)
Record election := { leases : gmap string nat; replicas : list replica }.

Definition set_leads (l : LeaderAwareFuncs) (r : replica) : replica := {| leads := l; electors := electors r; starting := starting r |}.
Definition set_elector (b : Bucket) (e : elector) (r : replica) : replica :=
  {| leads := leads r; electors := <[Bucket_Name b := e]> (electors r); starting := starting r |}.
Definition set_starting (l : list Bucket) (r : replica) : replica := {| leads := leads r; electors := electors r; starting := l |}.

(** A step of the elector of a bucket in a replica, in the order of [Run] with
    [ReleaseOnCancel]: it gets a lease that nobody has, and starts the goroutine
    of [OnStartedLeading]; it stops renewing, because it is cancelled or cannot
    reach the API server; it releases the lease if it has it; and it calls
    [OnStoppedLeading] and starts again. *)
Definition elector_do (i : nat) (b : Bucket) (s : election) : option election :=
  r ← replicas s !! i;
  match default Acquiring (electors r !! Bucket_Name b) with
  | Acquiring =>
    match leases s !! Bucket_Name b with
    | Some _ => None
    | None => Some {| leases := <[Bucket_Name b := i]> (leases s);
                      replicas := <[i := set_starting (starting r ++ [b]) (set_elector b Renewing r)]> (replicas s) |}
    end
  | Renewing => Some {| leases := leases s; replicas := <[i := set_elector b BeforeRelease r]> (replicas s) |}
  | BeforeRelease =>
    Some {| leases := if bool_decide (leases s !! Bucket_Name b = Some i) then delete (Bucket_Name b) (leases s) else leases s;
            replicas := <[i := set_elector b BeforeStopped r]> (replicas s) |}
  | BeforeStopped => Some {| leases := leases s; replicas := <[i := set_leads (Demote b (leads r)) (set_elector b Acquiring r)]> (replicas s) |}
  end.

(** The oldest goroutine of [OnStartedLeading] calls [Promote]. *)
Definition started_do (i : nat) (s : election) : option election :=
  r ← replicas s !! i;
  match starting r with
  | [] => None
  | b :: rest => Some {| leases := leases s; replicas := <[i := set_leads (Promote b (leads r)) (set_starting rest r)]> (replicas s) |}
  end.

Inductive election_move : Type := Elector (i : nat) (b : Bucket) | Starts (i : nat).

Definition election_do (s : election) (m : election_move) : option election :=
  match m with Elector i b => elector_do i b s | Starts i => started_do i s end.

Fixpoint election_run (s : election) (ms : list election_move) : option election :=
  match ms with [] => Some s | m :: ms => election_do s m ≫= λ s, election_run s ms end.

Definition new_replica : replica := {| leads := ∅; electors := ∅; starting := [] |}.
Definition new_election (n : nat) : election := {| leases := ∅; replicas := replicate n new_replica |}.

(** A move that is prompt: [OnStoppedLeading] of a bucket does not overtake the
    goroutine of [OnStartedLeading]. *)
Definition elector_at (r : replica) (n : string) : elector := default Acquiring (electors r !! n).

Definition prompt (s : election) (m : election_move) : bool :=
  match m with
  | Starts _ => true
  | Elector i b =>
    match replicas s !! i with
    | None => true
    | Some r =>
      match elector_at r (Bucket_Name b) with
      | BeforeStopped => forallb (λ b', negb (bool_decide (Bucket_Name b' = Bucket_Name b))) (starting r)
      | _ => true
      end
    end
  end.

Inductive prompt_run : election → list election_move → election → Prop :=
  | prompt_nil s : prompt_run s [] s
  | prompt_cons s m s1 ms s' : prompt s m = true → election_do s m = Some s1 → prompt_run s1 ms s' → prompt_run s (m :: ms) s'.

(** The invariant: who renews has the lease, and who leads, or is about to,
    has an elector that has not stopped. *)
Record wf_election (s : election) : Prop := {
  wf_lease i r n : replicas s !! i = Some r → elector_at r n = Renewing ∨ elector_at r n = BeforeRelease → leases s !! n = Some i;
  wf_leads i r n : replicas s !! i = Some r → is_Some (leads r !! n) → elector_at r n ≠ Acquiring;
  wf_starting i r b : replicas s !! i = Some r → b ∈ starting r → elector_at r (Bucket_Name b) ≠ Acquiring
}.

Lemma wf_new_election n : wf_election (new_election n).
Proof.
  split; intros i r m; cbn; intros [-> _]%lookup_replicate; cbn.
  - by intros [?|?].
  - intros [b Hb]. by destruct (lookup_empty_Some (M := gmap string) m b).
  - by intros ?%elem_of_nil.
Qed.

Lemma elector_at_set r b e n : elector_at (set_elector b e r) n = if decide (n = Bucket_Name b) then e else elector_at r n.
Proof.
  unfold elector_at. cbn. case_decide as Hn; [subst n; by rewrite lookup_insert_eq|by rewrite lookup_insert_ne].
Qed.

(** A replica of the next state is the one that moved, or an old one. *)
Lemma replica_moved s i r0 r' j r :
  replicas s !! i = Some r0 → <[i := r']> (replicas s) !! j = Some r → j = i ∧ r = r' ∨ j ≠ i ∧ replicas s !! j = Some r.
Proof.
  intros Hi Hj. destruct (decide (j = i)) as [->|Hne]; [left|right; by rewrite list_lookup_insert_ne in Hj].
  rewrite list_lookup_insert_eq in Hj by (by eapply lookup_lt_Some). by simplify_eq.
Qed.

Lemma started_wf i s s' : started_do i s = Some s' → wf_election s → wf_election s'.
Proof.
  unfold started_do. destruct (replicas s !! i) as [r0|] eqn:Hi; simpl; [|done]. destruct (starting r0) as [|b rest] eqn:Hst; [done|].
  intros [= <-] [Hlease Hleads Hstart].
  assert (elector_at r0 (Bucket_Name b) ≠ Acquiring) as Hb by (apply (Hstart i); [done|rewrite Hst; by left]).
  split; intros j r n; cbn; intros [[-> ->]|[Hne Hj]]%(replica_moved _ _ _ _ _ _ Hi); cbn.
  - apply (Hlease i r0 n Hi).
  - apply (Hlease j r n Hj).
  - unfold Promote. intros [<-|[_ Hn]]%lookup_insert_is_Some; [done|]. by apply (Hleads i r0).
  - apply (Hleads j r n Hj).
  - intros Hin. apply (Hstart i r0); [done|]. rewrite Hst. by right.
  - apply (Hstart j r n Hj).
Qed.

Lemma elector_wf i b s s' : prompt s (Elector i b) = true → elector_do i b s = Some s' → wf_election s → wf_election s'.
Proof.
  unfold prompt, elector_do. destruct (replicas s !! i) as [r0|] eqn:Hi; simpl; [|done]. fold (elector_at r0 (Bucket_Name b)).
  intros Hprompt Hdo [Hlease Hleads Hstart].
  destruct (elector_at r0 (Bucket_Name b)) eqn:He; [destruct (leases s !! Bucket_Name b) eqn:Hfree; [done|]|..]; injection Hdo as <-;
    (split; intros j r n; cbn; intros [[-> ->]|[Hne Hj]]%(replica_moved _ _ _ _ _ _ Hi)).
  - change (elector_at (set_starting _ ?r) n) with (elector_at r n). rewrite elector_at_set. case_decide as Hn; [subst n; by rewrite lookup_insert_eq|].
    rewrite lookup_insert_ne by done. by apply Hlease.
  - intros H. destruct (decide (n = Bucket_Name b)) as [->|Hn]; [|rewrite lookup_insert_ne by done; by apply (Hlease j r)].
    apply (Hlease j r _ Hj) in H. congruence.
  - change (elector_at (set_starting _ ?r) n) with (elector_at r n). rewrite elector_at_set. case_decide; [done|]. by apply (Hleads i r0).
  - apply (Hleads j r n Hj).
  - change (elector_at (set_starting _ ?r) ?m) with (elector_at r m). rewrite elector_at_set. case_decide as Hn; [done|]. cbn.
    intros [Hin|Hin%list_elem_of_singleton]%elem_of_app; [by apply (Hstart i)|by subst].
  - apply (Hstart j r n Hj).
  - rewrite elector_at_set. case_decide as Hn; [subst n; intros _; apply (Hlease i r0); [done|by left]|apply (Hlease i r0 n Hi)].
  - apply (Hlease j r n Hj).
  - rewrite elector_at_set. case_decide; [done|]. by apply (Hleads i r0).
  - apply (Hleads j r n Hj).
  - rewrite elector_at_set. case_decide; [done|]. by apply (Hstart i r0).
  - apply (Hstart j r n Hj).
  - rewrite elector_at_set. case_decide as Hn; [by intros [?|?]|]. intros H. apply (Hlease i r0 n Hi) in H.
    case_bool_decide; [by rewrite lookup_delete_ne|done].
  - intros H. apply (Hlease j r n Hj) in H. case_bool_decide as Hmine; [|done]. rewrite lookup_delete_ne; [done|]. intros <-. congruence.
  - rewrite elector_at_set. case_decide; [done|]. by apply (Hleads i r0).
  - apply (Hleads j r n Hj).
  - rewrite elector_at_set. case_decide; [done|]. by apply (Hstart i r0).
  - apply (Hstart j r n Hj).
  - change (elector_at (set_leads _ ?r) n) with (elector_at r n). rewrite elector_at_set. case_decide; [by intros [?|?]|apply (Hlease i r0 n Hi)].
  - apply (Hlease j r n Hj).
  - change (elector_at (set_leads _ ?r) n) with (elector_at r n). rewrite elector_at_set. cbn. unfold Demote.
    intros [Hne Hn]%lookup_delete_is_Some. rewrite decide_False by done. by apply (Hleads i r0).
  - apply (Hleads j r n Hj).
  - change (elector_at (set_leads _ ?r) ?m) with (elector_at r m). rewrite elector_at_set. cbn. intros Hin. case_decide as Hn; [|by apply (Hstart i r0)].
    rewrite forallb_forall in Hprompt. apply list_elem_of_In, Hprompt in Hin. by rewrite bool_decide_true in Hin.
  - apply (Hstart j r n Hj).
Qed.

Lemma prompt_run_wf s ms s' : prompt_run s ms s' → wf_election s → wf_election s'.
Proof.
  induction 1 as [s|s [i b|i] s1 ms s' Hp Hdo _ IH]; intros Hwf; [done|..]; apply IH; [by eapply elector_wf|by eapply started_wf].
Qed.

(** As long as no [OnStoppedLeading] overtakes its [OnStartedLeading], two
    replicas lead the same bucket only while one of them, which has released the
    lease, has not yet called [OnStoppedLeading]. (The witness is such a state:
    the lease is released first, so that another replica can take it.) *)
Theorem leaders_overlap_when_released k ms s i j r r' n :
  prompt_run (new_election k) ms s → replicas s !! i = Some r → replicas s !! j = Some r' → i ≠ j →
  is_Some (leads r !! n) → is_Some (leads r' !! n) →
  elector_at r n = BeforeStopped ∨ elector_at r' n = BeforeStopped.
Proof.
  intros Hrun Hi Hj Hne Hl Hl'. destruct (prompt_run_wf _ _ _ Hrun (wf_new_election k)) as [Hlease Hleads _].
  pose proof (Hleads _ _ _ Hi Hl) as He. pose proof (Hleads _ _ _ Hj Hl') as He'.
  destruct (decide (leases s !! n = Some i)) as [Hmine|Hno].
  - right. destruct (elector_at r' n) eqn:E; try done; exfalso; (assert (leases s !! n = Some j); [apply (Hlease j r' n Hj); by auto|congruence]).
  - left. destruct (elector_at r n) eqn:E; try done; exfalso; apply Hno, (Hlease i r n Hi); by auto.
Qed.

(** Two replicas; the first one gives up the lease, and the second takes it. *)
Definition bucket_0 : Bucket := SetBucket "bucket-0" {["bucket-0"]}.
Definition hand_over : list election_move :=
  [Elector 0 bucket_0; Starts 0; Elector 0 bucket_0; Elector 0 bucket_0; Elector 1 bucket_0; Starts 1].

Lemma prompt_run_all s ms s' :
  foldl (λ s m, s ≫= λ s, if prompt s m then election_do s m else None) (Some s) ms = Some s' → prompt_run s ms s'.
Proof.
  revert s. induction ms as [|m ms IH]; intros s Hrun; cbn in Hrun; [injection Hrun as <-; constructor|].
  destruct (prompt s m) eqn:Hp.
  - destruct (election_do s m) as [s1|] eqn:Hdo; [econstructor; [done..|by apply IH]|]. exfalso. clear -Hrun. by induction ms.
  - exfalso. clear -Hrun. by induction ms.
Qed.

Definition handed_over : election := default (new_election 2) (election_run (new_election 2) hand_over).

Definition replica_of (i : nat) (s : election) : replica := default new_replica (replicas s !! i).

Lemma leaders_overlap_when_released_witness :
  is_Some (leads (replica_of 0 handed_over) !! "bucket-0") ∧ is_Some (leads (replica_of 1 handed_over) !! "bucket-0") ∧
  elector_at (replica_of 0 handed_over) "bucket-0" = BeforeStopped.
Proof.
  split; [by eexists|]. split; [by eexists|].
  destruct (leaders_overlap_when_released 2 hand_over handed_over 0 1 (replica_of 0 handed_over) (replica_of 1 handed_over) "bucket-0") as [H|H].
  - apply prompt_run_all. vm_compute. reflexivity.
  - reflexivity.
  - reflexivity.
  - discriminate.
  - by eexists.
  - by eexists.
  - exact H.
  - vm_compute in H. discriminate H.
Defined.

(** [Promote] ignores the context that is cancelled by then: a replica whose
    goroutine of [OnStartedLeading] is late leads a bucket without its lease,
    beside the replica that has it, for as long as it does not stop again. *)
Definition late : list election_move :=
  [Elector 0 bucket_0; Elector 0 bucket_0; Elector 0 bucket_0; Elector 0 bucket_0; Starts 0; Elector 1 bucket_0; Starts 1].

Example late_promotion_leads :
  let s := default (new_election 2) (election_run (new_election 2) late) in
  (λ i, (bool_decide (is_Some (leads (replica_of i s) !! "bucket-0")), elector_at (replica_of i s) "bucket-0")) <$> [0; 1] =
    [(true, Acquiring); (true, Renewing)] ∧ leases s !! "bucket-0" = Some 1.
Proof. vm_compute. by split. Qed.

Section witnesses.
#[local] Existing Instance canonical_order.
#[local] Existing Instance image_merge.
#[local] Existing Instance no_bucket.

(** One of three buckets, in the controller of the example. *)
Definition bucket_1 : Bucket := SetBucket "bucket-1" sample_buckets.

Lemma promotion_reconciles_bucket_witness :
  let '(laf', q') := Promote_call 8 true bucket_1 [Sample.new_run] ∅ (workQueue (result_of busy)) in
  LeaderAware_IsLeaderFor 8 laf' run_key = true ∧
  ∃ es c' i, own_run_execution {| workQueue := q'; workers := workers (result_of busy) |} es c' ∧
    turn_of Sample.stale ServerSample.accepting 0 i run_key es.
Proof.
  apply (promotion_reconciles_bucket Sample.stale ServerSample.accepting 0 8 0 limiter 2 (events_of busy) (result_of busy) bucket_1 [Sample.new_run]
    ∅ Sample.new_run).
  - apply (run_all_execution _ busy). vm_compute. reflexivity.
  - discriminate.
  - vm_compute. reflexivity.
  - left.
  - vm_compute. reflexivity.
Defined.
End witnesses.
