(* ===== verification/Patches.v ===== *)
(** The two patches that the reconciler sends, and what they do to the JSON
    documents they are applied to: the JSON patch that cancels a TaskRun
    (RFC 6902) and the merge patch of the labels and annotations of a Run
    (RFC 7396), with the library that applies them,
    github.com/evanphx/json-patch. *)
From S2P Require Import Prelude GoStrings RunTypes Cluster Reconciler ReconcilerSpec ReconcileKind FakeClient.
From stdpp Require Import pretty.
From Stdlib Require Import Ascii.

(** ** Documents

    [*lazyNode]: a JSON value, with the null of a document as a nil pointer
    ([None]), and [NNil] a node whose [raw] is nil, which the null in an
    operation becomes. What is still raw and what is decoded already cannot
    be told apart. *)
Inductive node : Type :=
  | NNil
  | NBool (b : bool)
  | NNum (n : Z)
  | NStr (s : string)
  | NAry (l : list (option node))
  | NDoc (d : gmap string (option node)).

(** [type partialDoc map[string]*lazyNode] *)
Notation partialDoc := (gmap string (option node)).

(** ** merge.go *)

(** [pruneNulls(n)], with [pruneDocNulls(doc)] and [pruneAryNulls(ary)] *)
Fixpoint pruneNulls (n : node) : node :=
  match n with
  | NDoc d => NDoc (omap (λ v, match v with None => None | Some v => Some (Some (pruneNulls v)) end) d)
  | NAry l => NAry (map (option_map pruneNulls) l)
  | _ => n
  end.

(** What becomes of the field of a document: the field before, if the document
    has it, and after. *)
Notation edit := (option (option node) → option (option node)).
Definition apply_edits (doc : partialDoc) (edits : gmap string edit) : partialDoc :=
  merge (λ cur f, match f with None => cur | Some f => f cur end) doc edits.

(** [merge(cur, patch, false)], with the body of the loop of [mergeDocs] *)
Fixpoint merge_node (cur patch : node) {struct patch} : node :=
  match cur, patch with
  | NDoc doc, NDoc patch =>
    NDoc (apply_edits doc ((λ v : option node,
      match v with
      | None => λ _, None
      | Some v => λ cur, Some (Some (match cur with Some (Some cur) => merge_node cur v | _ => pruneNulls v end))
      end) <$> patch))
  | NDoc _, _ => patch
  | _, _ => pruneNulls patch
  end.

Definition merge_field (v : option node) : edit :=
  match v with
  | None => λ _, None
  | Some v => λ cur, Some (Some (match cur with Some (Some cur) => merge_node cur v | _ => pruneNulls v end))
  end.

(** [mergeDocs(doc, patch, false)]: the fields are independent of each other,
    so the order of the loop does not matter ([mergeDocs_any_order]). *)
Definition mergeDocs (doc patch : partialDoc) : partialDoc := apply_edits doc (merge_field <$> patch).

Definition ErrBadJSONDoc : error := errorString "Invalid JSON Document".
Definition ErrBadJSONPatch : error := errorString "Invalid JSON Patch".

(** [MergePatch(docData, patchData)], that is [doMergePatch] with [mergeMerge]
    false, on data that is JSON *)
Definition MergePatch (docData patchData : option node) : fallible (option node) :=
  match docData, patchData with
  | None, _ => inl ErrBadJSONDoc
  | _, None => inl ErrBadJSONPatch
  | Some (NDoc doc), Some (NDoc patch) => inr (Some (NDoc (mergeDocs doc patch)))
  | _, Some (NDoc patch) => inr (Some (pruneNulls (NDoc patch)))
  | _, Some (NAry patch) => inr (Some (pruneNulls (NAry patch)))
  | _, Some _ => inl ErrBadJSONPatch
  end.

(** ** patch.go *)

(** [type Operation map[string]*json.RawMessage] *)
Notation Operation := (gmap string (option node)).

(** [o.Kind()], [o.Path()] and [o.value()]; the errors of [Path] are not told
    apart by those who ask. *)
Definition Kind (o : Operation) : string := match o !! "op" with Some (Some (NStr op)) => op | _ => "unknown" end.
Definition Path (o : Operation) : option string := match o !! "path" with Some (Some (NStr path)) => Some path | _ => None end.
Definition value (o : Operation) : option node :=
  match o !! "value" with
  | Some (Some v) => Some v
  | Some None => Some NNil
  | None => None
  end.

(** [type container interface], a [*partialDoc], whose map may be nil, or a
    [*partialArray] *)
Inductive container : Type :=
  | Doc (d : option partialDoc)
  | Ary (l : list (option node)).

Definition ErrMissing : error := errorString "missing value".
Definition ErrInvalidIndex : error := errorString "invalid index referenced".

(** [strconv.Atoi] on the integers of 64 bits *)
Definition digit (c : ascii) : option Z :=
  let n := Z.of_nat (nat_of_ascii c) in if bool_decide (48 ≤ n ≤ 57)%Z then Some (n - 48)%Z else None.
Fixpoint digits (s : string) (n : Z) : option Z :=
  match s with
  | EmptyString => Some n
  | String c s => d ← digit c; digits s (n * 10 + d)%Z
  end.
Definition Atoi (s : string) : fallible Z :=
  let bad text := inl (errorString ("strconv.Atoi: parsing " +:+ Quote s +:+ ": " +:+ text)) in
  let number sign s :=
    match s with
    | EmptyString => bad "invalid syntax"
    | _ => match digits s 0 with
           | None => bad "invalid syntax"
           | Some n => if bool_decide (- 2 ^ 63 ≤ sign * n < 2 ^ 63)%Z then inr (sign * n)%Z else bad "value out of range"
           end
    end in
  match s with
  | String "+" s => number 1%Z s
  | String "-" s => number (-1)%Z s
  | _ => number 1%Z s
  end.

(** The index [idx] into [size] places: negative ones count from the end. *)
Definition place (idx : Z) (size : nat) : fallible nat :=
  let bad := inl (wrapError ("Unable to access invalid index: " +:+ pretty idx +:+ ": ") ErrInvalidIndex) in
  if bool_decide (Z.of_nat size ≤ idx)%Z then bad
  else if bool_decide (0 ≤ idx)%Z then inr (Z.to_nat idx)
  else if bool_decide (idx < - Z.of_nat size)%Z then bad
  else inr (Z.to_nat (idx + Z.of_nat size)).

(** [con.get(key)], the node and the place of it *)
Definition get (key : string) (con : container) : fallible (option node) :=
  match con with
  | Doc d => inr (match d with Some d => default None (d !! key) | None => None end)
  | Ary l => let? idx := Atoi key in let? i := place idx (length l) in inr (default None (l !! i))
  end.

(** [con.add(key, val)]: a write to a nil map panics. *)
Definition add (key : string) (val : option node) (con : container) : outcome (fallible container) :=
  match con with
  | Doc None => Panics
  | Doc (Some d) => Returns (inr (Doc (Some (<[key := val]> d))))
  | Ary l =>
    if bool_decide (key = "-") then Returns (inr (Ary (l ++ [val])))
    else
      Returns (match Atoi key with
      | inl err => inl (wrapError ("value was not a proper array index: '" +:+ key +:+ "': ") err)
      | inr idx => let? i := place idx (S (length l)) in inr (Ary (take i l ++ val :: drop i l))
      end)
  end.

(** [decodePatchKey(k)] *)
Definition decodePatchKey (k : string) : string := Replace [("~1", "/"); ("~0", "~")] k.

(** The container that [findObject] goes on with: [*next.raw] of a null from an
    operation panics, and what is neither an object nor an array has none. *)
Definition into (next : node) : outcome (option container) :=
  match next with
  | NNil => Panics
  | NDoc d => Returns (Some (Doc (Some d)))
  | NAry l => Returns (Some (Ary l))
  | _ => Returns None
  end.
Definition node_of (con : container) : option node :=
  match con with Doc d => NDoc <$> d | Ary l => Some (NAry l) end.

(** The container with another node where [get] found one. *)
Definition put (key : string) (val : option node) (con : container) : container :=
  match con with
  | Doc d => Doc (<[key := val]> <$> d)
  | Ary l => Ary (match (let? idx := Atoi key in place idx (length l)) with inr i => <[i := val]> l | inl _ => l end)
  end.

(** The rest of [findObject(pd, path)], a loop over the [parts], and what is
    done to the container found: the nodes are pointers, so that it shows in
    the document. [missing] is the error for no container. *)
Fixpoint in_object (missing : error) (parts : list string) (act : container → outcome (fallible container)) (doc : container) :
    outcome (fallible container) :=
  match parts with
  | [] => act doc
  | part :: parts =>
    match get (decodePatchKey part) doc with
    | inr (Some next) =>
      match into next with
      | Panics => Panics
      | Returns None => Returns (inl missing)
      | Returns (Some con) =>
        match in_object missing parts act con with
        | Returns (inr con) => Returns (inr (put (decodePatchKey part) (node_of con) doc))
        | r => r
        end
      end
    | _ => Returns (inl missing)
    end
  end.

(** [func (p Patch) add(doc *container, op Operation) error] *)
Definition Patch_add (op : Operation) (doc : container) : outcome (fallible container) :=
  match Path op with
  | None => Returns (inl (wrapError "add operation failed to decode path: " ErrMissing))
  | Some path =>
    let missing := wrapError ("add operation does not apply: doc is missing path: " +:+ String "034" (path +:+ String "034" ": ")) ErrMissing in
    match Split path "/" with
    | _ :: rest =>
      match last rest with
      | None => Returns (inl missing)
      | Some key =>
        in_object missing (removelast rest) (λ con,
          match add (decodePatchKey key) (value op) con with
          | Returns (inl err) => Returns (inl (wrapError ("error in add for path: '" +:+ path +:+ "': ") err))
          | r => r
          end) doc
      end
    | [] => Returns (inl missing)
    end
  end.

Section apply.
(** The operations other than "add", which the program does not send. *)
Context (other_operation : Operation → container → outcome (fallible container)).

(** The loop of [p.Apply(doc)] over the operations *)
Fixpoint apply_operations (p : list Operation) (doc : container) : outcome (fallible container) :=
  match p with
  | [] => Returns (inr doc)
  | op :: p =>
    match (if bool_decide (Kind op = "add") then Patch_add op doc else other_operation op doc) with
    | Returns (inr doc) => apply_operations p doc
    | r => r
    end
  end.

(** [func (p Patch) Apply(doc []byte) ([]byte, error)] *)
Definition Apply (p : list Operation) (doc : option node) : outcome (fallible (option node)) :=
  let applied con :=
    match apply_operations p con with
    | Returns (inr con) => Returns (inr (node_of con))
    | Returns (inl err) => Returns (inl err)
    | Panics => Panics
    end in
  match doc with
  | None => applied (Doc None)
  | Some (NDoc d) => applied (Doc (Some d))
  | Some (NAry l) => applied (Ary l)
  | Some _ => Returns (inl (errorString "json: cannot unmarshal the document"))
  end.
End apply.

(** [DecodePatch(buf)]: a null is a nil slice or a nil map. *)
Definition decode_operation (v : option node) : fallible Operation :=
  match v with
  | None => inr ∅
  | Some (NDoc op) => inr op
  | Some _ => inl (errorString "json: cannot unmarshal an operation")
  end.
Fixpoint decode_operations (l : list (option node)) : fallible (list Operation) :=
  match l with
  | [] => inr []
  | v :: l => let? op := decode_operation v in let? p := decode_operations l in inr (op :: p)
  end.
Definition DecodePatch (buf : option node) : fallible (list Operation) :=
  match buf with
  | None => inr []
  | Some (NAry l) => decode_operations l
  | Some _ => inl (errorString "json: cannot unmarshal a patch")
  end.

(** ** The patches of the reconciler *)

(** [type JsonPatchOperation] of gomodules.xyz/jsonpatch and its [MarshalJSON] *)
Record JsonPatchOperation := {
  JsonPatchOperation_Operation : string;
  JsonPatchOperation_Path : string;
  JsonPatchOperation_Value : option node
}.
Definition JsonPatchOperation_MarshalJSON (j : JsonPatchOperation) : node :=
  let op := JsonPatchOperation_Operation j in
  let d : partialDoc := {["op" := Some (NStr op); "path" := Some (NStr (JsonPatchOperation_Path j))]} in
  NDoc (match JsonPatchOperation_Value j with
  | Some v => <["value" := Some v]> d
  | None => if bool_decide (op = "replace" ∨ op = "add") then <["value" := None]> d else d
  end).

(** [cancelPatchBytes], which [init()] makes *)
Definition cancelPatches : list JsonPatchOperation :=
  [{| JsonPatchOperation_Operation := "add"; JsonPatchOperation_Path := "/spec/status";
      JsonPatchOperation_Value := Some (NStr TaskRunSpecStatusCancelled) |}].
Definition cancelPatchBytes : option node := Some (NAry (Some ∘ JsonPatchOperation_MarshalJSON <$> cancelPatches)).

(** [map[string]string] in JSON, and [mergePatch] of [updateLabelsAndAnnotations] *)
Definition marshal_map (m : gomap) : option node := (λ m, NDoc (Some ∘ NStr <$> m)) <$> m.
Definition mergePatch (labels annotations : gomap) : partialDoc :=
  {["metadata" := Some (NDoc {["labels" := marshal_map labels; "annotations" := marshal_map annotations]})]}.

(** ** Lemmas on merges *)
Lemma lookup_edits doc edits k :
  apply_edits doc edits !! k = match edits !! k with None => doc !! k | Some f => f (doc !! k) end.
Proof. unfold apply_edits. rewrite lookup_merge. unfold diag_None. by destruct (edits !! k), (doc !! k). Qed.

Lemma lookup_mergeDocs doc patch k :
  mergeDocs doc patch !! k = match patch !! k with None => doc !! k | Some v => merge_field v (doc !! k) end.
Proof. unfold mergeDocs. rewrite lookup_edits, lookup_fmap. by destruct (patch !! k). Qed.

Lemma merge_node_Doc doc patch : merge_node (NDoc doc) (NDoc patch) = NDoc (mergeDocs doc patch).
Proof. done. Qed.

(** The body of the loop of [mergeDocs], on a map that is changed in place *)
Definition mergeDocs_step (doc : partialDoc) (kv : string * option node) : partialDoc :=
  match merge_field kv.2 (doc !! kv.1) with
  | None => delete kv.1 doc
  | Some v => <[kv.1 := v]> doc
  end.

Lemma lookup_mergeDocs_step doc kv k :
  mergeDocs_step doc kv !! k = if bool_decide (k = kv.1) then merge_field kv.2 (doc !! k) else doc !! k.
Proof.
  destruct kv as [k' v]. unfold mergeDocs_step. cbn [fst snd].
  destruct (merge_field v (doc !! k')) eqn:Hf; case_bool_decide; subst;
    by rewrite ?Hf, ?lookup_insert_eq, ?lookup_delete_eq, ?lookup_insert_ne, ?lookup_delete_ne by done.
Qed.

(** In whatever order the loop visits the fields of the patch, it leaves the
    same document. *)
Theorem mergeDocs_any_order doc patch order :
  order ≡ₚ map_to_list patch → foldl mergeDocs_step doc order = mergeDocs doc patch.
Proof.
  intros Hperm. apply map_eq. intros k. rewrite lookup_mergeDocs.
  assert (patch = list_to_map order) as ->.
  { rewrite <-(list_to_map_to_list patch). apply list_to_map_proper; [|done]. apply NoDup_fst_map_to_list. }
  assert (NoDup order.*1) as Hnd by (rewrite Hperm; apply NoDup_fst_map_to_list). clear Hperm.
  revert doc. induction order as [|[k' v] order IH]; intros doc; simpl; [by rewrite lookup_empty|].
  apply NoDup_cons in Hnd as [Hnew Hnd]. rewrite (IH Hnd), lookup_mergeDocs_step. cbn [fst snd].
  case_bool_decide; subst; [|by rewrite lookup_insert_ne]. by rewrite lookup_insert_eq, not_elem_of_list_to_map_1.
Qed.

(** The size of a node, for induction *)
Fixpoint node_size (n : node) : nat :=
  match n with
  | NAry l => S (list_sum (map (λ o, match o with None => 0 | Some n => node_size n end) l))
  | NDoc d => S (map_fold (λ _ o acc, match o with None => 0 | Some n => node_size n end + acc) 0 d)
  | _ => 1
  end.

Lemma field_size d k n : d !! k = Some (Some n) → node_size n < node_size (NDoc d).
Proof.
  intros Hk. simpl. rewrite (map_fold_delete_L _ _ k (Some n) d); [lia| |done]. intros. lia.
Qed.

Lemma element_size l n : Some n ∈ l → node_size n < node_size (NAry l).
Proof.
  induction l as [|o l IH]; [by intros ?%not_elem_of_nil|].
  intros [<-|Hin]%elem_of_cons; simpl; [lia|]. specialize (IH Hin). simpl in IH. lia.
Qed.

Lemma node_tree_ind (P : node → Prop) :
  P NNil → (∀ b, P (NBool b)) → (∀ n, P (NNum n)) → (∀ s, P (NStr s)) →
  (∀ l, (∀ n, Some n ∈ l → P n) → P (NAry l)) →
  (∀ d, (∀ k n, d !! k = Some (Some n) → P n) → P (NDoc d)) → ∀ n, P n.
Proof.
  intros ? ? ? ? Hary Hdoc n. induction n as [n IH] using (well_founded_induction (well_founded_ltof _ node_size)).
  destruct n as [| | | |l|d]; [done..| |].
  - apply Hary. intros n Hin. apply IH. by apply element_size.
  - apply Hdoc. intros k n Hk. apply IH. by apply (field_size _ k).
Qed.

(** ** The merge patches of RFC 7396

    The function [MergePatch(Target, Patch)] of its section 2: what a target
    without the field becomes is [rfc7396 None]. *)
Fixpoint rfc7396 (target : option node) (patch : node) : node :=
  match patch with
  | NDoc patch =>
    NDoc (apply_edits (match target with Some (NDoc d) => d | _ => ∅ end) ((λ v : option node,
      match v with
      | None => λ _, None
      | Some v => λ cur, Some (Some (rfc7396 (default None cur) v))
      end) <$> patch))
  | _ => patch
  end.

(** No object has a null in it, however deep; and no object in an array of the
    node has one. *)
Fixpoint no_null_fields (n : node) : bool :=
  match n with
  | NDoc d => map_fold (λ _ o b, match o with None => false | Some n => no_null_fields n end && b) true d
  | NAry l => forallb (λ o, match o with None => true | Some n => no_null_fields n end) l
  | _ => true
  end.
Fixpoint arrays_kept (n : node) : bool :=
  match n with
  | NDoc d => map_fold (λ _ o b, match o with None => true | Some n => arrays_kept n end && b) true d
  | NAry l => no_null_fields n
  | _ => true
  end.

Lemma map_fold_all (f : option node → bool) (d : partialDoc) k o :
  map_fold (λ _ o b, f o && b) true d = true → d !! k = Some o → f o = true.
Proof.
  intros Hall Hk. rewrite (map_fold_delete_L _ _ k o d) in Hall; [by apply andb_true_iff in Hall as [? _]| |done].
  intros. by rewrite !andb_assoc, (andb_comm (f _)).
Qed.

Lemma pruneNulls_id n : no_null_fields n = true → pruneNulls n = n.
Proof.
  induction n as [| | | |l IH|d IH] using node_tree_ind; try done; simpl; intros Hn; f_equal.
  - rewrite forallb_forall in Hn. rewrite <-(map_id l) at 2. apply map_ext_in. intros [n|] Hin; [|done]. simpl. f_equal.
    apply IH; [by apply list_elem_of_In|]. by apply (Hn (Some n)).
  - apply map_eq. intros k. rewrite lookup_omap. destruct (d !! k) as [o|] eqn:Hk; [|done]. simpl.
    pose proof (map_fold_all _ _ _ _ Hn Hk) as Ho. destruct o as [n|]; [|done]. simpl. by rewrite (IH _ _ Hk Ho).
Qed.

Lemma prune_is_rfc n : arrays_kept n = true → pruneNulls n = rfc7396 None n.
Proof.
  induction n as [| | | |l IH|d IH] using node_tree_ind; try done.
  { simpl. intros Hn. by apply (pruneNulls_id (NAry l)). }
  simpl. intros Hn. f_equal. apply map_eq. intros k. rewrite lookup_omap, lookup_edits, lookup_fmap, lookup_empty.
  destruct (d !! k) as [[n|]|] eqn:Hk; [|done..]. simpl.
  by rewrite (IH _ _ Hk (map_fold_all _ _ _ _ Hn Hk)).
Qed.

Lemma rfc_no_target n cur : (match cur with NDoc _ => False | _ => True end) → rfc7396 (Some cur) n = rfc7396 None n.
Proof. by destruct n, cur. Qed.

Lemma merge_is_rfc n cur : arrays_kept n = true → merge_node cur n = rfc7396 (Some cur) n.
Proof.
  revert cur. induction n as [| | | |l IH|d IH] using node_tree_ind; intros cur Hn.
  1-5: destruct cur; try done; by rewrite rfc_no_target, <-prune_is_rfc by done.
  destruct cur as [| | | | |doc]; [by rewrite rfc_no_target, <-prune_is_rfc by done..|].
  rewrite merge_node_Doc. simpl. f_equal. apply map_eq. intros k. rewrite lookup_mergeDocs, lookup_edits, lookup_fmap.
  destruct (d !! k) as [[n|]|] eqn:Hk; [|done..]. simpl. pose proof (map_fold_all _ _ _ _ Hn Hk) as Hkept. simpl in Hkept.
  destruct (doc !! k) as [[cur|]|]; simpl; [by rewrite (IH _ _ Hk)|by rewrite prune_is_rfc..].
Qed.

(** The library merges patches as RFC 7396 says, but for two things: a
    patch that is neither an object nor an array is refused, and of the objects
    in an array of the patch, if they have nulls, those fields may be dropped;
    hence the condition. *)
Theorem MergePatch_is_rfc7396 doc patch :
  arrays_kept patch = true →
  MergePatch (Some doc) (Some patch) =
    match patch with
    | NDoc _ | NAry _ => inr (Some (rfc7396 (Some doc) patch))
    | _ => inl ErrBadJSONPatch
    end.
Proof.
  intros Hn. destruct patch as [| | | |l|patch]; try by destruct doc.
  - unfold MergePatch. rewrite (pruneNulls_id _ Hn). by destruct doc.
  - rewrite <-(merge_is_rfc _ doc Hn). by destruct doc.
Qed.

(** The nulls of objects in an array are dropped or kept. *)
Example arrays_differ :
  let patch := NDoc {["list" := Some (NAry [Some (NDoc {["a" := None]})])]} in
  MergePatch (Some (NDoc ∅)) (Some patch) = inr (Some (NDoc {["list" := Some (NAry [Some (NDoc ∅)])]})) ∧
  MergePatch (Some (NDoc {["list" := Some (NDoc ∅)]})) (Some patch) = inr (Some patch).
Proof. split; vm_compute; reflexivity. Qed.
