(* ===== verification/PatchTheorems.v ===== *)
(** What the patches of the reconciler come to, and that they are not sent
    again when the caches have seen them: a cancelled TaskRun is left alone,
    and the labels and annotations of a Run settle, unless it has no
    annotations at all. *)
From S2P Require Import Prelude GoStrings Types StepMerge Resolve RunTypes Cluster Reconciler ReconcilerSpec ReconcileKind ReconcilerExample ReconcilerTheorems FakeClient Patches.
From Stdlib Require Import Ascii.

(** ** What is read from a document *)

(** [json.Unmarshal] of [spec.status] of a TaskRun; an error is [None]. *)
Definition spec_status (d : partialDoc) : option string :=
  match d !! "spec" with
  | None | Some None => Some ""
  | Some (Some (NDoc spec)) =>
    match spec !! "status" with
    | None | Some None => Some ""
    | Some (Some (NStr s)) => Some s
    | _ => None
    end
  | _ => None
  end.

(** [json.Unmarshal] into a string and into a [map[string]string] *)
Definition text_of (v : option node) : option string :=
  match v with None => Some "" | Some (NStr s) => Some s | _ => None end.
Definition strings (d : partialDoc) : option (gmap string string) :=
  let m := omap text_of d in if bool_decide (dom m = dom d) then Some m else None.
Definition decode_map (o : option (option node)) : option gomap :=
  match o with
  | None | Some None => Some None
  | Some (Some (NDoc d)) => Some <$> strings d
  | _ => None
  end.

(** The metadata of an object, and its labels and annotations *)
Definition metadata_of (d : partialDoc) : option partialDoc :=
  match d !! "metadata" with
  | None | Some None => Some ∅
  | Some (Some (NDoc m)) => Some m
  | _ => None
  end.
Definition labels_annotations (d : partialDoc) : option (gomap * gomap) :=
  m ← metadata_of d;
  labels ← decode_map (m !! "labels");
  annotations ← decode_map (m !! "annotations");
  Some (labels, annotations).

(** What is left of a map that is stored: the fields of [ObjectMeta] are
    [omitempty]. *)
Definition omitempty (m : gomap) : gomap := if bool_decide (entries m = ∅) then None else m.

(** ** The cancellation *)
Section cancellation.
Context {MO : MapOrder} {CM : ContainerMerge} {CL : Cluster}.
Context (other_operation : Operation → container → outcome (fallible container)).

(** What the patch makes of a document *)
Definition apply_cancelPatch (d : partialDoc) : outcome (fallible (option node)) :=
  match DecodePatch cancelPatchBytes with
  | inl err => Returns (inl err)
  | inr p => Apply other_operation p (Some (NDoc d))
  end.

Definition missing_spec : error :=
  wrapError ("add operation does not apply: doc is missing path: " +:+ String "034" ("/spec/status" +:+ String "034" ": ")) ErrMissing.

(** It is added to what [spec] is. *)
Lemma apply_cancelPatch_eq d :
  apply_cancelPatch d =
    match d !! "spec" with
    | Some (Some next) =>
      match into next with
      | Panics => Panics
      | Returns None => Returns (inl missing_spec)
      | Returns (Some con) =>
        match add "status" (Some (NStr TaskRunSpecStatusCancelled)) con with
        | Panics => Panics
        | Returns (inl err) => Returns (inl (wrapError "error in add for path: '/spec/status': " err))
        | Returns (inr con) => Returns (inr (Some (NDoc (<["spec" := node_of con]> d))))
        end
      end
    | _ => Returns (inl missing_spec)
    end.
Proof.
  unfold apply_cancelPatch. set (op := {["value" := Some (NStr TaskRunSpecStatusCancelled); "op" := Some (NStr "add");
    "path" := Some (NStr "/spec/status")]} : Operation).
  change (DecodePatch cancelPatchBytes) with (inr [op] : fallible (list Operation)). cbn [Apply apply_operations].
  rewrite bool_decide_true by done. unfold Patch_add. change (Path op) with (Some "/spec/status").
  change (value op) with (Some (NStr TaskRunSpecStatusCancelled)). change (decodePatchKey "status") with "status". cbn -[lookup insert].
  change (decodePatchKey "spec") with "spec". destruct (d !! "spec") as [[n|]|]; simpl; [|done..].
  destruct n; simpl; try done.
Qed.

Lemma apply_cancelPatch_spec d spec :
  d !! "spec" = Some (Some (NDoc spec)) →
  apply_cancelPatch d =
    Returns (inr (Some (NDoc (<["spec" := Some (NDoc (<["status" := Some (NStr TaskRunSpecStatusCancelled)]> spec))]> d)))).
Proof. intros Hspec. by rewrite apply_cancelPatch_eq, Hspec. Qed.

(** C34: The patch that cancels a TaskRun can be applied to every object with a
    [spec]: it sets the status in it and leaves everything else, applying it
    again changes nothing, and of a TaskRun that is read from the result the
    reconciler asks nothing more. Where [spec] is missing or no object it
    is refused. *)
Theorem cancelPatch_cancels d :
  match d !! "spec" with
  | Some (Some (NDoc spec)) => ∃ d' spec',
      apply_cancelPatch d = Returns (inr (Some (NDoc d'))) ∧ d' !! "spec" = Some (Some (NDoc spec')) ∧
      (∀ k, k ≠ "spec" → d' !! k = d !! k) ∧ (∀ k, k ≠ "status" → spec' !! k = spec !! k) ∧
      apply_cancelPatch d' = Returns (inr (Some (NDoc d'))) ∧
      ∀ tr s, spec_status d' = Some (TaskRunSpec_Status (TaskRun_Spec tr)) →
        TaskRun_IsCancelled tr = true ∧ processTaskRun tr s = (None, s)
  | Some (Some NNil) => True
  | _ => ∃ err, apply_cancelPatch d = Returns (inl err)
  end.
Proof.
  destruct (d !! "spec") as [[n|]|] eqn:Hspec.
  2, 3: rewrite apply_cancelPatch_eq, Hspec; by eexists.
  destruct n as [| | | | |spec]; try done; try (rewrite apply_cancelPatch_eq, Hspec; by eexists).
  eexists _, _. split_and!.
  - by apply apply_cancelPatch_spec.
  - apply lookup_insert_eq.
  - intros k Hk. by apply lookup_insert_ne.
  - intros k Hk. by apply lookup_insert_ne.
  - rewrite (apply_cancelPatch_spec _ _ (lookup_insert_eq _ _ _)). by rewrite !insert_insert_eq.
  - intros tr s. unfold spec_status. rewrite !lookup_insert_eq. intros [= Hst].
    assert (TaskRun_IsCancelled tr = true) as Hc by (unfold TaskRun_IsCancelled; by rewrite <-Hst).
    split; [done|]. unfold processTaskRun, bind, get_run. cbn. by rewrite Hc, andb_false_r.
Qed.
End cancellation.

(** ** The labels and annotations *)
Lemma strings_spec d m : strings d = Some m ↔ ∀ k, text_of <$> d !! k = Some <$> m !! k.
Proof.
  unfold strings. split.
  - case_bool_decide as Hdom; [|done]. intros [= <-] k. rewrite lookup_omap. destruct (d !! k) as [v|] eqn:Hk; [|done]. simpl.
    assert (k ∈ dom (omap text_of d)) as [x Hx]%elem_of_dom by (rewrite Hdom; by eapply elem_of_dom_2).
    rewrite lookup_omap, Hk in Hx. simpl in Hx. by rewrite Hx.
  - intros H. assert (omap text_of d = m) as ->.
    { apply map_eq. intros k. specialize (H k). rewrite lookup_omap. destruct (d !! k), (m !! k); simpl in *; congruence. }
    rewrite bool_decide_true; [done|]. apply set_eq. intros k. rewrite !elem_of_dom. specialize (H k).
    destruct (d !! k), (m !! k); simpl in H; naive_solver.
Qed.

Lemma pruneNulls_Doc p : pruneNulls (NDoc p) = NDoc (mergeDocs ∅ p).
Proof.
  simpl. f_equal. apply map_eq. intros k. rewrite lookup_omap, lookup_mergeDocs, lookup_empty. by destruct (p !! k) as [[]|].
Qed.

(** A map of strings is merged into another one. *)
Lemma decode_merged cur x l :
  decode_map cur = Some l → decode_map (merge_field (marshal_map (Some x)) cur) = Some (Some (x ∪ entries l)).
Proof.
  assert (strings (mergeDocs ∅ (Some ∘ NStr <$> x)) = Some (x ∪ ∅)) as Hnew.
  { apply strings_spec. intros k. rewrite lookup_mergeDocs, lookup_fmap, lookup_union, lookup_empty. by destruct (x !! k). }
  unfold marshal_map. cbn [fmap option_fmap option_map merge_field]. intros Hl.
  destruct cur as [[n|]|]; simpl in Hl; [|injection Hl as <-; rewrite pruneNulls_Doc; cbn [decode_map]; by rewrite Hnew..].
  destruct n as [| | | | |d]; try done. destruct (strings d) as [m|] eqn:Hd; [|done]. injection Hl as <-.
  rewrite merge_node_Doc. cbn [decode_map]. apply fmap_Some. eexists. split; [|done]. apply strings_spec. intros k.
  pose proof (proj1 (strings_spec _ _) Hd k) as Hk. rewrite lookup_mergeDocs, lookup_fmap, lookup_union. simpl.
  destruct (x !! k); [by destruct (m !! k), (d !! k) as [[[]|]|]|]. cbn. rewrite Hk. by destruct (m !! k).
Qed.

(** The merge patch, on an object of which labels and annotations are read *)
Lemma mergePatch_spec d labels annotations l a :
  labels_annotations d = Some (l, a) →
  let d' := mergeDocs d (mergePatch (Some labels) (Some annotations)) in
  labels_annotations d' = Some (Some (labels ∪ entries l), Some (annotations ∪ entries a)) ∧
  (∀ k, k ≠ "metadata" → d' !! k = d !! k) ∧
  ∀ k, k ≠ "labels" → k ≠ "annotations" →
    (default ∅ (metadata_of d') !! k : option (option node)) = default ∅ (metadata_of d) !! k.
Proof.
  intros Hd d'. unfold labels_annotations in *.
  destruct (metadata_of d) as [m|] eqn:Hm; [|done]. simpl in Hd.
  destruct (decode_map (m !! "labels")) as [l'|] eqn:Hl; [|done]. simpl in Hd.
  destruct (decode_map (m !! "annotations")) as [a'|] eqn:Ha; [|done]. simpl in Hd. simplify_eq/=.
  set (p := {["labels" := marshal_map (Some labels); "annotations" := marshal_map (Some annotations)]} : partialDoc).
  assert (∀ k, k ≠ "metadata" → d' !! k = d !! k) as Hrest.
  { intros k Hk. unfold d', mergePatch. by rewrite lookup_mergeDocs, lookup_singleton_ne by done. }
  assert (metadata_of d' = Some (mergeDocs m p)) as Hm'.
  { unfold metadata_of, d', mergePatch in *. rewrite lookup_mergeDocs, lookup_singleton_eq. fold p.
    destruct (d !! "metadata") as [[[]|]|]; try done; injection Hm as <-; cbn [merge_field];
      by rewrite ?pruneNulls_Doc, ?merge_node_Doc. }
  rewrite Hm'. simpl. split_and!; [|done|].
  - rewrite !lookup_mergeDocs. unfold p. rewrite lookup_insert_eq, lookup_insert_ne, lookup_singleton_eq by done.
    by rewrite (decode_merged _ _ _ Hl), (decode_merged _ _ _ Ha).
  - intros k Hk1 Hk2. rewrite lookup_mergeDocs. unfold p. by rewrite lookup_insert_ne, lookup_singleton_ne by done.
Qed.

Section settle.
Context {MO : MapOrder} {CM : ContainerMerge} {CL : Cluster}.

(** What is propagated has all that the Run has. *)
Lemma propagated_absorbs r meta :
  let m := Run_ObjectMeta (propagateTaskGroupLabelsAndAnnotations r meta) in
  ∃ labels annotations,
    ObjectMeta_Labels m = Some labels ∧ ObjectMeta_Annotations m = Some annotations ∧ labels ≠ ∅ ∧
    labels ∪ entries (ObjectMeta_Labels (Run_ObjectMeta r)) = labels ∧
    annotations ∪ entries (ObjectMeta_Annotations (Run_ObjectMeta r)) = annotations.
Proof.
  eexists _, _. split_and!; [done..| | |].
  - apply insert_non_empty.
  - apply map_eq. intros k. rewrite lookup_union. destruct (decide (k = GroupName +:+ taskGroupLabelKey)) as [->|Hk].
    + rewrite lookup_insert_eq. by destruct (_ !! _).
    + rewrite lookup_insert_ne, lookup_union by done. by destruct (_ !! k), (_ !! k).
  - apply map_eq. intros k. rewrite !lookup_union. by destruct (_ !! k), (_ !! k).
Qed.

Lemma entries_omitempty m : entries (omitempty m) = entries m.
Proof. unfold omitempty. by case_bool_decide as He. Qed.

(** Propagating the metadata to a Run that has it does nothing but turn nil
    maps into empty ones. *)
Lemma propagated_again r r' meta :
  let m := Run_ObjectMeta (propagateTaskGroupLabelsAndAnnotations r meta) in
  let m' := Run_ObjectMeta (propagateTaskGroupLabelsAndAnnotations r' meta) in
  entries (ObjectMeta_Labels (Run_ObjectMeta r')) = entries (ObjectMeta_Labels m) →
  entries (ObjectMeta_Annotations (Run_ObjectMeta r')) = entries (ObjectMeta_Annotations m) →
  ObjectMeta_Labels m' = ObjectMeta_Labels m ∧ ObjectMeta_Annotations m' = ObjectMeta_Annotations m.
Proof.
  cbv zeta. cbn -[taskGroupLabelKey GroupName]. intros -> ->. split; f_equal; apply map_eq; intros k.
  - destruct (decide (k = GroupName +:+ taskGroupLabelKey)) as [->|Hk]; [by rewrite !lookup_insert_eq|].
    rewrite !lookup_insert_ne, !lookup_union, lookup_insert_ne, lookup_union by done. by destruct (_ !! k), (_ !! k).
  - rewrite !lookup_union. by destruct (_ !! k), (_ !! k).
Qed.

(** C33: The patch of a Run's metadata settles it. Applied to the object that the
    reconciler's copy [r] was read from, it stores the labels and annotations
    that were propagated and leaves everything else; and a reconciliation whose
    copy [r'] was read from the result patches it again exactly when there is
    no annotation, on the Run or the TaskGroup. *)
Theorem metadata_patch_settles d r meta :
  labels_annotations d = Some (ObjectMeta_Labels (Run_ObjectMeta r), ObjectMeta_Annotations (Run_ObjectMeta r)) →
  let m := Run_ObjectMeta (propagateTaskGroupLabelsAndAnnotations r meta) in
  ∃ d',
    MergePatch (Some (NDoc d)) (Some (NDoc (mergePatch (ObjectMeta_Labels m) (ObjectMeta_Annotations m)))) = inr (Some (NDoc d')) ∧
    labels_annotations d' = Some (ObjectMeta_Labels m, ObjectMeta_Annotations m) ∧
    (∀ k, k ≠ "metadata" → d' !! k = d !! k) ∧
    (∀ k, k ≠ "labels" → k ≠ "annotations" →
      (default ∅ (metadata_of d') !! k : option (option node)) = default ∅ (metadata_of d) !! k) ∧
    ∀ s r', run s = propagateTaskGroupLabelsAndAnnotations r' meta →
      Runs_lister_Get (tick s) (namespace (run s)) (ObjectMeta_Name (Run_ObjectMeta (run s))) = inr r' →
      ObjectMeta_Labels (Run_ObjectMeta r') = omitempty (ObjectMeta_Labels m) →
      ObjectMeta_Annotations (Run_ObjectMeta r') = omitempty (ObjectMeta_Annotations m) →
      trace (updateLabelsAndAnnotations s).2 = trace s ++
        (if bool_decide (entries (ObjectMeta_Annotations m) = ∅) then [patch_of (Run_ObjectMeta (run s))] else []).
Proof.
  intros Hd m. destruct (propagated_absorbs r meta) as (labels & annotations & Hl & Ha & Hne & Hls & Has). fold m in Hl, Ha.
  destruct (mergePatch_spec d labels annotations _ _ Hd) as (Hmaps & Hrest & Hmeta).
  eexists. rewrite Hl, Ha. split; [done|]. rewrite Hls, Has in Hmaps. split_and!; [done..|].
  intros s r' Hrun Hget Hl' Ha'. pose proof (updateLabelsAndAnnotations_spec s) as H. unfold wp in H. cbv zeta in H.
  unfold namespace in Hget. rewrite Hget in H.
  destruct (propagated_again r r' meta) as [Hl2 Ha2]; [by rewrite Hl', entries_omitempty, <-Hl|by rewrite Ha', entries_omitempty, <-Ha|].
  fold m in Hl2, Ha2. rewrite <-Hrun in Hl2, Ha2. unfold needs_patch in H. rewrite Hl2, Ha2, Hl', Ha', Hl, Ha in H. unfold omitempty in H.
  change (entries (Some labels)) with labels in H. change (entries (Some annotations)) with annotations in H |- *.
  rewrite (bool_decide_false (labels = ∅)) in H by done.
  rewrite (bool_decide_false (Some labels ≠ Some labels)) in H by (intros Hnot; by apply Hnot). cbn [orb] in H.
  destruct (decide (annotations = ∅)) as [He|He].
  - rewrite bool_decide_true by done. rewrite (bool_decide_true (annotations = ∅)), bool_decide_true in H by done.
    unfold patch_of. destruct H as (_ & _ & _ & ->). by rewrite Hl2, Ha2, Hl, Ha.
  - rewrite bool_decide_false by done. rewrite (bool_decide_false (annotations = ∅)), bool_decide_false in H by (done || intros Hnot; by apply Hnot).
    destruct H as (_ & _ & _ & ->). done.
Qed.
End settle.

(** ** Witnesses *)
Section witnesses.
#[local] Existing Instance canonical_order.
#[local] Existing Instance image_merge.

Definition no_others : Operation → container → outcome (fallible container) := λ op doc, Returns (inr doc).

(** A TaskRun with a spec, and a Run with labels and no annotations *)
Definition taskrun_document : partialDoc :=
  {["kind" := Some (NStr "TaskRun"); "spec" := Some (NDoc {["serviceAccountName" := Some (NStr "default"); "timeout" := None]})]}.
Definition run_document : partialDoc :=
  {["metadata" := Some (NDoc {["name" := Some (NStr "run"); "labels" := Some (NDoc {["team" := Some (NStr "a")]})]})]}.

Example cancelled_document :
  apply_cancelPatch no_others taskrun_document =
    Returns (inr (Some (NDoc (<["spec" := Some (NDoc {["serviceAccountName" := Some (NStr "default"); "timeout" := None;
      "status" := Some (NStr "TaskRunCancelled")]})]> taskrun_document)))).
Proof. vm_compute. reflexivity. Qed.

Lemma MergePatch_is_rfc7396_witness :
  MergePatch (Some (NDoc run_document)) (Some (NDoc (mergePatch None (Some {["a" := "b"]})))) =
    inr (Some (rfc7396 (Some (NDoc run_document)) (NDoc (mergePatch None (Some {["a" := "b"]}))))).
Proof. rewrite (MergePatch_is_rfc7396 (NDoc run_document)) by (vm_compute; reflexivity). reflexivity. Defined.

Definition labelled_run : Run :=
  set_Run_ObjectMeta (set_Labels_Annotations (Some {["team" := "a"]}) None (Run_ObjectMeta Sample.running_run)) Sample.running_run.

Lemma metadata_patch_settles_witness : ∃ d',
  let m := Run_ObjectMeta (propagateTaskGroupLabelsAndAnnotations labelled_run zero_ObjectMeta) in
  MergePatch (Some (NDoc run_document)) (Some (NDoc (mergePatch (ObjectMeta_Labels m) (ObjectMeta_Annotations m)))) = inr (Some (NDoc d')) ∧
  labels_annotations d' = Some (ObjectMeta_Labels m, ObjectMeta_Annotations m).
Proof.
  destruct (metadata_patch_settles (CL := Sample.stale) run_document labelled_run zero_ObjectMeta) as (d' & H1 & H2 & _);
    [vm_compute; reflexivity|]. exists d'. split; [exact H1|exact H2].
Defined.
End witnesses.
